(* ===== verification/_CoqProject ===== *)
-Q . S2P
Prelude.v
Serial.v
Lmdb.v
StakingTypes.v
Requests.v
Epochs.v
BlockStore.v
Liabilities.v
VotingPower.v
AccountInfo.v
Staking.v
StakingFunds.v
StakingSafety.v
StakingTheorems.v
Elections.v
EpochVoting.v
EpochRewards.v
Governance.v
GovernanceFrames.v
GovernanceRegistry.v
GovernanceEffects.v
GovernanceTheorems.v
GovernanceVotes.v
Reservations.v
EpochPersistence.v
TokenTypes.v
TokenRequests.v
TokenFormats.v
Ledger.v
ReceiveChain.v
Transfers.v
RequestValidation.v
TokenSupply.v
TokenEntries.v
TokenConservation.v
TokenBacking.v
TokenBlocks.v
TokenAuthority.v
TokenDefects.v
LogosTransfers.v
TokenStatus.v
ConsensusBlocks.v
BlockContainer.v
BlockCache.v
BlockSchedules.v
BlockCacheRuns.v
BlockWakeups.v
ConsensusMessages.v
Committee.v
BackupDelegate.v
RequestBackup.v
BackupSessions.v
Agreement.v
AgreementRuns.v
PrimaryDelegate.v
RequestQueue.v
Subsets.v
RequestManager.v
RequestRounds.v
Microblocks.v
MicroblockChain.v
EpochBlocks.v
EpochChain.v
EpochLinks.v
EpochFees.v
