(* ===== verification/Prelude.v ===== *)
(** * A verification library for logos-core

    logos-core is the node of the Logos network. Delegates agree on blocks of
    requests; the ledger applies the requests of a block, and from them follow
    who is staked to whom, how much voting power a representative has, who is a
    candidate, who is elected into the next set of delegates, what rewards
    are due, what every account holds of Logos and of every token, and who may
    change a token. Microblocks record how far the chains of request blocks have
    grown, an epoch block ends an epoch. This library models the ledger (the
    records and their formats, the tables of the store, the managers that update
    them, the validation and application of requests and of the three kinds of
    blocks), the cache in which blocks wait for validation and writing, and the
    agreement of the delegates on request blocks.

    ** Parts of the program and the files that model them

    Paths are relative to src/logos.

    - Prelude: results, the halting state monad in which everything below is
      written, its weakest preconditions and frames, machine integers
      (lib/trace.hpp, lib/numbers.cpp).
    - Serial: byte streams, lib/utility.hpp and lib/utility.cpp.
    - Lmdb: the database library as a class of operations [Lmdb] and its laws
      [LmdbLaws], with an instance over finite maps that the concrete runs use.
    - StakingTypes: the records of staking/*.hpp, account_info and the token
      entries of an account (common.hpp, token/entry.hpp).
    - Requests: the governance requests, their digests and formats
      (governance/requests.cpp, request/requests.cpp, request/utility.cpp).
    - Epochs: candidates, representatives, delegates, epoch blocks, tips and
      rewards records (elections/*.cpp, epoch/epoch.hpp, rewards/*.hpp,
      consensus/messages/tip.cpp).
    - BlockStore: the tables of block_store that the managers read and write,
      one definition per member function (blockstore.cpp).
    - Liabilities: staking/liability_manager.cpp.
    - VotingPower: staking/voting_power_manager.cpp.
    - AccountInfo: the balances of account_info (common.cpp).
    - Staking: staking/staking_manager.cpp; StakingFunds, StakingSafety and
      StakingTheorems hold its lemmas and theorems.
    - Elections: the order of delegates and the table of leading candidates
      (epoch/epoch_voting_manager.cpp IsGreater, blockstore.cpp candidate_put,
      update_leading_candidates, ...).
    - EpochVoting: epoch/epoch_voting_manager.cpp, the delegates of the next
      epoch.
    - EpochRewards: rewards/epoch_rewards_manager.cpp.
    - Governance: ValidateRequest and ApplyRequest for the governance requests
      (consensus/persistence/request/request_persistence.cpp);
      GovernanceFrames, GovernanceRegistry, GovernanceEffects,
      GovernanceTheorems and GovernanceVotes hold its lemmas and theorems.
    - Reservations: consensus/persistence/reservations.cpp.
    - EpochPersistence: the transition of the tables when an epoch block is
      applied (consensus/persistence/epoch/epoch_persistence.cpp).
    - TokenTypes: token/account.cpp, token/entry.cpp, token/common.hpp: settings,
      controllers, privileges, token accounts and entries, their formats.
    - TokenRequests: sends, the fourteen token requests and claims, with the
      checks a request makes of itself and against an account
      (request/requests.cpp, token/requests.cpp, token/common.cpp,
      rewards/claim.cpp). TokenFormats: their binary formats and those of
      accounts, with the round trips.
    - Ledger: the tables of accounts, token statuses, receives, requests and
      request blocks (blockstore.cpp) and PlaceReceive
      (consensus/persistence/persistence.cpp); ReceiveChain: the chain of
      receives of an account.
    - Transfers: ApplyRequest and ApplySend for every type of request, ProcessClaim
      (request_persistence.cpp).
    - RequestValidation: ValidateRequest, ValidateBatch, StoreRequestBlock and
      ApplyUpdates (request_persistence.cpp).
    - TokenSupply, TokenEntries, TokenConservation, TokenBacking, TokenBlocks:
      the conservation of tokens, from one account up to a request block;
      TokenAuthority: who changes a token account; TokenStatus: freezing and
      whitelisting; LogosTransfers: the conservation of Logos by a Send;
      TokenDefects: requests that validation accepts and should not.
    - ConsensusBlocks: the three kinds of blocks and their digests
      (consensus/messages/messages.hpp, microblock/microblock.hpp, epoch/epoch.hpp).
    - BlockContainer: the pending blocks and their dependencies
      (consensus/persistence/block_container.cpp). BlockCache: the cache of blocks
      and the write queue (block_cache.cpp, block_write_queue.cpp) as threads that
      take steps; the persistence managers are the class [BlockHandlers].
      BlockSchedules: runs given by a schedule; BlockCacheRuns and BlockWakeups:
      what holds in every run.
    - ConsensusMessages: the messages of the consensus and the formats of blocks
      (consensus/messages). Committee: weights, quorums, keys and signatures
      (consensus/primary_delegate.cpp, delegate_key_store.cpp,
      message_validator.hpp, persistence/validator_builder.cpp); the BLS library
      is the class [Bls].
    - BackupDelegate: consensus/backup_delegate.cpp, with its virtual methods as
      the class [Derived]; RequestBackup: request/request_backup_delegate.cpp, with
      the validation of requests as the class [RequestValidator], of which the
      persistence manager of RequestValidation is an instance. BackupSessions: what
      the handlers do in a session; Agreement: many delegates on an unreliable
      network; AgreementRuns: concrete runs.
    - PrimaryDelegate: consensus/primary_delegate.cpp, with its virtual methods as
      the classes [PrimaryHooks] and [PrimaryRounds]; RequestQueue:
      consensus/message_handler.cpp and request/request_internal_queue.cpp; Subsets:
      request/generate_subsets.ipp; RequestManager: consensus_manager.cpp and
      request/request_consensus_manager.cpp, which implement the hooks; RequestRounds:
      the theorems on a round.
    - Microblocks: consensus/persistence/microblock/microblock_persistence.cpp and
      microblock/microblock_handler.cpp; MicroblockChain: the theorems.
    - EpochBlocks: the validation and application of epoch blocks
      (consensus/persistence/epoch/epoch_persistence.cpp) and epoch/epoch_handler.cpp;
      EpochChain, EpochLinks and EpochFees: the theorems on what is accepted, on the
      links between the chains of two epochs, and on the fees of the delegates.

    ** How they interact

    ValidateBatch checks the requests of a proposed block against the ledger and
    reserves their accounts; ApplyUpdates stores a confirmed block and applies
    its requests in order: ApplyRequest of Transfers takes the fee, moves Logos
    and tokens between accounts and places the receives, and gives governance
    requests to ApplyRequest of Governance. That one stores the request, updates
    the record of the representative and of the candidate, calls
    StakingManager::Stake,
    which calls the liability and voting power managers and changes the
    balance of the account, counts the votes of an ElectionVote with the power
    the voting power manager reports, and registers the stake with the rewards
    manager. EpochVotingManager reads the leading candidates to compute the
    delegates of the next epoch; when the epoch block is applied,
    TransitionNextEpoch prepares the tables for the next election. The managers
    share one [Store], which is a part of the [Ledger]; that and the cache of
    reservations are the [Manager] of request blocks. The [Ledger] with the tables of
    microblocks is the [Archive] of microblocks and epoch blocks. An operation that
    changes a parameter passed by reference returns it.

    A delegate proposes batches of the requests in its queue (RequestManager over
    PrimaryDelegate); the others judge them with ValidateBatch and answer
    (RequestBackup over BackupDelegate); a proposal that a quorum prepared and
    committed is a block, which every delegate stores. Blocks from the consensus,
    from bootstrap and from peers go through BlockCache to the writer, which calls
    ApplyUpdates of the persistence manager for their kind.

    ** What the theorems show

    - Staking: a stake sets exactly what was asked for, whatever branch is
      taken; the balance of an account is at all times what is available,
      staked and thawing; pruning returns what it announces; validation stays
      within the balance; a first stake completes.
    - Liabilities: the tables stay consistent and an account has at most one
      target of secondary liabilities at a time.
    - Voting power: the record refines a ledger of updates, does not depend on
      the order in which nodes apply them, and a late vote still has the power
      of its own epoch.
    - Elections: the leading candidates are the best eight of all, the votes of
      an epoch are all counted, the winners are seated; the redistribution of
      votes and stakes respects its cap.
    - Governance: the registry of representatives, candidates and requests
      stays well formed, so that validation never halts; a representative votes
      once per epoch; a validated vote is applied and counted.
    - Rewards: the global stake is the sum of the stakes registered; harvests
      pay exactly what they take.
    - Epochs: the transition to an epoch leaves the tables in the state in which
      an election starts, and removes exactly what was marked.
    - Reservations: a reserved account admits no other request until it is
      released or the reservation expires, and reserving never halts.
    - Tokens: a block that validation accepts leaves every token backed, that is,
      what is held, undistributed and collected as fees is the total supply; only
      controllers with the privilege for it change a token account; an immutable
      setting never changes again; a user has one status per token, by which
      transfers to it are decided.
    - Logos: a Send takes from its origin what the others receive and the fee.
    - Receives: a receive in order extends the chain of its account.
    - Block cache: in every interleaving of its threads a block is admitted at most
      once, is written only after its predecessor (or when the consensus has
      confirmed it), is validated by one thread at a time, and is woken when what
      it waits for is written, unless that happens in the one gap the code leaves.
    - Agreement: no two correct delegates store different blocks of a proposer with
      the same sequence number; a session in which everybody does their part ends
      with the block stored; the proposer's approval carries signatures of a quorum
      that every backup accepts. Two quorums share more than the faults the
      protocol means to tolerate only for totals of the form 3 f + 1, and a run
      with 32 equal delegates, 10 of them faulty, ends in a fork.
    - Proposals: a round proposes the earliest requests that are due and valid and
      keeps the others; the parts of a rejected batch that are proposed again
      consist of requests that enough delegates accept.
    - Microblocks and epoch blocks: what the handlers build the validation accepts;
      an accepted microblock extends the doubly linked chain of microblocks; the
      request chains of two epochs are joined, whichever is stored first, the epoch
      block or the first block of the new epoch; the fees of an epoch are paid to
      the delegates to the last fraction. A delegate that was idle for an epoch
      makes every epoch block unacceptable, and a proposer may choose the reward.
    - Formats: records, requests, messages and blocks read back as written, and the
      digest of a governance request determines its type, origin, epoch and
      predecessor.
    - Where the code does not do what it means to, a theorem exhibits the state
      in which it goes wrong (lost thawing funds, doubly counted expired funds,
      overflow of the redistribution, a read past the array of delegates,
      transfers that destroy or create tokens, ...).

    ** Conventions, bounds and fuel

    trace_and_halt and a failing assert are [Halt], with the name of the
    function. Where the source's behaviour is undefined (a read past an array)
    the model halts as well. Amounts are 128-bit and epochs 32-bit integers
    that wrap; theorems that need no overflow say so. The thawing table is kept
    in the byte order of its records, which agrees with the order of
    expirations only within a block of 256 epochs: the theorems on thawing
    funds fix such a block, and a counterexample crosses its border. The walk
    over epoch blocks has as fuel the number of stored blocks plus one: a chain
    of distinct stored blocks is no longer. Redistribute has as fuel the number
    of delegates, one of which is capped in every round. The walk over a chain
    of receives has the number of stored receives plus one, the walk over the
    governance chain of a claim the number of stored requests. A traversal of a
    table visits the records present when it starts. The iterators over request
    blocks that microblocks and epoch blocks use have their fuel as an argument; the
    theorems say that there is an amount from which on the result does not change
    and is as stated. The search of ValidatorBuilder for the keys of an epoch has
    the number of stored epoch blocks plus one, the grouping of GenerateSubsets the
    number of groups, which is enough because a group is finished in every round.

    Steps: a thread of the block cache takes one step for what it does under a
    mutex, and one for an access to the database. A handler of a delegate is one
    step, because the sink of messages runs them one at a time; what it does to
    other components is recorded in a list of outputs, the last first. In the
    agreement the network may lose, delay, repeat and invent messages, the faulty
    delegates, of which the proposer is one, sign what they like; assumed are that
    signatures of correct delegates are not forged and that the confirmed blocks a
    delegate gets from its peers are certified.

    Tables hold records, not bytes: that a record reads back as it was written
    is what the round trips of the formats show. The table of requests is split
    into that of governance requests and the rest. A local [bool] that no
    statement has assigned is the parameter [Indeterminate]. Rationals are exact,
    where the code keeps numerators and denominators in 256-bit integers.

    Parameters: the database ([Lmdb] with [LmdbLaws]: a map, and for duplicate
    keys a sorted set of values) and Blake2b ([Blake2b], collision free where a
    theorem needs it), and the BLS library ([Bls]). EpochVotingManager::
    ENABLE_ELECTIONS, the current epoch, the clock and the verification of the
    signatures of requests are arguments.

    ** Not modelled

    The managers and backups of microblock and epoch consensus, beyond what they
    share with those of request blocks; the container that switches between the
    managers of two epochs, the archiver and its timers, and the lengths of timers:
    they schedule the operations modelled here. The network, peer-to-peer,
    bootstrap, RPC, wallet and node layers, which are input and output; vendored
    libraries (ed25519-donna, blake2, gtest, ...). PersistenceManager<R>::Validate of
    a whole request block and the instances of [BlockHandlers] it would complete. The
    JSON forms of requests and records, the verification of signatures of requests,
    and logging are left out. *)

From stdpp Require Import base list numbers strings ssreflect.

Open Scope Z_scope.

(** ** Results and the halting state monad

    The node stops with [trace_and_halt] (lib/trace.hpp) when it meets a state
    it regards as impossible; the open LMDB transaction is then never committed.
    A computation is a function of the store that either returns a value and
    the new store or halts, with the name of the function that halted. *)

Inductive result (A : Type) : Type :=
| Ok (a : A)
| Halt (why : string).
Arguments Ok {A} a.
Arguments Halt {A} why.

Definition M (S A : Type) : Type := S -> result (A * S).

#[global] Instance M_ret {S} : MRet (M S) := fun A a s => Ok (a, s).
#[global] Instance M_bind {S} : MBind (M S) := fun A B f m s =>
  match m s with
  | Ok (a, s') => f a s'
  | Halt why => Halt why
  end.

(** [trace_and_halt()] and a failing [assert]. *)
Definition halt {S A} (why : string) : M S A := fun _ => Halt why.
Definition gets {S A} (f : S -> A) : M S A := fun s => Ok (f s, s).
Definition modify {S} (f : S -> S) : M S unit := fun s => Ok (tt, f s).
Definition massert {S} (b : bool) (why : string) : M S unit :=
  if b then mret tt else halt why.

(** The store after a successful run, the value it returned. *)
Definition state_after {S A} (m : M S A) (s : S) : S :=
  match m s with Ok (_, s') => s' | Halt _ => s end.
Definition value_of {S A} (m : M S A) (s : S) : option A :=
  match m s with Ok (a, _) => Some a | Halt _ => None end.

Lemma run_value {S A} (m : M S A) s a :
  value_of m s = Some a -> m s = Ok (a, state_after m s).
Proof. rw /value_of /state_after. by destruct (m s) as [[]|]; intros [= ->]. Qed.

(** A loop over the records a cursor visits: [f] is the callback, its boolean
    says whether the traversal goes on. *)
Fixpoint iterate {S X A} (f : A -> X -> M S (A * bool)) (a : A) (xs : list X)
  : M S A :=
  match xs with
  | [] => mret a
  | x :: xs' =>
      r ← f a x;
      if (r.2 : bool) then iterate f r.1 xs' else mret r.1
  end.

(** ** Reasoning about the monad

    [wpg H m Q s]: from [s], [m] returns in a state satisfying [Q]; when it
    halts instead, [H] must hold. [wp] is total correctness, [wlp] partial. *)
Definition wpg {S A} (H : Prop) (m : M S A) (Q : A -> S -> Prop) (s : S) : Prop :=
  match m s with
  | Ok (a, s') => Q a s'
  | Halt _ => H
  end.
Abbreviation wp := (wpg False).
Abbreviation wlp := (wpg True).

Section MonadLaws.
Context {S : Type} (H : Prop).

Lemma wpg_bind {A B} (m : M S A) (f : A -> M S B) Q s :
  wpg H m (fun a s' => wpg H (f a) Q s') s -> wpg H (m ≫= f) Q s.
Proof. rw /wpg /mbind /M_bind. by destruct (m s) as [[]|]. Qed.

Lemma wpg_bind_inv {A B} (m : M S A) (f : A -> M S B) Q s :
  wpg H (m ≫= f) Q s -> wpg H m (fun a s' => wpg H (f a) Q s') s.
Proof. rw /wpg /mbind /M_bind. by destruct (m s) as [[]|]. Qed.

Lemma wpg_ret {A} (a : A) (Q : A -> S -> Prop) s : Q a s -> wpg H (mret a) Q s.
Proof. done. Qed.

Lemma wpg_gets {A} (f : S -> A) (Q : A -> S -> Prop) s :
  Q (f s) s -> wpg H (gets f) Q s.
Proof. done. Qed.

Lemma wpg_modify (f : S -> S) (Q : unit -> S -> Prop) s :
  Q tt (f s) -> wpg H (modify f) Q s.
Proof. done. Qed.

Lemma wpg_halt {A} why (Q : A -> S -> Prop) s : H -> wpg H (halt why) Q s.
Proof. done. Qed.

Lemma wpg_massert b why (Q : unit -> S -> Prop) s :
  (b = true -> Q tt s) -> (b = false -> H) -> wpg H (massert b why) Q s.
Proof. destruct b; cbn; auto. Qed.

Lemma wpg_mono {A} (m : M S A) (Q Q' : A -> S -> Prop) s :
  wpg H m Q s -> (forall a s', Q a s' -> Q' a s') -> wpg H m Q' s.
Proof. rw /wpg. destruct (m s) as [[]|]; auto. Qed.

Lemma wpg_conj {A} (m : M S A) (Q Q' : A -> S -> Prop) s :
  wpg H m Q s -> wlp m Q' s -> wpg H m (fun a s' => Q a s' /\ Q' a s') s.
Proof. rw /wpg. destruct (m s) as [[]|]; auto. Qed.

(** The invariant rule of a cursor traversal: [I a done] after the callback
    has been run on the records [done]; a traversal may stop early. *)
Lemma wpg_iterate {X A} (f : A -> X -> M S (A * bool)) (I : A -> list X -> S -> Prop)
    (Q : A -> S -> Prop) xs : forall a done s,
  I a done s ->
  (forall a x todo done' s, done ++ xs = done' ++ x :: todo -> I a done' s ->
     wpg H (f a x) (fun r s' =>
       if (r.2 : bool) then I r.1 (done' ++ [x]) s' else Q r.1 s') s) ->
  (forall a s, I a (done ++ xs) s -> Q a s) ->
  wpg H (iterate f a xs) Q s.
Proof.
  induction xs as [|x xs IH]; intros a done s HI Hstep Hend; cbn [iterate].
  { apply wpg_ret, Hend. by rw app_nil_r. }
  apply wpg_bind. eapply wpg_mono; [by eapply Hstep|].
  intros [a' [|]] s' HI'; [|by apply wpg_ret].
  eapply (IH _ (done ++ [x])); [done| |]; rw -app_assoc /=; auto.
Qed.
End MonadLaws.

(** Running a successful computation. *)
Lemma bind_ok {S A B} (m : M S A) (f : A -> M S B) s b s'' :
  (m ≫= f) s = Ok (b, s'') <->
  exists a s', m s = Ok (a, s') /\ f a s' = Ok (b, s'').
Proof.
  rw /mbind /M_bind. destruct (m s) as [[a s']|] eqn:E; split.
  - eauto.
  - by intros (? & ? & [= -> ->] & ?).
  - done.
  - by intros (? & ? & ? & ?).
Qed.

Lemma wlp_ok {S A} (m : M S A) (Q : A -> S -> Prop) s a s' :
  wlp m Q s -> m s = Ok (a, s') -> Q a s'.
Proof. intros HQ Hr. move: HQ. by rw /wpg Hr. Qed.

Lemma wpg_ok {S A} (H : Prop) (m : M S A) (Q : A -> S -> Prop) s a s' :
  wpg H m Q s -> m s = Ok (a, s') -> Q a s'.
Proof. intros HQ Hr. move: HQ. by rw /wpg Hr. Qed.

Lemma wp_ok {S A} (m : M S A) (Q : A -> S -> Prop) s :
  wp m Q s <-> exists a s', m s = Ok (a, s') /\ Q a s'.
Proof.
  rw /wpg. destruct (m s) as [[a s']|]; split; [by eauto| |done|].
  - by intros (? & ? & [= <- <-] & ?).
  - by intros (? & ? & ? & ?).
Qed.

(** ** Frames

    [preserves R m]: every successful run of [m] relates its initial and final
    stores by [R]. For a preorder [R] the property is closed under the monad,
    and the [frame] hint database collects the lemmas of the operations. *)
Definition preserves {S A} (R : relation S) (m : M S A) : Prop :=
  forall s, wlp m (fun _ s' => R s s') s.

Create HintDb frame.

Section Frames.
Context {S : Type} (R : relation S) `{!PreOrder R}.

Lemma preserves_ret {A} (a : A) : preserves R (mret (M := M S) a).
Proof. intros s. apply wpg_ret. reflexivity. Qed.
Lemma preserves_halt {A} why : preserves R (halt (S := S) (A := A) why).
Proof. by intros s. Qed.
Lemma preserves_gets {A} (f : S -> A) : preserves R (gets f).
Proof. intros s. apply wpg_gets. reflexivity. Qed.
Lemma preserves_massert b why : preserves R (massert (S := S) b why).
Proof. intros s. apply wpg_massert; by intros. Qed.
Lemma preserves_bind {A B} (m : M S A) (f : A -> M S B) :
  preserves R m -> (forall a, preserves R (f a)) -> preserves R (m ≫= f).
Proof.
  intros Hm Hf s. apply wpg_bind. eapply wpg_mono; [apply Hm|].
  intros a s' HR. eapply wpg_mono; [apply Hf|]. intros ? s'' ?. by transitivity s'.
Qed.
Lemma preserves_iterate {X A} (f : A -> X -> M S (A * bool)) a xs :
  (forall a x, preserves R (f a x)) -> preserves R (iterate f a xs).
Proof.
  intros Hf. revert a. induction xs as [|x xs IH]; intros a; cbn [iterate].
  - apply preserves_ret.
  - apply preserves_bind; [done|]. intros [a' []]; cbn; [apply IH|apply preserves_ret].
Qed.
Lemma preserves_modify (f : S -> S) :
  (forall s, R s (f s)) -> preserves R (modify f).
Proof. intros ? s. by apply wpg_modify. Qed.
End Frames.

Lemma preserves_ok {S A} (R : relation S) (m : M S A) s a s' :
  preserves R m -> m s = Ok (a, s') -> R s s'.
Proof. intros Hm Hr. by apply (wlp_ok _ _ _ _ _ (Hm s) Hr). Qed.

Lemma wpg_frame {S A} (H : Prop) (R : relation S) (m : M S A) (Q : A -> S -> Prop) s :
  preserves R m -> wpg H m Q s -> wpg H m (fun a s' => Q a s' /\ R s s') s.
Proof. intros Hm HQ. apply wpg_conj; [done|apply Hm]. Qed.

(** Walks through a computation, splitting its conditionals and matches. *)
Ltac frame_step :=
  first
    [ solve [eauto 1 with frame nocore]
    | lazymatch goal with
      | |- preserves _ (mret _) => apply preserves_ret; apply _
      | |- preserves _ (halt _) => apply preserves_halt
      | |- preserves _ (gets _) => apply preserves_gets; apply _
      | |- preserves _ (massert _ _) => apply preserves_massert; apply _
      | |- preserves _ (_ ≫= _) => apply preserves_bind; [apply _| |intros ?]
      | |- preserves _ (iterate _ _ _) => apply preserves_iterate; [apply _|intros ? ?]
      | |- preserves _ (modify _) => apply preserves_modify; intros []; done
      | |- preserves _ _ => case_match
      end ].
Ltac solve_frame := repeat frame_step.

(** Steps a [wpg] goal through the basic operations. *)
Ltac wp_step :=
  lazymatch goal with
  | |- wpg _ (_ ≫= _) _ _ => apply wpg_bind
  | |- wpg _ (mret _) _ _ => apply wpg_ret
  | |- wpg _ (gets _) _ _ => apply wpg_gets
  | |- wpg _ (modify _) _ _ => apply wpg_modify
  | |- wpg _ (halt _) _ _ => apply wpg_halt; try done
  end.
Ltac wp_steps := repeat (wp_step; cbn beta).

(** Runs the model: both sides of an equation are evaluated by the kernel. *)
Ltac by_run :=
  lazymatch goal with
  | |- ?m ?s = Ok (?a, _) => refine (run_value m s a _); by_run
  | |- ?x = ?y => vm_cast_no_check (@eq_refl _ y)
  end.

(** ** Machine integers

    [uint32_t] epochs and [uint128_t] amounts (boost's unchecked fixed-width
    integers) wrap around. *)
Definition wrap (w : Z) (z : Z) : Z := z mod 2 ^ w.
Definition u32 : Z -> Z := wrap 32.
Definition u128 : Z -> Z := wrap 128.
Definition in_width (w : Z) (z : Z) : Prop := 0 <= z < 2 ^ w.
Definition max_uint32 : Z := 2 ^ 32 - 1.

Lemma wrap_in_width w z : 0 <= w -> in_width w (wrap w z).
Proof. intros. apply Z.mod_pos_bound. by apply Z.pow_pos_nonneg. Qed.
Lemma wrap_id w z : in_width w z -> wrap w z = z.
Proof. apply Z.mod_small. Qed.

(** logos::uint128_union: operator+, operator- and the comparisons. *)
Definition Amount : Type := Z.
Definition amt_add (a b : Amount) : Amount := u128 (a + b).
Definition amt_sub (a b : Amount) : Amount := u128 (a - b).

Lemma amt_add_small a b : 0 <= a + b < 2 ^ 128 -> amt_add a b = a + b.
Proof. apply wrap_id. Qed.
Lemma amt_sub_small a b : 0 <= a - b < 2 ^ 128 -> amt_sub a b = a - b.
Proof. apply wrap_id. Qed.
Lemma amt_add_width a b : in_width 128 (amt_add a b).
Proof. by apply wrap_in_width. Qed.
Lemma amt_sub_width a b : in_width 128 (amt_sub a b).
Proof. by apply wrap_in_width. Qed.
#[export] Hint Resolve amt_add_width amt_sub_width : core.

Lemma u32_id z : in_width 32 z -> u32 z = z.
Proof. apply wrap_id. Qed.

(** ** Sums over lists *)
Definition sumZ {A} (f : A -> Z) (xs : list A) : Z := foldr (fun x n => f x + n) 0 xs.

Lemma sumZ_cons {A} (f : A -> Z) x xs : sumZ f (x :: xs) = f x + sumZ f xs.
Proof. done. Qed.
Lemma sumZ_app {A} (f : A -> Z) xs ys : sumZ f (xs ++ ys) = sumZ f xs + sumZ f ys.
Proof. induction xs as [|x xs IH]; rw /= ?sumZ_cons; [done|lia]. Qed.
Lemma sumZ_perm {A} (f : A -> Z) xs ys : xs ≡ₚ ys -> sumZ f xs = sumZ f ys.
Proof. induction 1; rw /= ?sumZ_cons; lia. Qed.
Lemma sumZ_nonneg {A} (f : A -> Z) xs :
  Forall (fun x => 0 <= f x) xs -> 0 <= sumZ f xs.
Proof. induction 1; rw /= ?sumZ_cons; lia. Qed.
Lemma sumZ_le {A} (g h : A -> Z) xs : (forall x, x ∈ xs -> g x <= h x) -> sumZ g xs <= sumZ h xs.
Proof.
  induction xs as [|x xs IH]; [done|]. intros Hx. rw !sumZ_cons.
  pose proof (Hx x (list_elem_of_here _ _)). enough (sumZ g xs <= sumZ h xs) by lia.
  apply IH. intros y Hy. apply Hx. by right.
Qed.
Lemma sumZ_fmap {A C} (g : A -> C) (h : C -> Z) xs : sumZ h (g <$> xs) = sumZ (fun x => h (g x)) xs.
Proof. induction xs as [|x xs IH]; [done|]. by rw fmap_cons !sumZ_cons IH. Qed.
Lemma sumZ_ext {A} (g h : A -> Z) xs : (forall x, x ∈ xs -> g x = h x) -> sumZ g xs = sumZ h xs.
Proof.
  intros Hgh. apply Z.le_antisymm; apply sumZ_le; intros x Hx; by rw Hgh.
Qed.
#[global] Instance sumZ_proper {A} (f : A -> Z) : Proper ((≡ₚ) ==> (=)) (sumZ f).
Proof. intros xs ys. apply sumZ_perm. Qed.

Lemma filter_all {A} (P : A -> Prop) `{!forall x, Decision (P x)} xs :
  Forall P xs -> filter P xs = xs.
Proof. induction 1; rw ?filter_nil ?filter_cons_True //. by f_equal. Qed.

Lemma NoDup_fmap_filter {A B} (f : A -> B) (P : A -> Prop) `{!forall x, Decision (P x)} xs :
  NoDup (f <$> xs) -> NoDup (f <$> filter P xs).
Proof.
  induction xs as [|x xs IH]; [done|]. rw fmap_cons NoDup_cons => -[Hx Hxs].
  rw filter_cons. case_decide; [|auto]. rw fmap_cons NoDup_cons. split; [|auto].
  intros (y & Hy & [_ Hin]%list_elem_of_filter)%list_elem_of_fmap. apply Hx. rw Hy.
  by apply list_elem_of_fmap_2.
Qed.
