(* ===== verification/Serial.v ===== *)
(** * Byte streams (lib/utility.hpp, lib/utility.cpp, lib/numbers.cpp)

    [logos::write] copies the object representation of a plain integer, which
    on the supported (little-endian) platforms is its little-endian bytes;
    uint128_union and uint256_union keep their bytes most significant first.
    A byte is a [Z] in [0, 256); a stream is the list of the bytes still to be
    read, and a read that finds too few bytes reports an error. *)
From stdpp Require Import base list numbers option ssreflect.
From S2P Require Import Prelude.
Open Scope Z_scope.

Definition byte_ok (b : Z) : Prop := 0 <= b < 256.

(** The [n] bytes of [z], least significant first. *)
Fixpoint le_bytes (n : nat) (z : Z) : list Z :=
  match n with
  | O => []
  | S n => z mod 256 :: le_bytes n (z / 256)
  end.

Fixpoint le_val (bs : list Z) : Z :=
  match bs with
  | [] => 0
  | b :: bs => b + 256 * le_val bs
  end.

(** uint128_union and uint256_union: the constructor from a number fills the
    array from its end, [number()] folds it from its start. *)
Definition be_bytes (n : nat) (z : Z) : list Z := reverse (le_bytes n z).
Definition be_val (bs : list Z) : Z := le_val (reverse bs).

(** Reading [n] bytes off a stream ([sgetn]); [None] is the error [true]. *)
Definition read_bytes (n : nat) (bs : list Z) : option (list Z * list Z) :=
  if (n <=? length bs)%nat then Some (take n bs, drop n bs) else None.

Definition write_u8 (z : Z) : list Z := le_bytes 1 z.
Definition write_u16 (z : Z) : list Z := le_bytes 2 z.
Definition write_u32 (z : Z) : list Z := le_bytes 4 z.
Definition write_u64 (z : Z) : list Z := le_bytes 8 z.
Definition write_bool (b : bool) : list Z := [if b then 1 else 0].
Definition write_u128 (z : Z) : list Z := be_bytes 16 z.
Definition write_u256 (z : Z) : list Z := be_bytes 32 z.
Definition write_u512 (z : Z) : list Z := be_bytes 64 z.
(** ByteArray: the bytes themselves. *)
Definition write_array (bs : list Z) : list Z := bs.
(** write(std::string const &): a length byte, then the characters. *)
Definition write_string (cs : list Z) : list Z := write_u8 (Z.of_nat (length cs)) ++ cs.

Definition read_u8 (bs : list Z) : option (Z * list Z) :=
  r ← read_bytes 1 bs; Some (le_val r.1, r.2).
Definition read_u16 (bs : list Z) : option (Z * list Z) :=
  r ← read_bytes 2 bs; Some (le_val r.1, r.2).
Definition read_u32 (bs : list Z) : option (Z * list Z) :=
  r ← read_bytes 4 bs; Some (le_val r.1, r.2).
Definition read_u64 (bs : list Z) : option (Z * list Z) :=
  r ← read_bytes 8 bs; Some (le_val r.1, r.2).
Definition read_bool (bs : list Z) : option (bool * list Z) :=
  r ← read_bytes 1 bs; Some (negb (le_val r.1 =? 0), r.2).
Definition read_u128 (bs : list Z) : option (Z * list Z) :=
  r ← read_bytes 16 bs; Some (be_val r.1, r.2).
Definition read_u256 (bs : list Z) : option (Z * list Z) :=
  r ← read_bytes 32 bs; Some (be_val r.1, r.2).
Definition read_u512 (bs : list Z) : option (Z * list Z) :=
  r ← read_bytes 64 bs; Some (be_val r.1, r.2).
Definition read_array (n : nat) (bs : list Z) : option (list Z * list Z) := read_bytes n bs.
Definition read_string (bs : list Z) : option (list Z * list Z) :=
  len ← read_u8 bs; read_bytes (Z.to_nat len.1) len.2.

(** LMDB compares byte strings like [memcmp], a proper prefix first. *)
Fixpoint lex_cmp (xs ys : list Z) : comparison :=
  match xs, ys with
  | [], [] => Eq
  | [], _ => Lt
  | _, [] => Gt
  | x :: xs, y :: ys => match x ?= y with Eq => lex_cmp xs ys | c => c end
  end.

(** A type of records stored in the database: its serialization and the
    well-formedness (field widths) under which reading back is exact. *)
Class Serial (V : Type) := {
  to_bytes : V -> list Z;
  of_bytes : list Z -> option (V * list Z);
  serial_wf : V -> Prop;
  serial_roundtrip v rest :
    serial_wf v -> of_bytes (to_bytes v ++ rest) = Some (v, rest);
}.

Lemma length_le_bytes n z : length (le_bytes n z) = n.
Proof. revert z. induction n; intros; cbn; auto. Qed.
Lemma length_be_bytes n z : length (be_bytes n z) = n.
Proof. by rw /be_bytes length_reverse length_le_bytes. Qed.

Lemma le_bytes_ok n z : Forall byte_ok (le_bytes n z).
Proof.
  revert z. induction n; intros z; cbn; constructor; [|done].
  apply Z.mod_pos_bound. lia.
Qed.

Lemma le_val_bytes n z : le_val (le_bytes n z) = z mod 256 ^ Z.of_nat n.
Proof.
  revert z. induction n as [|n IH]; intros z.
  { by rw /= Z.mod_1_r. }
  cbn [le_bytes le_val]. rw IH Nat2Z.inj_succ Z.pow_succ_r; [|lia].
  symmetry. apply Z.rem_mul_r; lia.
Qed.

Lemma be_val_bytes n z : be_val (be_bytes n z) = z mod 256 ^ Z.of_nat n.
Proof. by rw /be_val /be_bytes reverse_involutive le_val_bytes. Qed.

Lemma read_bytes_app n bs rest :
  length bs = n -> read_bytes n (bs ++ rest) = Some (bs, rest).
Proof.
  intros <-. rw /read_bytes length_app.
  destruct (Nat.leb_spec (length bs) (length bs + length rest)); [|lia].
  by rw take_app_length drop_app_length.
Qed.

Section Roundtrips.
Variable rest : list Z.

Lemma read_write_u8 z : in_width 8 z -> read_u8 (write_u8 z ++ rest) = Some (z, rest).
Proof.
  intros Hz. rw /read_u8 read_bytes_app ?length_le_bytes // /mbind /option_bind.
  cbn [fst snd]. rw le_val_bytes. by rw Z.mod_small.
Qed.
Lemma read_write_u16 z : in_width 16 z -> read_u16 (write_u16 z ++ rest) = Some (z, rest).
Proof.
  intros Hz. rw /read_u16 read_bytes_app ?length_le_bytes // /mbind /option_bind.
  cbn [fst snd]. rw le_val_bytes. by rw Z.mod_small.
Qed.
Lemma read_write_u64 z : in_width 64 z -> read_u64 (write_u64 z ++ rest) = Some (z, rest).
Proof.
  intros Hz. rw /read_u64 read_bytes_app ?length_le_bytes // /mbind /option_bind.
  cbn [fst snd]. rw le_val_bytes. by rw Z.mod_small.
Qed.
Lemma read_write_u32 z : in_width 32 z -> read_u32 (write_u32 z ++ rest) = Some (z, rest).
Proof.
  intros Hz. rw /read_u32 read_bytes_app ?length_le_bytes // /mbind /option_bind.
  cbn [fst snd]. rw le_val_bytes. by rw Z.mod_small.
Qed.
Lemma read_write_bool b : read_bool (write_bool b ++ rest) = Some (b, rest).
Proof. by destruct b. Qed.
Lemma read_write_u128 z : in_width 128 z -> read_u128 (write_u128 z ++ rest) = Some (z, rest).
Proof.
  intros Hz. rw /read_u128 read_bytes_app ?length_be_bytes // /mbind /option_bind.
  cbn [fst snd]. rw be_val_bytes. by rw Z.mod_small.
Qed.
Lemma read_write_u256 z : in_width 256 z -> read_u256 (write_u256 z ++ rest) = Some (z, rest).
Proof.
  intros Hz. rw /read_u256 read_bytes_app ?length_be_bytes // /mbind /option_bind.
  cbn [fst snd]. rw be_val_bytes. by rw Z.mod_small.
Qed.
Lemma read_write_u512 z : in_width 512 z -> read_u512 (write_u512 z ++ rest) = Some (z, rest).
Proof.
  intros Hz. rw /read_u512 read_bytes_app ?length_be_bytes // /mbind /option_bind.
  cbn [fst snd]. rw be_val_bytes. by rw Z.mod_small.
Qed.
Lemma read_write_array n bs :
  length bs = n -> read_array n (write_array bs ++ rest) = Some (bs, rest).
Proof. apply read_bytes_app. Qed.
End Roundtrips.

Lemma read_write_string cs rest :
  (length cs < 256)%nat -> read_string (write_string cs ++ rest) = Some (cs, rest).
Proof.
  intros Hl. rw /read_string /write_string -app_assoc read_write_u8; [|rw /in_width; lia].
  cbn [mbind option_bind fst snd]. apply read_bytes_app. lia.
Qed.

(** Reads a record back, field by field. *)
Ltac read_back :=
  rw -?app_assoc;
  repeat first
    [ rw read_write_u32; [cbn [mbind option_bind fst snd]|done]
    | rw read_write_u128; [cbn [mbind option_bind fst snd]|done]
    | rw read_write_u256; [cbn [mbind option_bind fst snd]|done]
    | rw read_write_u8; [cbn [mbind option_bind fst snd]|done]
    | rw read_write_u16; [cbn [mbind option_bind fst snd]|done]
    | rw read_write_u64; [cbn [mbind option_bind fst snd]|done]
    | rw read_write_u512; [cbn [mbind option_bind fst snd]|done]
    | rw read_write_array; [cbn [mbind option_bind fst snd]|done]
    | rw read_write_string; [cbn [mbind option_bind fst snd]|done]
    | rw read_write_bool; cbn [mbind option_bind fst snd] ].

Lemma lex_cmp_refl xs : lex_cmp xs xs = Eq.
Proof. induction xs as [|x xs IH]; cbn; [done|]. by rw Z.compare_refl. Qed.
Lemma lex_cmp_eq xs ys : lex_cmp xs ys = Eq -> xs = ys.
Proof.
  revert ys. induction xs as [|x xs IH]; intros [|y ys]; cbn; try done.
  destruct (Z.compare_spec x y) as [->| |]; [|done..]. intros ?. by f_equal; apply IH.
Qed.
Lemma lex_cmp_antisym xs ys : lex_cmp ys xs = CompOpp (lex_cmp xs ys).
Proof.
  revert ys. induction xs as [|x xs IH]; intros [|y ys]; cbn; try done.
  rw (Z.compare_antisym x y). by destruct (x ?= y); cbn.
Qed.
Lemma lex_cmp_trans xs ys zs :
  lex_cmp xs ys = Lt -> lex_cmp ys zs = Lt -> lex_cmp xs zs = Lt.
Proof.
  revert ys zs. induction xs as [|x xs IH]; intros [|y ys] [|z zs]; cbn; try done.
  destruct (Z.compare_spec x y), (Z.compare_spec y z), (Z.compare_spec x z);
    subst; try done; try lia. apply IH.
Qed.
