(* ===== verification/Lmdb.v ===== *)
(** * The LMDB interface

    LMDB is a git submodule whose sources are not part of the repository: the
    development takes it as a parameter. [Lmdb] gives the operations the block
    store calls, [LmdbLaws] the behaviour the LMDB documentation promises for
    them: a plain table maps a key to at most one value and a cursor visits its
    records in the order of the keys; under a key, a table
    opened with [MDB_DUPSORT] keeps distinct values in the order of their
    bytes, and putting a pair that is already there changes nothing. Keys are
    the numbers whose bytes LMDB is given. [gmap_lmdb] is one implementation,
    used to run the model on concrete data. *)
From stdpp Require Import base list gmap sorting ssreflect.
From S2P Require Import Prelude Serial.
Open Scope Z_scope.

Class Lmdb : Type := {
  table : Type -> Type;
  mdb_empty {V} : table V;
  mdb_get {V} : Z -> table V -> option V;
  mdb_put {V} : Z -> V -> table V -> table V;
  mdb_del {V} : Z -> table V -> table V;
  mdb_items {V} : table V -> list (Z * V);
  dtable : forall V, Serial V -> Type;
  dup_empty {V} `{Serial V} : dtable V _;
  dup_get {V} `{Serial V} : Z -> dtable V _ -> list V;
  dup_put {V} `{Serial V} : Z -> V -> dtable V _ -> dtable V _;
  dup_del {V} `{Serial V} : Z -> V -> dtable V _ -> dtable V _;
}.

Definition bytes_lt {V} `{Serial V} (x y : V) : Prop :=
  lex_cmp (to_bytes x) (to_bytes y) = Lt.
Definition same_bytes {V} `{Serial V} (x y : V) : Prop := to_bytes x = to_bytes y.
#[global] Instance same_bytes_dec {V} `{Serial V} (x y : V) : Decision (same_bytes x y).
Proof. rw /same_bytes. apply _. Defined.

Class LmdbLaws (L : Lmdb) : Prop := {
  get_empty {V} k : mdb_get k (mdb_empty (V := V)) = None;
  get_put_eq {V} k (v : V) t : mdb_get k (mdb_put k v t) = Some v;
  get_put_ne {V} k k' (v : V) t : k <> k' -> mdb_get k' (mdb_put k v t) = mdb_get k' t;
  get_del_eq {V} k (t : table V) : mdb_get k (mdb_del k t) = None;
  get_del_ne {V} k k' (t : table V) : k <> k' -> mdb_get k' (mdb_del k t) = mdb_get k' t;
  items_get {V} k (v : V) t : (k, v) ∈ mdb_items t <-> mdb_get k t = Some v;
  items_sorted {V} (t : table V) : StronglySorted Z.lt (map fst (mdb_items t));
  dups_empty {V} `{Serial V} k : dup_get k (dup_empty (V := V)) = [];
  dups_sorted {V} `{Serial V} k (t : dtable V _) : StronglySorted bytes_lt (dup_get k t);
  dups_put_new {V} `{Serial V} k (v : V) t :
    Forall (fun x => ~ same_bytes x v) (dup_get k t) ->
    dup_get k (dup_put k v t) ≡ₚ v :: dup_get k t;
  dups_put_old {V} `{Serial V} k (v : V) t :
    Exists (fun x => same_bytes x v) (dup_get k t) ->
    dup_get k (dup_put k v t) = dup_get k t;
  dups_put_ne {V} `{Serial V} k k' (v : V) t :
    k <> k' -> dup_get k' (dup_put k v t) = dup_get k' t;
  dups_del_in {V} `{Serial V} k (v : V) t :
    v ∈ dup_get k t -> dup_get k t ≡ₚ v :: dup_get k (dup_del k v t);
  dups_del_notin {V} `{Serial V} k (v : V) t :
    Forall (fun x => ~ same_bytes x v) (dup_get k t) ->
    dup_get k (dup_del k v t) = dup_get k t;
  dups_del_ne {V} `{Serial V} k k' (v : V) t :
    k <> k' -> dup_get k' (dup_del k v t) = dup_get k' t;
}.

(** Rewriting with the laws, as [simplify_map_eq] does for [gmap]. *)
Ltac mdb_simpl :=
  repeat first
    [ rw get_put_eq | rw get_del_eq | rw get_empty
    | rw get_put_ne; [|by auto] | rw get_del_ne; [|by auto]
    | rw dups_put_ne; [|by auto] | rw dups_del_ne; [|by auto] ].

Section Derived.
Context {L : Lmdb} {LL : LmdbLaws L}.

Lemma get_put {V} k k' (v : V) t :
  mdb_get k' (mdb_put k v t) = if decide (k = k') then Some v else mdb_get k' t.
Proof. case_decide; subst; by mdb_simpl. Qed.

Lemma get_del {V} k k' (t : table V) :
  mdb_get k' (mdb_del k t) = if decide (k = k') then None else mdb_get k' t.
Proof. case_decide; subst; by mdb_simpl. Qed.

Lemma items_nodup_keys {V} (t : table V) : NoDup (map fst (mdb_items t)).
Proof.
  induction (items_sorted t) as [|k ks _ IH Hall]; constructor; [|done].
  intros Hk. eapply Forall_forall in Hall; [|exact Hk]. lia.
Qed.
Lemma items_nodup {V} (t : table V) : NoDup (mdb_items t).
Proof. by apply (NoDup_fmap_1 fst), items_nodup_keys. Qed.

Lemma items_del {V} k (v : V) t :
  mdb_get k t = Some v -> mdb_items t ≡ₚ (k, v) :: mdb_items (mdb_del k t).
Proof.
  intros Hk. apply NoDup_Permutation; [apply items_nodup| |].
  - constructor; [|apply items_nodup]. rw items_get. by mdb_simpl.
  - intros [k' v']. rw elem_of_cons !items_get get_del. case_decide; naive_solver.
Qed.
Lemma items_put {V} k (v : V) t :
  mdb_items (mdb_put k v t) ≡ₚ (k, v) :: mdb_items (mdb_del k t).
Proof.
  apply NoDup_Permutation; [apply items_nodup| |].
  - constructor; [|apply items_nodup]. rw items_get. by mdb_simpl.
  - intros [k' v']. rw elem_of_cons !items_get get_del get_put. case_decide; naive_solver.
Qed.
Lemma items_del_none {V} k (t : table V) :
  mdb_get k t = None -> mdb_items (mdb_del k t) ≡ₚ mdb_items t.
Proof.
  intros Hk. apply NoDup_Permutation; [apply items_nodup..|].
  intros [k' v']. rw !items_get get_del. case_decide; naive_solver.
Qed.
Lemma length_items_put_new {V} k (v : V) t :
  mdb_get k t = None -> length (mdb_items (mdb_put k v t)) = S (length (mdb_items t)).
Proof. intros Hk. by rw items_put items_del_none. Qed.
Lemma length_items_put_old {V} k (v v' : V) t :
  mdb_get k t = Some v' -> length (mdb_items (mdb_put k v t)) = length (mdb_items t).
Proof. intros Hk. by rw items_put (items_del _ _ _ Hk). Qed.

Lemma dups_put_elem {V} `{Serial V} k k' (v x : V) t :
  x ∈ dup_get k' (dup_put k v t) -> (k = k' /\ x = v) \/ x ∈ dup_get k' t.
Proof.
  destruct (decide (k = k')) as [->|Hne]; [|rw dups_put_ne; auto].
  destruct (Exists_dec (fun x => same_bytes x v) (dup_get k' t)) as [He|Hn].
  - rw dups_put_old //. auto.
  - apply not_Exists_Forall in Hn; [|apply _].
    rw dups_put_new // elem_of_cons. naive_solver.
Qed.

Lemma dups_put_mono {V} `{Serial V} k k' (v x : V) t :
  x ∈ dup_get k' t -> x ∈ dup_get k' (dup_put k v t).
Proof.
  destruct (decide (k = k')) as [->|Hne]; [|rw dups_put_ne; auto].
  destruct (Exists_dec (fun x => same_bytes x v) (dup_get k' t)) as [He|Hn].
  - by rw dups_put_old.
  - apply not_Exists_Forall in Hn; [|apply _].
    rw dups_put_new // elem_of_cons. auto.
Qed.

Lemma dups_del_elem {V} `{Serial V} k k' (v x : V) t :
  v ∈ dup_get k t -> x ∈ dup_get k' (dup_del k v t) -> x ∈ dup_get k' t.
Proof.
  destruct (decide (k = k')) as [->|Hne]; [|rw dups_del_ne; auto].
  intros Hin Hx. rw (dups_del_in _ _ _ Hin) elem_of_cons. auto.
Qed.

Lemma dups_nodup {V} `{Serial V} k (t : dtable V _) : NoDup (dup_get k t).
Proof.
  induction (dups_sorted k t) as [|x xs _ IH Hall]; constructor; [|done].
  intros Hx. eapply Forall_forall in Hall; [|exact Hx].
  by rw /bytes_lt lex_cmp_refl in Hall.
Qed.

Lemma dups_del_iff {V} `{Serial V} k k' (v x : V) t :
  v ∈ dup_get k t ->
  x ∈ dup_get k' (dup_del k v t) <-> x ∈ dup_get k' t /\ ~ (k = k' /\ x = v).
Proof.
  intros Hin. destruct (decide (k = k')) as [<-|Hne].
  2: { rw dups_del_ne //. naive_solver. }
  pose proof (dups_nodup k t) as Hnd. rw (dups_del_in _ _ _ Hin) in Hnd.
  apply NoDup_cons in Hnd as [Hv _]. rw (dups_del_in _ _ _ Hin) elem_of_cons.
  naive_solver.
Qed.
End Derived.

(** ** An implementation over [gmap] *)
Section GmapModel.
Context {V : Type} `{Serial V}.

Fixpoint dup_insert (v : V) (xs : list V) : list V :=
  match xs with
  | [] => [v]
  | x :: xs' =>
      match lex_cmp (to_bytes v) (to_bytes x) with
      | Lt => v :: xs
      | Eq => xs
      | Gt => x :: dup_insert v xs'
      end
  end.
Definition dup_sort (xs : list V) : list V := foldr dup_insert [] xs.

Lemma dup_insert_in v xs x : x ∈ dup_insert v xs -> x = v \/ x ∈ xs.
Proof.
  induction xs as [|y xs IH]; cbn; [by rw list_elem_of_singleton; auto|].
  destruct lex_cmp; rw ?elem_of_cons; naive_solver.
Qed.

Lemma dup_insert_sorted v xs :
  StronglySorted bytes_lt xs -> StronglySorted bytes_lt (dup_insert v xs).
Proof.
  induction 1 as [|x xs Hs IH Hall]; cbn; [by repeat constructor|].
  destruct lex_cmp eqn:E; constructor; auto.
  - by constructor.
  - constructor; [done|]. eapply Forall_impl; [exact Hall|].
    intros y Hy. by eapply lex_cmp_trans.
  - apply Forall_forall. intros y [->|Hy]%dup_insert_in.
    + by rw /bytes_lt lex_cmp_antisym E.
    + by eapply Forall_forall in Hall.
Qed.

Lemma dup_sort_sorted xs : StronglySorted bytes_lt (dup_sort xs).
Proof. induction xs; cbn; [constructor|by apply dup_insert_sorted]. Qed.

Lemma dup_insert_new v xs :
  Forall (fun x => ~ same_bytes x v) xs -> dup_insert v xs ≡ₚ v :: xs.
Proof.
  induction 1 as [|x xs Hx Hall IH]; cbn; [done|].
  destruct lex_cmp eqn:E.
  - apply lex_cmp_eq in E. by destruct Hx.
  - done.
  - rw IH. constructor.
Qed.

Lemma dup_insert_old v xs :
  StronglySorted bytes_lt xs -> Exists (fun x => same_bytes x v) xs ->
  dup_insert v xs = xs.
Proof.
  induction 1 as [|x xs Hs IH Hall]; intros Hex; inversion Hex as [? ? Heq|? ? Hex'];
    subst; cbn.
  - rw /same_bytes in Heq. by rw -Heq lex_cmp_refl.
  - apply Exists_exists in Hex' as Hy. destruct Hy as (y & Hy & Heq).
    eapply Forall_forall in Hall; [|exact Hy].
    rw /bytes_lt Heq in Hall. rw lex_cmp_antisym Hall /=. by rw IH.
Qed.

Lemma dup_insert_filter (P : V -> Prop) `{!forall x, Decision (P x)} v xs :
  (forall x y, same_bytes x y -> P x -> P y) -> StronglySorted bytes_lt xs ->
  filter P (dup_insert v xs) =
  if decide (P v) then dup_insert v (filter P xs) else filter P xs.
Proof.
  intros HP. induction 1 as [|x xs Hs IH Hall]; cbn [dup_insert].
  { rw filter_cons filter_nil. by case_decide. }
  destruct lex_cmp eqn:E.
  - apply lex_cmp_eq in E. rw !filter_cons.
    destruct (decide (P x)) as [Hx|Hx], (decide (P v)) as [Hv|Hv]; try done.
    + cbn. by rw E lex_cmp_refl.
    + by destruct Hx; apply (HP v).
  - rw !(filter_cons P v). destruct (decide (P v)) as [Hv|Hv]; [|done].
    rw filter_cons. destruct (decide (P x)); cbn; [by rw E|].
    assert (Forall (bytes_lt v) (filter P xs)) as Hf.
    { apply Forall_forall. intros y [_ Hy]%list_elem_of_filter.
      eapply Forall_forall in Hall; [|exact Hy]. by eapply lex_cmp_trans. }
    destruct (filter P xs) as [|y ys]; [done|]. inversion Hf as [|? ? Hlt]; subst.
    cbn. rw /bytes_lt in Hlt. by rw Hlt.
  - rw !(filter_cons P x) IH.
    destruct (decide (P x)), (decide (P v)); cbn; by rw ?E.
Qed.

Lemma dup_sort_filter (P : V -> Prop) `{!forall x, Decision (P x)} xs :
  (forall x y, same_bytes x y -> P x -> P y) ->
  dup_sort (filter P xs) = filter P (dup_sort xs).
Proof.
  intros HP. induction xs as [|x xs IH]; cbn [dup_sort foldr]; [done|].
  rw dup_insert_filter //; [|apply dup_sort_sorted].
  rw -IH filter_cons. by case_decide.
Qed.

Lemma sorted_remove v xs :
  StronglySorted bytes_lt xs -> v ∈ xs ->
  xs ≡ₚ v :: filter (fun x => ~ same_bytes x v) xs.
Proof.
  induction 1 as [|x xs Hs IH Hall]; intros Hin; [by apply elem_of_nil in Hin|].
  rw filter_cons. apply elem_of_cons in Hin as [->|Hin].
  - destruct (decide (~ same_bytes x x)) as [Hn|_]; [by destruct Hn|].
    constructor. rw filter_all //. eapply Forall_impl; [exact Hall|].
    intros y Hy Heq. by rw /bytes_lt Heq lex_cmp_refl in Hy.
  - eapply Forall_forall in Hall; [|exact Hin].
    destruct (decide (~ same_bytes x v)) as [_|Hn].
    + rw {1}IH //. constructor.
    + apply dec_stable in Hn. rw /bytes_lt Hn lex_cmp_refl in Hall. done.
Qed.
End GmapModel.

Definition gdup_get {V} `{Serial V} (k : Z) (t : gmap Z (list V)) : list V :=
  dup_sort (default [] (t !! k)).

(** The records of a map in the order of their keys. *)
Definition key_le {V} (x y : Z * V) : Prop := x.1 <= y.1.
#[global] Instance key_le_dec {V} : RelDecision (@key_le V).
Proof. rw /key_le => x y. apply _. Defined.
#[global] Instance key_le_total {V} : Total (@key_le V).
Proof. intros x y. rw /key_le. lia. Qed.
#[global] Instance key_le_trans {V} : Transitive (@key_le V).
Proof. intros x y z. rw /key_le. lia. Qed.
Definition gmap_items {V} (t : gmap Z V) : list (Z * V) := merge_sort key_le (map_to_list t).

Lemma gmap_items_get {V} k (v : V) t : (k, v) ∈ gmap_items t <-> t !! k = Some v.
Proof. by rw /gmap_items merge_sort_Permutation elem_of_map_to_list. Qed.

Lemma gmap_items_sorted {V} (t : gmap Z V) : StronglySorted Z.lt (map fst (gmap_items t)).
Proof.
  assert (NoDup (map fst (gmap_items t))) as Hnd.
  { rw /gmap_items. rw (Permutation_map fst (merge_sort_Permutation key_le (map_to_list t))).
    apply NoDup_fst_map_to_list. }
  assert (StronglySorted key_le (gmap_items t)) as Hs.
  { apply StronglySorted_merge_sort; apply _. }
  induction Hs as [|x xs _ IH Hall]; [constructor|].
  inversion Hnd as [|? ? Hx Hxs]; subst. constructor; [auto|].
  apply Forall_forall. intros k (y & -> & Hy)%list_elem_of_fmap.
  eapply Forall_forall in Hall; [|exact Hy]. rw /key_le in Hall.
  enough (x.1 <> y.1) by lia. intros Heq. apply Hx. rw Heq. by apply list_elem_of_fmap_2.
Qed.

Definition gmap_lmdb : Lmdb := {|
  table := gmap Z;
  mdb_empty V := ∅;
  mdb_get V k t := t !! k;
  mdb_put V k v t := <[k := v]> t;
  mdb_del V k t := delete k t;
  mdb_items V t := gmap_items t;
  dtable V _ := gmap Z (list V);
  dup_empty V _ := ∅;
  dup_get V _ k t := gdup_get k t;
  dup_put V _ k v t := <[k := v :: default [] (t !! k)]> t;
  dup_del V _ k v t := <[k := filter (fun x => ~ same_bytes x v) (default [] (t !! k))]> t;
|}.

Lemma gmap_lmdb_laws : LmdbLaws gmap_lmdb.
Proof.
  split; intros; cbn in *; rw ?/gdup_get.
  - apply lookup_empty.
  - by simplify_map_eq.
  - by simplify_map_eq.
  - by simplify_map_eq.
  - by simplify_map_eq.
  - apply gmap_items_get.
  - apply gmap_items_sorted.
  - done.
  - apply dup_sort_sorted.
  - rw lookup_insert_eq. by apply dup_insert_new.
  - rw lookup_insert_eq. apply dup_insert_old; [apply dup_sort_sorted|done].
  - by rw lookup_insert_ne.
  - rw lookup_insert_eq /= dup_sort_filter; [|by rw /same_bytes => ? ? ->].
    apply sorted_remove; [apply dup_sort_sorted|done].
  - rw lookup_insert_eq /= dup_sort_filter; [|by rw /same_bytes => ? ? ->].
    by apply filter_all.
  - by rw lookup_insert_ne.
Qed.
