(* ===== verification/StakingTypes.v ===== *)
(** * Records of the staking subsystem

    The structures the ledger stores for staking (src/logos/staking/*.hpp),
    their serialization and, for liabilities, their hash. Blake2b is a
    parameter: a function from the hashed bytes to the digest. *)
From stdpp Require Import base list numbers sorting countable ssreflect.
From S2P Require Import Prelude Serial.
From Stdlib Require Import QArith.QArith_base.
Open Scope Z_scope.

Definition AccountAddress : Type := Z.
Definition BlockHash : Type := Z.
Definition LiabilityHash : Type := Z.

Class Blake2b := blake2b : list Z -> BlockHash.

(** Collision resistance, idealized: distinct inputs have distinct digests. *)
Class Blake2bCollisionFree (B : Blake2b) : Prop :=
  blake2b_inj : Inj (=) (=) (blake2b (Blake2b := B)).

(** const uint32_t THAWING_PERIOD = 42; (staking_manager.hpp) *)
Definition THAWING_PERIOD : Z := 42.
(** const uint8_t DILUTION_FACTOR = 25; (voting_power_manager.hpp) *)
Definition DILUTION_FACTOR : Z := 25.

Record Liability := {
  l_target : AccountAddress;
  l_source : AccountAddress;
  l_amount : Amount;
  l_expiration_epoch : Z;
  l_is_secondary : bool;
}.

(** Liability::Hash(blake2b_state&): the amount is not part of the hash. *)
Definition Liability_Hash_input (l : Liability) : list Z :=
  write_u256 (l_target l) ++ write_u256 (l_source l)
  ++ write_u32 (l_expiration_epoch l) ++ write_bool (l_is_secondary l).
Definition Liability_Hash `{Blake2b} (l : Liability) : LiabilityHash :=
  blake2b (Liability_Hash_input l).

Definition Liability_Serialize (l : Liability) : list Z :=
  write_u256 (l_target l) ++ write_u256 (l_source l) ++ write_u128 (l_amount l)
  ++ write_u32 (l_expiration_epoch l) ++ write_bool (l_is_secondary l).
Definition Liability_Deserialize (bs : list Z) : option (Liability * list Z) :=
  t ← read_u256 bs; s ← read_u256 t.2; a ← read_u128 s.2;
  e ← read_u32 a.2; b ← read_bool e.2;
  Some (Build_Liability t.1 s.1 a.1 e.1 b.1, b.2).
Definition Liability_wf (l : Liability) : Prop :=
  in_width 256 (l_target l) /\ in_width 256 (l_source l) /\
  in_width 128 (l_amount l) /\ in_width 32 (l_expiration_epoch l).

Record StakedFunds := {
  sf_target : AccountAddress;
  sf_amount : Amount;
  sf_liability_hash : LiabilityHash;
}.

Definition StakedFunds_Serialize (f : StakedFunds) : list Z :=
  write_u256 (sf_target f) ++ write_u128 (sf_amount f) ++ write_u256 (sf_liability_hash f).
Definition StakedFunds_Deserialize (bs : list Z) : option (StakedFunds * list Z) :=
  t ← read_u256 bs; a ← read_u128 t.2; h ← read_u256 a.2;
  Some (Build_StakedFunds t.1 a.1 h.1, h.2).
Definition StakedFunds_wf (f : StakedFunds) : Prop :=
  in_width 256 (sf_target f) /\ in_width 128 (sf_amount f) /\
  in_width 256 (sf_liability_hash f).

Record ThawingFunds := {
  tf_expiration_epoch : Z;
  tf_target : AccountAddress;
  tf_amount : Amount;
  tf_liability_hash : LiabilityHash;
}.
#[global] Instance ThawingFunds_eq_dec : EqDecision ThawingFunds.
Proof. solve_decision. Defined.

(** The expiration epoch is written inverted, to make LMDB keep the records
    with the latest expiration first. *)
Definition ThawingFunds_Serialize (f : ThawingFunds) : list Z :=
  let invert_exp_epoch := u32 (max_uint32 - tf_expiration_epoch f) in
  write_u32 invert_exp_epoch ++ write_u256 (tf_target f)
  ++ write_u128 (tf_amount f) ++ write_u256 (tf_liability_hash f).
Definition ThawingFunds_Deserialize (bs : list Z) : option (ThawingFunds * list Z) :=
  i ← read_u32 bs;
  t ← read_u256 i.2; a ← read_u128 t.2; h ← read_u256 a.2;
  Some (Build_ThawingFunds (u32 (max_uint32 - i.1)) t.1 a.1 h.1, h.2).
Definition ThawingFunds_wf (f : ThawingFunds) : Prop :=
  in_width 32 (tf_expiration_epoch f) /\ in_width 256 (tf_target f) /\
  in_width 128 (tf_amount f) /\ in_width 256 (tf_liability_hash f).

Record VotingPowerFallback := { vf_power : Amount; vf_total_stake : Amount }.

Definition VotingPowerFallback_Serialize (f : VotingPowerFallback) : list Z :=
  write_u128 (vf_power f) ++ write_u128 (vf_total_stake f).
Definition VotingPowerFallback_Deserialize (bs : list Z)
  : option (VotingPowerFallback * list Z) :=
  p ← read_u128 bs; t ← read_u128 p.2; Some (Build_VotingPowerFallback p.1 t.1, t.2).

Record VotingPowerSnapshot := {
  locked_proxied : Amount;
  unlocked_proxied : Amount;
  self_stake : Amount;
}.
Definition VotingPowerSnapshot_zero : VotingPowerSnapshot := Build_VotingPowerSnapshot 0 0 0.

Definition VotingPowerSnapshot_Serialize (v : VotingPowerSnapshot) : list Z :=
  write_u128 (locked_proxied v) ++ write_u128 (unlocked_proxied v) ++ write_u128 (self_stake v).
Definition VotingPowerSnapshot_Deserialize (bs : list Z)
  : option (VotingPowerSnapshot * list Z) :=
  l ← read_u128 bs; u ← read_u128 l.2; s ← read_u128 u.2;
  Some (Build_VotingPowerSnapshot l.1 u.1 s.1, s.2).
Definition VotingPowerSnapshot_wf (v : VotingPowerSnapshot) : Prop :=
  in_width 128 (locked_proxied v) /\ in_width 128 (unlocked_proxied v) /\
  in_width 128 (self_stake v).

Record VotingPowerInfo := {
  vp_current : VotingPowerSnapshot;
  vp_next : VotingPowerSnapshot;
  vp_epoch_modified : Z;
}.
(** The default constructor. *)
Definition VotingPowerInfo_zero : VotingPowerInfo :=
  Build_VotingPowerInfo VotingPowerSnapshot_zero VotingPowerSnapshot_zero 0.

Definition VotingPowerInfo_Serialize (v : VotingPowerInfo) : list Z :=
  VotingPowerSnapshot_Serialize (vp_current v) ++ VotingPowerSnapshot_Serialize (vp_next v)
  ++ write_u32 (vp_epoch_modified v).
Definition VotingPowerInfo_Deserialize (bs : list Z) : option (VotingPowerInfo * list Z) :=
  c ← VotingPowerSnapshot_Deserialize bs; n ← VotingPowerSnapshot_Deserialize c.2;
  e ← read_u32 n.2; Some (Build_VotingPowerInfo c.1 n.1 e.1, e.2).
Definition VotingPowerInfo_wf (v : VotingPowerInfo) : Prop :=
  VotingPowerSnapshot_wf (vp_current v) /\ VotingPowerSnapshot_wf (vp_next v) /\
  in_width 32 (vp_epoch_modified v).

(** elections/representative.hpp *)
Record RepInfo := {
  candidacy_action_tip : BlockHash;
  election_vote_tip : BlockHash;
  rep_action_tip : BlockHash;
  rep_levy_percentage : Z;
}.

(** ** Accounts (common.hpp) *)

(** token/entry.hpp *)
Record TokenUserStatus := { whitelisted : bool; frozen : bool }.
Record TokenEntry := {
  te_token_id : BlockHash;
  te_status : TokenUserStatus;
  te_balance : Amount;
}.

(** [rep = 0] means no representative. *)
Record RepRecord := { rep : AccountAddress; epoch_first_active : Z }.

(** struct account_info : Account *)
Record account_info := {
  modified : Z;
  head : BlockHash;
  block_count : Z;
  receive_head : BlockHash;
  receive_count : Z;
  balance : Amount;
  governance_subchain_head : BlockHash;
  old_rep : RepRecord;
  new_rep : RepRecord;
  open_block : BlockHash;
  entries : list TokenEntry;
  epoch_thawing_updated : Z;
  epoch_secondary_liabilities_updated : Z;
  claim_epoch : Z;
  dust : Q;
  available_balance : Amount;
}.

Definition set_balances (bal avail : Amount) (i : account_info) : account_info :=
  Build_account_info (modified i) (head i) (block_count i) (receive_head i) (receive_count i)
    bal (governance_subchain_head i) (old_rep i) (new_rep i) (open_block i) (entries i)
    (epoch_thawing_updated i) (epoch_secondary_liabilities_updated i) (claim_epoch i)
    (dust i) avail.
Definition set_reps (o n : RepRecord) (i : account_info) : account_info :=
  Build_account_info (modified i) (head i) (block_count i) (receive_head i) (receive_count i)
    (balance i) (governance_subchain_head i) o n (open_block i) (entries i)
    (epoch_thawing_updated i) (epoch_secondary_liabilities_updated i) (claim_epoch i)
    (dust i) (available_balance i).
Definition set_governance_subchain_head (h : BlockHash) (i : account_info) : account_info :=
  Build_account_info (modified i) (head i) (block_count i) (receive_head i) (receive_count i)
    (balance i) h (old_rep i) (new_rep i) (open_block i) (entries i)
    (epoch_thawing_updated i) (epoch_secondary_liabilities_updated i) (claim_epoch i)
    (dust i) (available_balance i).
Definition set_epoch_thawing_updated (e : Z) (i : account_info) : account_info :=
  Build_account_info (modified i) (head i) (block_count i) (receive_head i) (receive_count i)
    (balance i) (governance_subchain_head i) (old_rep i) (new_rep i) (open_block i) (entries i)
    e (epoch_secondary_liabilities_updated i) (claim_epoch i) (dust i) (available_balance i).
Definition set_epoch_secondary_updated (e : Z) (i : account_info) : account_info :=
  Build_account_info (modified i) (head i) (block_count i) (receive_head i) (receive_count i)
    (balance i) (governance_subchain_head i) (old_rep i) (new_rep i) (open_block i) (entries i)
    (epoch_thawing_updated i) e (claim_epoch i) (dust i) (available_balance i).

(** ** Round trips *)

Ltac solve_roundtrip :=
  intros; repeat match goal with
    | H : _ /\ _ |- _ => destruct H
    | v : Liability |- _ => destruct v
    | v : StakedFunds |- _ => destruct v
    | v : ThawingFunds |- _ => destruct v
    | v : VotingPowerFallback |- _ => destruct v
    | v : VotingPowerSnapshot |- _ => destruct v
    end;
  cbn [l_target l_source l_amount l_expiration_epoch l_is_secondary
       sf_target sf_amount sf_liability_hash vf_power vf_total_stake
       locked_proxied unlocked_proxied self_stake] in *; read_back; done.

Lemma Liability_roundtrip l rest :
  Liability_wf l -> Liability_Deserialize (Liability_Serialize l ++ rest) = Some (l, rest).
Proof. rw /Liability_Deserialize /Liability_Serialize /Liability_wf. solve_roundtrip. Qed.

Lemma StakedFunds_roundtrip f rest :
  StakedFunds_wf f -> StakedFunds_Deserialize (StakedFunds_Serialize f ++ rest) = Some (f, rest).
Proof. rw /StakedFunds_Deserialize /StakedFunds_Serialize /StakedFunds_wf. solve_roundtrip. Qed.

Lemma invert_width e : in_width 32 e -> in_width 32 (max_uint32 - e).
Proof. rw /in_width /max_uint32. lia. Qed.

Lemma ThawingFunds_roundtrip f rest :
  ThawingFunds_wf f -> ThawingFunds_Deserialize (ThawingFunds_Serialize f ++ rest) = Some (f, rest).
Proof.
  destruct f as [e t a h]. rw /ThawingFunds_Deserialize /ThawingFunds_Serialize /ThawingFunds_wf.
  cbn [tf_expiration_epoch tf_target tf_amount tf_liability_hash].
  intros (He & Ht & Ha & Hh). pose proof (invert_width _ He) as Hi.
  rw (u32_id (max_uint32 - e)) //. read_back.
  do 3 f_equal. rw u32_id; [|by apply invert_width]. lia.
Qed.

Lemma VotingPowerSnapshot_roundtrip v rest :
  VotingPowerSnapshot_wf v ->
  VotingPowerSnapshot_Deserialize (VotingPowerSnapshot_Serialize v ++ rest) = Some (v, rest).
Proof.
  rw /VotingPowerSnapshot_Deserialize /VotingPowerSnapshot_Serialize /VotingPowerSnapshot_wf.
  solve_roundtrip.
Qed.

Lemma VotingPowerInfo_roundtrip v rest :
  VotingPowerInfo_wf v ->
  VotingPowerInfo_Deserialize (VotingPowerInfo_Serialize v ++ rest) = Some (v, rest).
Proof.
  destruct v as [c n e]. rw /VotingPowerInfo_Deserialize /VotingPowerInfo_Serialize.
  intros (Hc & Hn & He). cbn [vp_current vp_next vp_epoch_modified] in *. rw -!app_assoc VotingPowerSnapshot_roundtrip //.
  cbn [mbind option_bind fst snd]. rw VotingPowerSnapshot_roundtrip //.
  cbn [mbind option_bind fst snd]. by read_back.
Qed.

Lemma VotingPowerFallback_roundtrip f rest :
  in_width 128 (vf_power f) -> in_width 128 (vf_total_stake f) ->
  VotingPowerFallback_Deserialize (VotingPowerFallback_Serialize f ++ rest) = Some (f, rest).
Proof. rw /VotingPowerFallback_Deserialize /VotingPowerFallback_Serialize. solve_roundtrip. Qed.

(** Every record the staking tables hold reads back as what was written,
    whatever follows it in the stream. *)
Lemma staking_records_roundtrip :
  (forall l rest, Liability_wf l ->
     Liability_Deserialize (Liability_Serialize l ++ rest) = Some (l, rest)) /\
  (forall f rest, StakedFunds_wf f ->
     StakedFunds_Deserialize (StakedFunds_Serialize f ++ rest) = Some (f, rest)) /\
  (forall f rest, ThawingFunds_wf f ->
     ThawingFunds_Deserialize (ThawingFunds_Serialize f ++ rest) = Some (f, rest)) /\
  (forall v rest, VotingPowerInfo_wf v ->
     VotingPowerInfo_Deserialize (VotingPowerInfo_Serialize v ++ rest) = Some (v, rest)) /\
  (forall f rest, in_width 128 (vf_power f) -> in_width 128 (vf_total_stake f) ->
     VotingPowerFallback_Deserialize (VotingPowerFallback_Serialize f ++ rest) = Some (f, rest)).
Proof.
  split_and!; auto using Liability_roundtrip, StakedFunds_roundtrip, ThawingFunds_roundtrip,
    VotingPowerInfo_roundtrip, VotingPowerFallback_roundtrip.
Qed.

#[global] Instance ThawingFunds_serial : Serial ThawingFunds := {|
  to_bytes := ThawingFunds_Serialize;
  of_bytes := ThawingFunds_Deserialize;
  serial_wf := ThawingFunds_wf;
  serial_roundtrip := ThawingFunds_roundtrip;
|}.

(** A digest as the value of a duplicate-key table. Its 32 bytes are written
    most significant first, so comparing them is comparing the numbers: a
    digest is a single digit in base 2^256. *)
Definition hash_read (bs : list Z) : option (Z * list Z) :=
  match bs with [] => None | h :: rest => Some (h, rest) end.
#[global] Instance hash_serial : Serial Z := {|
  to_bytes h := [h];
  of_bytes := hash_read;
  serial_wf _ := True;
  serial_roundtrip h rest _ := eq_refl;
|}.

(** ** The order of thawing records

    The comment in thawing_funds.cpp says that, written inverted first, the
    epochs make LMDB keep records by decreasing expiration. [descending] is
    that order. *)
Definition descending (xs : list ThawingFunds) : Prop :=
  StronglySorted (fun x y => tf_expiration_epoch y <= tf_expiration_epoch x) xs.

Lemma write_u32_inj x y :
  in_width 32 x -> in_width 32 y -> write_u32 x = write_u32 y -> x = y.
Proof.
  rw /write_u32. intros Hx Hy Heq%(f_equal le_val). move: Heq.
  rw !le_val_bytes !Z.mod_small //.
Qed.

Lemma write_u256_inj x y :
  in_width 256 x -> in_width 256 y -> write_u256 x = write_u256 y -> x = y.
Proof.
  rw /write_u256. intros Hx Hy Heq%(f_equal be_val). move: Heq.
  rw !be_val_bytes !Z.mod_small //.
Qed.

Lemma app_inj_length {A} (xs xs' ys ys' : list A) :
  length xs = length xs' -> xs ++ ys = xs' ++ ys' -> xs = xs' /\ ys = ys'.
Proof. intros Hl. apply app_inj_1. done. Qed.

(** Two records with the same bytes have the same expiration and target. *)
Lemma ThawingFunds_bytes_key x y :
  in_width 32 (tf_expiration_epoch x) -> in_width 256 (tf_target x) ->
  in_width 32 (tf_expiration_epoch y) -> in_width 256 (tf_target y) ->
  ThawingFunds_Serialize x = ThawingFunds_Serialize y ->
  tf_expiration_epoch x = tf_expiration_epoch y /\ tf_target x = tf_target y.
Proof.
  rw /ThawingFunds_Serialize => Hxe Hxt Hye Hyt.
  rw (u32_id (_ - _)); [|by apply invert_width]. rw (u32_id (_ - _)); [|by apply invert_width].
  intros [He%write_u32_inj [Ht%write_u256_inj _]%app_inj_length]%app_inj_length;
    rw ?length_be_bytes //; try by apply invert_width. lia.
Qed.

(** Liabilities are identified by what is hashed. *)
Definition Liability_key (l : Liability) : AccountAddress * AccountAddress * Z * bool :=
  (l_target l, l_source l, l_expiration_epoch l, l_is_secondary l).

Lemma Liability_Hash_inj `{!Blake2b, !Blake2bCollisionFree _} l l' :
  Liability_wf l -> Liability_wf l' ->
  Liability_Hash l = Liability_Hash l' -> Liability_key l = Liability_key l'.
Proof.
  intros (Ht & Hs & _ & He) (Ht' & Hs' & _ & He').
  rw /Liability_Hash => /blake2b_inj. rw /Liability_Hash_input /Liability_key.
  intros [->%write_u256_inj Hr]%app_inj_length; rw ?length_be_bytes //.
  move: Hr. intros [->%write_u256_inj Hr]%app_inj_length; rw ?length_be_bytes //.
  move: Hr. intros [->%write_u32_inj Hr]%app_inj_length; rw ?length_le_bytes //.
  f_equal. move: Hr. rw /write_bool.
  by destruct (l_is_secondary l), (l_is_secondary l'); intros [=].
Qed.

(** A collision-free function to run the model with: the digest of a byte
    string is its number in an enumeration of the byte strings. *)
Definition encode_blake2b : Blake2b := fun bs => Zpos (encode bs).
Lemma encode_blake2b_inj : Blake2bCollisionFree encode_blake2b.
Proof. intros x y [= Hxy]. by apply (inj encode). Qed.

(** An account with a balance, not represented by anyone. *)
Definition fresh_account (bal : Amount) : account_info :=
  Build_account_info 0 0 0 0 0 bal 0 (Build_RepRecord 0 0) (Build_RepRecord 0 0) 0 [] 0 0 0
    (0 # 1) bal.
