(* ===== verification/Requests.v ===== *)
(** * Governance requests (request/requests.cpp, governance/requests.cpp)

    The requests that stake, elect and represent: their fields, their hash, and
    their serialization on the network ([ToStream]) and in the database
    ([ToDatabase]), which adds where the request was confirmed. The C++ class
    hierarchy Request, Governance, Proxy, ... becomes one record with a
    variant for what each derived class adds; the member [type] is determined
    by the variant, as every constructor checks. *)
From stdpp Require Import base list numbers ssreflect.
From S2P Require Import Prelude Serial StakingTypes.
Open Scope Z_scope.

(** enum class RequestType : uint8_t *)
Module RequestType.
Inductive t :=
| Send | Proxy | Issuance | IssueAdditional | ChangeSetting | ImmuteSetting | Revoke
| AdjustUserStatus | AdjustFee | UpdateIssuerInfo | UpdateController | Burn | Distribute
| WithdrawFee | WithdrawLogos | TokenSend | ElectionVote | AnnounceCandidacy
| RenounceCandidacy | StartRepresenting | StopRepresenting | Stake | Unstake | Unknown
| Claim.
#[global] Instance t_eq_dec : EqDecision t.
Proof. solve_decision. Defined.

Definition all : list t :=
  [ Send; Proxy; Issuance; IssueAdditional; ChangeSetting; ImmuteSetting; Revoke;
    AdjustUserStatus; AdjustFee; UpdateIssuerInfo; UpdateController; Burn; Distribute;
    WithdrawFee; WithdrawLogos; TokenSend; ElectionVote; AnnounceCandidacy;
    RenounceCandidacy; StartRepresenting; StopRepresenting; Stake; Unstake; Unknown;
    Claim ].
(** The value of an enumerator. *)
Definition code (x : t) : Z :=
  match x with
  | Send => 0 | Proxy => 1 | Issuance => 2 | IssueAdditional => 3 | ChangeSetting => 4
  | ImmuteSetting => 5 | Revoke => 6 | AdjustUserStatus => 7 | AdjustFee => 8
  | UpdateIssuerInfo => 9 | UpdateController => 10 | Burn => 11 | Distribute => 12
  | WithdrawFee => 13 | WithdrawLogos => 14 | TokenSend => 15 | ElectionVote => 16
  | AnnounceCandidacy => 17 | RenounceCandidacy => 18 | StartRepresenting => 19
  | StopRepresenting => 20 | Stake => 21 | Unstake => 22 | Unknown => 23 | Claim => 24
  end.
Definition of_code (z : Z) : option t := List.find (fun x => code x =? z) all.

Lemma of_code_code x : of_code (code x) = Some x.
Proof. by destruct x. Qed.
End RequestType.

(** The structures derived from [Governance]. *)
Inductive GovernanceBody :=
| Proxy (lock_proxy : Amount) (rep : AccountAddress)
| Stake (stake : Amount)
| Unstake
| ElectionVote (votes : list (AccountAddress * Z))
| AnnounceCandidacy (set_stake : bool) (stake : Amount) (bls_key ecies_key : list Z)
    (levy_percentage : Z)
| RenounceCandidacy (set_stake : bool) (stake : Amount)
| StartRepresenting (set_stake : bool) (stake : Amount) (levy_percentage : Z)
| StopRepresenting (set_stake : bool) (stake : Amount).

Definition body_type (b : GovernanceBody) : RequestType.t :=
  match b with
  | Proxy _ _ => RequestType.Proxy
  | Stake _ => RequestType.Stake
  | Unstake => RequestType.Unstake
  | ElectionVote _ => RequestType.ElectionVote
  | AnnounceCandidacy _ _ _ _ _ => RequestType.AnnounceCandidacy
  | RenounceCandidacy _ _ => RequestType.RenounceCandidacy
  | StartRepresenting _ _ _ => RequestType.StartRepresenting
  | StopRepresenting _ _ => RequestType.StopRepresenting
  end.

(** Request::Locator: the request block that confirmed the request. *)
Record Locator := { loc_hash : BlockHash; loc_index : Z }.

Record Governance := {
  gr_origin : AccountAddress;
  gr_previous : BlockHash;
  gr_fee : Amount;
  gr_sequence : Z;
  gr_signature : Z;
  gr_next : BlockHash;
  gr_locator : Locator;
  gr_epoch_num : Z;
  gr_governance_subchain_prev : BlockHash;
  gr_body : GovernanceBody;
}.
Definition gr_type (r : Governance) : RequestType.t := body_type (gr_body r).

(** [request.type == RequestType::ElectionVote]. *)
Definition is_election_vote (r : Governance) : bool :=
  match gr_body r with ElectionVote _ => true | _ => false end.

(** ** Hash *)

(** Request::Hash(blake2b_state &) and Governance::Hash(blake2b_state &). *)
Definition Request_Hash_input (r : Governance) : list Z :=
  write_u8 (RequestType.code (gr_type r)) ++ write_u256 (gr_origin r)
  ++ write_u256 (gr_previous r) ++ write_u128 (gr_fee r) ++ write_u32 (gr_sequence r).
Definition Governance_Hash_input (r : Governance) : list Z :=
  Request_Hash_input r ++ write_u32 (gr_epoch_num r)
  ++ write_u256 (gr_governance_subchain_prev r).
(** What the overriding Hash of each derived class adds. *)
Definition stake_Hash_input (set_stake : bool) (stake : Amount) : list Z :=
  if set_stake then write_u128 stake else [].
Definition body_Hash_input (b : GovernanceBody) : list Z :=
  match b with
  | Proxy lock_proxy rep => write_u128 lock_proxy ++ write_u256 rep
  | Stake stake => write_u128 stake
  | Unstake => []
  | ElectionVote votes => mjoin ((fun v => write_u256 v.1 ++ write_u8 v.2) <$> votes)
  | AnnounceCandidacy set_stake stake bls ecies levy =>
      stake_Hash_input set_stake stake ++ write_array bls ++ write_array ecies ++ write_u8 levy
  | RenounceCandidacy set_stake stake => stake_Hash_input set_stake stake
  | StartRepresenting set_stake stake levy =>
      stake_Hash_input set_stake stake ++ write_u8 levy
  | StopRepresenting set_stake stake => stake_Hash_input set_stake stake
  end.
(** Request::Hash(): the digest, which every constructor computes. *)
Definition GetHash `{Blake2b} (r : Governance) : BlockHash :=
  blake2b (Governance_Hash_input r ++ body_Hash_input (gr_body r)).

(** ** Serialization *)

Definition DoSerialize (r : Governance) : list Z :=
  write_u8 (RequestType.code (gr_type r)) ++ write_u256 (gr_origin r)
  ++ write_u256 (gr_previous r) ++ write_u128 (gr_fee r) ++ write_u32 (gr_sequence r).
Definition Locator_Serialize (l : Locator) : list Z :=
  write_u256 (loc_hash l) ++ write_u16 (loc_index l).
Definition Locator_Deserialize (bs : list Z) : option (Locator * list Z) :=
  h ← read_u256 bs; i ← read_u16 h.2; Some (Build_Locator h.1 i.1, i.2).

Definition Governance_Serialize (r : Governance) : list Z :=
  write_u32 (gr_epoch_num r) ++ write_u256 (gr_governance_subchain_prev r).
Definition Governance_Deserialize (bs : list Z) : option ((Z * BlockHash) * list Z) :=
  e ← read_u32 bs; p ← read_u256 e.2; Some ((e.1, p.1), p.2).

(** [if(set_stake) write(stream, stake)], after the flag; [stake] keeps its
    initial value 0 when the flag is not set. *)
Definition write_stake (set_stake : bool) (stake : Amount) : list Z :=
  write_bool set_stake ++ (if set_stake then write_u128 stake else []).
Definition read_stake (bs : list Z) : option ((bool * Amount) * list Z) :=
  f ← read_bool bs;
  if (f.1 : bool) then s ← read_u128 f.2; Some ((true, s.1), s.2)
  else Some ((false, 0), f.2).

Definition CandidateVotePair_Serialize (v : AccountAddress * Z) : list Z :=
  write_u256 v.1 ++ write_u8 v.2.
Definition CandidateVotePair_Deserialize (bs : list Z)
  : option ((AccountAddress * Z) * list Z) :=
  a ← read_u256 bs; n ← read_u8 a.2; Some ((a.1, n.1), n.2).
Fixpoint read_votes (count : nat) (bs : list Z)
  : option (list (AccountAddress * Z) * list Z) :=
  match count with
  | O => Some ([], bs)
  | S count =>
      v ← CandidateVotePair_Deserialize bs;
      vs ← read_votes count v.2;
      Some (v.1 :: vs.1, vs.2)
  end.

(** What follows the governance fields, in the Serialize of each class. *)
Definition body_Serialize (b : GovernanceBody) (signature : Z) : list Z :=
  match b with
  | Proxy lock_proxy rep =>
      write_u128 lock_proxy ++ write_u256 rep ++ write_u512 signature
  | Stake stake => write_u128 stake ++ write_u512 signature
  | Unstake => write_u512 signature
  | ElectionVote votes =>
      write_u8 (Z.of_nat (length votes))
      ++ mjoin (CandidateVotePair_Serialize <$> votes) ++ write_u512 signature
  | AnnounceCandidacy set_stake stake bls ecies levy =>
      write_stake set_stake stake ++ write_array bls ++ write_string ecies
      ++ write_u8 levy ++ write_u512 signature
  | RenounceCandidacy set_stake stake => write_stake set_stake stake ++ write_u512 signature
  | StartRepresenting set_stake stake levy =>
      write_stake set_stake stake ++ write_u8 levy ++ write_u512 signature
  | StopRepresenting set_stake stake => write_stake set_stake stake ++ write_u512 signature
  end.

(** Proxy::Deserialize forgets the error of its first two reads: the one of the
    signature decides. A read that fails has consumed the rest of the stream. *)
Definition Proxy_Deserialize (bs : list Z) : option ((GovernanceBody * Z) * list Z) :=
  match (a ← read_u128 bs; r ← read_u256 a.2; Some (Proxy a.1 r.1, r.2)) with
  | Some (b, rest) => s ← read_u512 rest; Some ((b, s.1), s.2)
  | None => s ← read_u512 []; Some ((Proxy 0 0, s.1), s.2)
  end.
Definition Stake_Deserialize (bs : list Z) : option ((GovernanceBody * Z) * list Z) :=
  a ← read_u128 bs; s ← read_u512 a.2; Some ((Stake a.1, s.1), s.2).
Definition Unstake_Deserialize (bs : list Z) : option ((GovernanceBody * Z) * list Z) :=
  s ← read_u512 bs; Some ((Unstake, s.1), s.2).
Definition ElectionVote_Deserialize (bs : list Z) : option ((GovernanceBody * Z) * list Z) :=
  n ← read_u8 bs; vs ← read_votes (Z.to_nat n.1) n.2;
  s ← read_u512 vs.2; Some ((ElectionVote vs.1, s.1), s.2).
Definition AnnounceCandidacy_Deserialize (bs : list Z)
  : option ((GovernanceBody * Z) * list Z) :=
  k ← read_stake bs; b ← read_array 64 k.2; e ← read_string b.2; l ← read_u8 e.2;
  s ← read_u512 l.2; Some ((AnnounceCandidacy k.1.1 k.1.2 b.1 e.1 l.1, s.1), s.2).
Definition RenounceCandidacy_Deserialize (bs : list Z)
  : option ((GovernanceBody * Z) * list Z) :=
  k ← read_stake bs; s ← read_u512 k.2; Some ((RenounceCandidacy k.1.1 k.1.2, s.1), s.2).
Definition StartRepresenting_Deserialize (bs : list Z)
  : option ((GovernanceBody * Z) * list Z) :=
  k ← read_stake bs; l ← read_u8 k.2; s ← read_u512 l.2;
  Some ((StartRepresenting k.1.1 k.1.2 l.1, s.1), s.2).
Definition StopRepresenting_Deserialize (bs : list Z)
  : option ((GovernanceBody * Z) * list Z) :=
  k ← read_stake bs; s ← read_u512 k.2; Some ((StopRepresenting k.1.1 k.1.2, s.1), s.2).

(** BuildRequest, on the types of governance requests. *)
Definition body_Deserialize (type : RequestType.t) (bs : list Z)
  : option ((GovernanceBody * Z) * list Z) :=
  match type with
  | RequestType.Proxy => Proxy_Deserialize bs
  | RequestType.Stake => Stake_Deserialize bs
  | RequestType.Unstake => Unstake_Deserialize bs
  | RequestType.ElectionVote => ElectionVote_Deserialize bs
  | RequestType.AnnounceCandidacy => AnnounceCandidacy_Deserialize bs
  | RequestType.RenounceCandidacy => RenounceCandidacy_Deserialize bs
  | RequestType.StartRepresenting => StartRepresenting_Deserialize bs
  | RequestType.StopRepresenting => StopRepresenting_Deserialize bs
  | _ => None
  end.

(** Request::Deserialize: type, origin, previous, fee, sequence. *)
Definition Request_Deserialize (bs : list Z)
  : option ((Z * AccountAddress * BlockHash * Amount * Z) * list Z) :=
  t ← read_u8 bs; o ← read_u256 t.2; p ← read_u256 o.2; f ← read_u128 p.2;
  s ← read_u32 f.2; Some ((t.1, o.1, p.1, f.1, s.1), s.2).

Definition ToStream (r : Governance) : list Z :=
  DoSerialize r ++ Governance_Serialize r ++ body_Serialize (gr_body r) (gr_signature r).
Definition ToDatabase (r : Governance) : list Z :=
  DoSerialize r ++ Locator_Serialize (gr_locator r)
  ++ (Governance_Serialize r ++ body_Serialize (gr_body r) (gr_signature r))
  ++ write_u256 (gr_next r).

(** DeserializeRequest(error, stream): a request from the network has neither
    a locator nor a next request. *)
Definition of_stream (bs : list Z) : option (Governance * list Z) :=
  h ← Request_Deserialize bs;
  let '(code, origin, previous, fee, sequence) := h.1 in
  type ← RequestType.of_code code;
  g ← Governance_Deserialize h.2;
  b ← body_Deserialize type g.2;
  Some (Build_Governance origin previous fee sequence b.1.2 0 (Build_Locator 0 0)
          g.1.1 g.1.2 b.1.1, b.2).
(** DeserializeRequest(error, mdb_val): what DeserializeDB reads; [next] is left
    in the stream. *)
Definition of_database (bs : list Z) : option (Governance * list Z) :=
  h ← Request_Deserialize bs;
  let '(code, origin, previous, fee, sequence) := h.1 in
  type ← RequestType.of_code code;
  l ← Locator_Deserialize h.2;
  g ← Governance_Deserialize l.2;
  b ← body_Deserialize type g.2;
  Some (Build_Governance origin previous fee sequence b.1.2 0 l.1 g.1.1 g.1.2 b.1.1, b.2).

(** ** Round trips *)

(** The widths of the fields, and the length of what a byte counts. *)
Definition stake_wf (set_stake : bool) (stake : Amount) : Prop :=
  if set_stake then in_width 128 stake else stake = 0.
Definition body_wf (b : GovernanceBody) : Prop :=
  match b with
  | Proxy lock_proxy rep => in_width 128 lock_proxy /\ in_width 256 rep
  | Stake stake => in_width 128 stake
  | Unstake => True
  | ElectionVote votes =>
      (length votes < 256)%nat /\
      Forall (fun v => in_width 256 v.1 /\ in_width 8 v.2) votes
  | AnnounceCandidacy set_stake stake bls ecies levy =>
      stake_wf set_stake stake /\ length bls = 64%nat /\ (length ecies < 256)%nat /\
      in_width 8 levy
  | RenounceCandidacy set_stake stake | StopRepresenting set_stake stake =>
      stake_wf set_stake stake
  | StartRepresenting set_stake stake levy => stake_wf set_stake stake /\ in_width 8 levy
  end.
Definition Governance_wf (r : Governance) : Prop :=
  in_width 256 (gr_origin r) /\ in_width 256 (gr_previous r) /\ in_width 128 (gr_fee r) /\
  in_width 32 (gr_sequence r) /\ in_width 512 (gr_signature r) /\
  in_width 256 (gr_next r) /\ in_width 256 (loc_hash (gr_locator r)) /\
  in_width 16 (loc_index (gr_locator r)) /\ in_width 32 (gr_epoch_num r) /\
  in_width 256 (gr_governance_subchain_prev r) /\ body_wf (gr_body r).

Lemma code_width x : in_width 8 (RequestType.code x).
Proof. by destruct x. Qed.

Lemma read_write_stake set_stake stake rest :
  stake_wf set_stake stake ->
  read_stake (write_stake set_stake stake ++ rest) = Some ((set_stake, stake), rest).
Proof.
  rw /read_stake /write_stake. destruct set_stake; intros Hw; read_back; [done|].
  by rw Hw.
Qed.

Lemma read_write_votes votes rest :
  Forall (fun v => in_width 256 v.1 /\ in_width 8 v.2) votes ->
  read_votes (length votes) (mjoin (CandidateVotePair_Serialize <$> votes) ++ rest)
  = Some (votes, rest).
Proof.
  induction 1 as [|[a n] votes [Ha Hn] _ IH]; [done|].
  cbn [length read_votes fmap list_fmap mjoin list_join].
  rw {1}/CandidateVotePair_Deserialize {1}/CandidateVotePair_Serialize. cbn [fst snd] in *.
  read_back. by rw IH.
Qed.

Lemma body_roundtrip b signature rest :
  body_wf b -> in_width 512 signature ->
  body_Deserialize (body_type b) (body_Serialize b signature ++ rest)
  = Some ((b, signature), rest).
Proof.
  intros Hb Hs. destruct b; cbn [body_type body_Deserialize body_Serialize body_wf] in *;
    rw ?/Proxy_Deserialize ?/Stake_Deserialize ?/Unstake_Deserialize ?/ElectionVote_Deserialize
       ?/AnnounceCandidacy_Deserialize ?/RenounceCandidacy_Deserialize
       ?/StartRepresenting_Deserialize ?/StopRepresenting_Deserialize;
    destruct_and?; read_back;
    rw ?read_write_stake //; cbn [mbind option_bind fst snd]; read_back; try done.
  rw read_write_u8; [cbn [mbind option_bind fst snd]|rw /in_width; lia].
  rw Nat2Z.id read_write_votes //. cbn [mbind option_bind fst snd]. by read_back.
Qed.

Lemma header_roundtrip r rest :
  Governance_wf r ->
  Request_Deserialize (DoSerialize r ++ rest)
  = Some ((RequestType.code (gr_type r), gr_origin r, gr_previous r, gr_fee r, gr_sequence r),
          rest).
Proof.
  intros (? & ? & ? & ? & _). pose proof (code_width (gr_type r)).
  rw /Request_Deserialize /DoSerialize. by read_back.
Qed.

(** What is known of a request when it has been read from a stream. *)
Definition with_locator (l : Locator) (r : Governance) : Governance :=
  Build_Governance (gr_origin r) (gr_previous r) (gr_fee r) (gr_sequence r) (gr_signature r)
    0 l (gr_epoch_num r) (gr_governance_subchain_prev r) (gr_body r).

Lemma governance_fields_roundtrip r rest :
  Governance_wf r ->
  Governance_Deserialize (Governance_Serialize r ++ rest)
  = Some ((gr_epoch_num r, gr_governance_subchain_prev r), rest).
Proof.
  intros (_ & _ & _ & _ & _ & _ & _ & _ & ? & ? & _).
  rw /Governance_Deserialize /Governance_Serialize. by read_back.
Qed.

(** A governance request of any type reads back from the network and from
    the database as it was written, whatever follows it, with its locator in
    the second case; [next], which the database keeps, is never read back. *)
Lemma governance_requests_roundtrip r rest :
  Governance_wf r ->
  of_stream (ToStream r ++ rest) = Some (with_locator (Build_Locator 0 0) r, rest) /\
  of_database (ToDatabase r ++ rest)
  = Some (with_locator (gr_locator r) r, write_u256 (gr_next r) ++ rest).
Proof.
  intros Hr. pose proof Hr as (_ & _ & _ & _ & Hs & _ & Hlh & Hli & _ & _ & Hb).
  split; rw /of_stream /of_database /ToStream /ToDatabase -!app_assoc header_roundtrip //;
    cbn [mbind option_bind fst snd]; rw RequestType.of_code_code; cbn [mbind option_bind fst snd].
  - by rw governance_fields_roundtrip //= body_roundtrip.
  - rw /Locator_Serialize /Locator_Deserialize. read_back.
    rw governance_fields_roundtrip //= body_roundtrip //. by destruct (gr_locator r).
Qed.

(** A proxy, as it is stored. *)
Definition some_proxy : Governance :=
  Build_Governance 7 11 100 3 99 12 (Build_Locator 5 1) 60 0 (Proxy 1000 8).
Lemma governance_requests_roundtrip_witness :
  Governance_wf some_proxy /\
  of_stream (ToStream some_proxy ++ [])
  = Some (with_locator (Build_Locator 0 0) some_proxy, []) /\
  of_database (ToDatabase some_proxy ++ [])
  = Some (with_locator (gr_locator some_proxy) some_proxy, write_u256 12 ++ []).
Proof.
  assert (Governance_wf some_proxy) as Hw.
  { by repeat split. }
  split; [exact Hw|exact (governance_requests_roundtrip some_proxy [] Hw)].
Defined.

(** ** The digest identifies the request *)

(** Requests with one digest have the same type, origin, epoch and
    predecessor in the governance chain. *)
Lemma GetHash_inj `{!Blake2b, !Blake2bCollisionFree _} r r' :
  Governance_wf r -> Governance_wf r' -> GetHash r = GetHash r' ->
  gr_type r = gr_type r' /\ gr_origin r = gr_origin r' /\
  gr_epoch_num r = gr_epoch_num r' /\
  gr_governance_subchain_prev r = gr_governance_subchain_prev r'.
Proof.
  intros (Ho & _ & _ & _ & _ & _ & _ & _ & He & Hp & _)
         (Ho' & _ & _ & _ & _ & _ & _ & _ & He' & Hp' & _).
  rw /GetHash => /blake2b_inj. rw /Governance_Hash_input /Request_Hash_input -!app_assoc.
  intros [Ht Hr]%app_inj_length; [|by rw !length_le_bytes].
  move: Hr. intros [->%write_u256_inj Hr]%app_inj_length; rw ?length_be_bytes //.
  move: Hr. intros [_ Hr]%app_inj_length; [|by rw !length_be_bytes].
  move: Hr. intros [_ Hr]%app_inj_length; [|by rw !length_be_bytes].
  move: Hr. intros [_ Hr]%app_inj_length; [|by rw !length_le_bytes].
  move: Hr. intros [->%write_u32_inj Hr]%app_inj_length; rw ?length_le_bytes //.
  move: Hr. intros [->%write_u256_inj _]%app_inj_length; rw ?length_be_bytes //.
  apply (f_equal le_val) in Ht. move: Ht.
  rw /write_u8 !le_val_bytes !Z.mod_small; [|by apply code_width..].
  intros Hc. split; [|done].
  enough (Some (gr_type r) = Some (gr_type r')) by congruence.
  by rw -!RequestType.of_code_code Hc.
Qed.
