(* ===== verification/Epochs.v ===== *)
(** * Records of elections and epochs

    Candidates and representatives (src/logos/elections), the tips of the
    chains of blocks (consensus/messages/tip.cpp), the delegates an epoch block
    names and the block itself (epoch/epoch.hpp), and the rewards of an epoch
    (rewards/epoch_rewards.hpp). *)
From stdpp Require Import base list numbers ssreflect.
From Stdlib Require Import QArith.QArith_base.
From S2P Require Import Prelude Serial StakingTypes Requests.
Open Scope Z_scope.

(** static const size_t NUM_DELEGATES = 32; (consensus/messages/common.hpp) *)
Definition NUM_DELEGATES : Z := 32.
(** EpochVotingManager::TERM_LENGTH, START_ELECTIONS_EPOCH *)
Definition TERM_LENGTH : Z := 4.
Definition START_ELECTIONS_EPOCH : Z := 50.
(** governance/requests.hpp *)
Definition MAX_VOTES : Z := 8.
Definition MIN_REP_STAKE : Amount := (2 ^ 128 - 1) / 10000.
Definition MIN_DELEGATE_STAKE : Amount := (2 ^ 128 - 1) / 1000.

(** ** Candidates *)
Record CandidateInfo := {
  votes_received_weighted : Amount;
  c_bls_key : list Z;
  c_ecies_key : list Z;
  cur_stake : Amount;
  next_stake : Amount;
  c_epoch_modified : Z;
  c_levy_percentage : Z;
}.
(** CandidateInfo(): an ECIES key that has not been set is the point (0, 0). *)
Definition CandidateInfo_default : CandidateInfo :=
  Build_CandidateInfo 0 (replicate 64 0) (replicate 64 0) 0 0 0 100.
(** CandidateInfo(AnnounceCandidacy const &) *)
Definition CandidateInfo_of (set_stake : bool) (stake : Amount) (bls ecies : list Z)
    (levy : Z) (epoch_num : Z) : CandidateInfo :=
  Build_CandidateInfo 0 bls ecies 0 (if set_stake then stake else 0) epoch_num levy.
Definition set_next_stake (a : Amount) (c : CandidateInfo) : CandidateInfo :=
  Build_CandidateInfo (votes_received_weighted c) (c_bls_key c) (c_ecies_key c) (cur_stake c)
    a (c_epoch_modified c) (c_levy_percentage c).
Definition set_cur_stake (a : Amount) (c : CandidateInfo) : CandidateInfo :=
  Build_CandidateInfo (votes_received_weighted c) (c_bls_key c) (c_ecies_key c) a
    (next_stake c) (c_epoch_modified c) (c_levy_percentage c).
Definition add_votes (v : Amount) (c : CandidateInfo) : CandidateInfo :=
  Build_CandidateInfo (amt_add (votes_received_weighted c) v) (c_bls_key c) (c_ecies_key c)
    (cur_stake c) (next_stake c) (c_epoch_modified c) (c_levy_percentage c).
(** CandidateInfo::TransitionIfNecessary: the first change of an epoch drops the
    votes of the earlier one and makes the next stake current. *)
Definition Candidate_TransitionIfNecessary (cur_epoch : Z) (c : CandidateInfo)
  : CandidateInfo :=
  if c_epoch_modified c <? cur_epoch then
    Build_CandidateInfo 0 (c_bls_key c) (c_ecies_key c) (next_stake c) (next_stake c)
      cur_epoch (c_levy_percentage c)
  else c.

Definition CandidateInfo_serialize (c : CandidateInfo) : list Z :=
  write_u128 (votes_received_weighted c) ++ write_array (c_bls_key c)
  ++ write_string (c_ecies_key c) ++ write_u128 (cur_stake c) ++ write_u128 (next_stake c)
  ++ write_u32 (c_epoch_modified c) ++ write_u8 (c_levy_percentage c).
Definition CandidateInfo_deserialize (bs : list Z) : option (CandidateInfo * list Z) :=
  v ← read_u128 bs; b ← read_array 64 v.2; e ← read_string b.2; c ← read_u128 e.2;
  n ← read_u128 c.2; m ← read_u32 n.2; l ← read_u8 m.2;
  Some (Build_CandidateInfo v.1 b.1 e.1 c.1 n.1 m.1 l.1, l.2).
Definition CandidateInfo_wf (c : CandidateInfo) : Prop :=
  in_width 128 (votes_received_weighted c) /\ length (c_bls_key c) = 64%nat /\
  (length (c_ecies_key c) < 256)%nat /\ in_width 128 (cur_stake c) /\
  in_width 128 (next_stake c) /\ in_width 32 (c_epoch_modified c) /\
  in_width 8 (c_levy_percentage c).

(** ** Representatives *)

(** RepInfo(StartRepresenting const &), RepInfo(AnnounceCandidacy const &) *)
Definition RepInfo_of_start (hash : BlockHash) (levy : Z) : RepInfo :=
  Build_RepInfo 0 0 hash levy.
Definition RepInfo_of_announce (hash : BlockHash) (levy : Z) : RepInfo :=
  Build_RepInfo hash 0 hash levy.
Definition set_candidacy_action_tip (h : BlockHash) (r : RepInfo) : RepInfo :=
  Build_RepInfo h (election_vote_tip r) (rep_action_tip r) (rep_levy_percentage r).
Definition set_election_vote_tip (h : BlockHash) (r : RepInfo) : RepInfo :=
  Build_RepInfo (candidacy_action_tip r) h (rep_action_tip r) (rep_levy_percentage r).
Definition set_rep_action_tip (h : BlockHash) (r : RepInfo) : RepInfo :=
  Build_RepInfo (candidacy_action_tip r) (election_vote_tip r) h (rep_levy_percentage r).

Definition RepInfo_serialize (r : RepInfo) : list Z :=
  write_u256 (candidacy_action_tip r) ++ write_u256 (rep_action_tip r)
  ++ write_u256 (election_vote_tip r) ++ write_u8 (rep_levy_percentage r).
Definition RepInfo_deserialize (bs : list Z) : option (RepInfo * list Z) :=
  c ← read_u256 bs; a ← read_u256 c.2; v ← read_u256 a.2; l ← read_u8 v.2;
  Some (Build_RepInfo c.1 v.1 a.1 l.1, l.2).
Definition RepInfo_wf (r : RepInfo) : Prop :=
  in_width 256 (candidacy_action_tip r) /\ in_width 256 (election_vote_tip r) /\
  in_width 256 (rep_action_tip r) /\ in_width 8 (rep_levy_percentage r).

(** ** Tips, delegates and epoch blocks *)
Record Tip := { tip_epoch : Z; tip_sqn : Z; digest : BlockHash }.
Definition Tip_Serialize (t : Tip) : list Z :=
  write_u32 (tip_epoch t) ++ write_u32 (tip_sqn t) ++ write_u256 (digest t).
Definition Tip_Deserialize (bs : list Z) : option (Tip * list Z) :=
  e ← read_u32 bs; s ← read_u32 e.2; d ← read_u256 s.2;
  Some (Build_Tip e.1 s.1 d.1, d.2).
Definition Tip_wf (t : Tip) : Prop :=
  in_width 32 (tip_epoch t) /\ in_width 32 (tip_sqn t) /\ in_width 256 (digest t).

Record Delegate := {
  d_account : AccountAddress;
  bls_pub : list Z;
  ecies_pub : list Z;
  raw_vote : Amount;
  raw_stake : Amount;
  d_vote : Amount;
  d_stake : Amount;
  starting_term : bool;
}.
#[global] Instance Delegate_eq_dec : EqDecision Delegate.
Proof. solve_decision. Defined.
Definition Delegate_default : Delegate :=
  Build_Delegate 0 (replicate 64 0) (replicate 64 0) 0 0 0 0 false.
(** Delegate(account, bls_pub, ecies_pub, vote, stake, starting_term) *)
Definition new_delegate (account : AccountAddress) (bls ecies : list Z) (vote stake : Amount)
    (starting : bool) : Delegate :=
  Build_Delegate account bls ecies vote stake vote stake starting.
Definition set_starting_term (b : bool) (d : Delegate) : Delegate :=
  Build_Delegate (d_account d) (bls_pub d) (ecies_pub d) (raw_vote d) (raw_stake d)
    (d_vote d) (d_stake d) b.
Definition set_d_vote (v : Amount) (d : Delegate) : Delegate :=
  Build_Delegate (d_account d) (bls_pub d) (ecies_pub d) (raw_vote d) (raw_stake d)
    v (d_stake d) (starting_term d).
Definition set_d_stake (v : Amount) (d : Delegate) : Delegate :=
  Build_Delegate (d_account d) (bls_pub d) (ecies_pub d) (raw_vote d) (raw_stake d)
    (d_vote d) v (starting_term d).

(** Delegate::Hash: whether the term starts is not hashed. *)
Definition Delegate_Hash_input (d : Delegate) : list Z :=
  write_u256 (d_account d) ++ write_array (bls_pub d) ++ write_array (ecies_pub d)
  ++ write_u128 (raw_vote d) ++ write_u128 (raw_stake d)
  ++ write_u128 (d_vote d) ++ write_u128 (d_stake d).
Definition Delegate_Hash `{Blake2b} (d : Delegate) : BlockHash :=
  blake2b (Delegate_Hash_input d).

Definition Delegate_Serialize (d : Delegate) : list Z :=
  write_u256 (d_account d) ++ write_array (bls_pub d) ++ write_string (ecies_pub d)
  ++ write_u128 (raw_vote d) ++ write_u128 (raw_stake d)
  ++ write_u128 (d_vote d) ++ write_u128 (d_stake d) ++ write_bool (starting_term d).
Definition Delegate_Deserialize (bs : list Z) : option (Delegate * list Z) :=
  a ← read_u256 bs; b ← read_array 64 a.2; e ← read_string b.2;
  rv ← read_u128 e.2; rs ← read_u128 rv.2; v ← read_u128 rs.2; s ← read_u128 v.2;
  t ← read_bool s.2;
  Some (Build_Delegate a.1 b.1 e.1 rv.1 rs.1 v.1 s.1 t.1, t.2).
Definition Delegate_wf (d : Delegate) : Prop :=
  in_width 256 (d_account d) /\ length (bls_pub d) = 64%nat /\
  (length (ecies_pub d) < 256)%nat /\ in_width 128 (raw_vote d) /\
  in_width 128 (raw_stake d) /\ in_width 128 (d_vote d) /\ in_width 128 (d_stake d).

(** An approved epoch block: what the ledger uses of it. *)
Record ApprovedEB := {
  eb_previous : BlockHash;
  eb_epoch_number : Z;
  eb_micro_block_tip : Tip;
  eb_transaction_fee_pool : Amount;
  eb_total_supply : Amount;
  eb_delegates : list Delegate;
  eb_total_RBs : Z;
  eb_is_extension : bool;
  eb_timestamp : Z;
}.

(** ** Rewards *)
Record RewardsInfo := {
  rw_initialized : bool;
  rw_levy_percentage : Z;
  rw_total_stake : Amount;
  rw_self_stake : Amount;
  rw_remaining_reward : Q;
  rw_total_reward : Q;
}.
Record GlobalRewardsInfo := {
  gl_total_stake : Amount;
  gl_remaining_reward : Q;
  gl_total_reward : Amount;
}.
Definition GlobalRewardsInfo_default : GlobalRewardsInfo :=
  Build_GlobalRewardsInfo 0 (0 # 1) 0.
Record RepEpochInfo := {
  re_levy_percentage : Z;
  re_epoch_number : Z;
  re_total_stake : Amount;
  re_self_stake : Amount;
}.

(** ** Round trips *)
Lemma CandidateInfo_roundtrip c rest :
  CandidateInfo_wf c ->
  CandidateInfo_deserialize (CandidateInfo_serialize c ++ rest) = Some (c, rest).
Proof.
  intros (? & ? & ? & ? & ? & ? & ?). rw /CandidateInfo_deserialize /CandidateInfo_serialize.
  read_back. by destruct c.
Qed.
Lemma RepInfo_roundtrip r rest :
  RepInfo_wf r -> RepInfo_deserialize (RepInfo_serialize r ++ rest) = Some (r, rest).
Proof.
  intros (? & ? & ? & ?). rw /RepInfo_deserialize /RepInfo_serialize. read_back. by destruct r.
Qed.
Lemma Tip_roundtrip t rest :
  Tip_wf t -> Tip_Deserialize (Tip_Serialize t ++ rest) = Some (t, rest).
Proof.
  intros (? & ? & ?). rw /Tip_Deserialize /Tip_Serialize. read_back. by destruct t.
Qed.
Lemma Delegate_roundtrip d rest :
  Delegate_wf d -> Delegate_Deserialize (Delegate_Serialize d ++ rest) = Some (d, rest).
Proof.
  intros (? & ? & ? & ? & ? & ? & ?). rw /Delegate_Deserialize /Delegate_Serialize.
  read_back. by destruct d.
Qed.

(** The records of elections and epochs read back as they were written,
    whatever follows them in the stream. *)
Lemma election_records_roundtrip :
  (forall c rest, CandidateInfo_wf c ->
     CandidateInfo_deserialize (CandidateInfo_serialize c ++ rest) = Some (c, rest)) /\
  (forall r rest, RepInfo_wf r ->
     RepInfo_deserialize (RepInfo_serialize r ++ rest) = Some (r, rest)) /\
  (forall t rest, Tip_wf t -> Tip_Deserialize (Tip_Serialize t ++ rest) = Some (t, rest)) /\
  (forall d rest, Delegate_wf d ->
     Delegate_Deserialize (Delegate_Serialize d ++ rest) = Some (d, rest)).
Proof.
  split_and!;
    auto using CandidateInfo_roundtrip, RepInfo_roundtrip, Tip_roundtrip, Delegate_roundtrip.
Qed.

(** Delegates that hash alike agree on everything that is hashed. *)
Lemma Delegate_Hash_inj `{!Blake2b, !Blake2bCollisionFree _} d d' :
  Delegate_wf d -> Delegate_wf d' -> length (ecies_pub d) = length (ecies_pub d') ->
  Delegate_Hash d = Delegate_Hash d' -> set_starting_term false d = set_starting_term false d'.
Proof.
  intros (? & ? & ? & ? & ? & ? & ?) (? & ? & ? & ? & ? & ? & ?) Hk.
  rw /Delegate_Hash => /blake2b_inj. rw /Delegate_Hash_input /set_starting_term.
  assert (forall x y, in_width 128 x -> in_width 128 y ->
            write_u128 x = write_u128 y -> x = y) as Hinj.
  { intros x y Hx Hy Heq%(f_equal be_val). move: Heq.
    rw /write_u128 !be_val_bytes !Z.mod_small //. }
  intros [->%write_u256_inj Hr]%app_inj_length; rw ?length_be_bytes //.
  move: Hr. intros [Hb Hr]%app_inj_length; [|rw /write_array; congruence].
  move: Hr. intros [He Hr]%app_inj_length; [|done].
  move: Hr. intros [->%Hinj Hr]%app_inj_length; rw ?length_be_bytes //.
  move: Hr. intros [->%Hinj Hr]%app_inj_length; rw ?length_be_bytes //.
  move: Hr. intros [->%Hinj ->%Hinj]%app_inj_length; rw ?length_be_bytes //.
  rw /write_array in Hb, He. by rw Hb He.
Qed.
