(* ===== verification/BlockStore.v ===== *)
(** * The tables of the block store (src/logos/blockstore.cpp)

    The store holds the LMDB tables that staking, elections and rewards read
    and write, with the members of [block_store] that cache the lowest leading
    candidate;
    each operation below is the member function of [logos::block_store] of the
    same name. The [put] functions halt on an LMDB error, which the interface
    does not produce; the [del] functions report whether the key was missing. *)
From stdpp Require Import base list numbers strings ssreflect.
From S2P Require Import Prelude Serial Lmdb StakingTypes Requests Epochs.
Open Scope Z_scope.

(** The tables of elections, epochs and rewards. The tables of what is to be
    removed keep their accounts under the key 0, the epoch tip is under 0. *)
Record ElectionTables `{Lmdb} := {
  candidacy_db : table CandidateInfo;
  leading_candidates_db : table CandidateInfo;
  remove_candidates_db : dtable AccountAddress hash_serial;
  remove_reps_db : dtable AccountAddress hash_serial;
  epoch_db : table ApprovedEB;
  epoch_tip_db : table Tip;
  rewards_db : table RewardsInfo;
  global_rewards_db : table GlobalRewardsInfo;
  delegate_rewards_db : table Amount;
  leading_candidates_size : Z;
  min_leading_candidate : AccountAddress * CandidateInfo;
}.

Record Store `{Lmdb} := {
  staking_db : table StakedFunds;
  thawing_db : dtable ThawingFunds _;
  master_liabilities_db : table Liability;
  rep_liabilities_db : dtable LiabilityHash hash_serial;
  secondary_liabilities_db : dtable LiabilityHash hash_serial;
  voting_power_db : table VotingPowerInfo;
  voting_power_fallback_db : table VotingPowerFallback;
  representative_db : table RepInfo;
  request_db : table Governance;
  elections : ElectionTables;
}.

Section Tables.
Context {L : Lmdb}.

Definition no_elections : ElectionTables := {|
  candidacy_db := mdb_empty; leading_candidates_db := mdb_empty;
  remove_candidates_db := dup_empty; remove_reps_db := dup_empty;
  epoch_db := mdb_empty; epoch_tip_db := mdb_empty; rewards_db := mdb_empty;
  global_rewards_db := mdb_empty; delegate_rewards_db := mdb_empty;
  leading_candidates_size := 0; min_leading_candidate := (0, CandidateInfo_default) |}.
Definition empty_store : Store := {|
  staking_db := mdb_empty; thawing_db := dup_empty;
  master_liabilities_db := mdb_empty; rep_liabilities_db := dup_empty;
  secondary_liabilities_db := dup_empty; voting_power_db := mdb_empty;
  voting_power_fallback_db := mdb_empty; representative_db := mdb_empty;
  request_db := mdb_empty; elections := no_elections |}.

Definition set_staking_db t (s : Store) : Store :=
  Build_Store L t (thawing_db s) (master_liabilities_db s) (rep_liabilities_db s)
    (secondary_liabilities_db s) (voting_power_db s) (voting_power_fallback_db s)
    (representative_db s) (request_db s) (elections s).
Definition set_thawing_db t (s : Store) : Store :=
  Build_Store L (staking_db s) t (master_liabilities_db s) (rep_liabilities_db s)
    (secondary_liabilities_db s) (voting_power_db s) (voting_power_fallback_db s)
    (representative_db s) (request_db s) (elections s).
Definition set_master_liabilities_db t (s : Store) : Store :=
  Build_Store L (staking_db s) (thawing_db s) t (rep_liabilities_db s)
    (secondary_liabilities_db s) (voting_power_db s) (voting_power_fallback_db s)
    (representative_db s) (request_db s) (elections s).
Definition set_rep_liabilities_db t (s : Store) : Store :=
  Build_Store L (staking_db s) (thawing_db s) (master_liabilities_db s) t
    (secondary_liabilities_db s) (voting_power_db s) (voting_power_fallback_db s)
    (representative_db s) (request_db s) (elections s).
Definition set_secondary_liabilities_db t (s : Store) : Store :=
  Build_Store L (staking_db s) (thawing_db s) (master_liabilities_db s)
    (rep_liabilities_db s) t (voting_power_db s) (voting_power_fallback_db s)
    (representative_db s) (request_db s) (elections s).
Definition set_voting_power_db t (s : Store) : Store :=
  Build_Store L (staking_db s) (thawing_db s) (master_liabilities_db s)
    (rep_liabilities_db s) (secondary_liabilities_db s) t (voting_power_fallback_db s)
    (representative_db s) (request_db s) (elections s).
Definition set_voting_power_fallback_db t (s : Store) : Store :=
  Build_Store L (staking_db s) (thawing_db s) (master_liabilities_db s)
    (rep_liabilities_db s) (secondary_liabilities_db s) (voting_power_db s) t
    (representative_db s) (request_db s) (elections s).

Definition set_representative_db t (s : Store) : Store :=
  Build_Store L (staking_db s) (thawing_db s) (master_liabilities_db s)
    (rep_liabilities_db s) (secondary_liabilities_db s) (voting_power_db s)
    (voting_power_fallback_db s) t (request_db s) (elections s).
Definition set_request_db t (s : Store) : Store :=
  Build_Store L (staking_db s) (thawing_db s) (master_liabilities_db s)
    (rep_liabilities_db s) (secondary_liabilities_db s) (voting_power_db s)
    (voting_power_fallback_db s) (representative_db s) t (elections s).
Definition set_elections e (s : Store) : Store :=
  Build_Store L (staking_db s) (thawing_db s) (master_liabilities_db s)
    (rep_liabilities_db s) (secondary_liabilities_db s) (voting_power_db s)
    (voting_power_fallback_db s) (representative_db s) (request_db s) e.
Definition set_candidacy_db t (e : ElectionTables) : ElectionTables :=
  Build_ElectionTables L t (leading_candidates_db e) (remove_candidates_db e)
    (remove_reps_db e) (epoch_db e) (epoch_tip_db e) (rewards_db e)
    (global_rewards_db e) (delegate_rewards_db e) (leading_candidates_size e) (min_leading_candidate e).
Definition set_leading_candidates_db t (e : ElectionTables) : ElectionTables :=
  Build_ElectionTables L (candidacy_db e) t (remove_candidates_db e)
    (remove_reps_db e) (epoch_db e) (epoch_tip_db e) (rewards_db e)
    (global_rewards_db e) (delegate_rewards_db e) (leading_candidates_size e) (min_leading_candidate e).
Definition set_remove_candidates_db t (e : ElectionTables) : ElectionTables :=
  Build_ElectionTables L (candidacy_db e) (leading_candidates_db e) t
    (remove_reps_db e) (epoch_db e) (epoch_tip_db e) (rewards_db e)
    (global_rewards_db e) (delegate_rewards_db e) (leading_candidates_size e) (min_leading_candidate e).
Definition set_remove_reps_db t (e : ElectionTables) : ElectionTables :=
  Build_ElectionTables L (candidacy_db e) (leading_candidates_db e) (remove_candidates_db e)
    t (epoch_db e) (epoch_tip_db e) (rewards_db e)
    (global_rewards_db e) (delegate_rewards_db e) (leading_candidates_size e) (min_leading_candidate e).
Definition set_epoch_db t (e : ElectionTables) : ElectionTables :=
  Build_ElectionTables L (candidacy_db e) (leading_candidates_db e) (remove_candidates_db e)
    (remove_reps_db e) t (epoch_tip_db e) (rewards_db e)
    (global_rewards_db e) (delegate_rewards_db e) (leading_candidates_size e) (min_leading_candidate e).
Definition set_epoch_tip_db t (e : ElectionTables) : ElectionTables :=
  Build_ElectionTables L (candidacy_db e) (leading_candidates_db e) (remove_candidates_db e)
    (remove_reps_db e) (epoch_db e) t (rewards_db e)
    (global_rewards_db e) (delegate_rewards_db e) (leading_candidates_size e) (min_leading_candidate e).
Definition set_rewards_db t (e : ElectionTables) : ElectionTables :=
  Build_ElectionTables L (candidacy_db e) (leading_candidates_db e) (remove_candidates_db e)
    (remove_reps_db e) (epoch_db e) (epoch_tip_db e) t
    (global_rewards_db e) (delegate_rewards_db e) (leading_candidates_size e) (min_leading_candidate e).
Definition set_global_rewards_db t (e : ElectionTables) : ElectionTables :=
  Build_ElectionTables L (candidacy_db e) (leading_candidates_db e) (remove_candidates_db e)
    (remove_reps_db e) (epoch_db e) (epoch_tip_db e) (rewards_db e)
    t (delegate_rewards_db e) (leading_candidates_size e) (min_leading_candidate e).
Definition set_delegate_rewards_db t (e : ElectionTables) : ElectionTables :=
  Build_ElectionTables L (candidacy_db e) (leading_candidates_db e) (remove_candidates_db e)
    (remove_reps_db e) (epoch_db e) (epoch_tip_db e) (rewards_db e)
    (global_rewards_db e) t (leading_candidates_size e) (min_leading_candidate e).
Definition set_leading_candidates_size t (e : ElectionTables) : ElectionTables :=
  Build_ElectionTables L (candidacy_db e) (leading_candidates_db e) (remove_candidates_db e)
    (remove_reps_db e) (epoch_db e) (epoch_tip_db e) (rewards_db e)
    (global_rewards_db e) (delegate_rewards_db e) t (min_leading_candidate e).
Definition set_min_leading_candidate t (e : ElectionTables) : ElectionTables :=
  Build_ElectionTables L (candidacy_db e) (leading_candidates_db e) (remove_candidates_db e)
    (remove_reps_db e) (epoch_db e) (epoch_tip_db e) (rewards_db e)
    (global_rewards_db e) (delegate_rewards_db e) (leading_candidates_size e) t.

(** [status != 0] of [mdb_del] on a plain table: the key is missing. *)
Definition missing {V} (k : Z) (t : table V) : bool :=
  match mdb_get k t with Some _ => false | None => true end.

(** ** Staked and thawing funds *)
Definition stake_put (account : AccountAddress) (funds : StakedFunds) : M Store unit :=
  modify (fun s => set_staking_db (mdb_put account funds (staking_db s)) s).
Definition stake_get (account : AccountAddress) : M Store (option StakedFunds) :=
  gets (fun s => mdb_get account (staking_db s)).
Definition stake_del (account : AccountAddress) : M Store bool :=
  err ← gets (fun s => missing account (staking_db s));
  modify (fun s => set_staking_db (mdb_del account (staking_db s)) s);;
  mret err.

Definition thawing_put (account : AccountAddress) (funds : ThawingFunds) : M Store unit :=
  modify (fun s => set_thawing_db (dup_put account funds (thawing_db s)) s).
Definition thawing_del (account : AccountAddress) (funds : ThawingFunds) : M Store unit :=
  modify (fun s => set_thawing_db (dup_del account funds (thawing_db s)) s).
(** The records a cursor positioned on [account] visits before its key changes. *)
Definition thawing_range (account : AccountAddress) : M Store (list ThawingFunds) :=
  gets (fun s => dup_get account (thawing_db s)).
(** [mdb_cursor_put] with [MDB_CURRENT]: replaces the record under the cursor. *)
Definition thawing_replace (account : AccountAddress) (old new : ThawingFunds)
  : M Store unit :=
  modify (fun s => set_thawing_db
                     (dup_put account new (dup_del account old (thawing_db s))) s).

(** ** Liabilities *)
Definition liability_get (hash : LiabilityHash) : M Store (option Liability) :=
  gets (fun s => mdb_get hash (master_liabilities_db s)).
Definition liability_exists (hash : LiabilityHash) : M Store bool :=
  gets (fun s => negb (missing hash (master_liabilities_db s))).

Definition liability_put (hash : LiabilityHash) (l : Liability) : M Store unit :=
  existing ← liability_get hash;
  match existing with
  | Some e =>
      let e' := Build_Liability (l_target e) (l_source e) (amt_add (l_amount e) (l_amount l))
                  (l_expiration_epoch e) (l_is_secondary e) in
      modify (fun s => set_master_liabilities_db
                         (mdb_put hash e' (master_liabilities_db s)) s)
  | None =>
      modify (fun s => set_master_liabilities_db
                         (mdb_put hash l (master_liabilities_db s)) s);;
      modify (fun s => set_rep_liabilities_db
                         (dup_put (l_target l) hash (rep_liabilities_db s)) s)
  end.

Definition liability_update_amount (hash : LiabilityHash) (amount : Amount)
  : M Store unit :=
  l ← liability_get hash;
  match l with
  | None => halt "LiabilityManager::UpdateLiabilityAmount"
  | Some l =>
      let l' := Build_Liability (l_target l) (l_source l) amount
                  (l_expiration_epoch l) (l_is_secondary l) in
      modify (fun s => set_master_liabilities_db
                         (mdb_put hash l' (master_liabilities_db s)) s)
  end.

Definition secondary_liability_put (source : AccountAddress) (hash : LiabilityHash)
  : M Store unit :=
  modify (fun s => set_secondary_liabilities_db
                     (dup_put source hash (secondary_liabilities_db s)) s).

(** The status of [mdb_del] on a duplicate pair: it is not there. *)
Definition dup_missing (k : Z) (h : LiabilityHash) (t : dtable LiabilityHash hash_serial)
  : bool := negb (bool_decide (h ∈ dup_get k t)).

Definition liability_del (hash : LiabilityHash) : M Store unit :=
  l ← liability_get hash;
  match l with
  | None => halt "block_store::liability_del"
  | Some l =>
      err ← gets (fun s => dup_missing (l_target l) hash (rep_liabilities_db s));
      modify (fun s => set_rep_liabilities_db
                         (dup_del (l_target l) hash (rep_liabilities_db s)) s);;
      modify (fun s => set_master_liabilities_db
                         (mdb_del hash (master_liabilities_db s)) s);;
      massert (negb err) "block_store::liability_del"
  end.

Definition secondary_liability_del (hash : LiabilityHash) : M Store unit :=
  l ← liability_get hash;
  match l with
  | None => halt "block_store::secondary_liability_del"
  | Some l =>
      err ← gets (fun s => dup_missing (l_source l) hash (secondary_liabilities_db s));
      modify (fun s => set_secondary_liabilities_db
                         (dup_del (l_source l) hash (secondary_liabilities_db s)) s);;
      modify (fun s => set_master_liabilities_db
                         (mdb_del hash (master_liabilities_db s)) s);;
      massert (negb err) "block_store::secondary_liability_del"
  end.

(** ** Voting power *)
Definition voting_power_get (rep : AccountAddress) : M Store (option VotingPowerInfo) :=
  gets (fun s => mdb_get rep (voting_power_db s)).
Definition voting_power_put (rep : AccountAddress) (info : VotingPowerInfo)
  : M Store unit :=
  modify (fun s => set_voting_power_db (mdb_put rep info (voting_power_db s)) s).
Definition voting_power_del (rep : AccountAddress) : M Store bool :=
  err ← gets (fun s => missing rep (voting_power_db s));
  modify (fun s => set_voting_power_db (mdb_del rep (voting_power_db s)) s);;
  mret err.

Definition fallback_voting_power_get (rep : AccountAddress)
  : M Store (option VotingPowerFallback) :=
  gets (fun s => mdb_get rep (voting_power_fallback_db s)).
Definition fallback_voting_power_put (rep : AccountAddress) (f : VotingPowerFallback)
  : M Store unit :=
  modify (fun s => set_voting_power_fallback_db
                     (mdb_put rep f (voting_power_fallback_db s)) s).
Definition fallback_voting_power_del (rep : AccountAddress) : M Store bool :=
  err ← gets (fun s => missing rep (voting_power_fallback_db s));
  modify (fun s => set_voting_power_fallback_db
                     (mdb_del rep (voting_power_fallback_db s)) s);;
  mret err.

(** ** Representatives and requests *)
Definition rep_get (account : AccountAddress) : M Store (option RepInfo) :=
  gets (fun s => mdb_get account (representative_db s)).
Definition rep_put (account : AccountAddress) (rep : RepInfo) : M Store unit :=
  modify (fun s => set_representative_db (mdb_put account rep (representative_db s)) s).
Definition request_get (hash : BlockHash) : M Store (option Governance) :=
  gets (fun s => mdb_get hash (request_db s)).
Definition request_put `{Blake2b} (r : Governance) : M Store unit :=
  modify (fun s => set_request_db (mdb_put (GetHash r) r (request_db s)) s).

(** ** Elections *)
Definition get_elections {A} (f : ElectionTables -> A) : M Store A :=
  gets (fun s => f (elections s)).
Definition modify_elections (f : ElectionTables -> ElectionTables) : M Store unit :=
  modify (fun s => set_elections (f (elections s)) s).

Definition candidate_get (account : AccountAddress) : M Store (option CandidateInfo) :=
  get_elections (fun e => mdb_get account (candidacy_db e)).
Definition candidate_mark_remove (account : AccountAddress) : M Store unit :=
  modify_elections (fun e =>
    set_remove_candidates_db (dup_put 0 account (remove_candidates_db e)) e).
Definition rep_mark_remove (account : AccountAddress) : M Store unit :=
  modify_elections (fun e => set_remove_reps_db (dup_put 0 account (remove_reps_db e)) e).

(** ** Epoch blocks *)
Definition epoch_get (hash : BlockHash) : M Store (option ApprovedEB) :=
  get_elections (fun e => mdb_get hash (epoch_db e)).
Definition epoch_tip_get : M Store (option Tip) :=
  get_elections (fun e => mdb_get 0 (epoch_tip_db e)).
Definition epoch_tip_put (tip : Tip) : M Store unit :=
  modify_elections (fun e => set_epoch_tip_db (mdb_put 0 tip (epoch_tip_db e)) e).

(** The loop of epoch_get_n: [i] blocks that pass the filter are still to be
    found. The chain of epoch blocks is finite: [fuel] bounds its length. *)
Fixpoint epoch_walk (filter : ApprovedEB -> bool) (fuel i : nat) (hash : BlockHash)
  : M Store ApprovedEB :=
  match fuel with
  | O => halt "block_store::epoch_get_n"
  | S fuel =>
      massert (negb (hash =? 0)) "block_store::epoch_get_n";;
      b ← epoch_get hash;
      match b with
      | None => halt "block_store::epoch_get_n"
      | Some block =>
          if filter block then
            match i with
            | O => mret block
            | S i => epoch_walk filter fuel i (eb_previous block)
            end
          else epoch_walk filter fuel i (eb_previous block)
      end
  end.
Definition epoch_get_n (num_epochs_ago : nat) (filter : ApprovedEB -> bool)
  : M Store ApprovedEB :=
  t ← epoch_tip_get;
  match t with
  | None => halt "block_store::epoch_get_n"
  | Some tip =>
      fuel ← get_elections (fun e => length (mdb_items (epoch_db e)));
      epoch_walk filter (S fuel) num_epochs_ago (digest tip)
  end.
(** The default argument of [filter]. *)
Definition any_epoch : ApprovedEB -> bool := fun _ => true.
Definition is_not_extension (eb : ApprovedEB) : bool := negb (eb_is_extension eb).

(** ** Rewards *)
Definition rewards_put (key : Z) (info : RewardsInfo) : M Store unit :=
  modify_elections (fun e => set_rewards_db (mdb_put key info (rewards_db e)) e).
Definition rewards_get (key : Z) : M Store (option RewardsInfo) :=
  get_elections (fun e => mdb_get key (rewards_db e)).
Definition rewards_exist (key : Z) : M Store bool :=
  get_elections (fun e => negb (missing key (rewards_db e))).
Definition rewards_remove (key : Z) : M Store bool :=
  err ← get_elections (fun e => missing key (rewards_db e));
  modify_elections (fun e => set_rewards_db (mdb_del key (rewards_db e)) e);;
  mret err.
Definition global_rewards_put (key : Z) (info : GlobalRewardsInfo) : M Store unit :=
  modify_elections (fun e => set_global_rewards_db (mdb_put key info (global_rewards_db e)) e).
Definition global_rewards_get (key : Z) : M Store (option GlobalRewardsInfo) :=
  get_elections (fun e => mdb_get key (global_rewards_db e)).
Definition global_rewards_exist (key : Z) : M Store bool :=
  get_elections (fun e => negb (missing key (global_rewards_db e))).
Definition global_rewards_remove (key : Z) : M Store bool :=
  err ← get_elections (fun e => missing key (global_rewards_db e));
  modify_elections (fun e => set_global_rewards_db (mdb_del key (global_rewards_db e)) e);;
  mret err.
Definition fee_pool_get (key : Z) : M Store (option Amount) :=
  get_elections (fun e => mdb_get key (delegate_rewards_db e)).
Definition fee_pool_put (key : Z) (v : Amount) : M Store unit :=
  modify_elections (fun e => set_delegate_rewards_db (mdb_put key v (delegate_rewards_db e)) e).
Definition fee_pool_remove (key : Z) : M Store bool :=
  err ← get_elections (fun e => missing key (delegate_rewards_db e));
  modify_elections (fun e => set_delegate_rewards_db (mdb_del key (delegate_rewards_db e)) e);;
  mret err.
End Tables.

Section HashTables.
Context {L : Lmdb} {LL : LmdbLaws L}.

(** Putting a digest in a duplicate-key table adds exactly that pair. *)
Lemma hash_put_iff k k' (h x : LiabilityHash) (t : dtable LiabilityHash hash_serial) :
  x ∈ dup_get k' (dup_put k h t) <-> (k = k' /\ x = h) \/ x ∈ dup_get k' t.
Proof.
  split; [by apply dups_put_elem|].
  intros [[<- ->]|Hx]; [|by apply dups_put_mono].
  destruct (Exists_dec (fun x => same_bytes x h) (dup_get k t)) as [He|Hn].
  - rw dups_put_old //. apply Exists_exists in He as (y & Hy & Heq).
    by move: Heq => [= <-].
  - apply not_Exists_Forall in Hn; [|apply _]. rw dups_put_new // elem_of_cons. by left.
Qed.
End HashTables.

(** ** Frames

    Which tables an operation may change. [same_but_funds] and the others are
    preorders, so [preserves] composes along a handler. *)
Section StoreFrames.
Context {L : Lmdb}.

(** Neither staked nor thawing funds change. *)
Definition same_funds (s s' : Store) : Prop :=
  staking_db s' = staking_db s /\ thawing_db s' = thawing_db s.
(** No liability table changes. *)
Definition same_liabilities (s s' : Store) : Prop :=
  master_liabilities_db s' = master_liabilities_db s /\
  rep_liabilities_db s' = rep_liabilities_db s /\
  secondary_liabilities_db s' = secondary_liabilities_db s.
(** Neither the voting power nor its fallback changes. *)
Definition same_power (s s' : Store) : Prop :=
  voting_power_db s' = voting_power_db s /\
  voting_power_fallback_db s' = voting_power_fallback_db s.
(** Representatives, requests and elections are only read by the staking
    subsystem. *)
Definition same_registry (s s' : Store) : Prop :=
  representative_db s' = representative_db s /\ request_db s' = request_db s /\
  elections s' = elections s.

#[global] Instance same_funds_preorder : PreOrder same_funds.
Proof. split; [done|]. intros ??? [] []. split; congruence. Qed.
#[global] Instance same_liabilities_preorder : PreOrder same_liabilities.
Proof. split; [done|]. intros ??? (?&?&?) (?&?&?). split_and!; congruence. Qed.
#[global] Instance same_power_preorder : PreOrder same_power.
Proof. split; [done|]. intros ??? [] []. split; congruence. Qed.
#[global] Instance same_registry_preorder : PreOrder same_registry.
Proof. split; [done|]. intros ??? (?&?&?) (?&?&?). split_and!; congruence. Qed.
End StoreFrames.

(** Unfolds a table operation down to [modify] and closes the frame. *)
Ltac table_frame :=
  rw /liability_put /liability_update_amount /liability_del /secondary_liability_del
     /liability_get /liability_exists /stake_put /stake_get /stake_del /thawing_put
     /thawing_del /thawing_range /thawing_replace /secondary_liability_put
     /voting_power_get /voting_power_put /voting_power_del /fallback_voting_power_get
     /fallback_voting_power_put /fallback_voting_power_del /rep_get /request_get;
  solve_frame.

(** ** Reading the chain of epoch blocks *)
Section EpochReads.
Context {L : Lmdb}.

Lemma epoch_walk_reads filter fuel : forall i hash,
  preserves (=) (epoch_walk (L := L) filter fuel i hash).
Proof.
  induction fuel as [|fuel IH]; intros i hash; cbn [epoch_walk]; [solve_frame|].
  rw /epoch_get /get_elections. solve_frame; apply IH.
Qed.
Lemma epoch_get_n_reads n filter : preserves (=) (epoch_get_n (L := L) n filter).
Proof. rw /epoch_get_n /epoch_tip_get /get_elections. solve_frame; apply epoch_walk_reads. Qed.
End EpochReads.
#[export] Hint Resolve epoch_walk_reads epoch_get_n_reads : frame.
