(* ===== verification/Liabilities.v ===== *)
(** * Liabilities (src/logos/staking/liability_manager.cpp)

    A liability records that a source staked to a target. Primary ones belong
    to a staked or thawing fund; secondary ones limit how quickly an account
    may redirect its stake: at any time an account's unexpired secondary
    liabilities all have the same target. *)
From stdpp Require Import base list numbers strings ssreflect.
From S2P Require Import Prelude Serial Lmdb StakingTypes Requests Epochs BlockStore.
Open Scope Z_scope.

Module LiabilityManager.
Section Operations.
Context {L : Lmdb} {B : Blake2b}.

Definition Get (hash : LiabilityHash) : M Store Liability :=
  l ← liability_get hash;
  match l with Some l => mret l | None => halt "LiabilityManager::Get" end.
Definition Exists_ (hash : LiabilityHash) : M Store bool := liability_exists hash.
Definition Store_ (l : Liability) : M Store LiabilityHash :=
  let hash := Liability_Hash l in
  liability_put hash l;; mret hash.

Definition CreateExpiringLiability (target source : AccountAddress) (amount : Amount)
    (expiration_epoch : Z) : M Store LiabilityHash :=
  Store_ (Build_Liability target source amount expiration_epoch false).
Definition CreateUnexpiringLiability (target source : AccountAddress) (amount : Amount)
  : M Store LiabilityHash :=
  Store_ (Build_Liability target source amount 0 false).

Definition GetSecondaryLiabilities (origin : AccountAddress) : M Store (list LiabilityHash) :=
  gets (fun s => dup_get origin (secondary_liabilities_db s)).
Definition GetRepLiabilities (r : AccountAddress) : M Store (list LiabilityHash) :=
  gets (fun s => dup_get r (rep_liabilities_db s)).

Definition UpdateLiabilityAmount (hash : LiabilityHash) (amount : Amount) : M Store unit :=
  liability_update_amount hash amount.
Definition DeleteLiability (hash : LiabilityHash) : M Store unit := liability_del hash.

(** The body of the pruning loop. *)
Definition prune_one (cur_epoch : Z) (_ : unit) (hash : LiabilityHash)
  : M Store (unit * bool) :=
  l ← Get hash;
  (if l_expiration_epoch l <=? cur_epoch then secondary_liability_del hash else mret tt);;
  mret (tt, true).

Definition PruneSecondaryLiabilities (origin : AccountAddress) (info : account_info)
    (cur_epoch : Z) : M Store account_info :=
  if cur_epoch <=? epoch_secondary_liabilities_updated info then mret info
  else
    hashes ← GetSecondaryLiabilities origin;
    iterate (prune_one cur_epoch) tt hashes;;
    mret (set_epoch_secondary_updated cur_epoch info).

(** The scan of CanCreateSecondaryLiability: the first unexpired liability
    decides. *)
Fixpoint scan_secondary (target : AccountAddress) (cur_epoch : Z)
    (hashes : list LiabilityHash) : M Store bool :=
  match hashes with
  | [] => mret true
  | hash :: rest =>
      l ← Get hash;
      if cur_epoch <? l_expiration_epoch l then mret (l_target l =? target)
      else scan_secondary target cur_epoch rest
  end.

Definition CanCreateSecondaryLiability (target source : AccountAddress) (cur_epoch : Z)
  : M Store bool :=
  if target =? source then mret false
  else
    let l := Build_Liability target source 0 (u32 (cur_epoch + THAWING_PERIOD)) true in
    found ← Exists_ (Liability_Hash l);
    if (found : bool) then mret true
    else
      hashes ← GetSecondaryLiabilities source;
      scan_secondary target cur_epoch hashes.

Definition CreateSecondaryLiability (target source : AccountAddress) (amount : Amount)
    (expiration_epoch : Z) (info : account_info) (cur_epoch : Z)
  : M Store (bool * account_info) :=
  massert (cur_epoch <? expiration_epoch) "CreateSecondaryLiability: expiration";;
  let l := Build_Liability target source amount expiration_epoch true in
  info' ← PruneSecondaryLiabilities source info cur_epoch;
  can ← CanCreateSecondaryLiability target source cur_epoch;
  if (can : bool) then
    hash ← Store_ l;
    secondary_liability_put source hash;;
    mret (true, info')
  else mret (false, info').
End Operations.
End LiabilityManager.
Import LiabilityManager.

(** The manager touches nothing but the liability tables. *)
Definition liability_frame `{Lmdb} (s s' : Store) : Prop :=
  same_funds s s' /\ same_power s s' /\ same_registry s s'.
#[global] Instance liability_frame_preorder `{Lmdb} : PreOrder liability_frame.
Proof.
  split; [done|]. intros x y z (? & ? & ?) (? & ? & ?). split_and!; by transitivity y.
Qed.

Section Frames.
Context {L : Lmdb} {B : Blake2b}.

Lemma liability_put_frame h l : preserves liability_frame (liability_put h l).
Proof. table_frame. Qed.
Lemma Get_frame h : preserves liability_frame (Get h).
Proof. rw /Get. table_frame. Qed.
Lemma Store_frame l : preserves liability_frame (Store_ l).
Proof. rw /Store_. table_frame. Qed.
Lemma UpdateLiabilityAmount_frame h a : preserves liability_frame (UpdateLiabilityAmount h a).
Proof. rw /UpdateLiabilityAmount. table_frame. Qed.
Lemma DeleteLiability_frame h : preserves liability_frame (DeleteLiability h).
Proof. rw /DeleteLiability. table_frame. Qed.
Lemma secondary_del_frame h : preserves liability_frame (secondary_liability_del h).
Proof. table_frame. Qed.
Lemma secondary_put_frame a h : preserves liability_frame (secondary_liability_put a h).
Proof. table_frame. Qed.
Lemma scan_secondary_frame t e hs : preserves liability_frame (scan_secondary t e hs).
Proof. induction hs; cbn; solve_frame; try apply Get_frame; done. Qed.
End Frames.
#[export] Hint Resolve liability_put_frame Get_frame Store_frame UpdateLiabilityAmount_frame
  DeleteLiability_frame secondary_del_frame secondary_put_frame scan_secondary_frame : frame.

Section Frames2.
Context {L : Lmdb} {B : Blake2b}.

Lemma CreateExpiringLiability_frame t o a e :
  preserves liability_frame (CreateExpiringLiability t o a e).
Proof. apply Store_frame. Qed.
Lemma CreateUnexpiringLiability_frame t o a :
  preserves liability_frame (CreateUnexpiringLiability t o a).
Proof. apply Store_frame. Qed.
Lemma PruneSecondaryLiabilities_frame o i e :
  preserves liability_frame (PruneSecondaryLiabilities o i e).
Proof. rw /PruneSecondaryLiabilities /GetSecondaryLiabilities /prune_one. solve_frame. Qed.
Lemma CanCreateSecondaryLiability_frame t o e :
  preserves liability_frame (CanCreateSecondaryLiability t o e).
Proof.
  rw /CanCreateSecondaryLiability /Exists_ /liability_exists /GetSecondaryLiabilities.
  solve_frame.
Qed.
Lemma CreateSecondaryLiability_frame t o a x i e :
  preserves liability_frame (CreateSecondaryLiability t o a x i e).
Proof.
  rw /CreateSecondaryLiability. solve_frame;
    [apply PruneSecondaryLiabilities_frame|apply CanCreateSecondaryLiability_frame].
Qed.
End Frames2.
#[export] Hint Resolve CreateExpiringLiability_frame CreateUnexpiringLiability_frame
  PruneSecondaryLiabilities_frame CanCreateSecondaryLiability_frame
  CreateSecondaryLiability_frame : frame.

(** ** The consistency of the liability tables *)
Section Consistency.
Context {L : Lmdb} {LL : LmdbLaws L} {B : Blake2b} {CF : Blake2bCollisionFree B}.

Definition key_wf (l : Liability) : Prop :=
  in_width 256 (l_target l) /\ in_width 256 (l_source l) /\ in_width 32 (l_expiration_epoch l).

(** Every liability is stored under its hash; the secondary table lists
    exactly the secondary liabilities of a source; every liability is listed
    under its target. *)
Record liab_ok (s : Store) : Prop := {
  lo_hash h l : mdb_get h (master_liabilities_db s) = Some l -> h = Liability_Hash l;
  lo_wf h l : mdb_get h (master_liabilities_db s) = Some l -> key_wf l;
  lo_listed h l : mdb_get h (master_liabilities_db s) = Some l -> l_is_secondary l = true ->
    h ∈ dup_get (l_source l) (secondary_liabilities_db s);
  lo_secondary src h : h ∈ dup_get src (secondary_liabilities_db s) ->
    exists l, mdb_get h (master_liabilities_db s) = Some l /\ l_source l = src /\
      l_is_secondary l = true;
  lo_rep h l : mdb_get h (master_liabilities_db s) = Some l ->
    h ∈ dup_get (l_target l) (rep_liabilities_db s);
}.

(** Unexpired secondary liabilities of one source have one target. *)
Definition secondary_of (s : Store) (src : AccountAddress) (e : Z) (l : Liability) : Prop :=
  exists h, mdb_get h (master_liabilities_db s) = Some l /\
    l_source l = src /\ l_is_secondary l = true /\ e < l_expiration_epoch l.
Definition single_target (e : Z) (s : Store) : Prop :=
  forall src l1 l2, secondary_of s src e l1 -> secondary_of s src e l2 ->
    l_target l1 = l_target l2.

Lemma single_target_mono e e' s : e <= e' -> single_target e s -> single_target e' s.
Proof.
  intros He Hs src l1 l2 (h1 & ? & ? & ? & ?) (h2 & ? & ? & ? & ?).
  apply (Hs src); [exists h1|exists h2]; split_and!; auto; lia.
Qed.

(** The tables of the empty store are consistent. *)
Lemma liab_ok_empty : liab_ok empty_store.
Proof.
  split; cbn; intros *; rw ?get_empty ?dups_empty //. by intros ?%elem_of_nil.
Qed.

(** *** Steps of the tables *)

(** Adding a primary liability keeps the tables consistent. *)
Lemma Store_primary_ok l s :
  liab_ok s -> key_wf l -> l_is_secondary l = false ->
  wp (Store_ l) (fun h s' => liab_ok s' /\ h = Liability_Hash l) s.
Proof.
  intros Hok Hwf Hp. rw /Store_ /liability_put /liability_get. wp_steps.
  destruct (mdb_get _ _) as [e|] eqn:He; wp_steps; (split; [|done]); split; cbn;
    intros h l'; rw ?get_put.
  - case_decide; [|by apply lo_hash]. intros [= <-]. subst h. exact (lo_hash s Hok _ e He).
  - case_decide; [|by apply lo_wf]. intros [= <-]. exact (lo_wf s Hok _ e He).
  - case_decide; [|by apply lo_listed]. intros [= <-]. subst h.
    by apply (lo_listed s Hok _ e).
  - intros (l0 & Hl & ? & ?)%lo_secondary; [|done]. case_decide; [|by eauto].
    subst l'. rw He in Hl. injection Hl as <-. eexists. by split.
  - case_decide; [|by apply lo_rep]. intros [= <-]. subst h.
    by apply (lo_rep s Hok _ e).
  - case_decide; [by intros [= <-]|by apply lo_hash].
  - case_decide; [by intros [= <-]|by apply lo_wf].
  - case_decide; [intros [= <-]; congruence|by apply lo_listed].
  - intros (l0 & Hl & ? & ?)%lo_secondary; [|done]. case_decide; [congruence|by eauto].
  - rw hash_put_iff. case_decide; [intros [= <-]; by auto|].
    intros ?%lo_rep; auto.
Qed.

(** Storing a secondary liability and listing it under its source. *)
Lemma Store_secondary_ok l s :
  liab_ok s -> key_wf l -> l_is_secondary l = true ->
  wp (h ← Store_ l; secondary_liability_put (l_source l) h)
     (fun _ s' => liab_ok s' /\
        forall h' l', mdb_get h' (master_liabilities_db s') = Some l' ->
          Liability_key l' = Liability_key l \/
          mdb_get h' (master_liabilities_db s) = Some l') s.
Proof.
  intros Hok Hwf Hp. rw /Store_ /liability_put /liability_get /secondary_liability_put.
  wp_steps. destruct (mdb_get (Liability_Hash l) _) as [e|] eqn:He; wp_steps.
  - (* consolidated with [e], which has the same key *)
    assert (Liability_key e = Liability_key l) as Hkey.
    { pose proof (lo_hash s Hok _ _ He) as Hh. symmetry.
      destruct (lo_wf s Hok _ _ He) as (? & ? & ?), Hwf as (? & ? & ?).
      destruct l, e. apply (Liability_Hash_inj (Build_Liability _ _ 0 _ _)
                              (Build_Liability _ _ 0 _ _)); done. }
    pose proof Hkey as Hkey'. rw /Liability_key in Hkey'. injection Hkey' as Et Es Ee Ei.
    split.
    2: { cbn. intros h' l'. rw get_put. case_decide; [|by auto].
         intros [= <-]. left. by rw -Hkey. }
    split; cbn; intros h l'; rw ?get_put ?hash_put_iff.
    + case_decide; [|by apply lo_hash]. intros [= <-]. subst h. exact (lo_hash s Hok _ e He).
    + case_decide; [|by apply lo_wf]. intros [= <-]. exact (lo_wf s Hok _ e He).
    + case_decide; [intros [= <-] ?; left; by subst|].
      intros ? ?. right. by apply lo_listed.
    + intros [[<- ->]|(l0 & Hl & ? & ?)%lo_secondary]; [| |done].
      * rw decide_True //. eexists. split; [done|]. by rw /= Es Ei.
      * case_decide; [|by eauto]. subst l'. rw He in Hl. injection Hl as <-.
        eexists. by split.
    + case_decide; [|by apply lo_rep]. intros [= <-]. subst h. by apply (lo_rep s Hok _ e).
  - split.
    2: { cbn. intros h' l'. rw get_put. case_decide; [intros [= <-]|]; auto. }
    split; cbn; intros h l'; rw ?get_put ?hash_put_iff.
    + case_decide; [by intros [= <-]|by apply lo_hash].
    + case_decide; [by intros [= <-]|by apply lo_wf].
    + case_decide; [intros [= <-] ?; left; by subst|].
      intros ? ?. right. by apply lo_listed.
    + intros [[<- ->]|(l0 & Hl & ? & ?)%lo_secondary]; [| |done].
      * rw decide_True //. by eauto.
      * case_decide; [congruence|by eauto].
    + case_decide; [intros [= <-]; by auto|]. intros ?%lo_rep; auto.
Qed.

(** Deleting a secondary liability removes it and nothing else. *)
Lemma secondary_del_ok h l s :
  liab_ok s -> mdb_get h (master_liabilities_db s) = Some l -> l_is_secondary l = true ->
  wp (secondary_liability_del h)
     (fun _ s' => liab_ok s' /\
        (forall h', mdb_get h' (master_liabilities_db s') =
           if decide (h = h') then None else mdb_get h' (master_liabilities_db s)) /\
        forall src h', h' ∈ dup_get src (secondary_liabilities_db s') <->
           h' ∈ dup_get src (secondary_liabilities_db s) /\ h' <> h) s.
Proof.
  intros Hok Hl Hsec. rw /secondary_liability_del /liability_get. wp_steps. rw Hl. wp_steps.
  pose proof (lo_listed s Hok _ _ Hl Hsec) as Hin.
  assert (forall src h', h' ∈ dup_get src (dup_del (l_source l) h (secondary_liabilities_db s))
            <-> h' ∈ dup_get src (secondary_liabilities_db s) /\ h' <> h) as Hiff.
  { intros src h'. rw dups_del_iff //. split; [|naive_solver].
    intros [Hx Hn]. split; [done|]. intros ->. apply Hn. split; [|done].
    apply lo_secondary in Hx as (? & Hx & <- & _); [|done]. congruence. }
  apply wpg_massert; [|by rw /dup_missing bool_decide_eq_true_2].
  intros _. split; [|split].
  - split; cbn; intros h' l'; rw ?get_del ?Hiff.
    + case_decide; [done|by apply lo_hash].
    + case_decide; [done|by apply lo_wf].
    + case_decide; [done|]. intros. split; [by apply lo_listed|congruence].
    + intros [(l0 & ? & ? & ?)%lo_secondary ?]; [|done]. rw decide_False; eauto.
    + case_decide; [done|by apply lo_rep].
  - cbn. intros. by rw get_del.
  - cbn. apply Hiff.
Qed.
End Consistency.

(** ** Pruning and creating secondary liabilities *)
Section Secondary.
Context {L : Lmdb} {LL : LmdbLaws L} {B : Blake2b} {CF : Blake2bCollisionFree B}.

(** [Get] on a stored hash. *)
Lemma Get_wp H (hash : LiabilityHash) l s Q :
  mdb_get hash (master_liabilities_db s) = Some l -> Q l s -> wpg H (Get hash) Q s.
Proof. intros Hl HQ. rw /Get /liability_get. wp_steps. rw Hl. by apply wpg_ret. Qed.

Lemma listed_iff s origin h :
  liab_ok s ->
  h ∈ dup_get origin (secondary_liabilities_db s) <->
  exists l, mdb_get h (master_liabilities_db s) = Some l /\ l_source l = origin /\
    l_is_secondary l = true.
Proof.
  intros Hok. split; [by apply lo_secondary|].
  intros (l & ? & <- & ?). by apply lo_listed.
Qed.

(** What is left of the master table once the hashes [done] are pruned. *)
Definition pruned (e : Z) (done : list LiabilityHash) (s0 s : Store) : Prop :=
  liab_ok s /\ forall h l,
    mdb_get h (master_liabilities_db s) = Some l <->
    mdb_get h (master_liabilities_db s0) = Some l /\
      ~ (h ∈ done /\ l_expiration_epoch l <= e).

Lemma prune_one_ok e s0 s done h l :
  pruned e done s0 s -> h ∉ done ->
  mdb_get h (master_liabilities_db s0) = Some l -> l_is_secondary l = true ->
  wp (prune_one e tt h) (fun r s' => r = (tt, true) /\ pruned e (done ++ [h]) s0 s') s.
Proof.
  intros [Hok Hiff] Hnew Hl Hsec.
  assert (mdb_get h (master_liabilities_db s) = Some l) as Hl' by (apply Hiff; naive_solver).
  rw /prune_one. apply wpg_bind. apply (Get_wp _ _ l); [done|]. apply wpg_bind.
  destruct (Z.leb_spec (l_expiration_epoch l) e) as [Hexp|Hexp].
  - eapply wpg_mono; [by apply (secondary_del_ok h l)|].
    intros [] s' (Hok' & Hdel & _). apply wpg_ret. split; [done|]. split; [done|].
    intros h' l'. rw Hdel elem_of_app list_elem_of_singleton.
    case_decide as Heq; [subst h'|rw Hiff; naive_solver].
    split; [done|]. rw Hl. intros [ [= <-] Hn]. destruct Hn. auto.
  - wp_steps. split; [done|]. split; [done|]. intros h' l'.
    rw Hiff elem_of_app list_elem_of_singleton. split; [|naive_solver].
    intros [? Hn]. split; [done|]. intros [[?| ->] ?]; [naive_solver|].
    simplify_eq. lia.
Qed.

(** PruneSecondaryLiabilities never halts on consistent tables; when the
    account has not been pruned in this epoch, it deletes exactly its expired
    secondary liabilities. *)
Lemma PruneSecondaryLiabilities_ok origin info e s :
  liab_ok s ->
  wp (PruneSecondaryLiabilities origin info e) (fun info' s' => liab_ok s' /\
    e <= epoch_secondary_liabilities_updated info' /\
    forall h l, mdb_get h (master_liabilities_db s') = Some l <->
      mdb_get h (master_liabilities_db s) = Some l /\
      ~ (epoch_secondary_liabilities_updated info < e /\
         l_source l = origin /\ l_is_secondary l = true /\ l_expiration_epoch l <= e)) s.
Proof.
  intros Hok. rw /PruneSecondaryLiabilities.
  destruct (Z.leb_spec e (epoch_secondary_liabilities_updated info)) as [He|He].
  { apply wpg_ret. split_and!; [done|done|]. intros. split; [|naive_solver].
    intros. split; [done|]. intros [? _]. lia. }
  rw /GetSecondaryLiabilities. wp_steps.
  set hs := dup_get origin (secondary_liabilities_db s).
  eapply wpg_mono; [eapply (wpg_iterate _ _ (fun _ done s' => pruned e done s s')
    (fun _ s' => pruned e hs s s') _ _ [])|].
  - split; [done|]. intros. set_solver.
  - intros [] h todo done s' Hd Hp. rw /= in Hd.
    assert (h ∈ hs) as Hin by (rw Hd; set_solver).
    apply listed_iff in Hin as (l & Hl & _ & Hsec); [|done].
    pose proof (dups_nodup origin (secondary_liabilities_db s)) as Hnd.
    rw -/hs Hd in Hnd. apply NoDup_app in Hnd as (_ & Hnd & _).
    eapply wpg_mono; [eapply prune_one_ok; [done| |done|done]|by intros ? ? [-> ?]].
    intros Hx. apply (Hnd h Hx). set_solver.
  - done.
  - intros [] s' [Hok' Hiff]. wp_steps. split_and!; [done|by cbn|].
    intros h l. rw Hiff. split; intros [Hl Hn]; (split; [done|]).
    + intros (_ & ? & ? & ?). apply Hn. split; [apply listed_iff; eauto|done].
    + intros [(l' & ? & ? & ?)%listed_iff ?]; [|done]. simplify_eq. by apply Hn.
Qed.

(** Whether a source may create a secondary liability to [target]: it is not
    the source itself, and every unexpired secondary liability of the source
    has that target. *)
Definition may_create (s : Store) (target source : AccountAddress) (e : Z) : Prop :=
  target <> source /\ forall l, secondary_of s source e l -> l_target l = target.

Lemma scan_secondary_ok target source e s hs :
  liab_ok s -> single_target e s ->
  (forall h, h ∈ hs -> h ∈ dup_get source (secondary_liabilities_db s)) ->
  wp (scan_secondary target e hs) (fun b s' => s' = s /\
    (b = true <-> forall h l, h ∈ hs -> mdb_get h (master_liabilities_db s) = Some l ->
       e < l_expiration_epoch l -> l_target l = target)) s.
Proof.
  intros Hok Hst. induction hs as [|h hs IH]; intros Hsub; cbn [scan_secondary].
  { apply wpg_ret. split; [done|]. split; [set_solver|done]. }
  assert (h ∈ dup_get source (secondary_liabilities_db s)) as Hh by set_solver.
  apply listed_iff in Hh as (l & Hl & Hsrc & Hsec); [|done].
  apply wpg_bind. apply (Get_wp _ _ l); [done|].
  destruct (Z.ltb_spec e (l_expiration_epoch l)) as [Hexp|Hexp].
  - apply wpg_ret. split; [done|]. rw Z.eqb_eq. split; [|intros Hall; by eapply Hall; [left|..]].
    intros <- h' l' Hin Hl' Hexp'. apply (Hst source); [|by exists h].
    apply Hsub, listed_iff in Hin as (l0 & ? & ? & ?); [|done]. simplify_eq. by exists h'.
  - eapply wpg_mono; [apply IH; set_solver|]. intros b s' [-> Hb]. split; [done|].
    rw Hb. split; [|by intros Hall; intros; eapply Hall; [right|..]].
    intros Hall h' l' [->|Hin]%elem_of_cons ? ?; [simplify_eq; lia|by eapply Hall].
Qed.

Lemma CanCreateSecondaryLiability_ok target source e s :
  liab_ok s -> single_target e s ->
  in_width 256 target -> in_width 256 source -> 0 <= e -> e + THAWING_PERIOD < 2 ^ 32 ->
  wp (CanCreateSecondaryLiability target source e)
     (fun b s' => s' = s /\ (b = true <-> may_create s target source e)) s.
Proof.
  intros Hok Hst Ht Hs He0 He. rw /CanCreateSecondaryLiability /may_create.
  destruct (Z.eqb_spec target source) as [Heq|Hne].
  { apply wpg_ret. naive_solver. }
  rw (u32_id (_ + _)); [|rw /in_width /THAWING_PERIOD in He *; lia].
  rw /Exists_ /liability_exists /missing /GetSecondaryLiabilities. wp_steps.
  destruct (mdb_get _ _) as [l|] eqn:Hl; cbn.
  - split; [done|]. split; [intros _; split; [done|]|done].
    pose proof (lo_hash s Hok _ _ Hl) as Hkey.
    apply (Liability_Hash_inj _ (Build_Liability (l_target l) (l_source l) 0
             (l_expiration_epoch l) (l_is_secondary l))) in Hkey.
    + injection Hkey as Et Es Ee Ei. intros l' Hl'. rw Et. apply (Hst source); [done|].
      eexists. split_and!; eauto. rw -Ee /THAWING_PERIOD. lia.
    + rw /THAWING_PERIOD in He *. by split_and!; cbn; rw /in_width; try lia.
    + destruct (lo_wf s Hok _ _ Hl) as (? & ? & ?). by split_and!.
  - wp_steps. eapply wpg_mono; [by apply (scan_secondary_ok _ source)|].
    intros b s' [-> Hb]. split; [done|]. rw Hb. split.
    + intros Hall. split; [done|]. intros l' (h & Hh & ? & ? & ?).
      eapply Hall; [|done|done]. apply listed_iff; eauto.
    + intros [_ Hall] h l' Hin Hl' ?. apply Hall.
      apply listed_iff in Hin as (? & ? & ? & ?); [|done]. simplify_eq. by exists h.
Qed.

(** Pruning keeps the unexpired secondary liabilities. *)
Lemma pruned_secondary_of s s' e (P : Liability -> Prop) :
  (forall h l, mdb_get h (master_liabilities_db s') = Some l <->
     mdb_get h (master_liabilities_db s) = Some l /\ ~ (P l /\ l_expiration_epoch l <= e)) ->
  forall src l, secondary_of s' src e l <-> secondary_of s src e l.
Proof.
  intros Hiff src l. split; intros (h & Hh & ? & ? & ?); exists h.
  - apply Hiff in Hh as [? _]. done.
  - split_and!; try done. apply Hiff. split; [done|]. intros [_ ?]. lia.
Qed.

(** Storing a liability that [may_create] allows keeps a single target. *)
Lemma single_target_store e s s' l :
  single_target e s ->
  (forall l', secondary_of s (l_source l) e l' -> l_target l' = l_target l) ->
  (forall h' l', mdb_get h' (master_liabilities_db s') = Some l' ->
     Liability_key l' = Liability_key l \/ mdb_get h' (master_liabilities_db s) = Some l') ->
  single_target e s'.
Proof.
  intros Hst Hmay Hnew src l1 l2 (h1 & H1 & S1 & I1 & E1) (h2 & H2 & S2 & I2 & E2).
  assert (forall h x, mdb_get h (master_liabilities_db s) = Some x -> l_source x = src ->
    l_is_secondary x = true -> e < l_expiration_epoch x -> l_source l = src ->
    l_target x = l_target l) as Hold.
  { intros h x ? ? ? ? <-. apply Hmay. by exists h. }
  assert (forall x, Liability_key x = Liability_key l ->
    l_target x = l_target l /\ l_source x = l_source l) as Hkey by (by intros x [= -> ->]).
  destruct (Hnew _ _ H1) as [[K1 Es1]%Hkey|O1], (Hnew _ _ H2) as [[K2 Es2]%Hkey|O2].
  - congruence.
  - rw K1. symmetry. apply (Hold h2); congruence || done.
  - rw K2. apply (Hold h1); congruence || done.
  - apply (Hst src); [by exists h1|by exists h2].
Qed.

(** The whole of CreateSecondaryLiability. *)
Lemma CreateSecondaryLiability_ok target source amount x info e s :
  liab_ok s -> single_target e s -> in_width 256 target -> in_width 256 source ->
  0 <= e < x -> x < 2 ^ 32 -> e + THAWING_PERIOD < 2 ^ 32 ->
  wp (CreateSecondaryLiability target source amount x info e) (fun r s' =>
    liab_ok s' /\ single_target e s' /\ (r.1 = true <-> may_create s target source e) /\
    e <= epoch_secondary_liabilities_updated r.2) s.
Proof.
  intros Hok Hst Ht Hs He Hx Hth. rw /CreateSecondaryLiability. apply wpg_bind, wpg_massert;
    [intros _|intros ?%Z.ltb_ge; lia].
  apply wpg_bind. eapply wpg_mono; [by apply PruneSecondaryLiabilities_ok|].
  intros info1 s1 (Hok1 & Hepoch & Hiff).
  assert (forall src l, secondary_of s1 src e l <-> secondary_of s src e l) as Hsame.
  { apply (pruned_secondary_of _ _ _ (fun l => epoch_secondary_liabilities_updated info < e
      /\ l_source l = source /\ l_is_secondary l = true)).
    intros h l. rw Hiff. naive_solver. }
  assert (single_target e s1) as Hst1.
  { intros src l1 l2. rw !Hsame. apply Hst. }
  assert (may_create s1 target source e <-> may_create s target source e) as Hmay.
  { rw /may_create. by setoid_rewrite Hsame. }
  apply wpg_bind. eapply wpg_mono; [by apply CanCreateSecondaryLiability_ok; try lia|].
  intros b s' [-> Hb]. rw Hmay in Hb. destruct b; [|by wp_steps].
  pose proof (proj1 Hb eq_refl) as Hmc. apply Hmay in Hmc as [_ Hall].
  pose proof (Store_secondary_ok (Build_Liability target source amount x true) s1 Hok1) as Hw.
  apply wpg_bind. eapply wpg_mono; [apply wpg_bind_inv, Hw; [|done]|].
  { rw /key_wf /in_width in Ht Hs *. cbn. lia. }
  intros h s2 Hput. apply wpg_bind. eapply wpg_mono; [exact Hput|].
  intros [] s3 [Hok3 Hnew]. apply wpg_ret. split_and!; [done| |done|done].
  by eapply (single_target_store _ _ _ (Build_Liability target source amount x true)).
Qed.
End Secondary.

(** ** Runs of the liability manager

    What the rest of the node does to the liability tables: epochs advance,
    staked and thawing funds create, resize and delete primary liabilities,
    and an account that stakes to someone creates secondary ones. *)
Section Runs.
Context {L : Lmdb} {LL : LmdbLaws L} {B : Blake2b} {CF : Blake2bCollisionFree B}.

(** The epoch numbers the manager can work with: [cur_epoch + THAWING_PERIOD]
    fits in 32 bits. *)
Definition epoch_ok (e : Z) : Prop := 0 <= e /\ e + THAWING_PERIOD < 2 ^ 32.

(** [hash] names a primary liability. *)
Definition primary (hash : LiabilityHash) (s : Store) : Prop :=
  exists l, mdb_get hash (master_liabilities_db s) = Some l /\ l_is_secondary l = false.

Inductive liab_step : Z * Store -> Z * Store -> Prop :=
| step_epoch e e' s : e <= e' -> epoch_ok e' -> liab_step (e, s) (e', s)
| step_expiring e target source amount x h s s' :
    in_width 256 target -> in_width 256 source -> in_width 32 x ->
    CreateExpiringLiability target source amount x s = Ok (h, s') ->
    liab_step (e, s) (e, s')
| step_unexpiring e target source amount h s s' :
    in_width 256 target -> in_width 256 source ->
    CreateUnexpiringLiability target source amount s = Ok (h, s') ->
    liab_step (e, s) (e, s')
| step_secondary e target source amount x info r s s' :
    in_width 256 target -> in_width 256 source -> e < x < 2 ^ 32 ->
    CreateSecondaryLiability target source amount x info e s = Ok (r, s') ->
    liab_step (e, s) (e, s')
| step_update e hash amount s s' :
    UpdateLiabilityAmount hash amount s = Ok (tt, s') -> liab_step (e, s) (e, s')
| step_delete e hash s s' :
    primary hash s -> DeleteLiability hash s = Ok (tt, s') -> liab_step (e, s) (e, s').

Definition liab_inv (es : Z * Store) : Prop :=
  epoch_ok es.1 /\ liab_ok es.2 /\ single_target es.1 es.2.

(** Writing a liability over one with the same key, or over nothing when it
    is primary, does not create secondary liabilities. *)
Lemma secondary_of_keys s s' e :
  (forall h l, mdb_get h (master_liabilities_db s') = Some l -> l_is_secondary l = true ->
     exists l0, mdb_get h (master_liabilities_db s) = Some l0 /\
       Liability_key l0 = Liability_key l) ->
  single_target e s -> single_target e s'.
Proof.
  intros Hold Hst src l1 l2 (h1 & H1 & S1 & I1 & E1) (h2 & H2 & S2 & I2 & E2).
  apply Hold in H1 as (k1 & H1 & K1), H2 as (k2 & H2 & K2); try done.
  injection K1 as <- K1 K1' K1''. injection K2 as <- K2 K2' K2''.
  apply (Hst src); [exists h1|exists h2]; split_and!; congruence || lia || done.
Qed.

Lemma Store_primary_targets e l s :
  liab_ok s -> l_is_secondary l = false -> single_target e s ->
  wp (Store_ l) (fun _ s' => single_target e s') s.
Proof.
  intros Hok Hp Hst. rw /Store_ /liability_put /liability_get. wp_steps.
  destruct (mdb_get _ _) as [o|] eqn:He; wp_steps; eapply secondary_of_keys; try done;
    cbn; intros h' l'; rw get_put; case_decide; try (by eauto); intros [= <-] ?.
  - subst h'. by exists o.
  - congruence.
Qed.

Lemma UpdateLiabilityAmount_ok e hash amount s :
  liab_ok s -> single_target e s ->
  wlp (UpdateLiabilityAmount hash amount) (fun _ s' => liab_ok s' /\ single_target e s') s.
Proof.
  intros Hok Hst. rw /UpdateLiabilityAmount /liability_update_amount /liability_get. wp_steps.
  destruct (mdb_get _ _) as [l|] eqn:He; wp_steps. split.
  2: { eapply secondary_of_keys; [|done]. cbn. intros h' l'. rw get_put.
       case_decide; [|by eauto]. intros [= <-] _. subst h'. by exists l. }
  split; cbn; intros h l'; rw ?get_put.
  - case_decide; [|by apply lo_hash]. intros [= <-]. subst h. exact (lo_hash s Hok _ l He).
  - case_decide; [|by apply lo_wf]. intros [= <-]. exact (lo_wf s Hok _ l He).
  - case_decide; [|by apply lo_listed]. intros [= <-]. subst h. by apply (lo_listed s Hok _ l).
  - intros (l0 & Hl & ? & ?)%lo_secondary; [|done]. case_decide; [|by eauto].
    subst l'. rw He in Hl. injection Hl as <-. eexists. by split.
  - case_decide; [|by apply lo_rep]. intros [= <-]. subst h. by apply (lo_rep s Hok _ l).
Qed.

Lemma DeleteLiability_ok e hash s :
  liab_ok s -> single_target e s -> primary hash s ->
  wp (DeleteLiability hash) (fun _ s' => liab_ok s' /\ single_target e s') s.
Proof.
  intros Hok Hst (l & Hl & Hp). rw /DeleteLiability /liability_del /liability_get. wp_steps.
  rw Hl. wp_steps. pose proof (lo_rep s Hok _ _ Hl) as Hin.
  apply wpg_massert; [intros _|by rw /dup_missing bool_decide_eq_true_2]. split.
  2: { eapply secondary_of_keys; [|done]. cbn. intros h' l'. rw get_del. case_decide; by eauto. }
  split; cbn; intros h l'; rw ?get_del.
  - case_decide; [done|by apply lo_hash].
  - case_decide; [done|by apply lo_wf].
  - case_decide; [done|by apply lo_listed].
  - intros (l0 & ? & ? & ?)%lo_secondary; [|done]. rw decide_False; [by eauto|].
    intros ->. congruence.
  - case_decide as Hne; [done|]. intros Hl'%lo_rep; [|done]. rw dups_del_iff //.
    split; [done|]. intros [_ ->]. done.
Qed.

Lemma Store_primary_inv e l s h s' :
  liab_ok s -> single_target e s -> key_wf l -> l_is_secondary l = false ->
  Store_ l s = Ok (h, s') -> liab_ok s' /\ single_target e s'.
Proof.
  intros Hok Hst Hwf Hp Hr. split.
  - by eapply (wpg_ok _ _ _ _ _ _ (Store_primary_ok l s Hok Hwf Hp)) in Hr as [? _].
  - by eapply (wpg_ok _ _ _ _ _ _ (Store_primary_targets e l s Hok Hp Hst)) in Hr.
Qed.

Lemma liab_inv_step es es' : liab_inv es -> liab_step es es' -> liab_inv es'.
Proof.
  rw /liab_inv. intros (He & Hok & Hst) Hstep.
  destruct Hstep as [|e target source amount x h s s' ? ? ? Hr
    |e target source amount h s s' ? ? Hr
    |e target source amount x info r s s' ? ? ? Hr|e h a s s' Hr|e h s s' ? Hr]; cbn in *.
  - split_and!; try done. by eapply single_target_mono.
  - split; [done|]. eapply (Store_primary_inv e) in Hr; [done|done|done|by split_and!|done].
  - split; [done|]. eapply (Store_primary_inv e) in Hr; [done|done|done|by split_and!|done].
  - split; [done|]. destruct He as [? ?].
    eapply wpg_ok in Hr; [|by apply CreateSecondaryLiability_ok; try lia].
    by destruct Hr as (? & ? & _).
  - split; [done|]. eapply wpg_ok in Hr; [|by apply UpdateLiabilityAmount_ok]. done.
  - split; [done|]. eapply wpg_ok in Hr; [|by apply DeleteLiability_ok]. done.
Qed.

Lemma liab_inv_reachable e s :
  epoch_ok e -> rtc liab_step (e, empty_store) s -> liab_inv s.
Proof.
  intros He Hr. eapply (rtc_ind_l (fun x => liab_inv x -> liab_inv s)); [..|exact Hr|]; try done.
  - intros x y Hxy _ IH Hx. by apply IH, (liab_inv_step x).
  - split_and!; [done|apply liab_ok_empty|].
    intros src l1 l2 (h & Hh & _). by rw /= get_empty in Hh.
Qed.

(** C29 From any state the node can bring the liability tables to,
    CreateSecondaryLiability completes; it refuses exactly when the target is
    the source itself or an unexpired secondary liability of the source has
    another target, and afterwards the tables are still consistent and every
    account's unexpired secondary liabilities have a single target. *)
Theorem secondary_liabilities_limit_redirection e0 e s target source amount x info :
  epoch_ok e0 -> rtc liab_step (e0, empty_store) (e, s) ->
  in_width 256 target -> in_width 256 source -> e < x < 2 ^ 32 ->
  wp (CreateSecondaryLiability target source amount x info e) (fun r s' =>
    (r.1 = true <-> may_create s target source e) /\
    liab_ok s' /\ single_target e s' /\ rtc liab_step (e0, empty_store) (e, s')) s.
Proof.
  intros He0 Hr Ht Hs Hx. pose proof (liab_inv_reachable _ _ He0 Hr) as ([? ?] & Hok & Hst).
  cbn in *. apply wp_ok.
  destruct (proj1 (wp_ok _ _ _) (CreateSecondaryLiability_ok target source amount x info e s
    Hok Hst Ht Hs ltac:(lia) ltac:(lia) ltac:(done))) as (r & s' & Hrun & ? & ? & ? & _).
  exists r, s'. split_and!; try done. eapply rtc_r; [exact Hr|].
  exact (step_secondary _ _ _ _ _ _ _ _ _ Ht Hs Hx Hrun).
Qed.
End Runs.

(** ** The index of a target's liabilities *)
Section Index.
Context {L : Lmdb} {LL : LmdbLaws L} {B : Blake2b} {CF : Blake2bCollisionFree B}.

(** Deleting a secondary liability leaves its hash in the index of its
    target: GetRepLiabilities still returns it, and Get halts on it. *)
Lemma deleted_secondary_stays_indexed h l s :
  liab_ok s -> mdb_get h (master_liabilities_db s) = Some l -> l_is_secondary l = true ->
  wp (secondary_liability_del h;; GetRepLiabilities (l_target l)) (fun hashes s' =>
    h ∈ hashes /\ Get h s' = Halt "LiabilityManager::Get") s.
Proof.
  intros Hok Hl Hsec. pose proof (lo_rep s Hok _ _ Hl) as Hin. apply wpg_bind.
  eapply (wpg_mono _ _ (fun _ s' => rep_liabilities_db s' = rep_liabilities_db s /\
    mdb_get h (master_liabilities_db s') = None)).
  - rw /secondary_liability_del /liability_get. wp_steps. rw Hl. wp_steps.
    apply wpg_massert; [intros _; cbn; by mdb_simpl|].
    by rw /dup_missing bool_decide_eq_true_2; [|apply lo_listed].
  - intros [] s' [Hrep Hn]. rw /GetRepLiabilities. wp_steps. rw Hrep. split; [done|].
    by rw /Get /liability_get /gets /mbind /M_bind Hn.
Qed.
End Index.

Section Concrete.
#[local] Instance L : Lmdb := gmap_lmdb.
#[local] Instance LL : LmdbLaws L := gmap_lmdb_laws.
#[local] Instance B : Blake2b := encode_blake2b.
#[local] Instance CF : Blake2bCollisionFree B := encode_blake2b_inj.

(** Account 7 has a secondary liability to 8 until epoch 43. *)
Definition one_secondary : Store :=
  state_after (CreateSecondaryLiability 8 7 100 43 (fresh_account 1000) 1) empty_store.

Lemma secondary_liabilities_limit_redirection_witness :
  wp (CreateSecondaryLiability 9 7 100 43 (fresh_account 1000) 1) (fun r s' =>
    (r.1 = true <-> may_create one_secondary 9 7 1) /\
    liab_ok s' /\ single_target 1 s' /\ rtc liab_step (1, empty_store) (1, s')) one_secondary
  /\ value_of (CreateSecondaryLiability 9 7 100 43 (fresh_account 1000) 1) one_secondary
     = Some (false, set_epoch_secondary_updated 1 (fresh_account 1000)).
Proof.
  split; [|by_run].
  apply (secondary_liabilities_limit_redirection 1); try (by split).
  apply rtc_once, (step_secondary 1 8 7 100 43 (fresh_account 1000)
    (true, set_epoch_secondary_updated 1 (fresh_account 1000))); try (by split).
Defined.

Definition secondary_8_7 : Liability := Build_Liability 8 7 100 43 true.

Lemma one_secondary_ok : liab_ok one_secondary.
Proof.
  eapply (liab_inv_reachable 1 (1, one_secondary)); [done|].
  apply rtc_once, (step_secondary 1 8 7 100 43 (fresh_account 1000)
    (true, set_epoch_secondary_updated 1 (fresh_account 1000))); [done|done|done|by_run].
Qed.

Lemma deleted_secondary_stays_indexed_witness :
  wp (secondary_liability_del (Liability_Hash secondary_8_7);; GetRepLiabilities 8)
    (fun hashes s' => Liability_Hash secondary_8_7 ∈ hashes /\
       Get (Liability_Hash secondary_8_7) s' = Halt "LiabilityManager::Get") one_secondary.
Proof.
  apply (deleted_secondary_stays_indexed _ secondary_8_7);
    [exact one_secondary_ok|by_run|reflexivity].
Defined.
End Concrete.
