(* ===== verification/VotingPower.v ===== *)
(** * Voting power (src/logos/staking/voting_power_manager.cpp)

    A representative's voting power is kept for the current epoch and the next
    one. Requests of two consecutive epochs may be applied in any order near an
    epoch boundary: an update of an earlier epoch changes both snapshots, one
    of the present epoch only the next, and one of a later epoch first makes
    the next snapshot current, keeping the power of the epoch left behind in
    the fallback table when the representative may still vote in it. *)
From stdpp Require Import base list numbers strings relations ssreflect.
From S2P Require Import Prelude Serial Lmdb StakingTypes Requests Epochs BlockStore.
Open Scope Z_scope.

Inductive STAKE_TYPE := LOCKED_PROXY | UNLOCKED_PROXY | SELF_STAKE.
Inductive OP_TYPE := ADD | SUBTRACT.
#[global] Instance STAKE_TYPE_eq_dec : EqDecision STAKE_TYPE.
Proof. solve_decision. Defined.

(** The member of a snapshot a stake type selects. *)
Definition part (t : STAKE_TYPE) (v : VotingPowerSnapshot) : Amount :=
  match t with
  | LOCKED_PROXY => locked_proxied v
  | UNLOCKED_PROXY => unlocked_proxied v
  | SELF_STAKE => self_stake v
  end.
Definition set_part (t : STAKE_TYPE) (a : Amount) (v : VotingPowerSnapshot)
  : VotingPowerSnapshot :=
  match t with
  | LOCKED_PROXY => Build_VotingPowerSnapshot a (unlocked_proxied v) (self_stake v)
  | UNLOCKED_PROXY => Build_VotingPowerSnapshot (locked_proxied v) a (self_stake v)
  | SELF_STAKE => Build_VotingPowerSnapshot (locked_proxied v) (unlocked_proxied v) a
  end.

(** GetPower: the product is computed in 128 bits. *)
Definition GetPower (info : VotingPowerInfo) : Amount :=
  let diluted_unlocked_proxied :=
    u128 (unlocked_proxied (vp_current info) * DILUTION_FACTOR) / 100 in
  amt_add (amt_add (self_stake (vp_current info)) (locked_proxied (vp_current info)))
    diluted_unlocked_proxied.

Module VotingPowerManager.
Section Operations.
Context {L : Lmdb}.

(** block_store::request_get<ElectionVote>, with its assertion on the type. *)
Definition request_get_election_vote (hash : BlockHash) : M Store (option Governance) :=
  r ← request_get hash;
  match r with
  | None => mret None
  | Some ev => massert (is_election_vote ev) "block_store::request_get";; mret (Some ev)
  end.

Definition HandleFallback (info : VotingPowerInfo) (rep : AccountAddress) (epoch : Z)
  : M Store unit :=
  rep_info ← rep_get rep;
  match rep_info with
  | Some rep_info =>
      let hash := election_vote_tip rep_info in
      store_fallback ←
        (if negb (hash =? 0) then
           ev ← request_get_election_vote hash;
           match ev with
           | None => halt "VotingPowerManager::HandleFallback"
           | Some ev => mret (gr_epoch_num ev <? u32 (epoch - 1))
           end
         else mret true);
      if (store_fallback : bool) then
        fallback_voting_power_put rep
          (Build_VotingPowerFallback (GetPower info)
             (amt_add (locked_proxied (vp_current info)) (self_stake (vp_current info))))
      else fallback_voting_power_del rep;; mret tt
  | None => fallback_voting_power_del rep;; mret tt
  end.

Definition TransitionIfNecessary (info : VotingPowerInfo) (epoch : Z) (rep : AccountAddress)
  : M Store (bool * VotingPowerInfo) :=
  if vp_epoch_modified info <? epoch then
    HandleFallback info rep epoch;;
    mret (true, Build_VotingPowerInfo (vp_next info) (vp_next info) epoch)
  else mret (false, info).

(** The lambda [func] of Modify. *)
Definition func (op_type : OP_TYPE) (data diff : Amount) : M Store Amount :=
  if diff =? 0 then mret data
  else match op_type with
  | ADD =>
      let data' := amt_add data diff in
      if data' <? diff then halt "VotingPowerManager::AddFunc" else mret data'
  | SUBTRACT =>
      if data <? diff then halt "VotingPowerManager::SubtractFunc"
      else mret (amt_sub data diff)
  end.

Definition Modify (info : VotingPowerInfo) (account : AccountAddress) (stake_type : STAKE_TYPE)
    (op_type : OP_TYPE) (epoch : Z) (diff : Amount) : M Store VotingPowerInfo :=
  r ← TransitionIfNecessary info epoch account;
  let info := r.2 in
  current ←
    (if epoch <? vp_epoch_modified info then
       d ← func op_type (part stake_type (vp_current info)) diff;
       mret (set_part stake_type d (vp_current info))
     else mret (vp_current info));
  d ← func op_type (part stake_type (vp_next info)) diff;
  mret (Build_VotingPowerInfo current (set_part stake_type d (vp_next info))
          (vp_epoch_modified info)).

Definition CanPrune (rep : AccountAddress) (info : VotingPowerInfo) : M Store bool :=
  if negb (locked_proxied (vp_next info) =? 0) || negb (self_stake (vp_next info) =? 0)
     || negb (unlocked_proxied (vp_next info) =? 0)
  then mret false
  else
    rep_info ← rep_get rep;
    mret (match rep_info with Some _ => false | None => true end).

Definition StoreOrPrune (rep : AccountAddress) (info : VotingPowerInfo) : M Store unit :=
  can ← CanPrune rep info;
  if (can : bool) then
    err ← voting_power_del rep;
    if (err : bool) then halt "VotingPowerManager::StoreOrPrune" else mret tt
  else voting_power_put rep info.

Definition GetVotingPowerInfo (rep : AccountAddress) : M Store (option VotingPowerInfo) :=
  voting_power_get rep.

Definition TryPrune (rep : AccountAddress) : M Store unit :=
  info ← GetVotingPowerInfo rep;
  match info with
  | None => mret tt
  | Some info =>
      can ← CanPrune rep info;
      if (can : bool) then
        err ← voting_power_del rep;
        if (err : bool) then halt "VotingPowerManager::TryPrune" else mret tt
      else mret tt
  end.

(** The body the functions below share: they differ in the stake type, the
    operation, and what they do when there is no record. *)
Definition update_info (info : VotingPowerInfo) (rep : AccountAddress) (t : STAKE_TYPE)
    (op : OP_TYPE) (epoch_number : Z) (amount : Amount) : M Store bool :=
  info' ← Modify info rep t op epoch_number amount;
  StoreOrPrune rep info';; mret false.
Definition update_existing (who : string) (rep : AccountAddress) (t : STAKE_TYPE)
    (op : OP_TYPE) (epoch_number : Z) (amount : Amount) : M Store bool :=
  info ← GetVotingPowerInfo rep;
  match info with
  | None => halt who
  | Some info => update_info info rep t op epoch_number amount
  end.

Definition SubtractLockedProxied (rep : AccountAddress) (amount : Amount) (epoch_number : Z)
  : M Store bool :=
  update_existing "VotingPowerManager::SubtractLockedProxied" rep LOCKED_PROXY SUBTRACT
    epoch_number amount.
Definition AddLockedProxied (rep : AccountAddress) (amount : Amount) (epoch_number : Z)
  : M Store bool :=
  update_existing "VotingPowerManager::AddLockedProxied" rep LOCKED_PROXY ADD
    epoch_number amount.
Definition SubtractUnlockedProxied (rep : AccountAddress) (amount : Amount)
    (epoch_number : Z) : M Store bool :=
  update_existing "VotingPowerManager::SubtractUnlockedProxied" rep UNLOCKED_PROXY SUBTRACT
    epoch_number amount.
Definition AddUnlockedProxied (rep : AccountAddress) (amount : Amount) (epoch_number : Z)
  : M Store bool :=
  update_existing "VotingPowerManager::AddUnlockedProxied" rep UNLOCKED_PROXY ADD
    epoch_number amount.
Definition SubtractSelfStake (rep : AccountAddress) (amount : Amount) (epoch_number : Z)
  : M Store bool :=
  update_existing "VotingPowerManager::SubtractSelfStake" rep SELF_STAKE SUBTRACT
    epoch_number amount.
Definition AddSelfStake (rep : AccountAddress) (amount : Amount) (epoch_number : Z)
  : M Store bool :=
  info ← GetVotingPowerInfo rep;
  let info := match info with
    | Some info => info
    | None => Build_VotingPowerInfo VotingPowerSnapshot_zero VotingPowerSnapshot_zero
                epoch_number
    end in
  update_info info rep SELF_STAKE ADD epoch_number amount.

(** GetVotingPowerInfo(rep, epoch, info, txn). *)
Definition transition_stored (info : VotingPowerInfo) (rep : AccountAddress) (epoch : Z)
  : M Store VotingPowerInfo :=
  r ← TransitionIfNecessary info epoch rep;
  (if (r.1 : bool) then StoreOrPrune rep r.2 else mret tt);;
  mret r.2.
Definition GetVotingPowerInfo_epoch (rep : AccountAddress) (epoch : Z)
  : M Store (option VotingPowerInfo) :=
  info ← GetVotingPowerInfo rep;
  match info with
  | None => mret None
  | Some info => info' ← transition_stored info rep epoch; mret (Some info')
  end.

Definition GetCurrentTotalStake (rep : AccountAddress) (epoch_number : Z)
  : M Store Amount :=
  info ← GetVotingPowerInfo rep;
  match info with
  | None => halt "VotingPowerManager::GetCurrentVotingPower"
  | Some info =>
      info ← transition_stored info rep epoch_number;
      if epoch_number <? vp_epoch_modified info then
        f ← fallback_voting_power_get rep;
        match f with
        | None => halt "VotingPowerManager::GetCurrentVotingPower"
        | Some f => mret (vf_total_stake f)
        end
      else mret (amt_add (locked_proxied (vp_current info)) (self_stake (vp_current info)))
  end.

Definition GetCurrentVotingPower (rep : AccountAddress) (epoch_number : Z)
  : M Store Amount :=
  info ← GetVotingPowerInfo rep;
  match info with
  | None => halt "VotingPowerManager::GetCurrentVotingPower"
  | Some info =>
      info ← transition_stored info rep epoch_number;
      if epoch_number <? vp_epoch_modified info then
        f ← fallback_voting_power_get rep;
        match f with
        | None => halt "VotingPowerManager::GetCurrentVotingPower"
        | Some f => mret (vf_power f)
        end
      else mret (GetPower info)
  end.
End Operations.
End VotingPowerManager.
Import VotingPowerManager.

(** ** Frames *)

(** The manager touches the voting power tables only, and those of one
    representative at a time. *)
Definition power_frame `{Lmdb} (s s' : Store) : Prop :=
  same_funds s s' /\ same_liabilities s s' /\ same_registry s s'.
#[global] Instance power_frame_preorder `{Lmdb} : PreOrder power_frame.
Proof. split; [done|]. intros x y z (? & ? & ?) (? & ? & ?). split_and!; by transitivity y. Qed.

Section Frames.
Context {L : Lmdb}.

Lemma func_frame op d x : preserves power_frame (func op d x).
Proof. rw /func. solve_frame. Qed.
Lemma HandleFallback_frame i r e : preserves power_frame (HandleFallback i r e).
Proof. rw /HandleFallback /request_get_election_vote. table_frame. Qed.
End Frames.
#[export] Hint Resolve func_frame HandleFallback_frame : frame.

Section Frames2.
Context {L : Lmdb}.

Lemma Transition_frame i e r : preserves power_frame (TransitionIfNecessary i e r).
Proof. rw /TransitionIfNecessary. solve_frame. Qed.
Lemma CanPrune_frame r i : preserves power_frame (CanPrune r i).
Proof. rw /CanPrune. table_frame. Qed.
End Frames2.
#[export] Hint Resolve Transition_frame CanPrune_frame : frame.

Section Frames3.
Context {L : Lmdb}.

Lemma Modify_frame i a t op e d : preserves power_frame (Modify i a t op e d).
Proof. rw /Modify. solve_frame. Qed.
Lemma StoreOrPrune_frame r i : preserves power_frame (StoreOrPrune r i).
Proof. rw /StoreOrPrune. table_frame. Qed.
End Frames3.
#[export] Hint Resolve Modify_frame StoreOrPrune_frame : frame.

Section Frames4.
Context {L : Lmdb}.

Lemma update_info_frame i r t op e a : preserves power_frame (update_info i r t op e a).
Proof. rw /update_info. solve_frame. Qed.
End Frames4.
#[export] Hint Resolve update_info_frame : frame.

Section Frames5.
Context {L : Lmdb}.

Lemma update_existing_frame w r t op e a : preserves power_frame (update_existing w r t op e a).
Proof. rw /update_existing /GetVotingPowerInfo. table_frame. Qed.
Lemma AddSelfStake_frame r a e : preserves power_frame (AddSelfStake r a e).
Proof. rw /AddSelfStake /GetVotingPowerInfo. table_frame. Qed.
Lemma TryPrune_frame r : preserves power_frame (TryPrune r).
Proof. rw /TryPrune /GetVotingPowerInfo. table_frame. Qed.
End Frames5.
#[export] Hint Resolve update_existing_frame AddSelfStake_frame TryPrune_frame : frame.

(** ** The effect of one update *)
Section Updates.
Context {L : Lmdb} {LL : LmdbLaws L}.

(** [rep] is a representative whose last vote, if any, is stored. *)
Definition registered (rep : AccountAddress) (s : Store) : Prop :=
  exists ri, mdb_get rep (representative_db s) = Some ri /\
    (election_vote_tip ri <> 0 ->
     exists ev, mdb_get (election_vote_tip ri) (request_db s) = Some ev /\
       is_election_vote ev = true).

Lemma registered_frame rep s s' : power_frame s s' -> registered rep s -> registered rep s'.
Proof. rw /registered. intros (_ & _ & -> & -> & _). done. Qed.

(** [rep] has not voted in [epoch] or later. *)
Definition not_voted (rep : AccountAddress) (epoch : Z) (s : Store) : Prop :=
  forall ri ev, mdb_get rep (representative_db s) = Some ri -> election_vote_tip ri <> 0 ->
    mdb_get (election_vote_tip ri) (request_db s) = Some ev -> gr_epoch_num ev < epoch.
(** The fallback record of the epoch that [info] leaves. *)
Definition fallback_of (info : VotingPowerInfo) : VotingPowerFallback :=
  Build_VotingPowerFallback (GetPower info)
    (amt_add (locked_proxied (vp_current info)) (self_stake (vp_current info))).
Definition keeps_fallback (info : VotingPowerInfo) (rep : AccountAddress) (epoch : Z)
    (s s' : Store) : Prop :=
  in_width 32 (epoch - 1) -> not_voted rep (epoch - 1) s ->
  mdb_get rep (voting_power_fallback_db s') = Some (fallback_of info).

Lemma HandleFallback_ok info rep epoch s :
  registered rep s ->
  wp (HandleFallback info rep epoch) (fun _ s' => keeps_fallback info rep epoch s s' /\
    power_frame s s' /\ voting_power_db s' = voting_power_db s) s.
Proof.
  intros (ri & Hri & Hev). eapply wpg_mono; [eapply (wpg_frame _ power_frame);
    [apply HandleFallback_frame|]|].
  - instantiate (1 := fun _ s' => keeps_fallback info rep epoch s s' /\
      voting_power_db s' = voting_power_db s).
    rw /HandleFallback /rep_get /keeps_fallback. wp_steps. rw Hri. wp_steps.
    destruct (Z.eqb_spec (election_vote_tip ri) 0) as [H0|H0]; cbn [negb]; wp_steps.
    { split; [|done]. intros _ _. by rw /= get_put_eq. }
    destruct (Hev H0) as (ev & Hg & Ht).
    rw /request_get_election_vote /request_get. wp_steps. rw Hg.
    apply wpg_bind, wpg_massert; [intros _|by rw Ht]. wp_steps.
    case_match eqn:Hlt; wp_steps; (split; [|done]); intros Hw Hnv.
    + by rw /= get_put_eq.
    + specialize (Hnv ri ev Hri H0 Hg). apply Z.ltb_ge in Hlt.
      rw u32_id // in Hlt. lia.
  - by intros [] s' [[? ?] ?].
Qed.

(** The record a transition to [epoch] produces. *)
Definition transitioned (info : VotingPowerInfo) (epoch : Z) : VotingPowerInfo :=
  if vp_epoch_modified info <? epoch
  then Build_VotingPowerInfo (vp_next info) (vp_next info) epoch else info.
(** What a transition does to the fallback table. *)
Definition fallback_step (info : VotingPowerInfo) (rep : AccountAddress) (epoch : Z)
    (s s' : Store) : Prop :=
  if vp_epoch_modified info <? epoch then keeps_fallback info rep epoch s s'
  else voting_power_fallback_db s' = voting_power_fallback_db s.

Lemma Transition_ok info epoch rep s :
  registered rep s ->
  wp (TransitionIfNecessary info epoch rep) (fun r s' =>
    r = (vp_epoch_modified info <? epoch, transitioned info epoch) /\
    fallback_step info rep epoch s s' /\ power_frame s s' /\
    voting_power_db s' = voting_power_db s) s.
Proof.
  intros Hr. rw /TransitionIfNecessary /transitioned /fallback_step. destruct (_ <? _); [|done].
  apply wpg_bind. eapply wpg_mono; [by apply HandleFallback_ok|]. done.
Qed.

Definition signed (op : OP_TYPE) (a : Amount) : Z :=
  match op with ADD => a | SUBTRACT => - a end.

(** [func] computes in the integers; it halts when the result does not fit. *)
Lemma func_ok (H : Prop) op data diff (s : Store) :
  in_width 128 data -> in_width 128 diff ->
  in_width 128 (data + signed op diff) \/ H ->
  wpg H (func op data diff) (fun d s' =>
    s' = s /\ d = data + signed op diff /\ in_width 128 d) s.
Proof.
  rw /in_width /func => Hd Hx Hr. destruct (Z.eqb_spec diff 0) as [->|Hne].
  { apply wpg_ret. split; [done|]. destruct op; cbn; lia. }
  destruct op; cbn [signed] in *.
  - destruct (Z.lt_ge_cases (data + diff) (2 ^ 128)) as [Hlt|Ho].
    + rw amt_add_small; [|lia]. destruct (Z.ltb_spec (data + diff) diff); [lia|].
      apply wpg_ret. split; [done|]. lia.
    + destruct (Z.ltb_spec (amt_add data diff) diff) as [|Hge].
      * apply wpg_halt. destruct Hr; [lia|done].
      * exfalso. revert Hge.
        rw /amt_add /u128 /wrap -(Z_mod_plus_full _ (-1)) Z.mod_small; lia.
  - destruct (Z.ltb_spec data diff).
    + apply wpg_halt. destruct Hr; [lia|done].
    + apply wpg_ret. split; [done|]. rw amt_sub_small; lia.
Qed.
End Updates.

Lemma part_set_part t t' a v :
  part t' (set_part t a v) = if decide (t = t') then a else part t' v.
Proof. by destruct t, t'. Qed.

Lemma snapshot_ext v v' : (forall t, part t v = part t v') -> v = v'.
Proof.
  intros Heq. destruct v as [l u x], v' as [l' u' x'].
  by rw (Heq LOCKED_PROXY : l = l') (Heq UNLOCKED_PROXY : u = u') (Heq SELF_STAKE : x = x').
Qed.

Lemma snapshot_wf_parts v : VotingPowerSnapshot_wf v <-> forall t, in_width 128 (part t v).
Proof.
  split; [by intros (? & ? & ?) []|].
  intros Hw. exact (conj (Hw LOCKED_PROXY) (conj (Hw UNLOCKED_PROXY) (Hw SELF_STAKE))).
Qed.

(** ** The ledger of a representative

    An update of the voting power, and the function the node calls for it. *)
Record update := {
  u_type : STAKE_TYPE; u_op : OP_TYPE; u_epoch : Z; u_amount : Amount
}.

Definition apply_update `{Lmdb} (rep : AccountAddress) (u : update) : M Store bool :=
  match u_type u, u_op u with
  | LOCKED_PROXY, ADD => AddLockedProxied rep (u_amount u) (u_epoch u)
  | LOCKED_PROXY, SUBTRACT => SubtractLockedProxied rep (u_amount u) (u_epoch u)
  | UNLOCKED_PROXY, ADD => AddUnlockedProxied rep (u_amount u) (u_epoch u)
  | UNLOCKED_PROXY, SUBTRACT => SubtractUnlockedProxied rep (u_amount u) (u_epoch u)
  | SELF_STAKE, ADD => AddSelfStake rep (u_amount u) (u_epoch u)
  | SELF_STAKE, SUBTRACT => SubtractSelfStake rep (u_amount u) (u_epoch u)
  end.

Fixpoint apply_updates `{Lmdb} (rep : AccountAddress) (us : list update) : M Store unit :=
  match us with
  | [] => mret tt
  | u :: us' => apply_update rep u;; apply_updates rep us'
  end.

(** What an update adds to the member [t]. *)
Definition delta (t : STAKE_TYPE) (u : update) : Z :=
  if decide (u_type u = t) then signed (u_op u) (u_amount u) else 0.
Definition update_wf (u : update) : Prop := in_width 128 (u_amount u).

Definition last_epoch (e : Z) (us : list update) : Z :=
  foldr (fun u m => Z.max (u_epoch u) m) e us.
Definition before (e : Z) (us : list update) : list update :=
  filter (fun u => u_epoch u < e) us.

(** The record the updates [us] should lead to from [base], as a function of
    the set of updates: everything counts for the next epoch, and what was
    issued before the last epoch seen for the current one. *)
Record ledger (base : VotingPowerInfo) (us : list update) (info : VotingPowerInfo) : Prop := {
  lg_epoch : vp_epoch_modified info = last_epoch (vp_epoch_modified base) us;
  lg_next t : part t (vp_next info) = part t (vp_next base) + sumZ (delta t) us;
  lg_current t : part t (vp_current info) =
    part t (if vp_epoch_modified base <? vp_epoch_modified info
            then vp_next base else vp_current base)
    + sumZ (delta t) (before (vp_epoch_modified info) us);
}.

Definition snapshots_wf (info : VotingPowerInfo) : Prop :=
  VotingPowerSnapshot_wf (vp_current info) /\ VotingPowerSnapshot_wf (vp_next info).

Section Ledger.
Context {L : Lmdb} {LL : LmdbLaws L}.

Definition bump (u : update) (v : VotingPowerSnapshot) : VotingPowerSnapshot :=
  set_part (u_type u) (part (u_type u) v + signed (u_op u) (u_amount u)) v.
(** The record after an update, in the integers. *)
Definition updated (info : VotingPowerInfo) (u : update) : VotingPowerInfo :=
  let t := transitioned info (u_epoch u) in
  Build_VotingPowerInfo
    (if u_epoch u <? vp_epoch_modified t then bump u (vp_current t) else vp_current t)
    (bump u (vp_next t)) (vp_epoch_modified t).

Lemma part_bump t u v : part t (bump u v) = part t v + delta t u.
Proof.
  rw /bump /delta part_set_part. destruct (decide (u_type u = t)) as [->|]; lia.
Qed.

Lemma transitioned_wf info e : snapshots_wf info -> snapshots_wf (transitioned info e).
Proof. rw /snapshots_wf /transitioned. case_match; cbn; tauto. Qed.

Lemma bump_func_ok (H : Prop) u v (s : Store) :
  update_wf u -> VotingPowerSnapshot_wf v -> VotingPowerSnapshot_wf (bump u v) \/ H ->
  wpg H (func (u_op u) (part (u_type u) v) (u_amount u)) (fun d s' =>
    s' = s /\ set_part (u_type u) d v = bump u v /\ VotingPowerSnapshot_wf (bump u v)) s.
Proof.
  rw !snapshot_wf_parts. intros Hu Hv Hb. eapply wpg_mono; [apply func_ok; [done|done|]|].
  - destruct Hb as [Hb|]; [left|by right]. rw snapshot_wf_parts in Hb. move: (Hb (u_type u)).
    by rw part_set_part decide_True.
  - intros d s' (-> & -> & Hd). split_and!; [done..|]. apply snapshot_wf_parts.
    intros t. rw part_set_part. by case_decide.
Qed.

Lemma Modify_ok (H : Prop) info rep u s :
  registered rep s -> snapshots_wf info -> update_wf u -> snapshots_wf (updated info u) \/ H ->
  wpg H (Modify info rep (u_type u) (u_op u) (u_epoch u) (u_amount u)) (fun info' s' =>
    info' = updated info u /\ snapshots_wf info' /\ fallback_step info rep (u_epoch u) s s' /\
    power_frame s s' /\ voting_power_db s' = voting_power_db s) s.
Proof.
  intros Hr Hwf Hu Hfit. rw /Modify. apply wpg_bind.
  pose proof (Transition_ok info (u_epoch u) rep s Hr) as Ht.
  rw /wpg in Ht *. destruct (TransitionIfNecessary _ _ _ s) as [[[b i] s1]|]; [|done].
  destruct Ht as ([= -> ->] & Hfb & Hf & Hv). cbn [snd].
  pose proof (transitioned_wf _ (u_epoch u) Hwf) as [Hc Hn].
  rw -/(wpg H _ _ s1). apply wpg_bind.
  eapply (wpg_mono _ _ (fun c s' => s' = s1 /\ VotingPowerSnapshot_wf c /\
    c = vp_current (updated info u))).
  - rw /snapshots_wf /updated in Hfit *. cbn [vp_current vp_next] in *.
    case_match; [|by wp_steps]. apply wpg_bind.
    eapply wpg_mono; [apply bump_func_ok; [done|done|tauto]|].
    intros d s' (-> & -> & ?). by wp_steps.
  - intros c s' (-> & Hcw & ->). apply wpg_bind.
    eapply wpg_mono; [apply bump_func_ok; [done|done|]|].
    + destruct Hfit as [[_ ?]|]; auto.
    + intros d s' (-> & -> & ?). by wp_steps.
Qed.

(** One update of a registered representative: its record is updated, nothing
    else is; it halts only when the result does not fit. *)
Lemma apply_update_ok (H : Prop) info rep u s :
  registered rep s -> mdb_get rep (voting_power_db s) = Some info ->
  snapshots_wf info -> update_wf u -> snapshots_wf (updated info u) \/ H ->
  wpg H (apply_update rep u) (fun _ s' =>
    (forall r, mdb_get r (voting_power_db s') =
       if decide (rep = r) then Some (updated info u) else mdb_get r (voting_power_db s)) /\
    snapshots_wf (updated info u) /\ fallback_step info rep (u_epoch u) s s' /\
    power_frame s s') s.
Proof.
  intros Hr Hi Hwf Hu Hfit.
  assert (apply_update rep u s =
    update_info info rep (u_type u) (u_op u) (u_epoch u) (u_amount u) s) as Hrun.
  { rw /apply_update /AddLockedProxied /SubtractLockedProxied /AddUnlockedProxied
      /SubtractUnlockedProxied /AddSelfStake /SubtractSelfStake /update_existing
      /GetVotingPowerInfo /voting_power_get.
    destruct u as [[] [] e a]; cbn; by rw /gets /mbind /M_bind Hi. }
  rw /wpg Hrun -/(wpg H _ _ s) /update_info. apply wpg_bind.
  eapply wpg_mono; [by apply Modify_ok|]. intros info' s1 (-> & Hw & Hfb & Hf & Hv).
  assert (registered rep s1) as (ri & Hri & _) by by eapply registered_frame.
  rw /StoreOrPrune /CanPrune /rep_get. apply wpg_bind, wpg_bind.
  eapply (wpg_mono _ _ (fun b s' => b = false /\ s' = s1)).
  { case_match; wp_steps; [done|]. by rw Hri. }
  intros b s' [-> ->]. rw /voting_power_put. wp_steps. split_and!; [|done..].
  intros r. cbn. by rw get_put Hv.
Qed.
End Ledger.

(** *** The ledger is a function of the set of updates *)
Section LedgerLaws.
Lemma last_epoch_app e us u :
  last_epoch e (us ++ [u]) = Z.max (u_epoch u) (last_epoch e us).
Proof. rw /last_epoch. induction us as [|x us IH]; cbn in *; lia. Qed.
Lemma last_epoch_base e us : e <= last_epoch e us.
Proof. rw /last_epoch. induction us; cbn in *; lia. Qed.
Lemma last_epoch_all e us : Forall (fun u => u_epoch u <= last_epoch e us) us.
Proof.
  rw /last_epoch. induction us as [|x us IH]; constructor; cbn; [lia|].
  eapply Forall_impl; [exact IH|]. cbn. lia.
Qed.
Lemma last_epoch_perm e us us' : us ≡ₚ us' -> last_epoch e us = last_epoch e us'.
Proof. rw /last_epoch. induction 1; cbn in *; lia. Qed.

Lemma before_app e us u :
  before e (us ++ [u]) = before e us ++ (if u_epoch u <? e then [u] else []).
Proof.
  rw /before filter_app filter_cons filter_nil. f_equal.
  destruct (Z.ltb_spec (u_epoch u) e); case_decide; by try lia.
Qed.
Lemma before_all e e' us : last_epoch e us < e' -> before e' us = us.
Proof.
  intros Hlt. apply filter_all. eapply Forall_impl; [apply (last_epoch_all e)|].
  cbn. lia.
Qed.

Lemma ledger_nil base : ledger base [] base.
Proof.
  split; cbn; [done| |]; intros t; rw ?Z.ltb_irrefl /before ?filter_nil /=; lia.
Qed.

Lemma ledger_snoc base us info u :
  ledger base us info -> ledger base (us ++ [u]) (updated info u).
Proof.
  intros [He Hn Hc]. pose proof (last_epoch_base (vp_epoch_modified base) us) as Hb.
  rw /updated /transitioned.
  destruct (Z.ltb_spec (vp_epoch_modified info) (u_epoch u)) as [Hlt|Hge];
    split; cbn [vp_epoch_modified vp_next vp_current]; try intros t;
    rw ?last_epoch_app ?part_bump ?sumZ_app ?sumZ_cons ?before_app ?Hn /=.
  - lia.
  - lia.
  - rw Z.ltb_irrefl app_nil_r (before_all (vp_epoch_modified base)); [|lia].
    destruct (Z.ltb_spec (vp_epoch_modified base) (u_epoch u)); [apply Hn|lia].
  - lia.
  - lia.
  - destruct (Z.ltb_spec (u_epoch u) (vp_epoch_modified info));
      rw ?part_bump Hc ?sumZ_app ?sumZ_cons ?app_nil_r /=; lia.
Qed.

Lemma ledger_unique base us us' info info' :
  us ≡ₚ us' -> ledger base us info -> ledger base us' info' -> info = info'.
Proof.
  intros Hp [He Hn Hc] [He' Hn' Hc'].
  assert (vp_epoch_modified info = vp_epoch_modified info') as Heq.
  { rw He He'. by apply last_epoch_perm. }
  destruct info as [c n e], info' as [c' n' e']. cbn in *. rw -Heq in Hc' *. clear He He' Heq e'.
  f_equal.
  - apply snapshot_ext. intros t. rw Hc Hc'. f_equal. apply sumZ_perm.
    rw /before. by rw Hp.
  - apply snapshot_ext. intros t. rw Hn Hn'. by rw Hp.
Qed.
End LedgerLaws.

Section Runs.
Context {L : Lmdb} {LL : LmdbLaws L}.

(** Every prefix of the updates stays within 128 bits. *)
Fixpoint all_fit (info : VotingPowerInfo) (us : list update) : Prop :=
  match us with
  | [] => True
  | u :: us' => snapshots_wf (updated info u) /\ all_fit (updated info u) us'
  end.

Lemma apply_updates_ok (H : Prop) base rep us : forall old info s,
  registered rep s -> mdb_get rep (voting_power_db s) = Some info ->
  snapshots_wf info -> Forall update_wf us -> all_fit info us \/ H ->
  ledger base old info ->
  wpg H (apply_updates rep us) (fun _ s' => exists info',
    mdb_get rep (voting_power_db s') = Some info' /\ snapshots_wf info' /\
    ledger base (old ++ us) info' /\ power_frame s s') s.
Proof.
  induction us as [|u us IH]; intros old info s Hr Hi Hwf Hus Hfit Hlg; cbn [apply_updates].
  { apply wpg_ret. exists info. by rw app_nil_r. }
  apply Forall_cons in Hus as [Hu Hus]. apply wpg_bind.
  eapply wpg_mono; [apply (apply_update_ok H info); [done..|cbn in Hfit; tauto]|].
  intros [] s1 (Hget & Hw1 & _ & Hf1);
    (eapply wpg_mono; [apply (IH (old ++ [u]) (updated info u));
      [by eapply registered_frame|by rw Hget decide_True|done|done|cbn in Hfit; tauto
      |by apply ledger_snoc]|]);
    intros [] s2 (info' & ? & ? & Hl & Hf2); exists info'; rw -app_assoc in Hl;
    split_and!; try done; by transitivity s1.
Qed.

(** C23 Refinement: whatever updates are applied to a registered
    representative's voting power, from whatever epochs and in whatever
    order, the stored record is the ledger of those updates: the next
    snapshot sums all of them, the current one those issued before the last
    epoch seen. *)
Theorem voting_power_refines_ledger base rep us s s' :
  registered rep s -> mdb_get rep (voting_power_db s) = Some base -> snapshots_wf base ->
  Forall update_wf us -> apply_updates rep us s = Ok (tt, s') ->
  exists info, mdb_get rep (voting_power_db s') = Some info /\ ledger base us info.
Proof.
  intros Hr Hb Hwf Hus Hrun. eapply wpg_ok in Hrun;
    [|by apply (apply_updates_ok True base rep us [] base); auto using ledger_nil].
  destruct Hrun as (info & ? & _ & ? & _). by exists info.
Qed.

(** C34 Convergence: two nodes that apply the same updates in different orders
    hold the same voting power record. *)
Theorem voting_power_order_independent base rep us us' s s1 s2 :
  registered rep s -> mdb_get rep (voting_power_db s) = Some base -> snapshots_wf base ->
  Forall update_wf us -> us ≡ₚ us' ->
  apply_updates rep us s = Ok (tt, s1) -> apply_updates rep us' s = Ok (tt, s2) ->
  mdb_get rep (voting_power_db s1) = mdb_get rep (voting_power_db s2).
Proof.
  intros Hr Hb Hwf Hus Hp H1 H2. pose proof Hus as Hus'. rw Hp in Hus'.
  eapply wpg_ok in H1; [|by apply (apply_updates_ok True base rep us [] base); auto using ledger_nil].
  eapply wpg_ok in H2; [|by apply (apply_updates_ok True base rep us' [] base); auto using ledger_nil].
  destruct H1 as (i1 & -> & _ & Hl1 & _), H2 as (i2 & -> & _ & Hl2 & _).
  f_equal. by eapply ledger_unique.
Qed.

Definition additions (us : list update) : Prop :=
  Forall (fun u => u_op u = ADD /\ 0 <= u_amount u) us.
(** Room for the additions [us] in every member. *)
Definition room (info : VotingPowerInfo) (us : list update) : Prop :=
  forall t, Z.max (part t (vp_current info)) (part t (vp_next info))
            + sumZ (delta t) us < 2 ^ 128.

Lemma delta_nonneg t us : additions us -> Forall (fun u => 0 <= delta t u) us.
Proof.
  intros Hus. eapply Forall_impl; [exact Hus|]. intros u [Ho Ha].
  rw /delta Ho. case_decide; cbn; lia.
Qed.

Lemma room_fits info us :
  additions us -> snapshots_wf info -> room info us -> all_fit info us.
Proof.
  intros Hus. revert info. induction Hus as [|u us [Ho Ha] Hus IH]; intros info Hwf Hroom;
    [done|].
  assert (forall t, 0 <= delta t u) as Hd.
  { intros t. rw /delta Ho. case_decide; cbn; lia. }
  assert (forall t, 0 <= sumZ (delta t) us) as Hs.
  { intros t. by apply sumZ_nonneg, delta_nonneg. }
  rw /snapshots_wf !snapshot_wf_parts /in_width in Hwf. destruct Hwf as [Hc Hn].
  assert (forall t, 0 <= part t (vp_next (updated info u)) /\
    0 <= part t (vp_current (updated info u)) /\
    Z.max (part t (vp_current (updated info u))) (part t (vp_next (updated info u)))
    <= Z.max (part t (vp_current info)) (part t (vp_next info)) + delta t u) as Hb.
  { intros t. specialize (Hc t). specialize (Hn t). specialize (Hd t).
    rw /updated /transitioned. destruct (_ <? _); case_match;
      cbn [vp_current vp_next vp_epoch_modified]; rw ?part_bump; lia. }
  assert (snapshots_wf (updated info u)) as Hw.
  { rw /snapshots_wf !snapshot_wf_parts /in_width. split; intros t;
      specialize (Hb t); specialize (Hroom t); specialize (Hs t); rw sumZ_cons in Hroom; lia. }
  split; [done|]. apply IH; [done|]. intros t.
  specialize (Hb t); specialize (Hroom t); rw sumZ_cons in Hroom; lia.
Qed.

(** C35 Completion: updates that only add, with room for their sum, never
    halt the node, whatever their epochs and order. *)
Theorem voting_power_additions_complete base rep us s :
  registered rep s -> mdb_get rep (voting_power_db s) = Some base -> snapshots_wf base ->
  Forall update_wf us -> additions us -> room base us ->
  exists s', apply_updates rep us s = Ok (tt, s').
Proof.
  intros Hr Hb Hwf Huw Hus Hroom.
  destruct (proj1 (wp_ok _ _ _) (apply_updates_ok False base rep us [] base s Hr Hb Hwf Huw
    (or_introl (room_fits _ _ Hus Hwf Hroom)) (ledger_nil base))) as ([] & s' & Hrun & _).
  by exists s'.
Qed.
End Runs.

(** ** Voting near the epoch boundary *)
Section LateVotes.
Context {L : Lmdb} {LL : LmdbLaws L}.

(** The power [base] has in its epoch [e] can still be read. *)
Definition vote_ready (base : VotingPowerInfo) (rep : AccountAddress) (e : Z) (s : Store)
  : Prop :=
  exists info, mdb_get rep (voting_power_db s) = Some info /\ snapshots_wf info /\
    ((vp_epoch_modified info = e /\ vp_current info = vp_current base) \/
     (vp_epoch_modified info = e + 1 /\
      mdb_get rep (voting_power_fallback_db s) = Some (fallback_of base))).

Lemma fallback_of_current i i' :
  vp_current i = vp_current i' -> fallback_of i = fallback_of i'.
Proof. rw /fallback_of /GetPower. by intros ->. Qed.

Lemma vote_ready_step base rep e u s :
  in_width 32 e -> registered rep s -> not_voted rep e s -> update_wf u ->
  u_epoch u = e \/ u_epoch u = e + 1 ->
  vote_ready base rep e s ->
  wlp (apply_update rep u) (fun _ s' => vote_ready base rep e s' /\ power_frame s s') s.
Proof.
  intros He Hr Hnv Hu Hue (info & Hi & Hwf & Hcase).
  eapply wpg_mono; [by apply (apply_update_ok True info); auto|].
  intros _ s' (Hget & Hw & Hfb & Hf). split; [|done].
  exists (updated info u). rw Hget decide_True //. split_and!; [done..|].
  move: Hfb. rw /fallback_step /updated /transitioned.
  destruct (Z.ltb_spec (vp_epoch_modified info) (u_epoch u)) as [Hlt|Hge]; cbn.
  - intros Hkeep. right. destruct Hue as [Hue|Hue], Hcase as [[Hm Hc]|[Hm _]]; try lia.
    split; [done|]. rw Hkeep ?Hue; rw ?Z.add_simpl_r //. f_equal. by apply fallback_of_current.
  - intros ->. destruct Hcase as [[Hm Hc]|[Hm Hb]]; [left|right]; rw Hm; [|done].
    split; [done|]. destruct (Z.ltb_spec (u_epoch u) e); [lia|done].
Qed.

Lemma vote_ready_run base rep e us : forall s,
  in_width 32 e -> registered rep s -> not_voted rep e s -> Forall update_wf us ->
  Forall (fun u => u_epoch u = e \/ u_epoch u = e + 1) us ->
  vote_ready base rep e s ->
  wlp (apply_updates rep us) (fun _ s' => vote_ready base rep e s') s.
Proof.
  induction us as [|u us IH]; intros s He Hr Hnv Hwf Hep Hv; cbn [apply_updates]; [done|].
  apply Forall_cons in Hwf as [? ?], Hep as [? ?]. apply wpg_bind.
  eapply wpg_mono; [by apply (vote_ready_step base rep e)|]. intros _ s' [Hv' Hf].
  apply IH; try done; [by eapply registered_frame|].
  move: Hf Hnv. rw /not_voted. by intros (_ & _ & -> & -> & _).
Qed.

Lemma vote_ready_read base rep e s :
  vote_ready base rep e s ->
  GetCurrentVotingPower rep e s = Ok (GetPower base, s) /\
  GetCurrentTotalStake rep e s = Ok (vf_total_stake (fallback_of base), s).
Proof.
  intros (info & Hi & _ & Hcase).
  rw /GetCurrentVotingPower /GetCurrentTotalStake /GetVotingPowerInfo /voting_power_get
     /transition_stored /TransitionIfNecessary /fallback_voting_power_get.
  rw /gets /mbind /M_bind Hi.
  destruct Hcase as [[Hm Hc]|[Hm Hb]]; rw Hm.
  - rw Z.ltb_irrefl /= Hm Z.ltb_irrefl. by rw /GetPower Hc.
  - destruct (Z.ltb_spec (e + 1) e); [lia|]. rw /= Hm.
    destruct (Z.ltb_spec e (e + 1)); [|lia]. by rw Hb.
Qed.

(** The race the fallback table is for: while a representative whose
    record is of epoch [e] has not voted in [e], updates of epochs [e] and
    [e + 1] may be applied in any order and number; a vote of epoch [e] is
    still counted with the power and the stake the representative had when
    the epoch began. *)
Lemma late_vote_has_its_power base rep e us s s' :
  in_width 32 e -> registered rep s -> not_voted rep e s ->
  mdb_get rep (voting_power_db s) = Some base -> vp_epoch_modified base = e ->
  snapshots_wf base -> Forall update_wf us ->
  Forall (fun u => u_epoch u = e \/ u_epoch u = e + 1) us ->
  apply_updates rep us s = Ok (tt, s') ->
  GetCurrentVotingPower rep e s' = Ok (GetPower base, s') /\
  GetCurrentTotalStake rep e s' =
    Ok (amt_add (locked_proxied (vp_current base)) (self_stake (vp_current base)), s').
Proof.
  intros He Hr Hnv Hb Hm Hwf Huw Hep Hrun. apply vote_ready_read.
  eapply wpg_ok in Hrun; [|apply (vote_ready_run base rep e)]; try done.
  exists base. by auto.
Qed.
End LateVotes.

(** ** Bounds of the voting power *)

(** GetPower is self stake plus locked proxies plus a quarter of the unlocked
    ones, provided 25 times the unlocked proxies and the total fit in 128 bits. *)
Lemma GetPower_exact info :
  snapshots_wf info ->
  unlocked_proxied (vp_current info) * DILUTION_FACTOR < 2 ^ 128 ->
  self_stake (vp_current info) + locked_proxied (vp_current info)
    + unlocked_proxied (vp_current info) / 4 < 2 ^ 128 ->
  GetPower info = self_stake (vp_current info) + locked_proxied (vp_current info)
                  + unlocked_proxied (vp_current info) / 4.
Proof.
  intros [(Hl & Hu & Hs) _]. rw /GetPower /u128 /DILUTION_FACTOR /in_width in Hl Hu Hs *.
  intros H1 H2. rw wrap_id; [|rw /in_width; lia].
  assert (unlocked_proxied (vp_current info) * 25 / 100 = unlocked_proxied (vp_current info) / 4)
    as ->. { rw (Z.div_mul_cancel_r _ 4 25) //. }
  pose proof (Z.div_pos (unlocked_proxied (vp_current info)) 4).
  rw !amt_add_small; lia.
Qed.

(** The product of GetPower wraps: an account whose unlocked proxies exceed
    a twenty-fifth of 2^128 can have less voting power than one with fewer. *)
Lemma GetPower_wraps :
  exists few many : VotingPowerInfo,
    snapshots_wf few /\ snapshots_wf many /\
    (forall t, part t (vp_current few) <= part t (vp_current many)) /\
    GetPower many < GetPower few.
Proof.
  exists (Build_VotingPowerInfo (Build_VotingPowerSnapshot 0 (2 ^ 123) 0) VotingPowerSnapshot_zero 0).
  exists (Build_VotingPowerInfo (Build_VotingPowerSnapshot 0 (2 ^ 128 / 25 + 1) 0)
            VotingPowerSnapshot_zero 0).
  split; [by repeat split|]. split; [by repeat split|]. split; [|done]. by intros [].
Qed.

Section Limits.
Context {L : Lmdb} {LL : LmdbLaws L}.

(** The fallback record holds the power of the epoch the record was last
    modified in. When that is before [e], a vote of epoch [e] applied after
    an update of [e + 1] is counted with the older power, although read
    before that update it is counted with the power of [e]. *)
Lemma fallback_is_of_the_last_epoch_modified base rep e u s s' :
  in_width 32 e -> registered rep s -> not_voted rep e s ->
  mdb_get rep (voting_power_db s) = Some base -> vp_epoch_modified base < e ->
  snapshots_wf base -> update_wf u -> u_epoch u = e + 1 ->
  apply_update rep u s = Ok (false, s') ->
  GetCurrentVotingPower rep e s' = Ok (GetPower base, s') /\
  wp (GetCurrentVotingPower rep e) (fun power _ =>
    power = GetPower (Build_VotingPowerInfo (vp_next base) (vp_next base) e)) s.
Proof.
  intros He Hr Hnv Hb Hm Hwf Hu Hue Hrun. split.
  - apply vote_ready_read. eapply wpg_ok in Hrun; [|by apply (apply_update_ok True base); auto].
    destruct Hrun as (Hget & Hw & Hfb & _). exists (updated base u).
    rw Hget decide_True //. split_and!; [done..|]. right. move: Hfb.
    rw /fallback_step /updated /transitioned /keeps_fallback Hue.
    destruct (Z.ltb_spec (vp_epoch_modified base) (e + 1)); [|lia].
    rw Z.add_simpl_r. by auto.
  - rw /GetCurrentVotingPower /GetVotingPowerInfo /voting_power_get. wp_steps. rw Hb.
    apply wpg_bind. rw /transition_stored. apply wpg_bind.
    eapply wpg_mono; [by apply Transition_ok|]. intros [b i] s1 ([= -> ->] & _ & Hf & _).
    rw /transitioned. destruct (Z.ltb_spec (vp_epoch_modified base) e); [|lia]. cbn.
    destruct (registered_frame _ _ _ Hf Hr) as (ri & Hri & _).
    apply wpg_bind. rw /StoreOrPrune /CanPrune /rep_get. apply wpg_bind.
    eapply (wpg_mono _ _ (fun b s' => b = false)).
    { case_match; wp_steps; [done|]. by rw Hri. }
    intros b s2 ->. rw /voting_power_put. wp_steps. cbn. rw Z.ltb_irrefl. by wp_steps.
Qed.

(** SubtractSelfStake needs the record to exist: without it the node halts. *)
Lemma SubtractSelfStake_needs_record rep amount e s :
  mdb_get rep (voting_power_db s) = None ->
  SubtractSelfStake rep amount e s = Halt "VotingPowerManager::SubtractSelfStake".
Proof.
  intros Hn. by rw /SubtractSelfStake /update_existing /GetVotingPowerInfo /voting_power_get
    /gets /mbind /M_bind Hn.
Qed.

(** Adding a self stake of 0 for an account that is not a representative and
    has no record halts: the new record is pruned before it was stored. *)
Lemma AddSelfStake_zero_halts rep e s :
  mdb_get rep (voting_power_db s) = None -> mdb_get rep (representative_db s) = None ->
  AddSelfStake rep 0 e s = Halt "VotingPowerManager::StoreOrPrune".
Proof.
  intros Hn Hr. rw /AddSelfStake /GetVotingPowerInfo /voting_power_get /update_info /Modify
    /TransitionIfNecessary /StoreOrPrune /CanPrune /rep_get /voting_power_del /missing /gets.
  cbv [mbind M_bind]. rw Hn. cbn [vp_epoch_modified]. rw Z.ltb_irrefl. cbn. rw Z.ltb_irrefl.
  cbn. by rw Hr Hn.
Qed.
End Limits.

(** ** The theorems at work on a concrete store *)
Section Concrete.
#[local] Instance L : Lmdb := gmap_lmdb.
#[local] Instance LL : LmdbLaws L := gmap_lmdb_laws.

(** Representative 5, whose record is of epoch 4. *)
Definition rep5_info : VotingPowerInfo :=
  Build_VotingPowerInfo (Build_VotingPowerSnapshot 10 20 30)
    (Build_VotingPowerSnapshot 11 22 33) 4.
Definition rep5_store : Store :=
  Build_Store L mdb_empty dup_empty mdb_empty dup_empty dup_empty
    (mdb_put 5 rep5_info mdb_empty) mdb_empty
    (mdb_put 5 (Build_RepInfo 0 0 0 0) mdb_empty) mdb_empty no_elections.
Definition upd1 : update := Build_update LOCKED_PROXY ADD 5 7.
Definition upd2 : update := Build_update SELF_STAKE ADD 4 3.
Definition upd3 : update := Build_update UNLOCKED_PROXY ADD 5 8.
Definition after (us : list update) : Store := state_after (apply_updates 5 us) rep5_store.

Lemma rep5_registered : registered 5 rep5_store.
Proof. exists (Build_RepInfo 0 0 0 0). split; [by_run|]. by intros []. Qed.
Lemma rep5_not_voted e : not_voted 5 e rep5_store.
Proof. intros ri ev Hri. vm_compute in Hri. injection Hri as <-. by intros []. Qed.
Lemma rep5_wf : snapshots_wf rep5_info.
Proof. by repeat split. Qed.
Lemma upds_wf : Forall update_wf [upd1; upd2; upd3].
Proof. by repeat constructor. Qed.

Lemma voting_power_refines_ledger_witness :
  exists info, mdb_get 5 (voting_power_db (after [upd1; upd2; upd3])) = Some info /\
    ledger rep5_info [upd1; upd2; upd3] info.
Proof.
  apply (voting_power_refines_ledger rep5_info 5 [upd1; upd2; upd3] rep5_store);
    [exact rep5_registered|by_run|exact rep5_wf|exact upds_wf
    |by_run].
Defined.

Lemma voting_power_order_independent_witness :
  mdb_get 5 (voting_power_db (after [upd1; upd2; upd3])) =
  mdb_get 5 (voting_power_db (after [upd2; upd1; upd3])).
Proof.
  apply (voting_power_order_independent rep5_info 5 [upd1; upd2; upd3] [upd2; upd1; upd3]
           rep5_store);
    [exact rep5_registered|by_run|exact rep5_wf|exact upds_wf
    |constructor|by_run|by_run].
Defined.

Lemma voting_power_additions_complete_witness :
  exists s', apply_updates 5 [upd1; upd2; upd3] rep5_store = Ok (tt, s').
Proof.
  apply (voting_power_additions_complete rep5_info);
    [exact rep5_registered|by_run|exact rep5_wf|exact upds_wf
    |by repeat constructor|by intros []].
Defined.

Lemma late_vote_has_its_power_witness :
  GetCurrentVotingPower 5 4 (after [upd1; upd2; upd3]) = Ok (45, after [upd1; upd2; upd3]) /\
  GetCurrentTotalStake 5 4 (after [upd1; upd2; upd3]) = Ok (40, after [upd1; upd2; upd3]).
Proof.
  apply (late_vote_has_its_power rep5_info 5 4 [upd1; upd2; upd3] rep5_store);
    [by split|exact rep5_registered|exact (rep5_not_voted 4)|by_run
    |reflexivity|exact rep5_wf|exact upds_wf
    |constructor; [by right|constructor; [by left|constructor; [by right|constructor]]]
    |by_run].
Defined.

Lemma GetPower_exact_witness : GetPower rep5_info = 45.
Proof. apply (GetPower_exact rep5_info); [exact rep5_wf|done|done]. Defined.

(** Nothing happened in epochs 5 and 6; an update of epoch 7 comes first. *)
Lemma fallback_is_of_the_last_epoch_modified_witness :
  let u := Build_update SELF_STAKE ADD 7 1 in
  let s' := state_after (apply_update 5 u) rep5_store in
  GetCurrentVotingPower 5 6 s' = Ok (GetPower rep5_info, s') /\
  wp (GetCurrentVotingPower 5 6) (fun power _ => power = 49) rep5_store.
Proof.
  apply (fallback_is_of_the_last_epoch_modified rep5_info 5 6 (Build_update SELF_STAKE ADD 7 1));
    [by split|exact rep5_registered|exact (rep5_not_voted 6)|by_run
    |done|exact rep5_wf|by split|reflexivity|by_run].
Defined.

Lemma SubtractSelfStake_needs_record_witness :
  SubtractSelfStake 6 1 4 rep5_store = Halt "VotingPowerManager::SubtractSelfStake".
Proof. apply SubtractSelfStake_needs_record. by_run. Defined.
End Concrete.
