(* ===== verification/AccountInfo.v ===== *)
(** * Accounts (logos::account_info, src/logos/common.cpp)

    The balances of an account and the voting power they give its
    representative: every change of the available balance is an update of the
    unlocked proxied power of whoever represents the account. *)
From stdpp Require Import base list numbers strings ssreflect.
From S2P Require Import Prelude Serial Lmdb StakingTypes Requests Epochs BlockStore VotingPower.
Import VotingPowerManager.
Open Scope Z_scope.

Section Operations.
Context {L : Lmdb}.

Definition GetAvailableBalance (info : account_info) : Amount := available_balance info.
Definition GetBalance (info : account_info) : Amount := balance info.

Definition GetRepForEpoch (info : account_info) (epoch : Z) : M Store AccountAddress :=
  if negb (rep (new_rep info) =? 0) && (epoch_first_active (new_rep info) <=? epoch)
  then mret (rep (new_rep info))
  else
    massert (epoch_first_active (old_rep info) <=? epoch) "account_info::GetRepForEpoch";;
    mret (rep (old_rep info)).

(** The calls on the voting power manager that SetBalance and
    SetAvailableBalance make in each of their branches; [add] tells the
    branch where the amount grows. *)
Definition move_unlocked (add : bool) (rep next_rep : AccountAddress) (diff : Amount)
    (epoch : Z) : M Store unit :=
  (if negb (rep =? 0) then
     if add then AddUnlockedProxied rep diff epoch
     else SubtractUnlockedProxied rep diff epoch
   else mret false);;
  if negb (next_rep =? 0) && negb (next_rep =? rep) then
    (if add then SubtractUnlockedProxied rep diff (u32 (epoch + 1))
     else AddUnlockedProxied rep diff (u32 (epoch + 1)));;
    (if add then AddUnlockedProxied next_rep diff (u32 (epoch + 1))
     else SubtractUnlockedProxied next_rep diff (u32 (epoch + 1)));;
    mret tt
  else mret tt.

Definition SetBalance (info : account_info) (new_balance : Amount) (epoch : Z)
  : M Store account_info :=
  rep ← GetRepForEpoch info (u32 (epoch + 1));
  next_rep ← GetRepForEpoch info (u32 (epoch + 2));
  if balance info <? new_balance then
    let diff := amt_sub new_balance (balance info) in
    move_unlocked true rep next_rep diff epoch;;
    mret (set_balances new_balance (amt_add (available_balance info) diff) info)
  else
    let diff := amt_sub (balance info) new_balance in
    if available_balance info <? diff then halt "Not enough available balance"
    else
      move_unlocked false rep next_rep diff epoch;;
      mret (set_balances new_balance (amt_sub (available_balance info) diff) info).

Definition SetAvailableBalance (info : account_info) (new_available_bal : Amount)
    (epoch : Z) : M Store account_info :=
  rep ← GetRepForEpoch info (u32 (epoch + 1));
  next_rep ← GetRepForEpoch info (u32 (epoch + 2));
  available ←
    (if available_balance info <? new_available_bal then
       let diff := amt_sub new_available_bal (available_balance info) in
       move_unlocked true rep next_rep diff epoch;;
       mret (amt_add (available_balance info) diff)
     else
       let diff := amt_sub (available_balance info) new_available_bal in
       move_unlocked false rep next_rep diff epoch;;
       mret (amt_sub (available_balance info) diff));
  if balance info <? available then halt "account_info::SetAvailableBalance"
  else mret (set_balances (balance info) available info).
End Operations.

(** Balances of an account are 128-bit, what is available part of the rest. *)
Definition account_wf (info : account_info) : Prop :=
  0 <= available_balance info <= balance info /\ balance info < 2 ^ 128.

(** What of an account other operations may change: not its balances. *)
Definition same_money (i i' : account_info) : Prop :=
  balance i' = balance i /\ available_balance i' = available_balance i.

Section Frames.
Context {L : Lmdb}.

Lemma GetRepForEpoch_frame i e : preserves power_frame (GetRepForEpoch i e).
Proof. rw /GetRepForEpoch. solve_frame. Qed.
Lemma AddUnlockedProxied_frame r a e : preserves power_frame (AddUnlockedProxied r a e).
Proof. rw /AddUnlockedProxied. solve_frame. Qed.
Lemma SubtractUnlockedProxied_frame r a e : preserves power_frame (SubtractUnlockedProxied r a e).
Proof. rw /SubtractUnlockedProxied. solve_frame. Qed.
Lemma AddLockedProxied_frame r a e : preserves power_frame (AddLockedProxied r a e).
Proof. rw /AddLockedProxied. solve_frame. Qed.
Lemma SubtractLockedProxied_frame r a e : preserves power_frame (SubtractLockedProxied r a e).
Proof. rw /SubtractLockedProxied. solve_frame. Qed.
Lemma SubtractSelfStake_frame r a e : preserves power_frame (SubtractSelfStake r a e).
Proof. rw /SubtractSelfStake. solve_frame. Qed.
End Frames.
#[export] Hint Resolve GetRepForEpoch_frame AddUnlockedProxied_frame
  SubtractUnlockedProxied_frame AddLockedProxied_frame SubtractLockedProxied_frame
  SubtractSelfStake_frame : frame.

Section Frames2.
Context {L : Lmdb}.

Lemma move_unlocked_frame b r n d e : preserves power_frame (move_unlocked b r n d e).
Proof. rw /move_unlocked. solve_frame. Qed.
End Frames2.
#[export] Hint Resolve move_unlocked_frame : frame.

Section Balances.
Context {L : Lmdb}.

Lemma SetAvailableBalance_frame i a e : preserves power_frame (SetAvailableBalance i a e).
Proof. rw /SetAvailableBalance. solve_frame. Qed.
Lemma SetBalance_frame i a e : preserves power_frame (SetBalance i a e).
Proof. rw /SetBalance. solve_frame. Qed.

Lemma wlp_any {A} (m : M Store A) (Q : Prop) s : Q -> wlp m (fun _ _ => Q) s.
Proof. intros HQ. rw /wpg. by destruct (m s) as [[]|]. Qed.

(** SetAvailableBalance sets the available balance, never above the balance. *)
Lemma SetAvailableBalance_ok info a e s :
  account_wf info -> in_width 128 a ->
  wlp (SetAvailableBalance info a e) (fun info' s' =>
    info' = set_balances (balance info) a info /\ a <= balance info /\ power_frame s s') s.
Proof.
  intros [Ha Hb] Hw. eapply wpg_mono; [eapply (wpg_frame _ power_frame);
    [apply SetAvailableBalance_frame|]|].
  - instantiate (1 := fun info' _ => info' = set_balances (balance info) a info /\
      a <= balance info).
    rw /SetAvailableBalance. do 2 (apply wpg_bind; eapply wpg_mono; [by apply wlp_any|intros ? ? _]).
    apply wpg_bind. eapply (wpg_mono _ _ (fun v _ => v = a)).
    + destruct (Z.ltb_spec (available_balance info) a); apply wpg_bind;
        (eapply wpg_mono; [by apply wlp_any|]); intros ? ? _; apply wpg_ret;
        rw /in_width in Hw.
      * rw amt_sub_small; [|lia]. rw amt_add_small; lia.
      * rw (amt_sub_small (available_balance info) a); [|lia]. rw amt_sub_small; lia.
    + intros v s1 ->. destruct (Z.ltb_spec (balance info) a); by [|wp_steps].
  - by intros i s' [[? ?] ?].
Qed.

(** SetBalance moves the available balance with the balance: what is staked
    and thawing, their difference, does not change. *)
Lemma SetBalance_ok info b e s :
  account_wf info -> in_width 128 b ->
  wlp (SetBalance info b e) (fun info' s' => balance info' = b /\ account_wf info' /\
    balance info' - available_balance info' = balance info - available_balance info /\
    power_frame s s') s.
Proof.
  intros [Ha Hb] Hw. rw /in_width in Hw.
  eapply (wpg_mono _ _ (fun i s' => (balance i = b /\ account_wf i /\
    balance i - available_balance i = balance info - available_balance info) /\
    power_frame s s')); [apply (wpg_frame _ power_frame); [apply SetBalance_frame|]|].
  2: { by intros i s' [(? & ? & ?) ?]. }
  rw /SetBalance /account_wf.
  do 2 (apply wpg_bind; eapply wpg_mono; [by apply wlp_any|intros ? ? _]).
  destruct (Z.ltb_spec (balance info) b) as [Hlt|Hge].
  - apply wpg_bind; (eapply wpg_mono; [by apply wlp_any|]); intros ? ? _; apply wpg_ret; cbn.
    rw (amt_sub_small b); [|lia]. rw amt_add_small; lia.
  - rw amt_sub_small; [|lia]. destruct (Z.ltb_spec (available_balance info) (balance info - b));
      [done|]. apply wpg_bind; (eapply wpg_mono; [by apply wlp_any|]); intros ? ? _.
    apply wpg_ret; cbn. rw amt_sub_small; lia.
Qed.

(** An account that had no representative and got its first one in epoch
    [e + 1] cannot be credited by a request of epoch [e] that is applied
    later: the code undoes an update of the representative 0, which has no
    voting power, and halts. *)
Lemma SetBalance_first_rep_halts info b e s :
  0 <= e -> e + 2 < 2 ^ 32 ->
  rep (old_rep info) = 0 -> epoch_first_active (old_rep info) <= e + 1 ->
  rep (new_rep info) <> 0 -> epoch_first_active (new_rep info) = e + 2 ->
  balance info < b -> mdb_get 0 (voting_power_db s) = None ->
  SetBalance info b e s = Halt "VotingPowerManager::SubtractUnlockedProxied".
Proof.
  intros He He2 Ho Hoe Hn Hne Hb Hz. rw /SetBalance /GetRepForEpoch.
  rw !(u32_id (e + _)); [|rw /in_width; lia..]. rw Hne Ho.
  destruct (Z.eqb_spec (rep (new_rep info)) 0) as [|_]; [done|]. cbn [negb andb].
  destruct (Z.leb_spec (e + 2) (e + 1)); [lia|].
  destruct (Z.leb_spec (e + 2) (e + 2)); [|lia].
  destruct (Z.leb_spec (epoch_first_active (old_rep info)) (e + 1)); [|lia].
  destruct (Z.ltb_spec (balance info) b); [|lia].
  cbv [mbind M_bind mret M_ret massert]. rw /move_unlocked. cbn [Z.eqb negb].
  destruct (Z.eqb_spec (rep (new_rep info)) 0) as [|_]; [done|]. cbn [negb andb].
  cbv [mbind M_bind mret M_ret]. by rw /SubtractUnlockedProxied /update_existing
    /GetVotingPowerInfo /voting_power_get /gets /mbind /M_bind Hz.
Qed.
End Balances.
#[export] Hint Resolve SetAvailableBalance_frame SetBalance_frame : frame.

(** ** Balances and the representative's unlocked proxies *)
Section Represented.
Context {L : Lmdb} {LL : LmdbLaws L}.

(** [r] represents the account in the epochs after [e]. *)
Definition represented_by (r : AccountAddress) (e : Z) (info : account_info) : Prop :=
  r <> 0 /\ rep (new_rep info) = r /\ epoch_first_active (new_rep info) <= e + 1.

Lemma GetRep_represented r e e' info (s : Store) :
  represented_by r e info -> e + 1 <= e' -> GetRepForEpoch info e' s = Ok (r, s).
Proof.
  intros (Hr & Hrep & He) He'. rw /GetRepForEpoch Hrep.
  destruct (Z.eqb_spec r 0); [done|]. cbn [negb andb].
  by destruct (Z.leb_spec (epoch_first_active (new_rep info)) e'); [|lia].
Qed.

Lemma move_unlocked_same add r d e (s : Store) : r <> 0 ->
  move_unlocked add r r d e s =
  (apply_update r (Build_update UNLOCKED_PROXY (if add then ADD else SUBTRACT) e d);;
   mret tt) s.
Proof.
  intros Hr. rw /move_unlocked Z.eqb_refl. destruct (Z.eqb_spec r 0); [done|]. cbn [negb andb].
  by destruct add.
Qed.

(** A change of the unlocked proxies of a registered representative, in the
    integers. *)
Lemma move_unlocked_ok base add r d e s :
  r <> 0 -> registered r s -> mdb_get r (voting_power_db s) = Some base ->
  snapshots_wf base -> in_width 128 d ->
  wlp (move_unlocked add r r d e) (fun _ s' => exists new,
    mdb_get r (voting_power_db s') = Some new /\ snapshots_wf new /\
    unlocked_proxied (vp_next new) =
      unlocked_proxied (vp_next base) + (if add then d else - d) /\
    power_frame s s') s.
Proof.
  intros Hr Hreg Hb Hwf Hd. rw /wpg move_unlocked_same // -/(wpg True _ _ s). apply wpg_bind.
  eapply wpg_mono; [by apply (apply_update_ok True base); auto|].
  intros _ s' (Hget & Hw & _ & Hf). apply wpg_ret. eexists. rw Hget decide_True //.
  split_and!; [done..| |done].
  change (unlocked_proxied (vp_next ?i)) with (part UNLOCKED_PROXY (vp_next i)).
  rw /updated. cbn [vp_next]. rw part_bump /transitioned /delta /=. by destruct (_ <? _), add.
Qed.

(** While a registered representative [r] represents an account, changing
    the account's available balance changes the unlocked proxies of [r] for
    the next epoch by the same amount. *)
Lemma available_balance_is_unlocked_proxy base r info a e s info' s' :
  account_wf info -> in_width 128 a -> 0 <= e -> e + 2 < 2 ^ 32 ->
  represented_by r e info -> registered r s ->
  mdb_get r (voting_power_db s) = Some base -> snapshots_wf base ->
  SetAvailableBalance info a e s = Ok (info', s') ->
  exists new, mdb_get r (voting_power_db s') = Some new /\
    unlocked_proxied (vp_next new) - available_balance info' =
    unlocked_proxied (vp_next base) - available_balance info.
Proof.
  intros [Ha Hbal] Hw He He2 Hrep Hreg Hb Hwf Hrun. rw /in_width in Hw.
  eapply (wpg_ok True _ (fun i s' => exists new, mdb_get r (voting_power_db s') = Some new /\
    unlocked_proxied (vp_next new) - available_balance i =
    unlocked_proxied (vp_next base) - available_balance info)) in Hrun; [done|].
  rw /SetAvailableBalance !(u32_id (e + _)); [|rw /in_width; lia..].
  do 2 (apply wpg_bind; rw /wpg (GetRep_represented r e) //; try lia; rw -/(wpg True _ _ s)).
  apply wpg_bind. eapply (wpg_mono _ _ (fun v s' => v = a /\ exists new,
    mdb_get r (voting_power_db s') = Some new /\
    unlocked_proxied (vp_next new) - a =
    unlocked_proxied (vp_next base) - available_balance info)).
  - destruct Hrep as [Hr _].
    destruct (Z.ltb_spec (available_balance info) a);
      rw ?(amt_sub_small a (available_balance info)) ?(amt_sub_small (available_balance info) a);
      try lia;
      apply wpg_bind; (eapply wpg_mono; [apply (move_unlocked_ok base); try done;
        rw /in_width; lia|]);
      intros [] s1 (new & Hnew & _ & Hu & _); apply wpg_ret;
      (split; [rw ?amt_add_small ?amt_sub_small; lia|]); exists new; (split; [done|]); lia.
  - intros v s1 (-> & new & Hnew & Hu). destruct (_ <? _); [done|]. apply wpg_ret. by exists new.
Qed.
End Represented.

Section Concrete.
#[local] Instance L : Lmdb := gmap_lmdb.
#[local] Instance LL : LmdbLaws L := gmap_lmdb_laws.

(** An account with 100, of which 22 are available, represented by 5. *)
Definition proxied_account : account_info :=
  set_reps (Build_RepRecord 0 0) (Build_RepRecord 5 3) (set_balances 100 22 (fresh_account 100)).

Lemma SetBalance_first_rep_halts_witness :
  SetBalance (set_reps (Build_RepRecord 0 0) (Build_RepRecord 5 6) proxied_account) 101 4
    rep5_store = Halt "VotingPowerManager::SubtractUnlockedProxied".
Proof. apply SetBalance_first_rep_halts; done. Defined.

Lemma available_balance_is_unlocked_proxy_witness :
  exists info' s' new, SetAvailableBalance proxied_account 20 4 rep5_store = Ok (info', s') /\
    mdb_get 5 (voting_power_db s') = Some new /\
    unlocked_proxied (vp_next new) - available_balance info' = 0.
Proof.
  exists (set_balances 100 20 proxied_account),
    (state_after (SetAvailableBalance proxied_account 20 4) rep5_store).
  destruct (available_balance_is_unlocked_proxy rep5_info 5 proxied_account 20 4 rep5_store
    (set_balances 100 20 proxied_account)
    (state_after (SetAvailableBalance proxied_account 20 4) rep5_store)) as (new & Hn & Hu);
    [by split|by split|done|done|by split|exact rep5_registered|by_run
    |exact rep5_wf|by_run|].
  exists new. split; [by_run|]. split; [exact Hn|exact Hu].
Defined.
End Concrete.
