(* ===== verification/Staking.v ===== *)
(** * Staking (src/logos/staking/staking_manager.cpp)

    Staked and thawing funds of an account. A request sets what the account
    stakes and to whom; the manager uses what is already staked, then thawing
    funds, then the available balance, and lets what is no longer staked thaw.
    Parameters passed by reference and modified are returned. Traversals of the
    thawing funds run over the records present when they start. *)
From stdpp Require Import base list numbers strings gmap ssreflect.
From S2P Require Import Prelude Serial Lmdb StakingTypes Requests Epochs BlockStore Liabilities VotingPower AccountInfo.
Import LiabilityManager VotingPowerManager.
Open Scope Z_scope.

Definition sf_set_amount (a : Amount) (f : StakedFunds) : StakedFunds :=
  Build_StakedFunds (sf_target f) a (sf_liability_hash f).
Definition tf_set_amount (a : Amount) (f : ThawingFunds) : ThawingFunds :=
  Build_ThawingFunds (tf_expiration_epoch f) (tf_target f) a (tf_liability_hash f).

(** GetExpiration, for the two kinds of funds. *)
Definition GetExpiration_thawing (f : ThawingFunds) : Z := tf_expiration_epoch f.
Definition GetExpiration_staked (f : StakedFunds) : Z := 0.

Module StakingManager.
Section Storing.
Context {L : Lmdb} {B : Blake2b}.

Definition CreateStakedFunds (target source : AccountAddress) : M Store StakedFunds :=
  h ← CreateUnexpiringLiability target source 0;
  mret (Build_StakedFunds target 0 h).
Definition CreateThawingFunds (target source : AccountAddress) (epoch_created : Z)
  : M Store ThawingFunds :=
  let expiration := u32 (epoch_created + THAWING_PERIOD) in
  h ← CreateExpiringLiability target source 0 expiration;
  mret (Build_ThawingFunds expiration target 0 h).

(** ProcessThawingFunds: [func] on the records of [origin], in the order of the
    table, while it returns true. *)
Definition ProcessThawingFunds {A} (origin : AccountAddress)
    (func : A -> ThawingFunds -> M Store (A * bool)) (a : A) : M Store A :=
  funds ← thawing_range origin;
  iterate func a funds.
Definition GetThawingFunds (origin : AccountAddress) : M Store (list ThawingFunds) :=
  ProcessThawingFunds origin (fun thawing funds => mret (thawing ++ [funds], true)) [].

Definition GetCurrentStakedFunds (origin : AccountAddress) : M Store (option StakedFunds) :=
  stake_get origin.

(** Store(StakedFunds const &, ...) *)
Definition Store_staked (funds : StakedFunds) (origin : AccountAddress) : M Store unit :=
  stake_put origin funds;;
  UpdateLiabilityAmount (sf_liability_hash funds) (sf_amount funds).

(** The callback of Store(ThawingFunds &, ...). *)
Definition consolidate (funds : ThawingFunds) (origin : AccountAddress) (consolidated : bool)
    (t : ThawingFunds) : M Store (bool * bool) :=
  if (tf_target t =? tf_target funds)
     && (tf_expiration_epoch t =? tf_expiration_epoch funds) then
    massert (tf_liability_hash t =? tf_liability_hash funds) "StakingManager::Store";;
    let t' := tf_set_amount (amt_add (tf_amount t) (tf_amount funds)) t in
    thawing_replace origin t t';;
    UpdateLiabilityAmount (tf_liability_hash t) (tf_amount t');;
    mret (true, false)
  else if tf_expiration_epoch t <? tf_expiration_epoch funds then mret (consolidated, false)
  else mret (consolidated, true).
Definition Store_thawing (funds : ThawingFunds) (origin : AccountAddress) : M Store bool :=
  consolidated ← ProcessThawingFunds origin (consolidate funds origin) false;
  (if (consolidated : bool) then mret tt
   else
     thawing_put origin funds;;
     UpdateLiabilityAmount (tf_liability_hash funds) (tf_amount funds));;
  mret consolidated.

Definition Delete_thawing (funds : ThawingFunds) (origin : AccountAddress) : M Store unit :=
  thawing_del origin funds.
Definition Delete_staked (origin : AccountAddress) : M Store unit :=
  stake_del origin;; mret tt.

(** UpdateAmountAndStore(ThawingFunds &, ...) *)
Definition UpdateAmountAndStore_thawing (funds : ThawingFunds) (origin : AccountAddress)
    (new_amount : Amount) : M Store ThawingFunds :=
  Delete_thawing funds origin;;
  let funds := tf_set_amount new_amount funds in
  (if 0 <? tf_amount funds then Store_thawing funds origin;; mret tt
   else DeleteLiability (tf_liability_hash funds));;
  mret funds.
(** UpdateAmountAndStore(StakedFunds &, ...) *)
Definition UpdateAmountAndStore_staked (funds : StakedFunds) (origin : AccountAddress)
    (new_amount : Amount) : M Store StakedFunds :=
  let funds := sf_set_amount new_amount funds in
  (if 0 <? sf_amount funds then Store_staked funds origin
   else
     Delete_staked origin;;
     DeleteLiability (sf_liability_hash funds));;
  mret funds.
End Storing.

(** What the template Extract uses of its parameters. *)
Class Funds `{Lmdb, Blake2b} (T : Type) := {
  f_target : T -> AccountAddress;
  f_amount : T -> Amount;
  f_set_amount : Amount -> T -> T;
  GetExpiration : T -> Z;
  UpdateAmountAndStore : T -> AccountAddress -> Amount -> M Store T;
}.
#[global] Instance StakedFunds_funds `{Lmdb, Blake2b} : Funds StakedFunds := {|
  f_target := sf_target; f_amount := sf_amount; f_set_amount := sf_set_amount;
  GetExpiration := GetExpiration_staked;
  UpdateAmountAndStore := UpdateAmountAndStore_staked |}.
#[global] Instance ThawingFunds_funds `{Lmdb, Blake2b} : Funds ThawingFunds := {|
  f_target := tf_target; f_amount := tf_amount; f_set_amount := tf_set_amount;
  GetExpiration := GetExpiration_thawing;
  UpdateAmountAndStore := UpdateAmountAndStore_thawing |}.

Section Operations.
Context {L : Lmdb} {B : Blake2b}.

(** Returns the amount extracted, the input, the output and the account. *)
Definition Extract {T R} `{!Funds T, !Funds R} (input : T) (output : R)
    (amount_to_extract : Amount) (origin : AccountAddress) (info : account_info)
    (cur_epoch : Z) : M Store (Amount * T * R * account_info) :=
  let amount_to_extract :=
    if f_amount input <? amount_to_extract then f_amount input else amount_to_extract in
  r ← (if negb (f_target input =? f_target output) then
         if f_target input =? origin then mret (false, info)
         else
           let liability_expiration :=
             if GetExpiration input =? 0 then u32 (cur_epoch + THAWING_PERIOD)
             else GetExpiration input in
           CreateSecondaryLiability (f_target input) origin amount_to_extract
             liability_expiration info cur_epoch
       else mret (true, info));
  if (r.1 : bool) then
    input' ← UpdateAmountAndStore input origin (amt_sub (f_amount input) amount_to_extract);
    let output' := f_set_amount (amt_add (f_amount output) amount_to_extract) output in
    mret (amount_to_extract, input', output', r.2)
  else mret (0, input, output, r.2).

Definition StakeAvailableFunds (output : StakedFunds) (amount : Amount)
    (origin : AccountAddress) (info : account_info) (epoch : Z)
  : M Store (StakedFunds * account_info) :=
  if GetAvailableBalance info <? amount then halt "StakingManager::StakeAvailableFunds"
  else
    info' ← SetAvailableBalance info (amt_sub (GetAvailableBalance info) amount) epoch;
    mret (sf_set_amount (amt_add (sf_amount output) amount) output, info').

Definition BeginThawing (origin : AccountAddress) (info : account_info) (epoch : Z)
    (cur_stake : StakedFunds) (amount_to_thaw : Amount)
  : M Store (StakedFunds * account_info) :=
  thawing ← CreateThawingFunds (sf_target cur_stake) origin epoch;
  r ← Extract cur_stake thawing amount_to_thaw origin info epoch;
  let '(extracted, cur_stake', thawing', info') := r in
  massert (amount_to_thaw =? extracted) "StakingManager::BeginThawing";;
  Store_thawing thawing' origin;;
  mret (cur_stake', info').

Definition ReduceStake (origin : AccountAddress) (info : account_info) (epoch : Z)
    (cur_stake : StakedFunds) (amount_to_thaw : Amount)
  : M Store (StakedFunds * account_info) :=
  (if sf_target cur_stake =? origin
   then SubtractSelfStake (sf_target cur_stake) amount_to_thaw epoch
   else SubtractLockedProxied (sf_target cur_stake) amount_to_thaw epoch);;
  BeginThawing origin info epoch cur_stake amount_to_thaw.

(** Returns the new stake, [amount_left] and the account. *)
Definition ChangeTarget (origin : AccountAddress) (info : account_info) (epoch : Z)
    (cur_stake : StakedFunds) (new_target : AccountAddress) (amount_left : Amount)
  : M Store (StakedFunds * Amount * account_info) :=
  (if sf_target cur_stake =? origin
   then SubtractSelfStake (sf_target cur_stake) (sf_amount cur_stake) epoch
   else
     SubtractLockedProxied (sf_target cur_stake) (sf_amount cur_stake) epoch;;
     SubtractUnlockedProxied (sf_target cur_stake) (GetAvailableBalance info) epoch);;
  new_stake ← CreateStakedFunds new_target origin;
  r ← Extract cur_stake new_stake amount_left origin info epoch;
  let '(extracted, cur_stake, new_stake, info) := r in
  let amount_left := amt_sub amount_left extracted in
  (if new_target =? origin
   then AddSelfStake (sf_target new_stake) (sf_amount new_stake) epoch
   else
     AddLockedProxied (sf_target new_stake) (sf_amount new_stake) epoch;;
     AddUnlockedProxied (sf_target new_stake) (GetAvailableBalance info) epoch);;
  info ← (if 0 <? sf_amount cur_stake then
            t ← BeginThawing origin info epoch cur_stake (sf_amount cur_stake);
            mret t.2
          else mret info);
  mret (new_stake, amount_left, info).

Definition UpdateRep (epoch : Z) (info : account_info) (r : AccountAddress)
  : M Store account_info :=
  let first := epoch_first_active (new_rep info) in
  massert (first <=? u32 (epoch + 1)) "UpdateRep";;
  mret (set_reps (if first <? u32 (epoch + 1) then new_rep info else old_rep info)
          (Build_RepRecord r (u32 (epoch + 1))) info).

(** The callback of Stake on thawing funds: the state is [amount_left], the
    stake and the account. *)
Definition extract_thawing (origin : AccountAddress) (epoch : Z)
    (st : Amount * StakedFunds * account_info) (t : ThawingFunds)
  : M Store (Amount * StakedFunds * account_info * bool) :=
  let '(amount_left, cur_stake, info) := st in
  r ← Extract t cur_stake amount_left origin info epoch;
  let '(extracted, _, cur_stake, info) := r in
  let amount_left := amt_sub amount_left extracted in
  mret (amount_left, cur_stake, info, 0 <? amount_left).

(** The part of Stake that follows the four cases: the stake is brought up
    by [amount_left] from thawing funds and the available balance. *)
Definition fill_stake (origin : AccountAddress) (info : account_info) (target : AccountAddress)
    (epoch : Z) (cur_stake : StakedFunds) (amount_left : Amount) : M Store account_info :=
  info ← UpdateRep epoch info (if target =? origin then 0 else target);
  r ← (if 0 <? amount_left then
         (if target =? origin then AddSelfStake target amount_left epoch
          else AddLockedProxied target amount_left epoch);;
         st ← ProcessThawingFunds origin (extract_thawing origin epoch)
                (amount_left, cur_stake, info);
         let '(amount_left, cur_stake, info) := st in
         if 0 <? amount_left
         then StakeAvailableFunds cur_stake amount_left origin info epoch
         else mret (cur_stake, info)
       else mret (cur_stake, info));
  let '(cur_stake, info) := r in
  (if negb (sf_amount cur_stake =? 0) then Store_staked cur_stake origin else mret tt);;
  mret info.

Definition Stake (origin : AccountAddress) (info : account_info) (amount : Amount)
    (target : AccountAddress) (epoch : Z) : M Store account_info :=
  current ← GetCurrentStakedFunds origin;
  match current with
  | Some cur_stake =>
      if negb (target =? sf_target cur_stake) then
        r ← ChangeTarget origin info epoch cur_stake target amount;
        let '(cur_stake, amount_left, info) := r in
        if amount =? 0 then Delete_staked origin;; mret info
        else fill_stake origin info target epoch cur_stake amount_left
      else if amount <? sf_amount cur_stake then
        r ← ReduceStake origin info epoch cur_stake (amt_sub (sf_amount cur_stake) amount);
        mret r.2
      else fill_stake origin info target epoch cur_stake (amt_sub amount (sf_amount cur_stake))
  | None =>
      cur_stake ← CreateStakedFunds target origin;
      (if negb (target =? origin)
       then AddUnlockedProxied target (GetAvailableBalance info) epoch else mret false);;
      r ← GetRepForEpoch info (u32 (epoch + 1));
      (if negb (r =? 0)
       then SubtractUnlockedProxied r (GetAvailableBalance info) epoch else mret false);;
      fill_stake origin info target epoch cur_stake amount
  end.

(** GetPruneableThawingAmount *)
Definition pruneable (cur_epoch : Z) (t : ThawingFunds) : bool :=
  negb (tf_expiration_epoch t =? 0) && (tf_expiration_epoch t <=? cur_epoch).
Definition GetPruneableThawingAmount (origin : AccountAddress) (info : account_info)
    (cur_epoch : Z) : M Store Amount :=
  if cur_epoch <=? epoch_thawing_updated info then mret 0
  else ProcessThawingFunds origin (fun total t =>
    mret (if pruneable cur_epoch t then amt_add total (tf_amount t) else total, true)) 0.

Definition prune_thawing_one (origin : AccountAddress) (cur_epoch : Z)
    (amount_pruned : Amount) (t : ThawingFunds) : M Store (Amount * bool) :=
  if pruneable cur_epoch t then
    thawing_del origin t;; mret (amt_add amount_pruned (tf_amount t), true)
  else mret (amount_pruned, true).
Definition PruneThawing (origin : AccountAddress) (info : account_info) (cur_epoch : Z)
  : M Store account_info :=
  if cur_epoch <=? epoch_thawing_updated info then mret info
  else
    let info := set_epoch_thawing_updated cur_epoch info in
    amount_pruned ← ProcessThawingFunds origin (prune_thawing_one origin cur_epoch) 0;
    SetAvailableBalance info (amt_add (GetAvailableBalance info) amount_pruned) cur_epoch.

(** The lambda can_create_secondary_liability of Validate: the results of
    CanCreateSecondaryLiability, and whether one was positive. *)
Definition SecondaryCache : Type := gmap AccountAddress bool * bool.
Definition can_create_secondary_liability (origin : AccountAddress) (epoch : Z)
    (c : SecondaryCache) (liability_target : AccountAddress)
  : M Store (bool * SecondaryCache) :=
  match c.1 !! liability_target with
  | Some can_create => mret (can_create, c)
  | None =>
      if c.2 then mret (false, c)
      else
        can_create ← CanCreateSecondaryLiability liability_target origin epoch;
        mret (can_create,
              (<[liability_target := can_create]> c.1, if (can_create : bool) then true else c.2))
  end.

(** [target == liability target || can_create_secondary_liability(...)] *)
Definition usable (origin : AccountAddress) (epoch : Z) (target : AccountAddress)
    (c : SecondaryCache) (funds_target : AccountAddress) : M Store (bool * SecondaryCache) :=
  if funds_target =? target then mret (true, c)
  else can_create_secondary_liability origin epoch c funds_target.

(** The callback of Validate on thawing funds: [res], [remaining], the cache. *)
Definition validate_thawing (origin : AccountAddress) (epoch : Z) (target : AccountAddress)
    (st : bool * Amount * SecondaryCache) (t : ThawingFunds)
  : M Store (bool * Amount * SecondaryCache * bool) :=
  let '(res, remaining, c) := st in
  u ← usable origin epoch target c (tf_target t);
  if (u.1 : bool) then
    if remaining <=? tf_amount t then mret (true, remaining, u.2, false)
    else mret (res, amt_sub remaining (tf_amount t), u.2, true)
  else mret (res, remaining, u.2, true).

Definition Validate (origin : AccountAddress) (info : account_info) (amount : Amount)
    (target : AccountAddress) (epoch : Z) (fee : Amount) : M Store bool :=
  if GetAvailableBalance info <? fee then mret false
  else
    let available := amt_sub (GetAvailableBalance info) fee in
    if amount <=? available then mret true
    else
      expired ← GetPruneableThawingAmount origin info epoch;
      let available := amt_add available expired in
      if amount <=? available then mret true
      else
        current ← GetCurrentStakedFunds origin;
        let remaining := amt_sub amount available in
        r ← match current with
            | Some cur_stake =>
                if 0 <? sf_amount cur_stake then
                  u ← usable origin epoch target (∅, false) (sf_target cur_stake);
                  if (u.1 : bool) then
                    if remaining <=? sf_amount cur_stake then mret (true, remaining, u.2)
                    else mret (false, amt_sub remaining (sf_amount cur_stake), u.2)
                  else mret (false, remaining, u.2)
                else mret (false, remaining, (∅, false))
            | None => mret (false, remaining, (∅, false))
            end;
        let '(enough, remaining, c) := r in
        if (enough : bool) then mret true
        else
          st ← ProcessThawingFunds origin (validate_thawing origin epoch target)
                 (false, remaining, c);
          mret st.1.1.

(** Puts a new expiration on [funds] and on its liability, which
    [new_liability] creates. *)
Definition reschedule (origin : AccountAddress) (expiration : Z)
    (new_liability : M Store LiabilityHash) (updated : list ThawingFunds)
    (funds : ThawingFunds) : M Store (list ThawingFunds * bool) :=
  DeleteLiability (tf_liability_hash funds);;
  h ← new_liability;
  thawing_del origin funds;;
  mret (updated ++ [Build_ThawingFunds expiration (tf_target funds) (tf_amount funds) h], true).

Fixpoint store_all (origin : AccountAddress) (updated : list ThawingFunds) : M Store unit :=
  match updated with
  | [] => mret tt
  | t :: rest => Store_thawing t origin;; store_all origin rest
  end.

Definition mark_frozen_one (origin : AccountAddress) (epoch_to_mark_frozen : Z)
    (updated : list ThawingFunds) (funds : ThawingFunds)
  : M Store (list ThawingFunds * bool) :=
  if (tf_expiration_epoch funds =? epoch_to_mark_frozen) && (tf_target funds =? origin) then
    reschedule origin 0
      (CreateUnexpiringLiability (tf_target funds) origin (tf_amount funds)) updated funds
  else if tf_expiration_epoch funds <? epoch_to_mark_frozen then mret (updated, false)
  else mret (updated, true).
Definition MarkThawingAsFrozen (origin : AccountAddress) (epoch_created : Z)
  : M Store unit :=
  let epoch_to_mark_frozen := u32 (epoch_created + THAWING_PERIOD) in
  updated ← ProcessThawingFunds origin (mark_frozen_one origin epoch_to_mark_frozen) [];
  store_all origin updated.

Definition unfreeze_one (origin : AccountAddress) (exp_epoch : Z)
    (updated : list ThawingFunds) (funds : ThawingFunds)
  : M Store (list ThawingFunds * bool) :=
  if tf_expiration_epoch funds =? 0 then
    reschedule origin exp_epoch
      (CreateExpiringLiability (tf_target funds) origin (tf_amount funds) exp_epoch)
      updated funds
  else mret (updated, true).
Definition SetExpirationOfFrozen (origin : AccountAddress) (epoch_unfrozen : Z)
  : M Store unit :=
  let exp_epoch := u32 (epoch_unfrozen + THAWING_PERIOD) in
  updated ← ProcessThawingFunds origin (unfreeze_one origin exp_epoch) [];
  store_all origin updated.
End Operations.
End StakingManager.
Import StakingManager.
