(* ===== verification/StakingFunds.v ===== *)
(** * The tables of staked and thawing funds

    The order LMDB keeps thawing records in, and the effect of storing and
    extracting funds on the money an account has: Store consolidates records
    with the same target and expiration, Extract moves an amount from one fund
    to another. *)
From stdpp Require Import base list numbers strings gmap sorting ssreflect.
From S2P Require Import Prelude Serial Lmdb StakingTypes Requests Epochs BlockStore Liabilities VotingPower AccountInfo Staking.
Import LiabilityManager VotingPowerManager StakingManager.
Open Scope Z_scope.

(** ** Frames *)
Lemma preserves_mono {S A} (R R' : relation S) (m : M S A) :
  (forall s s', R s s' -> R' s s') -> preserves R m -> preserves R' m.
Proof. intros Hsub Hm s. eapply wpg_mono; [apply Hm|]. auto. Qed.

Lemma liability_same_funds `{Lmdb} {A} (m : M Store A) :
  preserves liability_frame m -> preserves same_funds m.
Proof. apply preserves_mono. by intros s s' [? _]. Qed.
Lemma power_same_funds `{Lmdb} {A} (m : M Store A) :
  preserves power_frame m -> preserves same_funds m.
Proof. apply preserves_mono. by intros s s' [? _]. Qed.

(** Operations of the liability and voting power managers and on accounts do
    not touch the funds. *)
Ltac leaves_funds :=
  repeat first
    [ apply liability_same_funds; solve [eauto 1 with frame nocore]
    | apply power_same_funds; solve [eauto 1 with frame nocore]
    | frame_step ].

Lemma wlp_frame {S A} (R : relation S) (m : M S A) s :
  preserves R m -> wlp m (fun _ s' => R s s') s.
Proof. intros Hm. apply Hm. Qed.

(** ** The order of the thawing records *)

(** A record whose expiration is in the 256-epoch block [b]. *)
Definition record_ok (b : Z) (t : ThawingFunds) : Prop :=
  in_width 32 (tf_expiration_epoch t) /\ in_width 256 (tf_target t) /\
  0 < tf_amount t < 2 ^ 128 /\ tf_expiration_epoch t / 256 = b.
Definition tf_key (t : ThawingFunds) : Z * AccountAddress := (tf_expiration_epoch t, tf_target t).

Lemma lex_cmp_cons_lt x xs y ys : lex_cmp (x :: xs) (y :: ys) = Lt -> x <= y.
Proof. cbn. destruct (Z.compare_spec x y); intros; lia || done. Qed.

Lemma bytes_lt_expiration b x y :
  record_ok b x -> record_ok b y -> bytes_lt x y ->
  tf_expiration_epoch y <= tf_expiration_epoch x.
Proof.
  intros (Hx & _ & _ & Bx) (Hy & _ & _ & By). rw /bytes_lt.
  change (to_bytes ?t) with (ThawingFunds_Serialize t). rw /ThawingFunds_Serialize.
  rw (u32_id (max_uint32 - tf_expiration_epoch x)); [|by apply invert_width].
  rw (u32_id (max_uint32 - tf_expiration_epoch y)); [|by apply invert_width].
  rw /write_u32. intros Hlt%lex_cmp_cons_lt. move: Hlt Hx Hy. rw /max_uint32 /in_width.
  intros Hlt ? ?. pose proof (Z.div_mod (tf_expiration_epoch x) 256).
  pose proof (Z.div_mod (tf_expiration_epoch y) 256).
  assert (forall e, (2 ^ 32 - 1 - e) mod 256 = 255 - e mod 256) as Hinv.
  { intros e. rw {1}(Z.div_mod e 256) //. symmetry.
    apply (Z.mod_unique _ _ (2 ^ 24 - 1 - e / 256)); [|lia].
    pose proof (Z.mod_pos_bound e 256). lia. }
  rw !Hinv in Hlt. lia.
Qed.

(** Within a block of 256 epochs, the records are in the order the manager
    expects: the latest expiration first. *)
Lemma block_descending b xs :
  Forall (record_ok b) xs -> StronglySorted bytes_lt xs -> descending xs.
Proof.
  intros Hok Hs. induction Hs as [|x xs Hs IH Hall]; [constructor|].
  apply Forall_cons in Hok as [Hx Hok]. constructor; [by apply IH|].
  rw Forall_forall in Hall. rw !Forall_forall in Hok *. intros y Hy.
  apply (bytes_lt_expiration b); auto.
Qed.

(** ** Well-formed thawing funds of an account *)
Definition thaw_ok (b : Z) (xs : list ThawingFunds) : Prop :=
  Forall (record_ok b) xs /\ NoDup (tf_key <$> xs).

#[global] Instance thaw_ok_proper b : Proper ((≡ₚ) ==> iff) (thaw_ok b).
Proof. intros xs ys Hp. rw /thaw_ok. by rw Hp. Qed.

Lemma thaw_ok_cons b t xs :
  thaw_ok b (t :: xs) <->
  record_ok b t /\ (tf_key t ∉ (tf_key <$> xs)) /\ thaw_ok b xs.
Proof. rw /thaw_ok Forall_cons fmap_cons NoDup_cons. tauto. Qed.

Lemma key_not_same_bytes b t xs :
  record_ok b t -> Forall (record_ok b) xs -> tf_key t ∉ (tf_key <$> xs) ->
  Forall (fun x => ~ same_bytes x t) xs.
Proof.
  intros (Ht & Htt & _) Hxs Hn. rw !Forall_forall in Hxs *. intros x Hx Heq. apply Hn.
  apply list_elem_of_fmap. exists x. split; [|done].
  destruct (Hxs x Hx) as (Hxe & Hxt & _).
  destruct (ThawingFunds_bytes_key x t) as [He Htg]; try done. by rw /tf_key He Htg.
Qed.

Section Thawing.
Context {L : Lmdb} {LL : LmdbLaws L} {B : Blake2b}.

Definition thawing_of (origin : AccountAddress) (s : Store) : list ThawingFunds :=
  dup_get origin (thawing_db s).
Definition thawed (origin : AccountAddress) (s : Store) : Z :=
  sumZ tf_amount (thawing_of origin s).

Lemma thaw_descending b origin s :
  thaw_ok b (thawing_of origin s) -> descending (thawing_of origin s).
Proof. intros [Hok _]. by apply (block_descending b); [|apply dups_sorted]. Qed.

(** Putting a record with a new key adds it. *)
Lemma thaw_put origin b t (db : dtable ThawingFunds _) :
  thaw_ok b (dup_get origin db) -> record_ok b t -> tf_key t ∉ (tf_key <$> dup_get origin db) ->
  dup_get origin (dup_put origin t db) ≡ₚ t :: dup_get origin db.
Proof. intros [Hok _] Ht Hn. apply dups_put_new. by eapply key_not_same_bytes. Qed.

Lemma key_test t funds :
  (tf_target t =? tf_target funds) && (tf_expiration_epoch t =? tf_expiration_epoch funds)
  = bool_decide (tf_key t = tf_key funds).
Proof.
  apply Bool.eq_true_iff_eq. rw bool_decide_eq_true andb_true_iff !Z.eqb_eq /tf_key.
  split; [by intros [-> ->]|by intros [= -> ->]].
Qed.

(** The traversal of Store: it finds the record with the key of [funds] if
    there is one. *)
Lemma consolidate_run funds origin xs s :
  descending xs ->
  wlp (iterate (consolidate funds origin) false xs) (fun c s' =>
    staking_db s' = staking_db s /\
    if (c : bool) then exists t, t ∈ xs /\ tf_key t = tf_key funds /\
      thawing_db s' = dup_put origin (tf_set_amount (amt_add (tf_amount t) (tf_amount funds)) t)
                        (dup_del origin t (thawing_db s))
    else thawing_db s' = thawing_db s /\ tf_key funds ∉ (tf_key <$> xs)) s.
Proof.
  induction 1 as [|t xs Hs IH Hall]; cbn [iterate].
  { apply wpg_ret. split_and!; [done..|]. apply not_elem_of_nil. }
  apply wpg_bind. rw /consolidate key_test. case_bool_decide as Hk.
  - apply wpg_bind, wpg_massert; [intros _|done]. rw /thawing_replace. wp_steps.
    eapply wpg_mono; [apply (wlp_frame same_funds), liability_same_funds;
      eauto 1 with frame nocore|].
    intros [] s' [Hst Hth]. wp_steps. cbn in *. split; [done|].
    exists t. by split_and!; [left|..].
  - destruct (Z.ltb_spec (tf_expiration_epoch t) (tf_expiration_epoch funds)) as [Hlt|Hge];
      wp_steps; cbn [snd fst].
    + split_and!; [done..|]. rw Forall_forall in Hall. rw fmap_cons not_elem_of_cons.
      split; [done|]. intros [y [Hy Hin]]%list_elem_of_fmap. injection Hy as Hy _.
      specialize (Hall y Hin). cbn in Hall. lia.
    + eapply wpg_mono; [apply IH|]. intros c s' [Hst Hc]. split; [done|]. destruct c.
      * destruct Hc as (y & ? & ? & ?). exists y. by split; [right|].
      * destruct Hc as [? Hn]. split; [done|]. rw fmap_cons not_elem_of_cons. by split.
Qed.

(** What Store does to the thawing funds of an account: one record more, or
    one record replaced by the sum. *)
Lemma Store_thawing_ok b funds origin s :
  thaw_ok b (thawing_of origin s) -> record_ok b funds ->
  thawed origin s + tf_amount funds < 2 ^ 128 ->
  wlp (Store_thawing funds origin) (fun _ s' =>
    staking_db s' = staking_db s /\ thaw_ok b (thawing_of origin s') /\
    thawed origin s' = thawed origin s + tf_amount funds /\
    (tf_key funds ∉ (tf_key <$> thawing_of origin s) ->
     thawing_of origin s' ≡ₚ funds :: thawing_of origin s)) s.
Proof.
  intros Hok Hf Hsum. rw /Store_thawing /ProcessThawingFunds /thawing_range. wp_steps.
  eapply wpg_mono; [apply consolidate_run; by eapply (thaw_descending b)|].
  intros [] s1 [Hst Hc]; apply wpg_bind.
  - destruct Hc as (t & Hin & Hk & Hdb). wp_steps. split; [done|].
    pose proof (dups_del_in _ _ _ Hin) as Hperm. pose proof Hok as Hok'.
    rw /thawing_of Hperm in Hok'. apply thaw_ok_cons in Hok' as (Ht & Hn & Hrest).
    rw /thawed /thawing_of Hperm sumZ_cons in Hsum.
    assert (0 <= sumZ tf_amount (dup_get origin (dup_del origin t (thawing_db s)))) as Hpos.
    { apply sumZ_nonneg. destruct Hrest as [Hr _]. eapply Forall_impl; [exact Hr|].
      intros x (_ & _ & ? & _). lia. }
    set t' := tf_set_amount _ _ in Hdb.
    destruct Ht as (? & ? & ? & ?), Hf as (? & ? & Hfa & ?).
    assert (tf_amount t' = tf_amount t + tf_amount funds) as Ha.
    { rw /t' /= amt_add_small; lia. }
    assert (record_ok b t') as Ht'.
    { split_and!; [done|done|lia|lia|done]. }
    pose proof (thaw_put origin b t' _ Hrest Ht' Hn) as Hput.
    rw /thawed /thawing_of Hdb Hput. split_and!.
    + by apply thaw_ok_cons.
    + rw Hperm !sumZ_cons Ha. lia.
    + intros Hk'. exfalso. apply Hk'. rw -Hk. by apply list_elem_of_fmap_2.
  - destruct Hc as [Hdb Hk]. rw /thawing_put. wp_steps.
    eapply wpg_mono; [apply (wlp_frame same_funds), liability_same_funds;
      eauto 1 with frame nocore|].
    intros [] s' [Hst' Hth]. wp_steps. cbn in *.
    assert (thawing_of origin s' ≡ₚ funds :: thawing_of origin s) as Hp.
    { rw /thawing_of Hth Hdb. by apply (thaw_put origin b). }
    split_and!; [congruence|rw Hp; by apply thaw_ok_cons| |done].
    rw /thawed Hp sumZ_cons. lia.
Qed.
End Thawing.

(** ** Extracting funds *)
Section Extracting.
Context {L : Lmdb} {LL : LmdbLaws L} {B : Blake2b}.

Definition staked_of (origin : AccountAddress) (s : Store) : option StakedFunds :=
  mdb_get origin (staking_db s).

Lemma UpdateAmountAndStore_thawing_ok b t a origin s :
  thaw_ok b (thawing_of origin s) -> t ∈ thawing_of origin s ->
  0 <= a <= tf_amount t -> thawed origin s < 2 ^ 128 ->
  wlp (UpdateAmountAndStore_thawing t origin a) (fun t' s' =>
    t' = tf_set_amount a t /\ staking_db s' = staking_db s /\
    exists rest, thawing_of origin s ≡ₚ t :: rest /\
      thawing_of origin s' ≡ₚ (if 0 <? a then [tf_set_amount a t] else []) ++ rest) s.
Proof.
  intros Hok Hin Ha Hsum. rw /UpdateAmountAndStore_thawing /Delete_thawing /thawing_del.
  wp_steps. set s1 := set_thawing_db _ s.
  pose proof (dups_del_in _ _ _ Hin) as Hp. rw /thawed /thawing_of Hp sumZ_cons in Hsum.
  pose proof Hok as Hok'. rw /thawing_of Hp in Hok'.
  apply thaw_ok_cons in Hok' as ((? & ? & ? & ?) & Hk & Hrest).
  cbn [tf_amount tf_set_amount]. destruct (Z.ltb_spec 0 a) as [Hpos|Hz]; wp_steps.
  - eapply wpg_mono; [apply (Store_thawing_ok b); [exact Hrest|by split_and!; cbn; try lia|]|].
    + rw /thawed /=. change (thawing_of origin s1) with
        (dup_get origin (dup_del origin t (thawing_db s))). lia.
    + intros c s' (Hst & _ & _ & Hadd). wp_steps. split_and!; [done|done|].
      exists (thawing_of origin s1). split; [done|]. by apply Hadd.
  - eapply wpg_mono; [apply (wlp_frame same_funds), liability_same_funds;
      eauto 1 with frame nocore|].
    intros [] s' [Hst Hth]. wp_steps. split_and!; [done|done|].
    exists (thawing_of origin s1). split; [done|]. by rw /thawing_of Hth.
Qed.

Lemma UpdateAmountAndStore_staked_ok f a origin s :
  wlp (UpdateAmountAndStore_staked f origin a) (fun f' s' =>
    f' = sf_set_amount a f /\ thawing_db s' = thawing_db s /\
    staked_of origin s' = if 0 <? a then Some (sf_set_amount a f) else None) s.
Proof.
  rw /UpdateAmountAndStore_staked /Store_staked /Delete_staked /stake_put /stake_del /staked_of.
  cbn [sf_amount sf_set_amount]. destruct (0 <? a); wp_steps;
    (eapply wpg_mono; [apply (wlp_frame same_funds), liability_same_funds;
      eauto 1 with frame nocore|]);
    intros [] s' [Hst Hth]; wp_steps; rw Hst Hth /=; by mdb_simpl.
Qed.

Lemma PruneSecondary_money o i e s :
  wlp (PruneSecondaryLiabilities o i e) (fun i' _ => same_money i i') s.
Proof.
  rw /PruneSecondaryLiabilities. destruct (_ <=? _); [by wp_steps|].
  do 2 (apply wpg_bind; eapply wpg_mono; [by apply wlp_any|]; intros ? ? _). by wp_steps.
Qed.
Lemma CreateSecondary_money t o a x i e s :
  wlp (CreateSecondaryLiability t o a x i e) (fun r _ => same_money i r.2) s.
Proof.
  rw /CreateSecondaryLiability. apply wpg_bind, wpg_massert; [intros _|done].
  apply wpg_bind. eapply wpg_mono; [apply PruneSecondary_money|]. intros i' s1 Hm.
  apply wpg_bind. eapply wpg_mono; [by apply wlp_any|]. intros [] s2 _; [|by wp_steps].
  do 2 (apply wpg_bind; eapply wpg_mono; [by apply wlp_any|]; intros ? ? _). by wp_steps.
Qed.

(** Extract either leaves the funds as they are and reports 0, or takes the
    amount it reports out of the input. *)
Definition extracted {T R} `{!Funds T, !Funds R} (input : T) (output : R) (x : Amount)
    (origin : AccountAddress) (r : Amount * T * R * account_info) (s s' : Store) : Prop :=
  exists s1, same_funds s s1 /\ r.1.1.1 = Z.min x (f_amount input) /\
    r.1.2 = f_set_amount (amt_add (f_amount output) r.1.1.1) output /\
    UpdateAmountAndStore input origin (amt_sub (f_amount input) r.1.1.1) s1
      = Ok (r.1.1.2, s').

Lemma Extract_ok {T R} `{!Funds T, !Funds R} (input : T) (output : R) x origin info e s :
  wlp (Extract input output x origin info e) (fun r s' =>
    same_money info r.2 /\
    (extracted input output x origin r s s' \/
     f_target input <> f_target output /\ r.1 = (0, input, output) /\ same_funds s s')) s.
Proof.
  rw /Extract. apply wpg_bind.
  eapply (wpg_mono _ _ (fun r s1 => same_money info r.2 /\ same_funds s s1 /\
    (f_target input = f_target output -> r.1 = true))).
  - destruct (Z.eqb_spec (f_target input) (f_target output)) as [Ht|Ht]; cbn [negb];
      [by wp_steps|].
    destruct (f_target input =? origin); [by wp_steps|].
    eapply wpg_mono; [apply wpg_conj; [apply CreateSecondary_money|apply (wlp_frame same_funds),
      liability_same_funds; eauto 1 with frame nocore]|]. by intros [b i] s1 [? ?].
  - intros [[] i] s1 (Hm & Hf & Hb); cbn [fst snd] in *.
    + apply wpg_bind. rw /wpg.
      destruct (UpdateAmountAndStore _ _ _ _) as [[i' s']|] eqn:Hu; [|done].
      cbn. split; [done|]. left. exists s1. split_and!; [done| |done|done].
      cbn. destruct (Z.ltb_spec (f_amount input) x); lia.
    + wp_steps. split; [done|]. right. split_and!; [|done|done]. intros Ht. by specialize (Hb Ht).
Qed.
End Extracting.
