(* ===== verification/StakingSafety.v ===== *)
(** * The money of an account that stakes

    An account's balance is what is available, staked and thawing together.
    Stake sets the stake to what the request asks and keeps that account of
    the balance; expired thawing funds return to the available balance. *)
From stdpp Require Import base list numbers strings gmap sorting ssreflect.
From S2P Require Import Prelude Serial Lmdb StakingTypes Requests Epochs BlockStore Liabilities VotingPower AccountInfo Staking StakingFunds.
Import LiabilityManager VotingPowerManager StakingManager.
Open Scope Z_scope.

(** Skips an operation that leaves the funds alone. *)
Ltac skip_funds s' H :=
  apply wpg_bind; eapply wpg_mono;
  [apply (wlp_frame same_funds); leaves_funds|]; intros ? s' H.

Section Steps.
Context {L : Lmdb} {LL : LmdbLaws L} {B : Blake2b}.
Context (b : Z) (origin : AccountAddress).

Lemma same_funds_of s s' :
  same_funds s s' ->
  staked_of origin s' = staked_of origin s /\ thawing_of origin s' = thawing_of origin s /\
  thawed origin s' = thawed origin s.
Proof. rw /staked_of /thawed /thawing_of. by intros [-> ->]. Qed.

Lemma thawed_nonneg s : thaw_ok b (thawing_of origin s) -> 0 <= thawed origin s.
Proof.
  intros [Hok _]. apply sumZ_nonneg. eapply Forall_impl; [exact Hok|].
  intros t (_ & _ & ? & _). lia.
Qed.

(** *** Thawing funds used for a stake *)

(** The loop's invariant relative to the state it starts in. *)
Definition filling (cur0 : StakedFunds) (rem0 : Amount) (info0 : account_info) (s0 : Store)
    (st : Amount * StakedFunds * account_info) (s : Store) : Prop :=
  let '(rem, cur, info) := st in
  same_money info0 info /\ staking_db s = staking_db s0 /\ thaw_ok b (thawing_of origin s) /\
  sf_target cur = sf_target cur0 /\ 0 <= rem /\ 0 <= sf_amount cur /\
  sf_amount cur + rem = sf_amount cur0 + rem0 /\
  thawed origin s + sf_amount cur = thawed origin s0 + sf_amount cur0.

Lemma extract_thawing_ok e cur0 rem0 info0 s0 rem cur info t s :
  filling cur0 rem0 info0 s0 (rem, cur, info) s -> 0 < rem ->
  sf_amount cur0 + rem0 < 2 ^ 128 -> thawed origin s0 + sf_amount cur0 < 2 ^ 128 ->
  t ∈ thawing_of origin s ->
  wlp (extract_thawing origin e (rem, cur, info) t) (fun r s' =>
    filling cur0 rem0 info0 s0 r.1 s' /\ r.2 = (0 <? r.1.1.1) /\
    (r.2 = true -> forall y, y ∈ thawing_of origin s -> y <> t -> y ∈ thawing_of origin s')) s.
Proof.
  intros (Hm & Hst & Hok & Ht & Hl & Hc & Hsum & Htot) Hpos Hb1 Hb2 Hin.
  rw /extract_thawing. apply wpg_bind. eapply wpg_mono; [apply Extract_ok|].
  intros [[[ext t'] cur'] info'] s' [Hm' Hcase]. cbn [fst snd] in *. wp_steps. cbn [fst snd].
  assert (same_money info0 info') as Hmm.
  { destruct Hm, Hm'. split; congruence. }
  destruct Hcase as [(s1 & Hf & Hext & Hout & Hrun)|(_ & [= -> -> ->] & Hf)].
  - cbn [fst snd f_amount f_target StakedFunds_funds ThawingFunds_funds] in *.
    destruct (same_funds_of _ _ Hf) as (_ & Hth & Htd). destruct Hf as [Hst1 _].
    pose proof Hok as [Hall _]. rw Forall_forall in Hall.
    destruct (Hall t Hin) as (_ & _ & Hta & _).
    rw amt_sub_small in Hrun; [|lia].
    eapply (wpg_ok True) in Hrun; [|apply (UpdateAmountAndStore_thawing_ok b); rw ?Htd ?Hth; done || lia].
    destruct Hrun as (_ & Hst2 & rest & Hp & Hp').
    assert (thawed origin s' = thawed origin s - ext /\ thaw_ok b (thawing_of origin s') /\
      (ext = tf_amount t -> thawing_of origin s' ≡ₚ rest)) as (Htd' & Hok' & Hrest).
    { rw Hth in Hp. rw Hp in Hok. apply thaw_ok_cons in Hok as ((? & ? & ? & ?) & ? & ?).
      rw /thawed Hp Hp' sumZ_app sumZ_cons.
      destruct (Z.ltb_spec 0 (tf_amount t - ext)); cbn [app]; rw ?sumZ_cons /=;
        split_and!; try lia; try done.
      apply thaw_ok_cons. split; [|done]. by split_and!; cbn; try lia. }
    rw amt_sub_small; [|lia]. rw Hout amt_add_small; [|cbn; lia]. cbn.
    split; [|split; [done|]].
    + split_and!; try done; try congruence; cbn; lia.
    + intros Hc'%Z.ltb_lt y Hy Hne. rw Hrest; [|lia]. rw Hth in Hp.
      rw Hp elem_of_cons in Hy. by destruct Hy.
  - rw amt_sub_small; [|lia]. rw Z.sub_0_r.
    destruct (same_funds_of _ _ Hf) as (_ & Hth & Htd). destruct Hf as [Hst1 _].
    split; [|split; [done|by rw Hth]].
    split_and!; try done; try congruence.
Qed.

Lemma extract_all_ok e cur0 rem0 info0 s0 :
  thaw_ok b (thawing_of origin s0) -> 0 < rem0 -> 0 <= sf_amount cur0 ->
  sf_amount cur0 + rem0 < 2 ^ 128 -> thawed origin s0 + sf_amount cur0 < 2 ^ 128 ->
  wlp (ProcessThawingFunds origin (extract_thawing origin e) (rem0, cur0, info0))
    (fun st s => filling cur0 rem0 info0 s0 st s) s0.
Proof.
  intros Hok Hr Hc Hb1 Hb2. rw /ProcessThawingFunds /thawing_range. wp_steps.
  set xs := dup_get origin (thawing_db s0).
  pose proof (dups_nodup origin (thawing_db s0)) as Hnd. rw -/xs in Hnd.
  eapply (wpg_iterate _ _ (fun st done s => filling cur0 rem0 info0 s0 st s /\ 0 < st.1.1 /\
    forall y, y ∈ xs -> y ∉ done -> y ∈ thawing_of origin s) _ _ _ []).
  - split; [|done]. by split_and!; cbn; try lia.
  - intros [[rem cur] info] t todo done s Hd (Hfill & Hpos & Hmem). cbn [app fst] in Hd, Hpos.
    rw -/xs in Hd. rw Hd in Hnd. apply NoDup_app in Hnd as (_ & Hdis & _).
    assert (t ∉ done) as Ht. { intros Hx. apply (Hdis t Hx). by left. }
    eapply wpg_mono; [apply (extract_thawing_ok e _ _ _ _ _ _ _ _ _ Hfill Hpos Hb1 Hb2)|].
    { apply Hmem; [rw Hd; set_solver|done]. }
    intros [st' go] s' (Hf' & Hgo & Hkeep). cbn [fst snd] in *. destruct go; [|done].
    split_and!; [done|by apply Z.ltb_lt|]. intros y Hy Hny.
    rw not_elem_of_app not_elem_of_cons in Hny. destruct Hny as (? & ? & _). by apply Hkeep; auto.
  - by intros st s (? & _ & _).
Qed.

(** *** Bringing the stake up to the amount requested *)
Lemma UpdateRep_money e i r s :
  wlp (UpdateRep e i r) (fun i' s' => same_money i i' /\ s' = s) s.
Proof. rw /UpdateRep. apply wpg_bind, wpg_massert; [intros _|done]. by wp_steps. Qed.

Lemma StakeAvailableFunds_ok cur rem info e s :
  account_wf info -> 0 <= rem -> 0 <= sf_amount cur -> sf_amount cur + rem < 2 ^ 128 ->
  wlp (StakeAvailableFunds cur rem origin info e) (fun r s' =>
    same_funds s s' /\ sf_target r.1 = sf_target cur /\
    sf_amount r.1 = sf_amount cur + rem /\ account_wf r.2 /\ balance r.2 = balance info /\
    available_balance r.2 = available_balance info - rem) s.
Proof.
  intros [Ha Hb] Hr Hc Hsum. rw /StakeAvailableFunds /GetAvailableBalance.
  destruct (Z.ltb_spec (available_balance info) rem); [done|].
  rw amt_sub_small; [|lia]. apply wpg_bind.
  eapply wpg_mono; [apply SetAvailableBalance_ok; [done|rw /in_width; lia]|].
  intros i s' (-> & _ & Hf & _). wp_steps. rw amt_add_small; [|lia].
  rw /account_wf. split_and!; try done; cbn; lia.
Qed.

(** Money of the account while [cur] is being built, outside of the table. *)
Definition in_flight (info : account_info) (cur : StakedFunds) (s : Store) : Z :=
  available_balance info + sf_amount cur + thawed origin s.

Lemma fill_stake_ok info target e cur rem s :
  account_wf info -> thaw_ok b (thawing_of origin s) -> sf_target cur = target ->
  0 <= rem -> 0 <= sf_amount cur -> sf_amount cur + rem < 2 ^ 128 ->
  in_flight info cur s < 2 ^ 128 ->
  wlp (fill_stake origin info target e cur rem) (fun info' s' =>
    account_wf info' /\ thaw_ok b (thawing_of origin s') /\ balance info' = balance info /\
    exists new, sf_target new = target /\ sf_amount new = sf_amount cur + rem /\
      in_flight info' new s' = in_flight info cur s /\
      staked_of origin s' = if sf_amount new =? 0 then staked_of origin s else Some new) s.
Proof.
  intros Hwf Hok Ht Hr Hc Hsum Htot. pose proof (thawed_nonneg s Hok) as Hth0.
  rw /fill_stake. apply wpg_bind.
  eapply wpg_mono; [apply UpdateRep_money|]. intros i1 s1 [[Hbal Hav] ->].
  assert (account_wf i1) as Hwf1 by (rw /account_wf Hbal Hav //).
  apply wpg_bind. eapply (wpg_mono _ _ (fun r s' => account_wf r.2 /\
    thaw_ok b (thawing_of origin s') /\ balance r.2 = balance info /\
    sf_target r.1 = target /\ sf_amount r.1 = sf_amount cur + rem /\
    in_flight r.2 r.1 s' = in_flight info cur s /\ staked_of origin s' = staked_of origin s)).
  - destruct (Z.ltb_spec 0 rem) as [Hpos|Hz].
    2: { wp_steps. cbn. split_and!; try done; [lia|]. rw /in_flight Hav. lia. }
    apply wpg_bind. eapply (wpg_mono _ _ (fun _ s' => same_funds s s')).
    { apply (wlp_frame same_funds). leaves_funds. }
    intros _ s1 Hf1. destruct (same_funds_of _ _ Hf1) as (Hst1 & Hth1 & Htd1).
    apply wpg_bind. rw /in_flight in Htot. destruct Hwf as [Hwa Hwb].
    eapply wpg_mono; [apply extract_all_ok; rw ?Htd1 ?Hth1; done || lia|].
    intros [[rem' cur'] i2] s2 (Hm & Hst2 & Hok2 & Ht2 & Hl2 & Hc2 & Hs2 & Htd2).
    rw /staked_of in Hst1. destruct Hm as [Hmb Hma]. cbn [fst snd] in *.
    assert (account_wf i2) as Hwf2 by (rw /account_wf Hmb Hma //).
    destruct (Z.ltb_spec 0 rem').
    + eapply wpg_mono; [apply StakeAvailableFunds_ok; done || lia|].
      intros [new i3] s3 (Hf3 & Ht3 & Ha3 & Hw3 & Hb3 & Hv3). cbn [fst snd] in *.
      destruct (same_funds_of _ _ Hf3) as (Hst3 & Hth3 & Htd3).
      rw Hth3 /in_flight Htd3 Hst3 /staked_of Hst2 Hst1. split_and!; try done; try congruence; lia.
    + wp_steps. cbn. rw /in_flight /staked_of Hst2 Hst1.
      split_and!; try done; try congruence; lia.
  - intros [new i3] s3 (Hw3 & Hok3 & Hb3 & Ht3 & Ha3 & Hi3 & Hst3). cbn [fst snd] in *.
    apply wpg_bind. destruct (Z.eqb_spec (sf_amount new) 0) as [Hz|Hz]; cbn [negb].
    + wp_steps. split_and!; try done. exists new. split_and!; try done. by rw Hz.
    + rw /Store_staked /stake_put. wp_steps.
      eapply wpg_mono; [apply (wlp_frame same_funds), liability_same_funds;
        eauto 1 with frame nocore|].
      intros [] s4 [Hst4 Hth4]. cbn in Hst4, Hth4.
      wp_steps. rw /in_flight /thawed /thawing_of Hth4 in Hi3 Hok3 *. split_and!; try done.
      exists new. split_and!; try done. destruct (Z.eqb_spec (sf_amount new) 0); [done|].
      by rw /staked_of Hst4 get_put_eq.
Qed.

(** *** Thawing part of a stake *)

(** The epoch's thawing funds expire in block [b]. *)
Definition thaw_epoch (e : Z) : Prop :=
  0 <= e /\ e + THAWING_PERIOD < 2 ^ 32 /\ (e + THAWING_PERIOD) / 256 = b.

Definition stake_wf (f : StakedFunds) : Prop :=
  0 < sf_amount f < 2 ^ 128 /\ in_width 256 (sf_target f).

Lemma BeginThawing_ok info e cur x s :
  thaw_epoch e -> thaw_ok b (thawing_of origin s) -> stake_wf cur ->
  0 < x <= sf_amount cur -> thawed origin s + x < 2 ^ 128 ->
  wlp (BeginThawing origin info e cur x) (fun r s' =>
    same_money info r.2 /\ r.1 = sf_set_amount (sf_amount cur - x) cur /\
    thaw_ok b (thawing_of origin s') /\ thawed origin s' = thawed origin s + x /\
    staked_of origin s' =
      if 0 <? sf_amount cur - x then Some (sf_set_amount (sf_amount cur - x) cur) else None) s.
Proof.
  intros (He & Hx & Hblk) Hok (Ha & Htw) Hxa Hsum. rw /BeginThawing /CreateThawingFunds.
  rw u32_id; [|rw /in_width; rw /THAWING_PERIOD in Hx *; lia].
  apply wpg_bind. skip_funds s1 Hf1. wp_steps.
  destruct (same_funds_of _ _ Hf1) as (_ & Hth1 & Htd1).
  eapply wpg_mono; [apply Extract_ok|].
  intros [[[ext cur'] th'] i'] s2 [Hm [(s1' & Hf & Hext & Hout & Hrun)|(Hne & _)]]; [|done].
  cbn [fst snd f_amount f_target StakedFunds_funds ThawingFunds_funds sf_amount tf_amount] in *.
  rw Z.min_l in Hext; [|lia]. subst ext. rw amt_sub_small in Hrun; [|lia].
  eapply (wpg_ok True) in Hrun; [|apply UpdateAmountAndStore_staked_ok].
  destruct Hrun as (-> & Hth2 & Hst2). destruct (same_funds_of _ _ Hf) as (_ & Hth & Htd).
  assert (thawing_of origin s2 = thawing_of origin s) as Hth3.
  { rw /thawing_of Hth2 -/(thawing_of origin s1') Hth Hth1 //. }
  apply wpg_bind, wpg_massert; [intros _|done]. rw amt_add_small in Hout; [|lia].
  apply wpg_bind. eapply wpg_mono; [apply (Store_thawing_ok b)|].
  - by rw Hth3.
  - rw Hout. rw /in_width in Htw. rw /record_ok /in_width /THAWING_PERIOD in Hx Hblk *.
    cbn. lia.
  - rw /thawed Hth3 Hout. cbn. rw /thawed in Hsum. lia.
  - intros c s3 (Hst3 & Hok3 & Htd3 & _). wp_steps. cbn.
    split_and!; [done|done|done| |].
    + rw Htd3 /thawed Hth3 Hout /=. lia.
    + by rw /staked_of Hst3.
Qed.

(** *** Staking to someone else *)
Lemma ChangeTarget_ok info e cur target amount s :
  thaw_epoch e -> thaw_ok b (thawing_of origin s) -> staked_of origin s = Some cur ->
  stake_wf cur -> 0 <= amount < 2 ^ 128 -> thawed origin s + sf_amount cur < 2 ^ 128 ->
  wlp (ChangeTarget origin info e cur target amount) (fun r s' =>
    let '(new, rem, info') := r in
    same_money info info' /\ sf_target new = target /\ 0 <= rem /\ 0 <= sf_amount new /\
    sf_amount new + rem = amount /\ thaw_ok b (thawing_of origin s') /\
    thawed origin s' + sf_amount new = thawed origin s + sf_amount cur /\
    staked_of origin s' = None) s.
Proof.
  intros He Hok Hst Hwf Ham Hsum. pose proof Hwf as [Ha Hw]. pose proof (thawed_nonneg s Hok).
  rw /ChangeTarget. skip_funds s1 Hf1. rw /CreateStakedFunds. apply wpg_bind.
  skip_funds s2 Hf2. wp_steps.
  assert (same_funds s s2) as Hf by by transitivity s1. clear Hf1 Hf2.
  destruct (same_funds_of _ _ Hf) as (Hst2 & Hth2 & Htd2). rw Hst in Hst2.
  eapply (wpg_mono _ _ (fun r s' => let '(ext, cur', new, info') := r in
    same_money info info' /\ 0 <= ext <= amount /\ ext <= sf_amount cur /\
    cur' = sf_set_amount (sf_amount cur - ext) cur /\
    sf_target new = target /\ sf_amount new = ext /\
    thawing_of origin s' = thawing_of origin s /\
    staked_of origin s' = if 0 <? sf_amount cur - ext then Some cur' else None)).
  - eapply wpg_mono; [apply Extract_ok|].
    intros [[[ext cur'] new] i'] s3 [Hm [(s2' & Hf1 & Hext & Hout & Hrun)|(_ & [= -> -> ->] & Hf3)]];
      cbn [fst snd f_amount f_target StakedFunds_funds ThawingFunds_funds sf_amount] in *.
    + rw amt_sub_small in Hrun; [|lia]. rw amt_add_small in Hout; [|lia].
      eapply (wpg_ok True) in Hrun; [|apply UpdateAmountAndStore_staked_ok].
      destruct Hrun as (-> & Hth3 & Hst3). rw Hout /=.
      destruct (same_funds_of _ _ Hf1) as (_ & Hth' & _).
      split_and!; try done; try lia. 
      transitivity (thawing_of origin s2'); [by rw /thawing_of Hth3|congruence].
    + destruct (same_funds_of _ _ Hf3) as (Hst3 & Hth3 & _). rw Z.sub_0_r.
      split_and!; try done; try lia; try congruence; [by destruct cur|].
      destruct (Z.ltb_spec 0 (sf_amount cur)); [congruence|lia].
  - intros [[[ext cur'] new] i1] s3 (Hm & He1 & He2 & -> & Ht & Hn & Hth3 & Hst3).
    skip_funds s4 Hf4. destruct (same_funds_of _ _ Hf4) as (Hst4 & Hth4 & Htd4).
    assert (thawed origin s3 = thawed origin s) as Htd3 by rw /thawed Hth3 //.
    rw amt_sub_small; [|lia]. apply wpg_bind. cbn [sf_amount sf_set_amount].
    destruct (Z.ltb_spec 0 (sf_amount cur - ext)) as [Hpos|Hz].
    + apply wpg_bind. eapply wpg_mono; [apply BeginThawing_ok; try done|].
      * by rw Hth4 Hth3.
      * split; [cbn; lia|done].
      * rw Htd4 Htd3. lia.
      * intros [cur'' i2] s5 (Hm5 & _ & Hok5 & Htd5 & Hst5). cbn in Hm5, Htd5, Hst5. wp_steps. cbn.
        rw Z.sub_diag /= in Hst5. rw Htd4 Htd3 in Htd5.
        destruct Hm, Hm5. split_and!; try done; try congruence; try lia. split; congruence.
    + wp_steps. cbn. rw Hth4 Hth3 Htd4 Htd3.
      split_and!; try done; try lia; congruence.
Qed.
End Steps.

(** ** The account of the balance *)
Section Accounting.
Context {L : Lmdb} {LL : LmdbLaws L} {B : Blake2b}.

Definition staked_amount (origin : AccountAddress) (s : Store) : Z :=
  match staked_of origin s with Some f => sf_amount f | None => 0 end.

(** The balance is the available balance, the stake and the thawing funds;
    thawing funds expire within one block of 256 epochs. *)
Record funds_ok (b : Z) (origin : AccountAddress) (info : account_info) (s : Store) : Prop := {
  fo_account : account_wf info;
  fo_thawing : thaw_ok b (thawing_of origin s);
  fo_stake f : staked_of origin s = Some f -> stake_wf f;
  fo_balance : balance info =
    available_balance info + staked_amount origin s + thawed origin s;
}.

(** The stake an account ends with when it asks for [amount] to [target]. *)
Definition staked_is (origin target : AccountAddress) (amount : Amount) (s : Store) : Prop :=
  if amount =? 0 then staked_of origin s = None
  else exists h, staked_of origin s = Some (Build_StakedFunds target amount h).

Lemma staked_is_amount origin target amount s :
  staked_is origin target amount s -> staked_amount origin s = amount.
Proof.
  rw /staked_is /staked_amount. destruct (Z.eqb_spec amount 0) as [->|]; [by intros ->|].
  by intros [h ->].
Qed.

Lemma staked_is_new origin new s :
  (staked_of origin s = if sf_amount new =? 0 then None else Some new) ->
  staked_is origin (sf_target new) (sf_amount new) s.
Proof.
  rw /staked_is. destruct (_ =? 0); [done|]. intros ->. exists (sf_liability_hash new).
  by destruct new.
Qed.

(** What every branch of Stake establishes. *)
Lemma funds_ok_intro b origin target amount info info' s' :
  in_width 128 amount -> in_width 256 target ->
  account_wf info' -> thaw_ok b (thawing_of origin s') -> balance info' = balance info ->
  staked_is origin target amount s' ->
  balance info = available_balance info' + amount + thawed origin s' ->
  funds_ok b origin info' s' /\ balance info' = balance info /\ staked_is origin target amount s'.
Proof.
  intros Ha Ht Hwf Hok Hb Hst Htot. split; [|done].
  split; [done|done| |by rw (staked_is_amount _ _ _ _ Hst) Hb].
  intros f Hf. move: Hst. rw /staked_is. rw /in_width in Ha Ht.
  destruct (Z.eqb_spec amount 0); [congruence|]. intros [h Hh]. rw Hf in Hh.
  injection Hh as ->. by split; cbn; [lia|].
Qed.

(** *** The branches of Stake *)
Section Branches.
Context (b : Z) (origin : AccountAddress) (info : account_info) (s : Store) (e : Z).
Context (He : thaw_epoch b e) (Hok : funds_ok b origin info s).
Context (amount : Amount) (target : AccountAddress).
Context (Ham : in_width 128 amount) (Htw : in_width 256 target).

Definition staked_ok (info' : account_info) (s' : Store) : Prop :=
  funds_ok b origin info' s' /\ balance info' = balance info /\
  staked_is origin target amount s'.

(** The stake is reduced: the rest begins to thaw. *)
Lemma Stake_reduce_ok cur :
  staked_of origin s = Some cur -> sf_target cur = target -> amount < sf_amount cur ->
  wlp (ReduceStake origin info e cur (amt_sub (sf_amount cur) amount))
      (fun r s' => staked_ok r.2 s') s.
Proof using All.
  destruct Hok as [[Hav Hbal] Hth Hsw Htot]. pose proof (thawed_nonneg b origin s Hth) as Hth0.
  intros Hst Heq Hlt. rw /staked_amount Hst in Htot. destruct (Hsw cur Hst) as [Hca Hcw].
  pose proof Ham as Ham'. rw /in_width in Ham'.
  rw amt_sub_small; [|lia]. rw /ReduceStake. skip_funds s1 Hf1.
  destruct (same_funds_of origin _ _ Hf1) as (Hst1 & Hth1 & Htd1).
  eapply wpg_mono; [apply (BeginThawing_ok b); rw ?Hth1 ?Htd1; try done; lia|].
  intros [c i] s2 ([Hmb Hma] & _ & Hok2 & Htd2 & Hst2). cbn [snd fst] in *.
  eapply funds_ok_intro; try done; [by rw /account_wf Hmb Hma| |rw Hma Htd2 Htd1; lia].
  replace (sf_amount cur - (sf_amount cur - amount)) with amount in Hst2 by lia.
  rw -Heq /staked_is Hst2. destruct (Z.eqb_spec amount 0) as [->|]; [done|].
  destruct (Z.ltb_spec 0 amount); [by eexists|lia].
Qed.

(** The stake is filled up to the amount; [cur] is what there is of it. *)
Lemma Stake_fill_ok info1 s1 cur rem :
  account_wf info1 -> balance info1 = balance info -> thaw_ok b (thawing_of origin s1) ->
  sf_target cur = target -> 0 <= rem -> 0 <= sf_amount cur -> sf_amount cur + rem = amount ->
  in_flight origin info1 cur s1 = balance info ->
  (staked_of origin s1 = None \/ 0 < amount) ->
  wlp (fill_stake origin info1 target e cur rem) staked_ok s1.
Proof using All.
  destruct Hok as [[Hav Hbal] _ _ _]. intros Hwf Hb1 Hth Ht Hr Hc Hsum Hfl Hst.
  pose proof Ham as Ham'. rw /in_width in Ham'.
  eapply wpg_mono; [apply (fill_stake_ok b); try done; lia|].
  intros i s2 (Hw2 & Hok2 & Hb2 & new & Ht2 & Ha2 & Hfl2 & Hst2). rw Hsum in Ha2.
  rw Hfl /in_flight in Hfl2.
  eapply funds_ok_intro; try done; [congruence| |lia].
  rw -Ht2 -Ha2. apply staked_is_new. rw Hst2.
  destruct (Z.eqb_spec (sf_amount new) 0); [|done]. destruct Hst; [done|lia].
Qed.

(** The target changes. *)
Lemma Stake_change_ok cur :
  staked_of origin s = Some cur ->
  wlp (r ← ChangeTarget origin info e cur target amount;
       let '(cur_stake, amount_left, info) := r in
       if amount =? 0 then Delete_staked origin;; mret info
       else fill_stake origin info target e cur_stake amount_left) staked_ok s.
Proof using All.
  destruct Hok as [[Hav Hbal] Hth Hsw Htot]. pose proof (thawed_nonneg b origin s Hth) as Hth0.
  intros Hst. rw /staked_amount Hst in Htot. pose proof (Hsw cur Hst) as [Hca Hcw].
  pose proof Ham as Ham'. rw /in_width in Ham'.
  apply wpg_bind. eapply wpg_mono; [apply (ChangeTarget_ok b); try done; lia|].
  intros [[new rem] i] s1 ([Hmb Hma] & Ht1 & Hr & Hn & Hsum & Hok1 & Htd1 & Hst1).
  assert (account_wf i) as Hwf by (rw /account_wf Hmb Hma //).
  destruct (Z.eqb_spec amount 0) as [Hz|Hnz].
  - rw /Delete_staked /stake_del. wp_steps. eapply funds_ok_intro; try done.
    + rw /staked_is Hz /staked_of /=. by mdb_simpl.
    + change (thawed origin (set_staking_db _ s1)) with (thawed origin s1). lia.
  - apply Stake_fill_ok; try done; [|by left]. rw /in_flight. lia.
Qed.

(** There is no stake yet. *)
Lemma Stake_fresh_ok :
  staked_of origin s = None ->
  wlp (cur_stake ← CreateStakedFunds target origin;
       (if negb (target =? origin)
        then AddUnlockedProxied target (GetAvailableBalance info) e else mret false);;
       r ← GetRepForEpoch info (u32 (e + 1));
       (if negb (r =? 0)
        then SubtractUnlockedProxied r (GetAvailableBalance info) e else mret false);;
       fill_stake origin info target e cur_stake amount) staked_ok s.
Proof using All.
  destruct Hok as [Hwf Hth Hsw Htot]. intros Hst. rw /staked_amount Hst in Htot.
  pose proof Ham as Ham'. rw /in_width in Ham'.
  rw /CreateStakedFunds. apply wpg_bind. skip_funds s1 Hf1. wp_steps.
  eapply wpg_mono; [apply (wlp_frame same_funds); leaves_funds|]. intros ? s2 Hf2.
  skip_funds s3 Hf3. skip_funds s4 Hf4.
  assert (same_funds s s4) as Hf.
  { transitivity s1; [done|]. transitivity s2; [done|]. by transitivity s3. }
  destruct (same_funds_of origin _ _ Hf) as (Hst4 & Hth4 & Htd4).
  apply Stake_fill_ok; rw ?/in_flight ?Hth4 ?Htd4 ?Hst4 /=; auto; lia.
Qed.
End Branches.

Lemma Stake_ok b origin info amount target e s :
  thaw_epoch b e -> in_width 128 amount -> in_width 256 target -> funds_ok b origin info s ->
  wlp (Stake origin info amount target e) (staked_ok b origin info amount target) s.
Proof.
  intros He Ham Htw Hok. pose proof Ham as Ham'. rw /in_width in Ham'.
  rw /Stake /GetCurrentStakedFunds /stake_get. apply wpg_bind, wpg_gets. cbn beta.
  rw -/(staked_of origin s).
  destruct (staked_of origin s) as [cur|] eqn:Hst; [|by apply Stake_fresh_ok].
  destruct (Z.eqb_spec target (sf_target cur)) as [Heq|Hne]; cbn [negb];
    [|by apply Stake_change_ok].
  destruct (fo_stake _ _ _ _ Hok cur Hst) as [Hca Hcw].
  destruct (Z.ltb_spec amount (sf_amount cur)).
  - apply wpg_bind. eapply wpg_mono; [by apply (Stake_reduce_ok b)|].
    intros r s' Hr. apply wpg_ret. by rw Heq.
  - rw amt_sub_small; [|lia]. pose proof Hok as [Hwf Hth Hsw Htot].
    rw /staked_amount Hst in Htot.
    apply (Stake_fill_ok b origin info s e He Hok); rw ?/in_flight; try done; lia.
Qed.
End Accounting.

(** ** Expired thawing funds *)
Section Pruning.
Context {L : Lmdb} {LL : LmdbLaws L} {B : Blake2b}.

Definition pruned_sum (e : Z) (xs : list ThawingFunds) : Z :=
  sumZ (fun t => if pruneable e t then tf_amount t else 0) xs.
Definition unexpired (e : Z) (xs : list ThawingFunds) : list ThawingFunds :=
  filter (fun t => pruneable e t = false) xs.

Lemma pruned_sum_bounds b e xs :
  Forall (record_ok b) xs -> 0 <= pruned_sum e xs <= sumZ tf_amount xs.
Proof.
  rw /pruned_sum. induction 1 as [|t xs (_ & _ & Ht & _) _ IH]; [done|].
  rw !sumZ_cons. case_match; lia.
Qed.
Lemma pruned_sum_split e xs : sumZ tf_amount xs = pruned_sum e xs + sumZ tf_amount (unexpired e xs).
Proof.
  rw /pruned_sum /unexpired. induction xs as [|t xs IH]; [done|].
  rw filter_cons !sumZ_cons IH. destruct (pruneable e t); case_decide; rw ?sumZ_cons; done || lia.
Qed.

Lemma prune_all_ok b origin e xs : forall keep a s,
  thawing_of origin s ≡ₚ keep ++ xs -> Forall (record_ok b) xs ->
  0 <= a -> a + sumZ tf_amount xs < 2 ^ 128 ->
  wp (iterate (prune_thawing_one origin e) a xs) (fun r s' =>
    r = a + pruned_sum e xs /\ staking_db s' = staking_db s /\
    thawing_of origin s' ≡ₚ keep ++ unexpired e xs) s.
Proof.
  induction xs as [|t xs IH]; intros keep a s Hp Hok Ha Hsum; cbn [iterate].
  { apply wpg_ret. rw Z.add_0_r. by split_and!. }
  apply Forall_cons in Hok as [(_ & _ & Ht & _) Hok]. rw sumZ_cons in Hsum.
  pose proof (pruned_sum_bounds b e xs Hok).
  rw /prune_thawing_one /pruned_sum /unexpired filter_cons sumZ_cons.
  destruct (pruneable e t) eqn:Hx; wp_steps; cbn [fst snd].
  - rw /thawing_del. wp_steps. cbn [fst snd].
    assert (t ∈ thawing_of origin s) as Hin by (rw Hp; set_solver).
    pose proof (dups_del_in _ _ _ Hin) as Hdel.
    eapply wpg_mono; [apply (IH keep)|]; [|done|auto..].
    + rw -/(thawing_of origin s) Hp -Permutation_middle in Hdel. apply Permutation_cons_inv in Hdel.
      by rw Hdel.
    + apply amt_add_width.
    + rw amt_add_small; lia.
    + intros r s' (-> & Hst & Hth). rw amt_add_small; [|lia]. split_and!; [|done|done].
      rw /pruned_sum. lia.
  - eapply wpg_mono; [apply (IH (keep ++ [t]))|]; [by rw -app_assoc|done|lia|lia|].
    intros r s' (-> & Hst & Hth). rw /= -app_assoc /= in Hth. split_and!; [|done|done].
    rw /pruned_sum. lia.
Qed.

Lemma GetPruneable_ok b origin info e s :
  thaw_ok b (thawing_of origin s) -> thawed origin s < 2 ^ 128 ->
  wp (GetPruneableThawingAmount origin info e) (fun r s' => s' = s /\
    r = if e <=? epoch_thawing_updated info then 0
        else pruned_sum e (thawing_of origin s)) s.
Proof.
  intros [Hok _] Hsum. rw /GetPruneableThawingAmount. destruct (_ <=? _); [by wp_steps|].
  rw /ProcessThawingFunds /thawing_range. wp_steps. rw -/(thawing_of origin s) /thawed in Hsum *.
  assert (forall xs a, Forall (record_ok b) xs -> 0 <= a -> a + sumZ tf_amount xs < 2 ^ 128 ->
    wp (iterate (fun total t => mret (if pruneable e t then amt_add total (tf_amount t)
      else total, true)) a xs) (fun r s' => s' = s /\ r = a + pruned_sum e xs) s) as Hloop.
  { clear. induction xs as [|t xs IH]; intros a Hok Ha Hs; cbn [iterate];
      [apply wpg_ret; split; [done|cbn; lia]|].
    apply Forall_cons in Hok as [(_ & _ & Ht & _) Hok]. rw sumZ_cons in Hs.
    pose proof (pruned_sum_bounds b e xs Hok).
    wp_steps. cbn [fst snd]. rw /pruned_sum sumZ_cons -/(pruned_sum e xs).
    destruct (pruneable e t); rw ?amt_add_small; try lia;
      (eapply wpg_mono; [apply IH; [done|lia|lia]|]); intros r s' [-> ->]; (split; [done|lia]). }
  eapply wpg_mono; [apply Hloop; [done|lia|lia]|]. intros r s' [-> ->]. split; [done|]. lia.
Qed.

Lemma PruneThawing_ok b origin info e s :
  funds_ok b origin info s -> epoch_thawing_updated info < e ->
  wlp (PruneThawing origin info e) (fun info' s' =>
    funds_ok b origin info' s' /\ balance info' = balance info /\
    epoch_thawing_updated info' = e /\
    available_balance info' = available_balance info + pruned_sum e (thawing_of origin s) /\
    thawing_of origin s' ≡ₚ unexpired e (thawing_of origin s)) s.
Proof.
  intros [[Hav Hbal] Hok Hsw Htot] He. pose proof (thawed_nonneg b origin s Hok) as Hth0.
  rw /PruneThawing. destruct (Z.leb_spec e (epoch_thawing_updated info)); [lia|].
  pose proof Hok as [Hall Hnd]. pose proof (pruned_sum_bounds b e _ Hall) as Hps.
  assert (0 <= staked_amount origin s) as Hst0.
  { rw /staked_amount. destruct (staked_of origin s) as [f|] eqn:Hf; [|done].
    destruct (Hsw f eq_refl). lia. }
  rw -/(thawed origin s) in Hps.
  rw /ProcessThawingFunds /thawing_range. apply wpg_bind. wp_steps.
  eapply (wpg_mono _ _ (fun r s' => r = pruned_sum e (thawing_of origin s) /\
    staking_db s' = staking_db s /\ thawing_of origin s' ≡ₚ unexpired e (thawing_of origin s))).
  { pose proof (prune_all_ok b origin e (thawing_of origin s) [] 0 s) as Hw.
    rw /wpg in Hw *. rw -/(thawing_of origin s). destruct (iterate _ _ _ s) as [[r s']|]; [|done].
    apply Hw; try done. rw /thawed in Hbal Htot. lia. }
  intros r s1 (-> & Hst1 & Hth1). rw /GetAvailableBalance.
  change (available_balance (set_epoch_thawing_updated e info)) with (available_balance info).
  rw amt_add_small; [|lia].
  eapply wpg_mono; [apply SetAvailableBalance_ok; [done|rw /in_width; lia]|].
  intros i s' (-> & Hle & Hf & _). destruct (same_funds_of origin _ _ Hf) as (Hst2 & Hth2 & Htd2).
  assert (staked_of origin s' = staked_of origin s) as Hst by rw Hst2 /staked_of Hst1 //.
  rw Hth2. cbn. split_and!; try done. split; cbn.
  - rw /account_wf /=. lia.
  - rw Hth2 Hth1. split.
    + rw !Forall_forall in Hall *. intros t [_ Hin]%list_elem_of_filter. auto.
    + eapply (sublist_NoDup _ (tf_key <$> thawing_of origin s)); [done|].
      apply fmap_sublist, sublist_filter.
  - by rw Hst.
  - rw /staked_amount Hst -/(staked_amount origin s) Htd2 Htot.
    rw {2}/thawed Hth1 {1}/thawed (pruned_sum_split e). lia.
Qed.
End Pruning.

(** ** Whole operations *)
Section Results.
Context {L : Lmdb} {LL : LmdbLaws L} {B : Blake2b}.
Context (b : Z) (origin : AccountAddress).


(** PruneThawing returns to the available balance what
    GetPruneableThawingAmount announces, and keeps the funds that have not
    expired. *)
Lemma PruneThawing_returns_pruneable info e s x s0 info' s' :
  funds_ok b origin info s -> epoch_thawing_updated info < e ->
  GetPruneableThawingAmount origin info e s = Ok (x, s0) ->
  PruneThawing origin info e s = Ok (info', s') ->
  available_balance info' = available_balance info + x /\
  balance info' = balance info /\
  thawing_of origin s' ≡ₚ unexpired e (thawing_of origin s) /\
  thawed origin s' = thawed origin s - x.
Proof.
  intros Hok He Hg Hr. pose proof Hok as [[Ha Hb] Hth Hsw Htot].
  assert (0 <= staked_amount origin s) as Hst.
  { rw /staked_amount. destruct (staked_of origin s) eqn:Hf; [|done].
    destruct (Hsw _ eq_refl). lia. }
  eapply wpg_ok in Hg; [|by apply (GetPruneable_ok b); [|lia]].
  destruct Hg as [_ ->]. destruct (Z.leb_spec e (epoch_thawing_updated info)); [lia|].
  eapply wpg_ok in Hr; [|by apply (PruneThawing_ok b)].
  destruct Hr as (_ & Hb' & _ & Hav & Hp). split_and!; [done|done|done|].
  rw /thawed Hp (pruned_sum_split e (thawing_of origin s)). lia.
Qed.
End Results.

(** ** Validation *)
Section Validation.
Context {L : Lmdb} {LL : LmdbLaws L} {B : Blake2b}.
Context (b : Z) (origin : AccountAddress).

Lemma validate_thawing_ok e target xs r0 c s :
  Forall (record_ok b) xs -> 0 <= r0 < 2 ^ 128 ->
  wlp (iterate (validate_thawing origin e target) (false, r0, c) xs) (fun st _ =>
    st.1.1 = true -> r0 <= sumZ tf_amount xs) s.
Proof.
  intros Hok. revert r0 c s. induction Hok as [|t xs (_ & _ & Ht & _) Hok IH];
    intros r0 c s Hr; cbn [iterate]; [by wp_steps|].
  assert (0 <= sumZ tf_amount xs) as Hpos.
  { apply sumZ_nonneg. eapply Forall_impl; [exact Hok|]. intros x (_ & _ & ? & _). lia. }
  rw sumZ_cons. apply wpg_bind. rw /validate_thawing. apply wpg_bind.
  eapply wpg_mono; [by apply wlp_any|]. intros [[] c'] s1 _; cbn [fst snd].
  - destruct (Z.leb_spec r0 (tf_amount t)); wp_steps; cbn [fst snd]; wp_steps; [cbn; lia|].
    rw amt_sub_small; [|lia]. eapply wpg_mono; [apply IH; lia|]. intros st s2 Hst Htrue.
    specialize (Hst Htrue). lia.
  - wp_steps; cbn [fst snd]. eapply wpg_mono; [by apply IH|]. intros st s2 Hst Htrue.
    specialize (Hst Htrue). lia.
Qed.

Lemma usable_frame e target c t : preserves same_funds (usable origin e target c t).
Proof. rw /usable /can_create_secondary_liability. leaves_funds. Qed.

Lemma Validate_bounded_ok info amount target e fee s :
  funds_ok b origin info s -> e <= epoch_thawing_updated info ->
  0 <= amount < 2 ^ 128 -> 0 <= fee ->
  wlp (Validate origin info amount target e fee) (fun r _ =>
    r = true -> amount + fee <= balance info) s.
Proof.
  intros [[Hav Hbal] Hok Hsw Htot] He Ham Hfee. pose proof (thawed_nonneg b origin s Hok).
  assert (0 <= staked_amount origin s) as Hst0.
  { rw /staked_amount. destruct (staked_of origin s) eqn:Hf; [|done].
    destruct (Hsw _ eq_refl). lia. }
  rw /Validate /GetAvailableBalance. destruct (Z.ltb_spec (available_balance info) fee);
    [by wp_steps|].
  rw amt_sub_small; [|lia]. destruct (Z.leb_spec amount (available_balance info - fee));
    [wp_steps; lia|].
  apply wpg_bind. rw /GetPruneableThawingAmount.
  destruct (Z.leb_spec e (epoch_thawing_updated info)); [|lia]. wp_steps.
  rw amt_add_small; [|lia]. destruct (Z.leb_spec amount (available_balance info - fee + 0));
    [wp_steps; lia|].
  rw amt_sub_small; [|lia]. set rem := amount - _. apply wpg_bind.
  rw /GetCurrentStakedFunds /stake_get. wp_steps. rw -/(staked_of origin s).
  eapply (wpg_mono _ _ (fun r s' => same_funds s s' /\
    (r.1.1 = true -> rem <= staked_amount origin s) /\
    (r.1.1 = false -> 0 <= r.1.2 < 2 ^ 128 /\ rem <= r.1.2 + staked_amount origin s))).
  - rw /staked_amount in Hst0 *. destruct (staked_of origin s) as [cur|] eqn:Hst;
      [|by wp_steps; cbn; split_and!; try done; lia].
    destruct (Hsw cur eq_refl) as [Hca _].
    destruct (Z.ltb_spec 0 (sf_amount cur)); [|lia]. apply wpg_bind.
    eapply wpg_mono; [apply (wlp_frame same_funds), usable_frame|].
    intros [[] c] s1 Hf; cbn [fst snd]; [|wp_steps; cbn; split_and!; try done; lia].
    destruct (Z.leb_spec rem (sf_amount cur)); wp_steps; cbn; split_and!; try done; try lia.
    rw amt_sub_small; lia.
  - intros [[enough rem'] c] s1 (Hf & Htrue & Hfalse). cbn [fst snd] in *.
    destruct enough; wp_steps; [intros _; specialize (Htrue eq_refl); lia|].
    destruct (Hfalse eq_refl) as [Hr' Hle]. rw /ProcessThawingFunds /thawing_range. wp_steps.
    destruct (same_funds_of origin _ _ Hf) as (_ & Hth & _). rw /thawing_of in Hth. rw Hth.
    eapply wpg_mono; [by apply validate_thawing_ok; [apply Hok|]|].
    intros [[res r2] c2] s2 Hres. cbn [fst snd] in *. wp_steps. intros Hr.
    specialize (Hres Hr). rw /thawed /thawing_of in Htot. lia.
Qed.

(** Once the account's expired thawing funds have been returned for the
    epoch, Validate never accepts a stake that, with the fee, exceeds the
    account's balance. *)
Lemma Validate_within_balance info amount target e fee s s' :
  funds_ok b origin info s -> e <= epoch_thawing_updated info ->
  in_width 128 amount -> 0 <= fee ->
  Validate origin info amount target e fee s = Ok (true, s') ->
  amount + fee <= balance info.
Proof.
  intros Hok He Ha Hfee Hr. eapply wpg_ok in Hr; [|by apply Validate_bounded_ok]. by apply Hr.
Qed.
End Validation.
