(* ===== verification/StakingTheorems.v ===== *)
(** * What the staking manager guarantees

    The theorems about whole operations of the staking manager, each with a
    run on a concrete store, and the situations in which the code does not do
    what its comments say. *)
From stdpp Require Import base list numbers strings gmap sorting relations ssreflect.
From S2P Require Import Prelude Serial Lmdb StakingTypes Requests Epochs BlockStore Liabilities VotingPower AccountInfo Staking StakingFunds StakingSafety.
Import LiabilityManager VotingPowerManager StakingManager.
Open Scope Z_scope.

(** ** The life of an account *)
Section Life.
Context {L : Lmdb} {LL : LmdbLaws L} {B : Blake2b}.
Context (b : Z) (origin : AccountAddress).

(** What happens to the account [origin]: epochs pass, it stakes, its expired
    thawing funds are returned, its balance changes, and other accounts use
    the store. *)
Inductive account_step : account_info * Store -> account_info * Store -> Prop :=
| account_stakes e info amount target s info' s' :
    thaw_epoch b e -> in_width 128 amount -> in_width 256 target ->
    Stake origin info amount target e s = Ok (info', s') ->
    account_step (info, s) (info', s')
| account_prunes e info s info' s' :
    epoch_thawing_updated info < e ->
    PruneThawing origin info e s = Ok (info', s') ->
    account_step (info, s) (info', s')
| account_balance e info bal s info' s' :
    in_width 128 bal -> SetBalance info bal e s = Ok (info', s') ->
    account_step (info, s) (info', s')
| account_foreign info s s' :
    staked_of origin s' = staked_of origin s -> thawing_of origin s' = thawing_of origin s ->
    account_step (info, s) (info, s').

Lemma account_step_ok x y :
  funds_ok b origin x.1 x.2 -> account_step x y -> funds_ok b origin y.1 y.2.
Proof.
  intros Hok Hstep. destruct Hstep as [e info amount target s info' s' He Ha Ht Hr
    |e info s info' s' He Hr|e info bal s info' s' Hb Hr|info s s' Hst Hth]; cbn in *.
  - eapply wpg_ok in Hr; [|by apply (Stake_ok b)]. by destruct Hr.
  - eapply wpg_ok in Hr; [|by apply (PruneThawing_ok b)]. by destruct Hr.
  - destruct Hok as [Hwf Hthaw Hsw Htot].
    eapply wpg_ok in Hr; [|by apply SetBalance_ok]. destruct Hr as (? & Hwf' & Hd & Hf & _).
    destruct (same_funds_of origin _ _ Hf) as (Hst & Hth & Htd).
    split; rw ?/staked_amount ?Hst ?Hth ?Htd -/(staked_amount origin s); try done. lia.
  - destruct Hok as [Hwf Hthaw Hsw Htot].
    split; rw ?/staked_amount ?/thawed ?Hst ?Hth -/(staked_amount origin s); done.
Qed.


End Life.

(** ** A first stake *)
Section FirstStake.
Context {L : Lmdb} {LL : LmdbLaws L} {B : Blake2b}.
Context (target : AccountAddress) (base : VotingPowerInfo) (e : Z).

Lemma last_epoch_same m us :
  us <> [] -> m <= e -> Forall (fun u => u_epoch u = e) us -> last_epoch m us = e.
Proof.
  rw /last_epoch. intros Hne Hm Hall. induction Hall as [|u us Hu Hall IH]; [done|]. cbn.
  destruct us as [|u' us]; [cbn; lia|]. rw IH //. lia.
Qed.
Lemma before_same us : Forall (fun u => u_epoch u = e) us -> before e us = [].
Proof.
  intros Hall. rw /before. induction Hall as [|u us Hu Hall IH]; [done|].
  rw filter_cons_False; [done|lia].
Qed.

(** Updates of the epoch [e] leave a record that fits when their sum does. *)
Lemma ledger_fits us info :
  ledger base us info -> snapshots_wf base -> us <> [] -> vp_epoch_modified base <= e ->
  Forall (fun u => u_epoch u = e) us ->
  (forall t, in_width 128 (part t (vp_next base) + sumZ (delta t) us)) -> snapshots_wf info.
Proof.
  intros [He Hn Hc] [Hwc Hwn] Hne Hm Hall Hfit.
  rw (last_epoch_same (vp_epoch_modified base)) // in He. rw He before_same // in Hc.
  split; apply snapshot_wf_parts; intros t; [|by rw Hn].
  rw Hc /= Z.add_0_r. destruct (_ <? _); by apply snapshot_wf_parts.
Qed.

(** The state of the target's voting power after the updates [us]. *)
Definition powered (us : list update) (s : Store) : Prop :=
  registered target s /\ exists info, mdb_get target (voting_power_db s) = Some info /\
    snapshots_wf info /\ ledger base us info.

Lemma powered_frame us s s' : same_power s s' -> same_registry s s' -> powered us s -> powered us s'.
Proof. rw /powered /registered. by intros [-> _] (-> & -> & _). Qed.

Lemma apply_update_powered us u s :
  powered us s -> snapshots_wf base -> vp_epoch_modified base <= e -> update_wf u ->
  Forall (fun u => u_epoch u = e) (us ++ [u]) ->
  (forall t, in_width 128 (part t (vp_next base) + sumZ (delta t) (us ++ [u]))) ->
  wp (apply_update target u) (fun _ s' => powered (us ++ [u]) s' /\ same_liabilities s s' /\
    same_funds s s') s.
Proof.
  intros (Hreg & info & Hi & Hwf & Hlg) Hb Hm Hu Hall Hfit.
  pose proof (ledger_snoc _ _ _ u Hlg) as Hlg'.
  assert (snapshots_wf (updated info u)) as Hw.
  { eapply ledger_fits; try done. by destruct us. }
  eapply wpg_mono; [apply (apply_update_ok False info); auto|].
  intros _ s' (Hget & _ & _ & Hf). split_and!; try apply Hf.
  split; [by eapply registered_frame|]. exists (updated info u). by rw Hget decide_True.
Qed.

(** What a first stake does to the target's voting power. *)
Definition first_stake_updates (available amount : Amount) : list update :=
  [Build_update UNLOCKED_PROXY ADD e available; Build_update LOCKED_PROXY ADD e amount;
   Build_update UNLOCKED_PROXY SUBTRACT e amount].

Definition unrepresented (info : account_info) : Prop :=
  rep (old_rep info) = 0 /\ rep (new_rep info) = 0 /\
  epoch_first_active (old_rep info) <= e + 1 /\ epoch_first_active (new_rep info) <= e + 1.

Lemma GetRep_unrepresented info x (s : Store) :
  unrepresented info -> e + 1 <= x -> GetRepForEpoch info x s = Ok (0, s).
Proof.
  intros (Ho & Hn & Hoe & Hne) Hx. rw /GetRepForEpoch Hn Ho. cbn.
  by destruct (Z.leb_spec (epoch_first_active (old_rep info)) x); [|lia].
Qed.

Lemma Store_stored l s :
  wp (Store_ l) (fun h s' => (exists l', mdb_get h (master_liabilities_db s') = Some l') /\
    liability_frame s s') s.
Proof.
  eapply (wpg_frame False liability_frame (Store_ l)
    (fun h s' => exists l', mdb_get h (master_liabilities_db s') = Some l')); [apply Store_frame|].
  rw /Store_ /liability_put /liability_get. wp_steps.
  destruct (mdb_get _ _); wp_steps; cbn; rw get_put_eq; by eexists.
Qed.

(** Using part of the available balance of an account that [target] represents. *)
Lemma SetAvailableBalance_decrease info a s Q :
  0 <= e -> e + 2 < 2 ^ 32 -> account_wf info -> represented_by target e info ->
  0 <= a <= available_balance info ->
  wp (apply_update target (Build_update UNLOCKED_PROXY SUBTRACT e (available_balance info - a)))
     (fun _ s' => Q (set_balances (balance info) a info) s') s ->
  wp (SetAvailableBalance info a e) Q s.
Proof.
  intros He He2 [Hav Hbal] Hrep Ha HQ.
  rw /SetAvailableBalance !(u32_id (e + _)); [|rw /in_width; lia..].
  do 2 (apply wpg_bind; rw /wpg (GetRep_represented target e) //; try lia; rw -/(wpg False _ _ s)).
  apply wpg_bind. destruct (Z.ltb_spec (available_balance info) a); [lia|].
  rw (amt_sub_small (available_balance info) a); [|lia]. rw amt_sub_small; [|lia].
  apply wpg_bind. destruct Hrep as [Hne _]. rw /wpg move_unlocked_same // -/(wpg False _ _ s).
  apply wpg_bind. eapply wpg_mono; [exact HQ|]. intros ? s' HQ'. wp_steps.
  replace (available_balance info - (available_balance info - a)) with a by lia.
  destruct (Z.ltb_spec (balance info) a); [lia|]. by wp_steps.
Qed.

Lemma Store_staked_completes f origin s :
  (exists l, mdb_get (sf_liability_hash f) (master_liabilities_db s) = Some l) ->
  wp (Store_staked f origin) (fun _ s' => staked_of origin s' = Some f /\ same_power s s' /\
    same_registry s s') s.
Proof.
  intros [l Hl]. rw /Store_staked /stake_put /UpdateLiabilityAmount /liability_update_amount
    /liability_get. wp_steps. cbn. rw Hl. wp_steps. split; [|done].
  by rw /staked_of /= get_put_eq.
Qed.

(** The stake is filled from the available balance when nothing is thawing. *)
Lemma fill_first_stake origin info amount cur us s :
  0 <= e -> e + 2 < 2 ^ 32 -> target <> 0 -> target <> origin ->
  account_wf info -> epoch_first_active (new_rep info) <= e + 1 ->
  0 < amount <= available_balance info ->
  sf_amount cur = 0 -> thawing_of origin s = [] ->
  (exists l, mdb_get (sf_liability_hash cur) (master_liabilities_db s) = Some l) ->
  powered us s -> snapshots_wf base -> vp_epoch_modified base <= e ->
  Forall (fun u => u_epoch u = e) us ->
  let us1 := us ++ [Build_update LOCKED_PROXY ADD e amount] in
  let us2 := us1 ++ [Build_update UNLOCKED_PROXY SUBTRACT e amount] in
  (forall t, in_width 128 (part t (vp_next base) + sumZ (delta t) us1)) ->
  (forall t, in_width 128 (part t (vp_next base) + sumZ (delta t) us2)) ->
  wp (fill_stake origin info target e cur amount) (fun info' s' =>
    staked_of origin s' = Some (sf_set_amount amount cur) /\ balance info' = balance info /\
    available_balance info' = available_balance info - amount /\
    represented_by target e info' /\ powered us2 s') s.
Proof.
  intros He He2 Ht0 Hto Hwf Hne Ham Hc Hth Hl Hp Hb Hm Hus us1 us2 Hfit1 Hfit2.
  pose proof Hwf as [Hav Hbal]. rw /fill_stake /UpdateRep (u32_id (e + 1)); [|rw /in_width; lia].
  destruct (Z.eqb_spec target origin); [done|].
  apply wpg_bind, wpg_bind, wpg_massert; [intros _|intros ?%Z.leb_gt; lia]. wp_steps.
  set info1 := set_reps _ _ info. destruct (Z.ltb_spec 0 amount); [|lia].
  apply wpg_bind. eapply wpg_mono;
    [apply (apply_update_powered us (Build_update LOCKED_PROXY ADD e amount)); try done|].
  { rw /update_wf /in_width /=. lia. }
  { apply Forall_app. by auto. }
  intros _ s1 (Hp1 & Hl1 & Hf1). destruct (same_funds_of origin _ _ Hf1) as (_ & Hth1 & _).
  rw /ProcessThawingFunds /thawing_range. wp_steps. rw -/(thawing_of origin s1) Hth1 Hth.
  cbn [iterate]. wp_steps. destruct (Z.ltb_spec 0 amount); [|lia].
  rw /StakeAvailableFunds /GetAvailableBalance /=.
  destruct (Z.ltb_spec (available_balance info) amount); [lia|].
  rw amt_sub_small; [|lia]. apply wpg_bind, SetAvailableBalance_decrease; try done.
  { cbn. lia. }
  cbn [available_balance set_reps info1].
  replace (available_balance info - (available_balance info - amount)) with amount by lia.
  eapply wpg_mono;
    [apply (apply_update_powered us1 (Build_update UNLOCKED_PROXY SUBTRACT e amount)); try done|].
  { rw /update_wf /in_width /=. lia. }
  { rw /us1 !Forall_app. by auto. }
  intros _ s2 (Hp2 & Hl2 & Hf2). wp_steps. cbn [sf_amount sf_set_amount].
  rw Hc amt_add_small; [|lia]. destruct (Z.eqb_spec (0 + amount) 0); [lia|]. cbn [negb].
  eapply wpg_mono; [apply Store_staked_completes|].
  { destruct Hl as [l Hl]. exists l. destruct Hl1 as [Hl1 _], Hl2 as [Hl2 _].
    by rw /= Hl2 Hl1. }
  intros [] s3 (Hst & Hpow & Hreg). wp_steps. rw Z.add_0_l in Hst. split_and!; try done.
  by eapply powered_frame.
Qed.

(** A first stake completes: an account without a representative, stake or
    thawing funds that stakes part of its available balance to a registered
    representative ends up with exactly that stake, represented by the target
    from the next epoch on; the target's power for the next epoch grows by
    the stake (locked) and by the balance left (unlocked). *)
Lemma first_stake_completes origin info amount s :
  0 <= e -> e + 2 < 2 ^ 32 -> target <> 0 -> target <> origin ->
  account_wf info -> unrepresented info -> 0 < amount <= available_balance info ->
  staked_of origin s = None -> thawing_of origin s = [] ->
  registered target s -> mdb_get target (voting_power_db s) = Some base ->
  snapshots_wf base -> vp_epoch_modified base <= e ->
  locked_proxied (vp_next base) + amount < 2 ^ 128 ->
  unlocked_proxied (vp_next base) + available_balance info < 2 ^ 128 ->
  wp (Stake origin info amount target e) (fun info' s' =>
    staked_is origin target amount s' /\ balance info' = balance info /\
    available_balance info' = available_balance info - amount /\
    represented_by target e info' /\
    exists new, mdb_get target (voting_power_db s') = Some new /\
      locked_proxied (vp_next new) = locked_proxied (vp_next base) + amount /\
      unlocked_proxied (vp_next new) =
        unlocked_proxied (vp_next base) + available_balance info' /\
      self_stake (vp_next new) = self_stake (vp_next base)) s.
Proof.
  intros He He2 Ht0 Hto Hwf Hun Ham Hst Hth Hreg Hb Hbw Hm Hlk Hul.
  pose proof Hwf as [Hav Hbal]. pose proof Hbw as [_ Hnw]. rw snapshot_wf_parts /in_width in Hnw.
  assert (forall us t, us = take 1 (first_stake_updates (available_balance info) amount) \/
    us = take 2 (first_stake_updates (available_balance info) amount) \/
    us = first_stake_updates (available_balance info) amount ->
    in_width 128 (part t (vp_next base) + sumZ (delta t) us)) as Hfit.
  { intros us t Hus. rw /in_width.
    pose proof (Hnw LOCKED_PROXY); pose proof (Hnw UNLOCKED_PROXY); pose proof (Hnw SELF_STAKE).
    destruct Hus as [->|[->| ->]], t; rw /delta /=; cbn in *; lia. }
  rw /Stake /GetCurrentStakedFunds /stake_get. wp_steps. rw -/(staked_of origin s) Hst.
  rw /CreateStakedFunds /CreateUnexpiringLiability. apply wpg_bind, wpg_bind.
  eapply wpg_mono; [apply Store_stored|]. intros h s1 [Hl (Hf1 & Hp1 & Hr1)].
  destruct (same_funds_of origin _ _ Hf1) as (_ & Hth1 & _). wp_steps.
  destruct (Z.eqb_spec target origin); [done|]. cbn [negb]. rw /GetAvailableBalance.
  eapply wpg_mono; [apply (apply_update_powered []
    (Build_update UNLOCKED_PROXY ADD e (available_balance info))); try done|].
  { eapply powered_frame; [exact Hp1|exact Hr1|]. split; [done|]. exists base.
    by split_and!; [..|apply ledger_nil]. }
  { rw /update_wf /in_width /=. lia. }
  { by constructor. }
  { intros t. apply (Hfit [_]). by left. }
  intros _ s2 (Hpw & Hlb & Hf2). destruct (same_funds_of origin _ _ Hf2) as (_ & Hth2 & _).
  apply wpg_bind. rw (u32_id (e + 1)); [|rw /in_width; lia].
  rw /wpg GetRep_unrepresented // -/(wpg False _ _ s2). wp_steps. cbn [Z.eqb negb]. wp_steps.
  eapply wpg_mono; [eapply fill_first_stake; try done|].
  { apply Hun. } { by rw Hth2 Hth1. }
  { destruct Hl as [l Hl]. exists l. destruct Hlb as [Hlb _]. by rw /= Hlb. }
  { by constructor. }
  { intros t. apply (Hfit (_ ++ _)). by right; left. }
  { intros t. apply (Hfit ((_ ++ _) ++ _)). by right; right. }
  intros info' s3 (Hst3 & Hb3 & Ha3 & Hrep & _ & new & Hnew & _ & [_ Hn _]).
  split_and!; try done.
  { rw /staked_is. destruct (Z.eqb_spec amount 0); [lia|]. by exists h. }
  exists new. split; [done|]. rw Ha3.
  move: (Hn LOCKED_PROXY) (Hn UNLOCKED_PROXY) (Hn SELF_STAKE). rw /delta /=. lia.
Qed.
End FirstStake.

(** ** Concrete runs *)
Section Concrete.
#[local] Instance L : Lmdb := gmap_lmdb.
#[local] Instance LL : LmdbLaws L := gmap_lmdb_laws.
#[local] Instance B : Blake2b := encode_blake2b.

(** Representatives 5 and 6 have staked 500 each; account 7 owns 1000. *)
Definition rep_record : VotingPowerInfo :=
  Build_VotingPowerInfo (Build_VotingPowerSnapshot 0 0 500) (Build_VotingPowerSnapshot 0 0 500) 10.
Definition two_reps : Store :=
  Build_Store L mdb_empty dup_empty mdb_empty dup_empty dup_empty
    (mdb_put 6 rep_record (mdb_put 5 rep_record mdb_empty)) mdb_empty
    (mdb_put 6 (Build_RepInfo 0 0 0 0) (mdb_put 5 (Build_RepInfo 0 0 0 0) mdb_empty)) mdb_empty
    no_elections.
Definition account7 : account_info := fresh_account 1000.

Definition run_ok {A} (m : M Store A) (Q : A -> Store -> Prop) : Prop :=
  match m two_reps with Ok (a, s) => Q a s | Halt _ => False end.

Lemma account7_funds_ok : funds_ok 0 7 account7 two_reps.
Proof.
  split; [done|by split; constructor| |done].
  intros f Hf. vm_compute in Hf. done.
Qed.
Lemma epoch10 : thaw_epoch 0 10.
Proof. done. Qed.

(** Account 7 after staking 100 to 5 in epoch 10. *)
Definition info1 : account_info :=
  set_balances 1000 900 (set_reps (Build_RepRecord 0 0) (Build_RepRecord 5 11) account7).
Definition store1 : Store := state_after (Stake 7 account7 100 5 10) two_reps.

Lemma run1 : Stake 7 account7 100 5 10 two_reps = Ok (info1, store1).
Proof. by_run. Qed.
Lemma store1_funds_ok : funds_ok 0 7 info1 store1.
Proof.
  pose proof (Stake_ok 0 7 account7 100 5 10 two_reps epoch10) as Hw.
  apply (wpg_ok _ _ _ _ _ _ (Hw ltac:(done) ltac:(done) account7_funds_ok) run1).
Qed.



(** 60 of the 100 that account 8 owns thaw until epoch 50. *)
Definition thawing8 : Store :=
  set_thawing_db (dup_put 8 (Build_ThawingFunds 50 5 60 0) dup_empty) two_reps.
Definition account8 : account_info := set_balances 100 40 (fresh_account 100).

Lemma thawing8_funds_ok : funds_ok 0 8 account8 thawing8.
Proof.
  split; [done| |by intros f Hf; vm_compute in Hf|by_run].
  change (thawing_of 8 thawing8) with [Build_ThawingFunds 50 5 60 0].
  split; [by repeat constructor|]. apply NoDup_singleton.
Qed.

Lemma PruneThawing_returns_pruneable_witness :
  exists info' s', PruneThawing 8 account8 51 thawing8 = Ok (info', s') /\
    available_balance info' = 100 /\ balance info' = 100 /\
    thawing_of 8 s' ≡ₚ [] /\ thawed 8 s' = 0.
Proof.
  exists (set_balances 100 100 (set_epoch_thawing_updated 51 account8)),
    (state_after (PruneThawing 8 account8 51) thawing8).
  split; [by_run|].
  apply (PruneThawing_returns_pruneable 0 8 account8 51 thawing8 60
           (state_after (GetPruneableThawingAmount 8 account8 51) thawing8));
    [exact thawing8_funds_ok|done|by_run|by_run].
Defined.

Lemma Validate_within_balance_witness : 99 + 1 <= 100.
Proof.
  apply (Validate_within_balance 0 8 (set_epoch_thawing_updated 20 account8) 99 5 20 1 thawing8
           (state_after (Validate 8 (set_epoch_thawing_updated 20 account8) 99 5 20 1) thawing8));
    [|done|done|done|by_run].
  destruct thawing8_funds_ok as [H1 H2 H3 H4]. split; done.
Defined.

Lemma first_stake_completes_witness :
  wp (Stake 7 account7 100 5 10) (fun info' s' =>
    staked_is 7 5 100 s' /\ balance info' = 1000 /\ available_balance info' = 900 /\
    represented_by 5 10 info' /\
    exists new, mdb_get 5 (voting_power_db s') = Some new /\
      locked_proxied (vp_next new) = 100 /\
      unlocked_proxied (vp_next new) = 0 + available_balance info' /\
      self_stake (vp_next new) = 500) two_reps.
Proof.
  apply (first_stake_completes 5 rep_record 10 7 account7 100 two_reps); try done.
  - exists (Build_RepInfo 0 0 0 0). split; [by_run|]. by intros [].
Defined.

(** *** Where the code does not do what it means to *)

(** Validate counts expired thawing funds twice: account 8, which owns 100,
    is allowed to stake 160 in epoch 51; applying the request halts the node. *)
Lemma Validate_counts_expired_funds_twice :
  value_of (Validate 8 account8 160 5 51 0) thawing8 = Some true /\
  (info ← PruneThawing 8 account8 51; Stake 8 info 160 5 51) thawing8
  = Halt "StakingManager::StakeAvailableFunds".
Proof. split; by_run. Qed.

(** Thawing records are not in order of expiration when they are in
    different blocks of 256 epochs, so Store misses the record to consolidate
    with: account 7 thaws 10 in epoch 213, then twice 10 in epoch 214, and
    one of these amounts is lost. *)
Lemma thawing_funds_lost :
  run_ok (i ← Stake 7 account7 300 5 212; i ← Stake 7 i 290 5 213;
          i ← Stake 7 i 280 5 214; Stake 7 i 270 5 214) (fun info s =>
    balance info = 1000 /\
    available_balance info + staked_amount 7 s + thawed 7 s = 990 /\
    tf_expiration_epoch <$> thawing_of 7 s = [255; 256]).
Proof. vm_compute. repeat split. Qed.

(** Moving a stake with an amount of 0 moves the unlocked proxies to the
    new target but leaves the account represented by the old one; the next
    withdrawal halts the node. *)
Lemma zero_stake_moves_power_without_rep :
  run_ok (i ← Stake 7 account7 100 5 10; Stake 7 i 0 6 11) (fun info s =>
    rep (new_rep info) = 5 /\
    unlocked_proxied ∘ vp_next <$> mdb_get 5 (voting_power_db s) = Some 0 /\
    unlocked_proxied ∘ vp_next <$> mdb_get 6 (voting_power_db s) = Some 900 /\
    SetBalance info 999 12 s = Halt "VotingPowerManager::SubtractFunc").
Proof. vm_compute. repeat split. Qed.

(** Moving a stake from a representative to oneself subtracts the newly
    staked balance from the old representative a second time, which halts
    the node when it has no other unlocked proxies. *)
Lemma stake_to_self_subtracts_twice :
  (i ← Stake 7 account7 100 5 10; Stake 7 i 200 7 11) two_reps
  = Halt "VotingPowerManager::SubtractFunc".
Proof. by_run. Qed.

(** Frozen thawing funds share the liability of the account's own stake:
    once they thaw again that liability is gone, and reducing the stake halts
    the node. *)
Lemma frozen_funds_share_liability :
  run_ok (i ← Stake 7 account7 100 7 10; i ← Stake 7 i 60 7 11;
          MarkThawingAsFrozen 7 11;; SetExpirationOfFrozen 7 20;; mret i) (fun info s =>
    (exists h, staked_of 7 s = Some (Build_StakedFunds 7 60 h) /\
       mdb_get h (master_liabilities_db s) = None) /\
    Stake 7 info 50 7 21 s = Halt "LiabilityManager::UpdateLiabilityAmount").
Proof. vm_compute. split; [eexists; by split|done]. Qed.
End Concrete.
