(* ===== verification/Elections.v ===== *)
(** * The election of an epoch (blockstore.cpp, epoch_voting_manager.cpp)

    Candidates collect votes weighted by the power of the voters. The store
    keeps, next to the table of candidates, the eight that lead: each change of
    a candidate updates the table of leading candidates and, once it is full,
    the lowest of them, which is cached outside the database. *)
From stdpp Require Import base list numbers strings gmap fin_map_dom fin_maps sorting ssreflect.
From S2P Require Import Prelude Serial Lmdb StakingTypes Requests Epochs BlockStore.
Open Scope Z_scope.

(** Which of two delegates goes first: votes, then stake, then hash. *)
Definition IsGreater `{Blake2b} (d1 d2 : Delegate) : bool :=
  if negb (d_vote d1 =? d_vote d2) then d_vote d2 <? d_vote d1
  else if negb (d_stake d1 =? d_stake d2) then d_stake d2 <? d_stake d1
  else Delegate_Hash d2 <? Delegate_Hash d1.

(** The seats an election fills: NUM_DELEGATES / TERM_LENGTH. *)
Definition num_leading : Z := NUM_DELEGATES / TERM_LENGTH.

Module BlockStoreElections.
Section Operations.
Context {L : Lmdb} {B : Blake2b}.

(** The key with which candidates are compared, the same for all: of the text
    in the source, ECIESPublicKey::FromString uses the first 64 bytes. *)
Definition comparison_key : list Z :=
  be_bytes 64 0x3059301306072a8648ce3d020106082a8648ce3d030107034200048e1ad798008baac3663c0c1a6ce04c7cb632eb504562de923845fccf39d1c46dee52df70f6.
(** A candidate as the delegate it would be. *)
Definition as_delegate (account : AccountAddress) (c : CandidateInfo) : Delegate :=
  new_delegate account (replicate 64 0) comparison_key (votes_received_weighted c)
    (cur_stake c) false.
Definition candidate_is_greater (account1 : AccountAddress) (candidate1 : CandidateInfo)
    (account2 : AccountAddress) (candidate2 : CandidateInfo) : bool :=
  IsGreater (as_delegate account1 candidate1) (as_delegate account2 candidate2).

(** The body of the loop of sync_leading_candidates. *)
Definition sync_one (acc : Z * (AccountAddress * CandidateInfo))
    (it : AccountAddress * CandidateInfo) : Z * (AccountAddress * CandidateInfo) :=
  let '(num_leading, min_candidate) := acc in
  let num_leading := num_leading + 1 in
  if (num_leading =? 1)
     || negb (candidate_is_greater it.1 it.2 min_candidate.1 min_candidate.2)
  then (num_leading, it) else (num_leading, min_candidate).
Definition sync_leading_candidates : M Store unit :=
  items ← get_elections (fun e => mdb_items (leading_candidates_db e));
  let r := foldl sync_one (0, (0, CandidateInfo_default)) items in
  modify_elections (fun e => set_min_leading_candidate r.2 (set_leading_candidates_size r.1 e)).

Definition leading_put (account : AccountAddress) (c : CandidateInfo) : M Store unit :=
  modify_elections (fun e =>
    set_leading_candidates_db (mdb_put account c (leading_candidates_db e)) e).

Definition update_leading_candidates (account : AccountAddress) (c : CandidateInfo)
  : M Store unit :=
  leading_candidates_full ← get_elections (fun e => leading_candidates_size e =? num_leading);
  val ← get_elections (fun e => mdb_get account (leading_candidates_db e));
  min ← get_elections min_leading_candidate;
  match val with
  | Some _ =>
      leading_put account c;;
      if (min.1 =? account) && leading_candidates_full then sync_leading_candidates
      else mret tt
  | None =>
      if (leading_candidates_full : bool) then
        if candidate_is_greater account c min.1 min.2 then
          err ← get_elections (fun e => missing min.1 (leading_candidates_db e));
          massert (negb err) "block_store::update_leading_candidates";;
          modify_elections (fun e =>
            set_leading_candidates_db (mdb_del min.1 (leading_candidates_db e)) e);;
          leading_put account c;;
          sync_leading_candidates
        else mret tt
      else
        leading_put account c;;
        modify_elections (fun e =>
          set_leading_candidates_size (wrap 64 (leading_candidates_size e + 1)) e);;
        size ← get_elections leading_candidates_size;
        if size =? num_leading then sync_leading_candidates else mret tt
  end.

Definition candidate_put (account : AccountAddress) (c : CandidateInfo) : M Store unit :=
  modify_elections (fun e => set_candidacy_db (mdb_put account c (candidacy_db e)) e);;
  update_leading_candidates account c.

(** Returns [true] when there is no such candidate. *)
Definition candidate_add_vote (account : AccountAddress) (weighted_vote : Amount)
    (cur_epoch_num : Z) : M Store bool :=
  i ← candidate_get account;
  match i with
  | Some info =>
      candidate_put account
        (add_votes weighted_vote (Candidate_TransitionIfNecessary cur_epoch_num info));;
      mret false
  | None => mret true
  end.

(** EpochVotingManager::GetElectionWinners returns every leading candidate. *)
Definition GetElectionWinners (num_winners : Z) : M Store (list (AccountAddress * CandidateInfo)) :=
  get_elections (fun e => mdb_items (leading_candidates_db e)).
End Operations.
End BlockStoreElections.
Import BlockStoreElections.

(** ** The order of delegates *)
Section Order.
Context {B : Blake2b}.

(** IsGreater compares votes, stake and hash lexicographically. *)
Definition rank (d : Delegate) : Z * Z * Z := (d_vote d, d_stake d, Delegate_Hash d).
Definition rank_lt (x y : Z * Z * Z) : Prop :=
  x.1.1 < y.1.1 \/ (x.1.1 = y.1.1 /\ (x.1.2 < y.1.2 \/ (x.1.2 = y.1.2 /\ x.2 < y.2))).

Lemma IsGreater_rank d1 d2 : IsGreater d1 d2 = true <-> rank_lt (rank d2) (rank d1).
Proof.
  rw /IsGreater /rank_lt /=.
  destruct (Z.eqb_spec (d_vote d1) (d_vote d2)), (Z.eqb_spec (d_stake d1) (d_stake d2));
    cbn; rw Z.ltb_lt; lia.
Qed.
Lemma IsGreater_irrefl d : IsGreater d d = false.
Proof. apply not_true_iff_false. rw IsGreater_rank /rank_lt. lia. Qed.
Lemma IsGreater_trans d1 d2 d3 :
  IsGreater d1 d2 = true -> IsGreater d2 d3 = true -> IsGreater d1 d3 = true.
Proof. rw !IsGreater_rank /rank_lt. lia. Qed.
(** What is not greater is comparable with anything greater. *)
Lemma IsGreater_negtrans d1 d2 d3 :
  IsGreater d1 d2 = true -> IsGreater d3 d2 = false -> IsGreater d1 d3 = true.
Proof.
  rw -not_true_iff_false !IsGreater_rank /rank_lt.
  destruct (rank d1) as [[]], (rank d2) as [[]], (rank d3) as [[]]; cbn. lia.
Qed.
Lemma IsGreater_connex d1 d2 :
  IsGreater d1 d2 = false -> IsGreater d2 d1 = false -> rank d1 = rank d2.
Proof.
  rw -!not_true_iff_false !IsGreater_rank /rank_lt.
  destruct (rank d1) as [[]] eqn:E1, (rank d2) as [[]] eqn:E2; cbn.
  intros. f_equal; [f_equal|]; lia.
Qed.
End Order.

(** ** The leading candidates *)
Section Leading.
Context {L : Lmdb} {LL : LmdbLaws L} {B : Blake2b} {BC : Blake2bCollisionFree B}.
Abbreviation entry := (Z * CandidateInfo)%type.

(** [x] ranks above [y]. *)
Definition beats (x y : entry) : Prop := candidate_is_greater x.1 x.2 y.1 y.2 = true.
#[global] Instance beats_dec : RelDecision beats.
Proof. rw /beats => x y. apply _. Defined.
Definition entry_wf (x : entry) : Prop :=
  in_width 256 x.1 /\ in_width 128 (votes_received_weighted x.2) /\ in_width 128 (cur_stake x.2).

Lemma as_delegate_wf x : entry_wf x -> Delegate_wf (as_delegate x.1 x.2).
Proof.
  intros (? & ? & ?). rw /Delegate_wf.
  cbn [as_delegate new_delegate d_account bls_pub ecies_pub raw_vote raw_stake d_vote d_stake].
  rw /comparison_key length_be_bytes. split_and!; try done. lia.
Qed.

Lemma beats_irrefl x : ~ beats x x.
Proof. by rw /beats /candidate_is_greater IsGreater_irrefl. Qed.
Lemma beats_trans x y z : beats x y -> beats y z -> beats x z.
Proof. apply IsGreater_trans. Qed.
(** An entry that is not ranked below [x] beats what [x] beats. *)
Lemma beats_up x x' y : beats x y -> ~ beats x x' -> beats x' y.
Proof.
  rw /beats /candidate_is_greater => Hxy /not_true_iff_false Hxx'.
  destruct (IsGreater (as_delegate x'.1 x'.2) (as_delegate y.1 y.2)) eqn:E; [done|].
  by rw (IsGreater_negtrans _ _ _ Hxy E) in Hxx'.
Qed.
Lemma beats_connex x y :
  entry_wf x -> entry_wf y -> x.1 <> y.1 -> ~ beats x y -> beats y x.
Proof.
  intros Hx%as_delegate_wf Hy%as_delegate_wf Hne. rw /beats /candidate_is_greater.
  intros Hxy%not_true_iff_false. destruct (IsGreater _ (as_delegate x.1 x.2)) eqn:Hyx; [done|].
  destruct Hne. pose proof (IsGreater_connex _ _ Hxy Hyx) as Hr.
  apply (f_equal snd) in Hr. cbn [rank snd] in Hr.
  apply Delegate_Hash_inj in Hr; [by apply (f_equal d_account) in Hr|done..].
Qed.

(** The table holds the best of [pool]: at most eight, and eight that beat the
    others when there are others. *)
Record table_ok (pool : gmap Z CandidateInfo) (t : table CandidateInfo) : Prop := {
  to_pool a c : mdb_get a t = Some c -> pool !! a = Some c;
  to_le : Z.of_nat (length (mdb_items t)) <= num_leading;
  to_out a c : pool !! a = Some c -> mdb_get a t = None ->
    Z.of_nat (length (mdb_items t)) = num_leading /\
    forall x, x ∈ mdb_items t -> beats x (a, c);
  to_wf a c : pool !! a = Some c -> entry_wf (a, c);
}.
(** [m] is the lowest of the table. *)
Definition is_min (t : table CandidateInfo) (m : entry) : Prop :=
  mdb_get m.1 t = Some m.2 /\ forall x, x ∈ mdb_items t -> x.1 <> m.1 -> beats x m.
(** The table and what is cached of it. *)
Record leading_ok (pool : gmap Z CandidateInfo) (e : ElectionTables) : Prop := {
  lo_table : table_ok pool (leading_candidates_db e);
  lo_size : leading_candidates_size e = Z.of_nat (length (mdb_items (leading_candidates_db e)));
  lo_min : leading_candidates_size e = num_leading ->
    is_min (leading_candidates_db e) (min_leading_candidate e);
}.

Lemma sync_fold xs : forall n m,
  0 < n ->
  let r := foldl sync_one (n, m) xs in
  r.1 = n + Z.of_nat (length xs) /\ r.2 ∈ m :: xs /\
  forall x, x ∈ m :: xs -> ~ beats r.2 x.
Proof.
  induction xs as [|x xs IH]; intros n m Hn r; cbn [foldl length] in *.
  { split_and!; [cbn; lia|apply list_elem_of_here|].
    intros x. rw list_elem_of_singleton => ->. apply beats_irrefl. }
  assert (exists m', sync_one (n, m) x = (n + 1, m') /\ (m' = m \/ m' = x) /\
            ~ beats m' m /\ ~ beats m' x) as (m' & Hm' & Hin & Hm & Hx).
  { rw /sync_one. destruct (Z.eqb_spec (n + 1) 1); [lia|]. cbn [orb].
    destruct (candidate_is_greater x.1 x.2 m.1 m.2) eqn:E; cbn [negb].
    - exists m. split_and!; [done|by left|apply beats_irrefl|].
      intros Hb. by apply (beats_irrefl m), (beats_trans _ x).
    - exists x. split_and!; [done|by right|by rw /beats E|apply beats_irrefl]. }
  subst r. rw Hm'. destruct (IH (n + 1) m') as (Hr1 & Hr2 & Hr3); [lia|].
  split_and!; [lia|set_solver|]. intros y [->|[->|Hy]%elem_of_cons]%elem_of_cons.
  - intros Hb. destruct Hm. apply (beats_up _ _ _ Hb), Hr3. set_solver.
  - intros Hb. destruct Hx. apply (beats_up _ _ _ Hb), Hr3. set_solver.
  - apply Hr3. set_solver.
Qed.

Lemma wp_get_elections {A} H (f : ElectionTables -> A) Q (s : Store) :
  Q (f (elections s)) s -> wpg H (get_elections f) Q s.
Proof. done. Qed.
Lemma wp_modify_elections H f Q (s : Store) :
  Q tt (set_elections (f (elections s)) s) -> wpg H (modify_elections f) Q s.
Proof. done. Qed.

(** What the operations keep: everything but the leading candidates. *)
Definition only_leading (s s' : Store) : Prop :=
  same_funds s s' /\ same_liabilities s s' /\ same_power s s' /\
  representative_db s' = representative_db s /\ request_db s' = request_db s /\
  exists t n m, elections s' =
    set_min_leading_candidate m (set_leading_candidates_size n
      (set_leading_candidates_db t (elections s))).
#[global] Instance only_leading_preorder : PreOrder only_leading.
Proof.
  split.
  - intros s. split_and!; try done. exists (leading_candidates_db (elections s)),
      (leading_candidates_size (elections s)), (min_leading_candidate (elections s)).
    by destruct (elections s).
  - intros s1 s2 s3 (? & ? & ? & ? & ? & t & n & m & He)
      (? & ? & ? & ? & ? & t' & n' & m' & He').
    split_and!; [by etransitivity..|congruence|congruence|].
    exists t', n', m'. by rw He' He.
Qed.

Lemma table_items pool t x : table_ok pool t -> x ∈ mdb_items t -> pool !! x.1 = Some x.2.
Proof. intros Ht Hx. destruct x. by apply Ht, items_get. Qed.

(** sync_leading_candidates computes what is cached. *)
Lemma sync_ok pool s :
  table_ok pool (leading_candidates_db (elections s)) ->
  wp sync_leading_candidates (fun _ s' =>
    leading_ok pool (elections s') /\ only_leading s s') s.
Proof.
  intros Ht. rw /sync_leading_candidates. apply wpg_bind, wp_get_elections, wp_modify_elections.
  set (items := mdb_items (leading_candidates_db (elections s))).
  set (r := foldl _ _ _). split.
  2: { split_and!; try done. exists (leading_candidates_db (elections s)), r.1, r.2. by destruct (elections s). }
  assert (r.1 = Z.of_nat (length items) /\ (items <> [] -> r.2 ∈ items /\
            forall x, x ∈ items -> ~ beats r.2 x)) as [Hn Hm].
  { subst r. destruct items as [|x xs]; [done|]. cbn [foldl].
    pose proof (sync_fold xs 1 x) as (H1 & H2 & H3); [lia|].
    change (sync_one (0, (0, CandidateInfo_default)) x) with (1, x).
    split; [|done]. rw length_cons Nat2Z.inj_succ. rw Z.add_comm in H1. exact H1. }
  split; cbn; [done|done|]. intros Hfull.
  destruct Hm as [Hin Hlow].
  { intros Hnil. fold items in Hn. rw Hn Hnil in Hfull. done. }
  pose proof (table_items _ _ _ Ht Hin) as Hp. split.
  { apply items_get. by destruct r.2. }
  intros x Hx Hne. pose proof (table_items _ _ _ Ht Hx) as Hpx.
  apply (to_wf _ _ Ht) in Hp, Hpx. destruct r as [? []], x.
  apply beats_connex; [done..|by apply not_eq_sym|by apply Hlow].
Qed.

(** A change that does not lower the rank of a candidate. *)
Definition raises (pool : gmap Z CandidateInfo) (x : entry) : Prop :=
  entry_wf x /\ forall c, pool !! x.1 = Some c -> ~ beats (x.1, c) x.

Section Change.
Variables (pool : gmap Z CandidateInfo) (t : table CandidateInfo) (a : Z) (c : CandidateInfo).
Hypothesis Ht : table_ok pool t.
Hypothesis Hr : raises pool (a, c).

Lemma change_wf a' c' : <[a := c]> pool !! a' = Some c' -> entry_wf (a', c').
Proof.
  intros [[<- <-]|[_ Hp]]%lookup_insert_Some; [apply Hr|by apply (to_wf _ _ Ht)].
Qed.
Lemma put_pool a' c' :
  mdb_get a' (mdb_put a c t) = Some c' -> <[a := c]> pool !! a' = Some c'.
Proof.
  rw get_put. case_decide; [subst; by intros [= ->]; simplify_map_eq|].
  intros Hg. simplify_map_eq. by apply (to_pool _ _ Ht).
Qed.

(** A leading candidate moves up. *)
Lemma table_raise c0 : mdb_get a t = Some c0 -> table_ok (<[a := c]> pool) (mdb_put a c t).
Proof.
  intros Hg. pose proof (length_items_put_old a c c0 t Hg) as Hlen.
  split; [apply put_pool|rw Hlen; apply Ht| |apply change_wf].
  intros b cb [[<- <-]|[Hne Hp]]%lookup_insert_Some; [by rw get_put_eq|].
  rw get_put_ne // Hlen => Hb. destruct (to_out _ _ Ht b cb Hp Hb) as [Hfull Hbeat].
  split; [done|]. intros x. rw items_put => /elem_of_cons [->|Hx].
  - apply (beats_up (a, c0)); [by apply Hbeat, items_get|].
    by apply Hr, (to_pool _ _ Ht).
  - apply Hbeat. destruct x as [k v]. apply items_get. apply items_get in Hx.
    rw get_del in Hx. by case_decide.
Qed.

(** There is room for one more. *)
Lemma table_add :
  mdb_get a t = None -> Z.of_nat (length (mdb_items t)) < num_leading ->
  table_ok (<[a := c]> pool) (mdb_put a c t).
Proof.
  intros Hg Hroom. pose proof (length_items_put_new a c t Hg) as Hlen.
  split; [apply put_pool|rw Hlen; lia| |apply change_wf].
  intros b cb [[<- <-]|[Hne Hp]]%lookup_insert_Some; [by rw get_put_eq|].
  rw get_put_ne // => Hb. destruct (to_out _ _ Ht b cb Hp Hb). lia.
Qed.

(** The lowest is beaten, and leaves. *)
Lemma table_replace m :
  mdb_get a t = None -> Z.of_nat (length (mdb_items t)) = num_leading ->
  is_min t m -> beats (a, c) m ->
  table_ok (<[a := c]> pool) (mdb_put a c (mdb_del m.1 t)).
Proof.
  intros Hg Hfull [Hm Hlow] Hb.
  assert (a <> m.1) as Hne by congruence.
  assert (mdb_get a (mdb_del m.1 t) = None) as Hg' by by rw get_del_ne.
  assert (length (mdb_items (mdb_put a c (mdb_del m.1 t))) = length (mdb_items t)) as Hlen.
  { rw length_items_put_new // (items_del _ _ _ Hm) //. }
  assert (forall x, x ∈ mdb_items (mdb_put a c (mdb_del m.1 t)) -> beats x m) as Habove.
  { intros [k v] Hx%items_get. rw get_put get_del in Hx. case_decide; [naive_solver|].
    case_decide; [done|]. apply Hlow; [by apply items_get|by apply not_eq_sym]. }
  split; [|rw Hlen; apply Ht| |apply change_wf].
  - intros b cb. rw get_put. case_decide; [subst; by intros [= ->]; simplify_map_eq|].
    rw get_del. case_decide; [done|]. intros Hg''. simplify_map_eq. by apply (to_pool _ _ Ht).
  - intros b cb [[<- <-]|[Hab Hp]]%lookup_insert_Some; [by rw get_put_eq|].
    rw get_put_ne // Hlen => Hb'. split; [done|]. intros x Hx.
    destruct (decide (b = m.1)) as [->|Hbm].
    + rw (to_pool _ _ Ht _ _ Hm) in Hp. injection Hp as <-. destruct m. by apply Habove.
    + rw get_del_ne in Hb'; [|by apply not_eq_sym]. apply (beats_trans _ m); [by apply Habove|].
      destruct (to_out _ _ Ht b cb Hp Hb') as [_ Hbeat]. apply Hbeat. destruct m. by apply items_get.
Qed.

(** The candidate stays below the lowest. *)
Lemma table_below m :
  mdb_get a t = None -> Z.of_nat (length (mdb_items t)) = num_leading ->
  is_min t m -> ~ beats (a, c) m -> table_ok (<[a := c]> pool) t.
Proof.
  intros Hg Hfull [Hm Hlow] Hb.
  assert (a <> m.1) as Hne by congruence.
  split; [|apply Ht| |apply change_wf].
  - intros b cb Hg'. assert (a <> b) by congruence. simplify_map_eq. by apply (to_pool _ _ Ht).
  - intros b cb [[<- <-]|[Hab Hp]]%lookup_insert_Some Hg'; [|by apply (to_out _ _ Ht)].
    split; [done|]. intros x Hx.
    assert (beats m (a, c)) as Hmin.
    { apply beats_connex; [apply Hr| |done|done].
      destruct m. by apply (to_wf _ _ Ht), (to_pool _ _ Ht). }
    destruct (decide (x.1 = m.1)) as [Heq|Hxm].
    + destruct x as [k v], m as [km vm]. cbn in *. subst. apply items_get in Hx. congruence.
    + by apply (beats_trans _ m); [apply Hlow|].
Qed.
End Change.

(** The minimum stays the minimum when another leading candidate moves up. *)
Lemma is_min_raise pool t a c c0 m :
  table_ok pool t -> raises pool (a, c) -> mdb_get a t = Some c0 -> is_min t m -> a <> m.1 ->
  is_min (mdb_put a c t) m.
Proof.
  intros Ht Hr Hg [Hm Hlow] Hne. split; [by rw get_put_ne|].
  intros [k v] Hx%items_get Hk. cbn in *. rw get_put in Hx. case_decide; subst.
  - injection Hx as <-. apply (beats_up (k, c0)); [by apply Hlow; [apply items_get|]|].
    by apply Hr, (to_pool _ _ Ht).
  - apply Hlow; [by apply items_get|done].
Qed.

Lemma only_leading_intro t n m s :
  only_leading s (set_elections (set_min_leading_candidate m (set_leading_candidates_size n
                    (set_leading_candidates_db t (elections s)))) s).
Proof. split_and!; try done. by exists t, n, m. Qed.
Lemma only_leading_table t s :
  only_leading s (set_elections (set_leading_candidates_db t (elections s)) s).
Proof.
  pose proof (only_leading_intro t (leading_candidates_size (elections s))
                (min_leading_candidate (elections s)) s) as Hf.
  by destruct (elections s).
Qed.
Lemma only_leading_size n s :
  only_leading s (set_elections (set_leading_candidates_size n (elections s)) s).
Proof.
  pose proof (only_leading_intro (leading_candidates_db (elections s)) n
                (min_leading_candidate (elections s)) s) as Hf.
  by destruct (elections s).
Qed.
(** Changes of the table followed by a synchronization. *)
Lemma sync_after pool s s' :
  only_leading s s' -> table_ok pool (leading_candidates_db (elections s')) ->
  wp sync_leading_candidates (fun _ s'' =>
    leading_ok pool (elections s'') /\ only_leading s s'') s'.
Proof.
  intros Hf Ht. eapply wpg_mono; [by apply (sync_ok pool)|].
  intros _ s'' [? ?]. split; [done|by transitivity s'].
Qed.

Section Update.
Variables (pool : gmap Z CandidateInfo) (s : Store) (a : Z) (c : CandidateInfo).
Hypothesis Hlead : leading_ok pool (elections s).
Hypothesis Hr : raises pool (a, c).
Abbreviation leading := (leading_candidates_db (elections s)).
Abbreviation updated_ok := (fun (_ : unit) s' =>
  leading_ok (<[a := c]> pool) (elections s') /\ only_leading s s').

Lemma update_known c0 : mdb_get a leading = Some c0 -> wp (update_leading_candidates a c) updated_ok s.
Proof.
  intros Hg. destruct Hlead as [Ht Hsize Hmin].
  rw /update_leading_candidates. do 3 apply wpg_bind, wp_get_elections. rw Hg.
  apply wpg_bind, wp_modify_elections. cbn beta.
  pose proof (only_leading_table (mdb_put a c leading) s) as Hf.
  case_match eqn:Hc; [apply sync_after; [done|]; by apply (table_raise _ _ _ _ Ht Hr c0)|].
  apply wpg_ret. split; [|done].
  split; cbn; [by apply (table_raise _ _ _ _ Ht Hr c0)|by rw (length_items_put_old _ _ c0)|].
  intros Hfull. apply (is_min_raise pool _ _ _ c0); try done; [by apply Hmin|].
  intros ->. by rw Hfull !Z.eqb_refl in Hc.
Qed.

Lemma update_full :
  mdb_get a leading = None -> leading_candidates_size (elections s) = num_leading ->
  wp (update_leading_candidates a c) updated_ok s.
Proof.
  intros Hg Hfull. destruct Hlead as [Ht Hsize Hmin].
  rw /update_leading_candidates. do 3 apply wpg_bind, wp_get_elections. rw Hg Hfull Z.eqb_refl.
  specialize (Hmin Hfull). rw Hsize in Hfull. case_match eqn:Hb.
  - apply wpg_bind, wp_get_elections, wpg_bind. rw /missing (proj1 Hmin).
    apply wpg_massert; [intros _|done].
    apply wpg_bind, wp_modify_elections, wpg_bind, wp_modify_elections. cbn beta.
    apply sync_after.
    + etransitivity; [apply (only_leading_table (mdb_del (min_leading_candidate (elections s)).1 leading))|].
      apply only_leading_table.
    + by apply (table_replace _ _ _ _ Ht Hr).
  - apply wpg_ret. split; [|done]. split; [|done|by intros _].
    apply (table_below _ _ _ _ Ht Hr (min_leading_candidate (elections s))); try done.
    by rw /beats Hb.
Qed.

Lemma update_room :
  mdb_get a leading = None -> leading_candidates_size (elections s) <> num_leading ->
  wp (update_leading_candidates a c) updated_ok s.
Proof.
  intros Hg Hroom. destruct Hlead as [Ht Hsize _]. pose proof (to_le _ _ Ht) as Hle.
  rw -Hsize in Hle.
  rw /update_leading_candidates. do 3 apply wpg_bind, wp_get_elections.
  rw Hg (proj2 (Z.eqb_neq _ _) Hroom).
  apply wpg_bind, wp_modify_elections, wpg_bind, wp_modify_elections, wpg_bind, wp_get_elections.
  cbn [elections set_elections leading_candidates_size set_leading_candidates_size
       set_leading_candidates_db].
  assert (0 <= leading_candidates_size (elections s)) as Hpos by (rw Hsize; lia).
  rw (wrap_id 64); [|rw /in_width; change num_leading with 8 in *; lia].
  assert (table_ok (<[a := c]> pool) (mdb_put a c leading)) as Ht'.
  { apply table_add; try done. rw -Hsize. lia. }
  assert (only_leading s (set_elections (set_leading_candidates_size
            (leading_candidates_size (elections s) + 1)
            (set_leading_candidates_db (mdb_put a c leading) (elections s))) s)) as Hf.
  { etransitivity; [apply only_leading_table|apply (only_leading_size _ (set_elections _ s))]. }
  case_match eqn:Hn; [by apply sync_after|].
  apply wpg_ret. split; [|done]. split; cbn; [done| |].
  - rw length_items_put_new // Hsize. lia.
  - intros Hfull. by rw Hfull Z.eqb_refl in Hn.
Qed.

(** Every change that does not lower a candidate keeps the leading candidates
    the best of all, and the cached minimum and size right. *)
Lemma update_leading_ok : wp (update_leading_candidates a c) updated_ok s.
Proof.
  destruct (mdb_get a leading) as [c0|] eqn:Hg; [by apply (update_known c0)|].
  destruct (decide (leading_candidates_size (elections s) = num_leading));
    [by apply update_full|by apply update_room].
Qed.
End Update.

(** ** The best eight *)

(** How many candidates of [pool] rank above [x]. *)
Definition above (pool : gmap Z CandidateInfo) (x : entry) : nat :=
  size (filter (fun y => beats y x) pool).

Lemma table_best pool t a c :
  table_ok pool t -> pool !! a = Some c ->
  mdb_get a t = Some c <-> Z.of_nat (above pool (a, c)) < num_leading.
Proof.
  intros Ht Hp. rw /above -length_map_to_list. split.
  - intros Hg. pose proof (to_le _ _ Ht) as Hle. rw (items_del _ _ _ Hg) /= in Hle.
    enough (length (map_to_list (filter (fun y => beats y (a, c)) pool))
            <= length (mdb_items (mdb_del a t)))%nat by lia.
    apply submseteq_length, NoDup_submseteq; [apply NoDup_map_to_list|].
    intros [b cb]. rw elem_of_map_to_list map_lookup_filter_Some. intros [Hb Hbeat].
    assert (a <> b) as Hne. { intros <-. rw Hp in Hb. injection Hb as <-. by apply beats_irrefl in Hbeat. }
    apply items_get. rw get_del_ne //. destruct (mdb_get b t) as [cb'|] eqn:Hgb.
    + apply (to_pool _ _ Ht) in Hgb. congruence.
    + destruct (to_out _ _ Ht b cb Hb Hgb) as [_ Habove].
      apply items_get, Habove in Hg. by apply (beats_trans _ _ _ Hbeat), beats_irrefl in Hg.
  - intros Hlt. destruct (mdb_get a t) as [c'|] eqn:Hg.
    { apply (to_pool _ _ Ht) in Hg. congruence. }
    destruct (to_out _ _ Ht a c Hp Hg) as [Hfull Habove].
    enough (length (mdb_items t)
            <= length (map_to_list (filter (fun y => beats y (a, c)) pool)))%nat by lia.
    apply submseteq_length, NoDup_submseteq; [apply items_nodup|].
    intros [b cb] Hb. rw elem_of_map_to_list map_lookup_filter_Some. split; [|by apply Habove].
    by apply (table_items _ _ _ Ht Hb).
Qed.

(** An empty table leads the empty pool. *)
Lemma leading_ok_empty e :
  leading_candidates_db e = mdb_empty -> leading_candidates_size e = 0 -> leading_ok ∅ e.
Proof.
  intros He Hs. assert (mdb_items (leading_candidates_db e) = []) as Hnil.
  { rw He. destruct (mdb_items mdb_empty) as [|[k v] ?] eqn:E; [done|].
    assert ((k, v) ∈ mdb_items (mdb_empty (V := CandidateInfo))) as Hin by (rw E; left).
    apply items_get in Hin. by rw get_empty in Hin. }
  split; rw ?Hnil ?Hs //. split; rw ?Hnil; try done; intros a c; rw ?lookup_empty //.
  by rw He get_empty.
Qed.

(** A sequence of changes of candidates, and the records it leaves. *)
Fixpoint candidate_puts (xs : list entry) : M Store unit :=
  match xs with
  | [] => mret tt
  | x :: xs => candidate_put x.1 x.2;; candidate_puts xs
  end.
Fixpoint all_raise (pool : gmap Z CandidateInfo) (xs : list entry) : Prop :=
  match xs with
  | [] => True
  | x :: xs => raises pool x /\ all_raise (<[x.1 := x.2]> pool) xs
  end.
Definition latest (pool : gmap Z CandidateInfo) (xs : list entry) : gmap Z CandidateInfo :=
  foldl (fun p x => <[x.1 := x.2]> p) pool xs.

(** What candidate_put keeps. *)
Definition same_but_candidates (s s' : Store) : Prop :=
  same_funds s s' /\ same_liabilities s s' /\ same_power s s' /\
  representative_db s' = representative_db s /\ request_db s' = request_db s.

Lemma candidate_put_ok pool s a c :
  leading_ok pool (elections s) -> raises pool (a, c) ->
  wp (candidate_put a c) (fun _ s' =>
    leading_ok (<[a := c]> pool) (elections s') /\
    candidacy_db (elections s') = mdb_put a c (candidacy_db (elections s)) /\
    same_but_candidates s s') s.
Proof.
  intros Hl Hr. apply wpg_bind, wp_modify_elections.
  eapply wpg_mono; [apply update_leading_ok; [|done]|].
  { destruct Hl as [? ? ?]. by split. }
  intros _ s' [Hl' (? & ? & ? & ? & ? & t & n & m & He)]. split_and!; try done. by rw He.
Qed.

Lemma candidate_puts_ok xs : forall pool s,
  leading_ok pool (elections s) -> all_raise pool xs ->
  wp (candidate_puts xs) (fun _ s' => leading_ok (latest pool xs) (elections s')) s.
Proof.
  induction xs as [|x xs IH]; intros pool s Hl Hr; cbn [candidate_puts]; [by apply wpg_ret|].
  destruct Hr as [Hx Hxs]. apply wpg_bind. destruct x as [a c].
  eapply wpg_mono; [by apply (candidate_put_ok pool)|]. intros _ s' (Hl' & _). by apply IH.
Qed.
End Leading.

(** C24 From an empty table of leading candidates, after any sequence of changes
    that never lower the rank of a candidate, the changes have all been stored
    and the leading candidates are exactly those with fewer than eight others
    ranked above them. *)
Theorem leading_candidates_are_the_best {L : Lmdb} {LL : LmdbLaws L} {B : Blake2b}
    {BC : Blake2bCollisionFree B} xs (s : Store) :
  leading_candidates_db (elections s) = mdb_empty ->
  leading_candidates_size (elections s) = 0 -> all_raise ∅ xs ->
  wp (candidate_puts xs) (fun _ s' =>
    forall a c, latest ∅ xs !! a = Some c ->
      mdb_get a (leading_candidates_db (elections s')) = Some c <->
      Z.of_nat (above (latest ∅ xs) (a, c)) < NUM_DELEGATES / TERM_LENGTH) s.
Proof.
  intros He Hs Hr. eapply wpg_mono.
  { apply (candidate_puts_ok xs ∅); [by apply leading_ok_empty|done]. }
  intros _ s' [Ht _ _] a c. by apply table_best.
Qed.

(** ** Counting the votes of an epoch *)
Section Votes.
Context {L : Lmdb} {LL : LmdbLaws L} {B : Blake2b} {BC : Blake2bCollisionFree B}.
Variables (epoch : Z) (s0 : Store).
Abbreviation candidates s := (candidacy_db (elections s)).

(** The loop of ApplyRequest(ElectionVote): votes already weighted. *)
Fixpoint add_weighted_votes (votes : list (AccountAddress * Amount)) : M Store unit :=
  match votes with
  | [] => mret tt
  | v :: votes =>
      err ← candidate_add_vote v.1 v.2 epoch;
      massert (negb err) "PersistenceManager::ApplyRequest";;
      add_weighted_votes votes
  end.

(** The record of candidate [a] after the votes of the epoch. *)
Definition tally (votes : list (AccountAddress * Amount)) (a : AccountAddress) : Z :=
  sumZ snd (filter (fun v => v.1 = a) votes).
Definition counted (votes : list (AccountAddress * Amount)) (a : AccountAddress)
    (c : CandidateInfo) : CandidateInfo :=
  add_votes (tally votes a) (Candidate_TransitionIfNecessary epoch c).

(** At the start of the epoch no record has been modified in it. *)
Definition epoch_starts : Prop :=
  (forall a c, mdb_get a (candidates s0) = Some c ->
     c_epoch_modified c < epoch /\ in_width 256 a /\ in_width 128 (next_stake c)) /\
  leading_candidates_db (elections s0) = mdb_empty /\
  leading_candidates_size (elections s0) = 0.
Definition votes_wf (votes : list (AccountAddress * Amount)) : Prop :=
  Forall (fun v => 0 <= v.2 /\ mdb_get v.1 (candidates s0) <> None) votes /\
  sumZ snd votes < 2 ^ 128.
(** The pool of candidates that have received votes. *)
Definition voted (votes : list (AccountAddress * Amount)) (pool : gmap Z CandidateInfo) : Prop :=
  forall a c, pool !! a = Some c <->
    a ∈ votes.*1 /\ exists c0, mdb_get a (candidates s0) = Some c0 /\ c = counted votes a c0.

Record counting (votes : list (AccountAddress * Amount)) (s : Store) : Prop := {
  co_pool : exists pool, voted votes pool /\ leading_ok pool (elections s);
  co_candidates a : mdb_get a (candidates s) =
    c0 ← mdb_get a (candidates s0);
    Some (if decide (a ∈ votes.*1) then counted votes a c0 else c0);
}.

Lemma tally_bounds votes a :
  Forall (fun v => 0 <= v.2) votes -> 0 <= tally votes a <= sumZ snd votes.
Proof.
  rw /tally. induction 1 as [|v votes Hv _ IH]; [done|].
  rw filter_cons. case_decide; rw ?sumZ_cons; lia.
Qed.
Lemma tally_app votes votes' a : tally (votes ++ votes') a = tally votes a + tally votes' a.
Proof. by rw /tally filter_app sumZ_app. Qed.
Lemma tally_one v a : tally [v] a = if decide (v.1 = a) then v.2 else 0.
Proof. rw /tally filter_cons filter_nil. case_decide; [apply Z.add_0_r|done]. Qed.
Lemma tally_none votes a : a ∉ votes.*1 -> tally votes a = 0.
Proof.
  rw /tally. induction votes as [|v votes IH]; [done|]. rw fmap_cons not_elem_of_cons.
  intros [? ?]. rw filter_cons. case_decide; [congruence|auto].
Qed.

(** A counted vote: what candidate_add_vote writes. *)
Lemma add_vote_counted votes a w c0 :
  c_epoch_modified c0 < epoch -> Forall (fun v => 0 <= v.2) votes -> 0 <= w ->
  sumZ snd votes + w < 2 ^ 128 ->
  add_votes w (Candidate_TransitionIfNecessary epoch
    (if decide (a ∈ votes.*1) then counted votes a c0 else c0))
  = counted (votes ++ [(a, w)]) a c0.
Proof.
  intros He Hv Hw Hs. pose proof (tally_bounds votes a Hv).
  rw {2}/counted tally_app tally_one. cbn [fst snd]. rw (decide_True (P := a = a)) //.
  assert (Candidate_TransitionIfNecessary epoch c0 =
    Build_CandidateInfo 0 (c_bls_key c0) (c_ecies_key c0) (next_stake c0) (next_stake c0)
      epoch (c_levy_percentage c0)) as Ht.
  { rw /Candidate_TransitionIfNecessary. by rw (proj2 (Z.ltb_lt _ _) He). }
  case_decide as Hin.
  - rw /counted {1}/Candidate_TransitionIfNecessary Ht. cbn. rw Z.ltb_irrefl /add_votes /=.
    f_equal. rw !amt_add_small; lia.
  - by rw (tally_none votes) // Ht /add_votes /=.
Qed.

(** More votes do not lower a candidate. *)
Lemma counted_wf votes a c0 :
  epoch_starts -> mdb_get a (candidates s0) = Some c0 -> entry_wf (a, counted votes a c0).
Proof.
  intros [Hs _] Hg. destruct (Hs a c0 Hg) as (He & Ha & Hn). split; [done|]. split; cbn; [auto|].
  rw /Candidate_TransitionIfNecessary (proj2 (Z.ltb_lt _ _) He). done.
Qed.
Lemma counted_raises votes a w c0 :
  c_epoch_modified c0 < epoch -> Forall (fun v => 0 <= v.2) votes -> 0 <= w ->
  sumZ snd votes + w < 2 ^ 128 ->
  ~ beats (a, counted votes a c0) (a, counted (votes ++ [(a, w)]) a c0).
Proof.
  intros He Hv Hw Hs. pose proof (tally_bounds votes a Hv).
  rw /beats /candidate_is_greater IsGreater_rank /rank_lt /=.
  rw /counted tally_app tally_one decide_True // /Candidate_TransitionIfNecessary
     (proj2 (Z.ltb_lt _ _) He). cbn [add_votes votes_received_weighted cur_stake snd].
  rw !amt_add_small; [|lia..]. destruct (decide (w = 0)) as [->|]; [|lia].
  rw Z.add_0_r. lia.
Qed.

Lemma counted_other votes a b w c0 :
  a <> b -> counted (votes ++ [(a, w)]) b c0 = counted votes b c0.
Proof. intros Hne. by rw /counted tally_app tally_one decide_False //= Z.add_0_r. Qed.

Lemma counting_start : epoch_starts -> counting [] s0.
Proof.
  intros (_ & He & Hs). split.
  - exists ∅. split; [|by apply leading_ok_empty]. intros a c. rw lookup_empty. set_solver.
  - intros a. destruct (mdb_get a (candidates s0)); [|done]. cbn [mbind option_bind].
    case_decide; [set_solver|done].
Qed.

Lemma counting_step votes a w s :
  epoch_starts -> votes_wf (votes ++ [(a, w)]) -> counting votes s ->
  wp (candidate_add_vote a w epoch) (fun err s' =>
    err = false /\ counting (votes ++ [(a, w)]) s') s.
Proof.
  intros Hst [Hv Hsum] [(pool & Hpool & Hl) Hc].
  apply Forall_app in Hv as [Hv [[Hw Ha] _]%Forall_cons].
  assert (Forall (fun v => 0 <= v.2) votes) as Hpos by (eapply Forall_impl; [exact Hv|naive_solver]).
  rw sumZ_app in Hsum. change (sumZ snd [(a, w)]) with (w + 0) in Hsum. cbn [fst snd] in *.
  destruct (mdb_get a (candidates s0)) as [c0|] eqn:Hg; [|done].
  destruct (proj1 Hst a c0 Hg) as (He & _).
  apply wpg_bind, wp_get_elections. rw Hc Hg. cbn [mbind option_bind].
  rw (add_vote_counted votes a w c0) //; [|lia].
  apply wpg_bind. eapply wpg_mono.
  { apply (candidate_put_ok pool _ _ _ Hl). split; [by apply counted_wf|].
    intros c (_ & c0' & Hg' & ->)%Hpool. cbn in *. replace c0' with c0 by congruence.
    apply counted_raises; try done. lia. }
  intros _ s' (Hl' & Hc' & _). apply wpg_ret. split; [done|]. split.
  - eexists. split; [|exact Hl']. intros b cb. rw lookup_insert_Some fmap_app elem_of_app. split.
    + intros [[<- <-]|[Hne (Hb & cb0 & Hgb & ->)%Hpool]]; [split; [set_solver|eauto]|].
      split; [auto|]. exists cb0. by rw counted_other.
    + intros [Hb (cb0 & Hgb & ->)]. destruct (decide (a = b)) as [<-|Hne];
        [left; rw Hg in Hgb; by injection Hgb as <-|].
      right. split; [done|]. apply Hpool. split; [set_solver|]. exists cb0. by rw counted_other.
  - intros b. rw Hc' get_put. case_decide as Hab.
    + subst b. rw Hg. cbn [mbind option_bind]. case_decide as Hd; [done|].
      destruct Hd. rw fmap_app. set_solver.
    + rw Hc. destruct (mdb_get b (candidates s0)) as [cb0|]; [|done].
      cbn [mbind option_bind]. f_equal. rw fmap_app. do 2 case_decide; try done; [by rw counted_other|set_solver|set_solver].
Qed.

Lemma counting_run votes : forall done s,
  epoch_starts -> votes_wf (done ++ votes) -> counting done s ->
  wp (add_weighted_votes votes) (fun _ s' => counting (done ++ votes) s') s.
Proof.
  induction votes as [|[a w] votes IH]; intros done s Hst Hv Hc; cbn [add_weighted_votes].
  { apply wpg_ret. by rw app_nil_r. }
  rw (app_assoc _ [_]) in Hv |- *. apply wpg_bind. eapply wpg_mono.
  { apply (counting_step done a w); [done| |done]. destruct Hv as [Hf Hs].
    apply Forall_app in Hf as [Hf Hf']. split; [done|]. rw sumZ_app in Hs.
    enough (0 <= sumZ snd votes) by lia. apply sumZ_nonneg.
    eapply Forall_impl; [exact Hf'|]. naive_solver. }
  intros ? s' [-> Hc']. apply wpg_bind, wpg_massert; [intros _|done]. by apply IH.
Qed.
End Votes.

(** C25 An election counts its votes: from the start of an epoch, the weighted
    votes of the epoch for existing candidates are all recorded, every
    candidate ends up with the sum of its votes and the stake it brought into
    the epoch, and the leading candidates are those that fewer than eight of
    the candidates voted for surpass. *)
Theorem election_counts_votes {L : Lmdb} {LL : LmdbLaws L} {B : Blake2b}
    {BC : Blake2bCollisionFree B} epoch (s : Store) votes :
  epoch_starts epoch s -> votes_wf s votes ->
  wp (add_weighted_votes epoch votes) (fun _ s' =>
    (forall a c, mdb_get a (candidacy_db (elections s)) = Some c ->
       mdb_get a (candidacy_db (elections s')) =
         Some (if decide (a ∈ votes.*1) then counted epoch votes a c else c)) /\
    exists pool, voted epoch s votes pool /\
      forall a c, pool !! a = Some c ->
        mdb_get a (leading_candidates_db (elections s')) = Some c <->
        Z.of_nat (above pool (a, c)) < NUM_DELEGATES / TERM_LENGTH) s.
Proof.
  intros Hs Hv. eapply wpg_mono.
  { apply (counting_run epoch s votes [] s); [done|done|by apply counting_start]. }
  intros _ s' [(pool & Hp & [Ht _ _]) Hc]. split; [intros a c Hg; by rw Hc Hg|].
  exists pool. split; [done|]. intros a c. by apply table_best.
Qed.

(** ** Concrete runs *)
Section Runs.
#[local] Instance L : Lmdb := gmap_lmdb.
#[local] Instance LL : LmdbLaws L := gmap_lmdb_laws.
#[local] Instance B : Blake2b := encode_blake2b.
#[local] Instance BC : Blake2bCollisionFree B := encode_blake2b_inj.

Definition candidate (votes stake : Amount) : CandidateInfo :=
  Build_CandidateInfo votes (replicate 64 0) (replicate 64 0) stake stake 49 100.
(** Candidate 1 gains votes after candidate 2 has been recorded. *)
Definition changes : list (Z * CandidateInfo) :=
  [(1, candidate 5 10); (2, candidate 6 10); (1, candidate 7 10)].
Lemma leading_candidates_are_the_best_witness :
  wp (candidate_puts changes) (fun _ s' =>
    forall a c, latest ∅ changes !! a = Some c ->
      mdb_get a (leading_candidates_db (elections s')) = Some c <->
      Z.of_nat (above (latest ∅ changes) (a, c)) < NUM_DELEGATES / TERM_LENGTH) empty_store.
Proof.
  apply (leading_candidates_are_the_best changes empty_store); [done|done|].
  split; [split; [done|]; intros c Hc; by rw lookup_empty in Hc|].
  split; [split; [done|]; intros c Hc; vm_compute in Hc; discriminate|].
  split; [split; [done|]|done].
  intros c Hc. vm_compute in Hc. injection Hc as <-. by vm_compute.
Defined.

(** Two candidates at the start of epoch 50. *)
Definition before_votes : Store :=
  set_elections (set_candidacy_db (mdb_put 2 (candidate 9 10) (mdb_put 1 (candidate 4 10) mdb_empty))
                   no_elections) empty_store.
Definition some_votes : list (AccountAddress * Amount) := [(1, 30); (2, 20); (1, 5)].
Lemma before_votes_starts : epoch_starts 50 before_votes.
Proof.
  split; [|done]. intros a c Hg. change (mdb_get a (candidacy_db (elections before_votes)))
    with ((<[2 := candidate 9 10]> (<[1 := candidate 4 10]> (∅ : gmap Z CandidateInfo))) !! a) in Hg.
  apply lookup_insert_Some in Hg as [[<- <-]|[_ Hg]]; [done|].
  apply lookup_insert_Some in Hg as [[<- <-]|[_ Hg]]; [done|]. by rw lookup_empty in Hg.
Qed.
Lemma election_counts_votes_witness :
  epoch_starts 50 before_votes /\
  mdb_get 1 (candidacy_db (elections (state_after (add_weighted_votes 50 some_votes) before_votes)))
  = Some (counted 50 some_votes 1 (candidate 4 10)).
Proof.
  split; [exact before_votes_starts|].
  pose proof (election_counts_votes 50 before_votes some_votes before_votes_starts) as Hw.
  assert (votes_wf before_votes some_votes) as Hv by (split; [by repeat constructor|done]).
  apply Hw in Hv. rw /state_after /wpg in Hv |- *.
  destruct (add_weighted_votes 50 some_votes before_votes) as [[u s']|]; [|done].
  destruct Hv as [Hc _]. rw (Hc 1 (candidate 4 10)); [done|reflexivity].
Defined.
End Runs.
