(* ===== verification/EpochVoting.v ===== *)
(** * The delegates of the next epoch (src/logos/epoch/epoch_voting_manager.cpp)

    Each epoch the eight delegates whose term ends are replaced by the winners
    of the election; the votes and the stakes of the new set are then capped at
    an eighth of their sum, what exceeds the cap being shared among those that
    follow. The flags ENABLE_ELECTIONS and
    DelegateIdentityManager::IsEpochTransitionEnabled() are arguments. *)
From stdpp Require Import base list numbers strings gmap sorting ssreflect.
From S2P Require Import Prelude Serial Lmdb StakingTypes Requests Epochs BlockStore Elections.
Import BlockStoreElections.
Open Scope Z_scope.

Module EpochVotingManager.

(** A pointer to member, [Amount Delegate::*]. *)
Record member := {
  mget : Delegate -> Amount;
  mset : Amount -> Delegate -> Delegate;
}.
Definition vote_member : member := {| mget := d_vote; mset := set_d_vote |}.
Definition stake_member : member := {| mget := d_stake; mset := set_d_stake |}.

Section Redistribution.
Variable m : member.

(** The first loop of Redistribute. *)
Definition at_least_one (d : Delegate) : Delegate := if mget m d =? 0 then mset m 1 d else d.
Definition total_votes (ds : list Delegate) : Amount :=
  foldl (fun total d => amt_add total (mget m d)) 0 ds.

(** The inner loop: the share of a delegate in what exceeds the cap; the product
    is one of 128-bit integers. *)
Definition to_add (rem total : Amount) (d : Delegate) : Amount :=
  u128 (mget m d * rem) / total.
Definition give (rem total : Amount) (d : Delegate) : Delegate :=
  mset m (amt_add (mget m d) (to_add rem total d)) d.

(** The second loop, [n] delegates being left. Dividing by zero throws. *)
Fixpoint share (n : nat) (cap total : Amount) (ds : list Delegate) : option (list Delegate) :=
  match n, ds with
  | S n, d :: rest =>
      if cap <? mget m d then
        let total := amt_sub total (mget m d) in
        let rem := amt_sub (mget m d) cap in
        if (total =? 0) && negb (bool_decide (rest = [])) then None
        else
          let add_back := foldl (fun a d => amt_add a (to_add rem total d)) 0 rest in
          rest' ← share n cap (amt_add total add_back) (give rem total <$> rest);
          Some (mset m cap d :: rest')
      else
        rest' ← share n cap total rest;
        Some (d :: rest')
  | _, _ => Some []
  end.

Definition Redistribute (delegates : list Delegate) : option (list Delegate) :=
  let delegates := at_least_one <$> delegates in
  let total := total_votes delegates in
  share (length delegates) (total / 8) total delegates.
End Redistribution.

Definition ShouldForceRetire (next_epoch_number : Z) : bool :=
  (START_ELECTIONS_EPOCH <? next_epoch_number)
  && (next_epoch_number <=? START_ELECTIONS_EPOCH + TERM_LENGTH).

Section Manager.
Context {L : Lmdb} {B : Blake2b}.

(** Sets of delegates are lists without duplicates: std::hash uses the account,
    [operator==] compares every member. *)
Definition GetDelegatesToForceRetire (next_epoch_num : Z) : M Store (list Delegate) :=
  let num_epochs_ago := u32 (next_epoch_num - START_ELECTIONS_EPOCH - 1) in
  massert (num_epochs_ago <? 4) "EpochVotingManager::GetDelegatesToForceRetire";;
  epoch ← epoch_get_n (Z.to_nat num_epochs_ago) any_epoch;
  let offset := num_epochs_ago * num_leading in
  mret (remove_dups (take (Z.to_nat num_leading) (drop (Z.to_nat offset) (eb_delegates epoch)))).

Definition GetRetiringDelegates (next_epoch_num : Z) : M Store (list Delegate) :=
  r ← (if ShouldForceRetire next_epoch_num then
         retiring ← GetDelegatesToForceRetire next_epoch_num;
         mret (retiring, true)
       else if START_ELECTIONS_EPOCH <? next_epoch_num then
         epoch ← epoch_get_n 3 is_not_extension;
         mret (remove_dups (set_starting_term false <$>
                 filter (fun d => starting_term d = true) (eb_delegates epoch)), true)
       else mret ([], false));
  (if (r.2 : bool) then
     epoch ← epoch_get_n 0 any_epoch;
     let num_found := length (filter (fun d => d ∈ r.1) (eb_delegates epoch)) in
     massert (num_found =? 8)%nat "EpochVotingManager::GetRetiringDelegates"
   else mret tt);;
  mret r.1.

Definition delegate_elect (p : AccountAddress * CandidateInfo) : Delegate :=
  new_delegate p.1 (c_bls_key p.2) (c_ecies_key p.2) (votes_received_weighted p.2)
    (cur_stake p.2) true.
Definition GetDelegateElects (num_new : Z) (next_epoch_num : Z) : M Store (list Delegate) :=
  if START_ELECTIONS_EPOCH <? next_epoch_num then
    results ← GetElectionWinners num_new;
    mret (delegate_elect <$> results)
  else mret [].

(** The loop that fills the next set of delegates. Returns it with the
    delegate-elects not used; reading past their end is undefined. *)
Fixpoint replace_retiring (extend force : bool) (retiring : list AccountAddress)
    (elects ds : list Delegate) : option (list Delegate * list Delegate) :=
  match ds with
  | [] => Some ([], elects)
  | d :: ds =>
      if decide (d_account d ∈ retiring) then
        if extend then
          r ← replace_retiring extend force retiring elects ds;
          Some (set_starting_term force d :: r.1, r.2)
        else
          match elects with
          | [] => None
          | elect :: elects =>
              r ← replace_retiring extend force retiring elects ds;
              Some (elect :: r.1, r.2)
          end
      else
        r ← replace_retiring extend force retiring elects ds;
        Some (set_starting_term false d :: r.1, r.2)
  end.

(** std::sort with IsGreater: greatest first. *)
Definition not_below (d1 d2 : Delegate) : Prop := IsGreater d2 d1 = false.
#[global] Instance not_below_dec : RelDecision not_below.
Proof. rw /not_below => d1 d2. apply _. Defined.
Definition sort_delegates (ds : list Delegate) : list Delegate := merge_sort not_below ds.

(** The last part of GetNextEpochDelegates: the new set, sorted and capped. *)
Definition seat (extend force : bool) (retiring : list AccountAddress)
    (elects previous : list Delegate) : option (list Delegate) :=
  r ← replace_retiring extend force retiring elects previous;
  if extend || bool_decide (r.2 = []) then
    ds ← Redistribute vote_member (sort_delegates r.1);
    Redistribute stake_member ds
  else None.

Definition GetNextEpochDelegates (transition_enabled elections_enabled : bool)
    (next_epoch_num : Z) : M Store (list Delegate * bool) :=
  let num_new_delegates :=
    if (START_ELECTIONS_EPOCH <? next_epoch_num) && elections_enabled then num_leading else 0 in
  t ← epoch_tip_get;
  match t with
  | None => halt "EpochVotingManager::GetNextEpochDelegates"
  | Some tip =>
      p ← epoch_get (digest tip);
      match p with
      | None => halt "EpochVotingManager::GetNextEpochDelegates"
      | Some previous_epoch =>
          if negb transition_enabled || negb elections_enabled then
            mret (eb_delegates previous_epoch, true)
          else
            retiring_dels ← GetRetiringDelegates next_epoch_num;
            let retiring := remove_dups (d_account <$> retiring_dels) in
            delegate_elects ← GetDelegateElects num_new_delegates next_epoch_num;
            let extend := negb (Z.of_nat (length delegate_elects) =? num_new_delegates) in
            massert (extend || (Z.of_nat (length retiring) =? num_new_delegates))
              "EpochVotingManager::GetNextEpochDelegates";;
            match seat extend (ShouldForceRetire next_epoch_num) retiring delegate_elects
                    (eb_delegates previous_epoch) with
            | None => halt "EpochVotingManager::GetNextEpochDelegates"
            | Some delegates =>
                mret (delegates,
                      if extend then ShouldForceRetire next_epoch_num else true)
            end
      end
  end.

(** ValidateEpochDelegates: the accounts must be genesis delegates. *)
Definition ValidateEpochDelegates (genesis_delegates : list AccountAddress)
    (transition_enabled elections_enabled : bool)
    (delegates : list Delegate) (next_epoch_num : Z) : M Store bool :=
  if forallb (fun d => bool_decide (d_account d ∈ genesis_delegates)) delegates then
    computed ← GetNextEpochDelegates transition_enabled elections_enabled next_epoch_num;
    mret (bool_decide (computed.1 = delegates))
  else mret false.
End Manager.
End EpochVotingManager.
Import EpochVotingManager.

(** ** Redistribution *)
Class MemberLaws (m : member) : Prop := {
  mget_mset v d : mget m (mset m v d) = v;
  mset_mset v v' d : mset m v (mset m v' d) = mset m v d;
  mset_mget d : mset m (mget m d) d = d;
}.
#[global] Instance vote_member_laws : MemberLaws vote_member.
Proof. split; [done|done|]. by intros []. Qed.
#[global] Instance stake_member_laws : MemberLaws stake_member.
Proof. split; [done|done|]. by intros []. Qed.

Section RedistributionLaws.
Context (m : member) {ML : MemberLaws m}.
Abbreviation value := (mget m).

Lemma foldl_amt_add {A} (f : A -> Z) (xs : list A) : forall acc,
  Forall (fun x => 0 <= f x) xs -> 0 <= acc -> acc + sumZ f xs < 2 ^ 128 ->
  foldl (fun a x => amt_add a (f x)) acc xs = acc + sumZ f xs.
Proof.
  induction xs as [|x xs IH]; intros acc Hp Ha Hs; [by rw /= Z.add_0_r|].
  apply Forall_cons in Hp as [Hx Hp]. rw sumZ_cons in Hs |- *.
  pose proof (sumZ_nonneg f xs Hp). cbn [foldl]. rw amt_add_small; [|lia]. rw IH //; lia.
Qed.

(** What is shared never exceeds what the capped delegate gives up, even when
    the products overflow. *)
Lemma to_add_sum rem total ds :
  0 <= rem -> 0 < total -> Forall (fun d => 0 <= value d) ds -> sumZ value ds <= total ->
  Forall (fun d => 0 <= to_add m rem total d) ds /\
  0 <= sumZ (to_add m rem total) ds <= rem.
Proof.
  intros Hr Ht Hv Hs.
  assert (Forall (fun d => 0 <= to_add m rem total d /\
            total * to_add m rem total d <= value d * rem) ds) as Ha.
  { eapply Forall_impl; [exact Hv|]. intros d Hd. rw /to_add.
    assert (0 <= u128 (value d * rem) <= value d * rem) as Hu.
    { split; [by apply (wrap_in_width 128)|]. apply Z.mod_le; [|done].
      by apply Z.mul_nonneg_nonneg. }
    split; [apply Z.div_pos; lia|]. pose proof (Z.mul_div_le (u128 (value d * rem)) total). lia. }
  assert (total * sumZ (to_add m rem total) ds <= sumZ value ds * rem) as Hb.
  { clear Hs Hv. induction Ha as [|d ds [_ Hd] _ IH]; [cbn; lia|].
    rw !sumZ_cons Z.mul_add_distr_l Z.mul_add_distr_r. lia. }
  assert (Forall (fun d => 0 <= to_add m rem total d) ds) as Hpos
    by (eapply Forall_impl; [exact Ha|naive_solver]).
  split; [done|]. split; [by apply sumZ_nonneg|].
  pose proof (sumZ_nonneg value ds Hv). nia.
Qed.

(** What redistribution does to one delegate. *)
Definition redistributed (cap : Amount) (d d' : Delegate) : Prop :=
  Z.min (value d) cap <= value d' <= cap /\ d' = mset m (value d') d.

Lemma give_values rem total ds :
  Forall (fun d => 1 <= value d) ds -> Forall (fun d => 0 <= to_add m rem total d) ds ->
  sumZ value ds + sumZ (to_add m rem total) ds < 2 ^ 128 ->
  Forall2 (fun d d' => value d' = value d + to_add m rem total d /\ d' = mset m (value d') d)
    ds (give m rem total <$> ds).
Proof.
  induction ds as [|d ds IH]; intros Hv Ha Hs; [constructor|].
  apply Forall_cons in Hv as [Hd Hv], Ha as [Had Ha]. rw !sumZ_cons in Hs.
  assert (0 <= sumZ value ds) by (apply sumZ_nonneg; eapply Forall_impl; [exact Hv|]; cbn; lia).
  pose proof (sumZ_nonneg _ _ Ha). constructor; [|apply IH; [done|done|lia]].
  rw /give !mget_mset amt_add_small //. lia.
Qed.

Lemma give_sum rem total ds :
  Forall2 (fun d d' => value d' = value d + to_add m rem total d /\ d' = mset m (value d') d)
    ds (give m rem total <$> ds) ->
  sumZ value (give m rem total <$> ds) = sumZ value ds + sumZ (to_add m rem total) ds.
Proof. induction 1 as [|d d' ds ds' [Hd _] _ IH]; rw ?sumZ_cons; [done|lia]. Qed.

Lemma redistributed_give cap rem total ds ds' ds'' :
  Forall2 (fun d d' => value d' = value d + to_add m rem total d /\ d' = mset m (value d') d)
    ds ds' ->
  Forall (fun d => 0 <= to_add m rem total d) ds ->
  Forall2 (redistributed cap) ds' ds'' -> Forall2 (redistributed cap) ds ds''.
Proof.
  intros Hg. revert ds''. induction Hg as [|d d' ds ds' [He Heq] _ IH]; intros ds'' Ha Hf.
  { by inversion Hf. }
  inversion Hf as [|? y ? ? [Hy Hyeq] Hf']; subst. apply Forall_cons in Ha as [Hd Ha].
  constructor; [|by apply IH]. split; [lia|]. rw {1}Hyeq {1}Heq. apply mset_mset.
Qed.

Lemma share_ok cap n : forall total ds,
  length ds = n -> 0 <= cap -> Forall (fun d => 1 <= value d) ds ->
  sumZ value ds <= total < 2 ^ 128 ->
  exists ds', share m n cap total ds = Some ds' /\ Forall2 (redistributed cap) ds ds' /\
    sumZ value ds' <= sumZ value ds.
Proof.
  induction n as [|n IH]; intros total [|d rest] Hn Hcap Hv Ht; try done.
  { exists []. by split_and!. }
  injection Hn as Hn. apply Forall_cons in Hv as [Hd Hv]. rw sumZ_cons in Ht.
  assert (Forall (fun d => 0 <= value d) rest) as Hv0
    by (eapply Forall_impl; [exact Hv|cbn; lia]).
  pose proof (sumZ_nonneg _ _ Hv0) as Hpos. cbn [share].
  destruct (Z.ltb_spec cap (value d)) as [Hover|Hunder].
  - rw (amt_sub_small total) ?(amt_sub_small (value d)); [|lia..].
    set (total1 := total - value d). set (rem := value d - cap).
    assert (rest <> [] -> 0 < total1) as Htot.
    { intros Hne. destruct rest as [|d1 rest]; [done|].
      apply Forall_cons in Hv as [? ?], Hv0 as [_ Hv0]. rw sumZ_cons in Ht.
      pose proof (sumZ_nonneg _ _ Hv0). lia. }
    destruct ((total1 =? 0) && negb (bool_decide (rest = []))) eqn:Hz.
    { apply andb_true_iff in Hz as [Hz%Z.eqb_eq Hr%negb_true_iff%bool_decide_eq_false].
      specialize (Htot Hr). lia. }
    destruct (decide (rest = [])) as [->|Hne].
    { exists [mset m cap d]. destruct n; [|done]. split_and!; [done| |].
      - constructor; [|constructor]. rw /redistributed mget_mset. split; [lia|done].
      - rw !sumZ_cons mget_mset. lia. }
    specialize (Htot Hne).
    destruct (to_add_sum rem total1 rest) as [Ha Hsum]; [lia|done|done|lia|].
    rw (foldl_amt_add (to_add m rem total1)) //; [|lia]. rw Z.add_0_l amt_add_small; [|lia].
    pose proof (give_values rem total1 rest Hv Ha ltac:(lia)) as Hg.
    pose proof (give_sum _ _ _ Hg) as Hgs.
    destruct (IH (total1 + sumZ (to_add m rem total1) rest) (give m rem total1 <$> rest))
      as (rest' & Hr & Hf & Hs); [by rw length_fmap|done| |lia|].
    { apply Forall_fmap, Forall_forall. intros x Hx. cbn.
      apply list_elem_of_lookup in Hx as [i Hi]. eapply Forall2_lookup_l in Hg as (x' & Hx' & He & _);
        [|exact Hi]. rw list_lookup_fmap Hi in Hx'. injection Hx' as <-. rw He.
      eapply Forall_lookup in Hv, Ha; [|exact Hi..]. lia. }
    rw Hr. eexists. split; [done|]. split; [|rw !sumZ_cons mget_mset; lia].
    constructor; [rw /redistributed mget_mset; split; [lia|done]|].
    by apply (redistributed_give _ rem total1 rest (give m rem total1 <$> rest)).
  - destruct (IH total rest) as (rest' & Hr & Hf & Hs); try done; [lia|].
    rw Hr. eexists. split; [done|]. split; [|rw !sumZ_cons; lia].
    constructor; [|done]. split; [lia|by rw mset_mget].
Qed.
End RedistributionLaws.

Section RedistributeOk.
Context (m : member) {ML : MemberLaws m}.

Lemma at_least_one_pos d : 0 <= mget m d -> 1 <= mget m (at_least_one m d).
Proof. rw /at_least_one. destruct (Z.eqb_spec (mget m d) 0); rw ?mget_mset; lia. Qed.

Lemma Redistribute_ok ds :
  Forall (fun d => 0 <= mget m d) ds ->
  let total := sumZ (mget m) (at_least_one m <$> ds) in
  total < 2 ^ 128 ->
  exists ds', Redistribute m ds = Some ds' /\
    Forall2 (redistributed m (total / 8)) (at_least_one m <$> ds) ds' /\
    sumZ (mget m) ds' <= total.
Proof.
  intros Hp total Ht. rw /Redistribute /total_votes.
  assert (Forall (fun d => 1 <= mget m d) (at_least_one m <$> ds)) as H1.
  { apply Forall_fmap. eapply Forall_impl; [exact Hp|]. apply at_least_one_pos. }
  assert (Forall (fun d => 0 <= mget m d) (at_least_one m <$> ds)) as H0
    by (eapply Forall_impl; [exact H1|cbn; lia]).
  pose proof (sumZ_nonneg _ _ H0). rw foldl_amt_add //. rw Z.add_0_l.
  apply (share_ok m _ _ total); [done|by apply Z.div_pos|done|lia].
Qed.
End RedistributeOk.

(** Redistribute returns whenever the sum of the votes (stakes), each
    counted as one at least, fits in 128 bits: afterwards no delegate has more
    than an eighth of the sum, a delegate that was within the cap has lost
    nothing, the sum has not grown and nothing else has changed. *)
Lemma Redistribute_caps m `{!MemberLaws m} ds :
  Forall (fun d => 0 <= mget m d) ds ->
  sumZ (mget m) (at_least_one m <$> ds) < 2 ^ 128 ->
  exists ds', Redistribute m ds = Some ds' /\
    Forall2 (fun d d' =>
        Z.min (mget m d) (sumZ (mget m) (at_least_one m <$> ds) / 8) <= mget m d'
        <= sumZ (mget m) (at_least_one m <$> ds) / 8 /\
        d' = mset m (mget m d') d) (at_least_one m <$> ds) ds' /\
    sumZ (mget m) ds' <= sumZ (mget m) (at_least_one m <$> ds).
Proof. by apply Redistribute_ok. Qed.

(** Delegates with the given stakes. *)
Definition with_stakes (stakes : list Amount) : list Delegate :=
  imap (fun i a => new_delegate (Z.of_nat i) [] [] 1 a false) stakes.
Lemma Redistribute_caps_witness :
  exists ds', Redistribute stake_member (with_stakes (1000 :: replicate 31 10)) = Some ds' /\
    sumZ d_stake ds' <= 1310.
Proof.
  destruct (Redistribute_caps stake_member (with_stakes (1000 :: replicate 31 10)))
    as (ds' & Hr & _ & Hs); [by repeat constructor|done|].
  exists ds'. split; [exact Hr|exact Hs].
Defined.

(** The product in Redistribute is of 128 bits. With a delegate that holds a
    quarter of the maximal supply and 31 that hold the minimum for a delegate,
    it overflows and, where a rounding loss below 32 is expected, more than two
    thirds of the stake are lost. *)
Lemma Redistribute_loses_stake :
  let ds := with_stakes (2 ^ 126 :: replicate 31 MIN_DELEGATE_STAKE) in
  option_map (fun ds' => (3 * sumZ d_stake ds' <? sumZ d_stake ds)
                         && (sumZ d_stake ds <? 2 ^ 128)) (Redistribute stake_member ds)
  = Some true.
Proof. intros ds. by_run. Qed.

(** ** Replacing the delegates whose term ends *)
Section Seats.
Context {L : Lmdb} {LL : LmdbLaws L} {B : Blake2b}.

(** The delegates that stay, their term no longer starting. *)
Definition staying (retiring : list AccountAddress) (ds : list Delegate) : list Delegate :=
  set_starting_term false <$> filter (fun d => d_account d ∉ retiring) ds.
Definition leaving (retiring : list AccountAddress) (ds : list Delegate) : list Delegate :=
  filter (fun d => d_account d ∈ retiring) ds.

Lemma replace_retiring_ok force retiring ds : forall elects,
  length elects = length (leaving retiring ds) ->
  exists ds', replace_retiring false force retiring elects ds = Some (ds', []) /\
    ds' ≡ₚ staying retiring ds ++ elects.
Proof.
  rw /staying /leaving. induction ds as [|d ds IH]; intros elects Hl.
  { destruct elects; [|done]. by exists []. }
  cbn [replace_retiring]. rw !filter_cons in Hl |- *.
  destruct (decide (d_account d ∈ retiring)) as [Hin|Hout].
  - rw (decide_False (P := d_account d ∉ retiring)); [|naive_solver].
    destruct elects as [|e elects]; [done|]. injection Hl as Hl.
    destruct (IH elects Hl) as (ds' & Hr & Hp). rw Hr. eexists. split; [done|].
    cbn. rw Hp. by rw Permutation_middle.
  - rw (decide_True (P := d_account d ∉ retiring)) //.
    destruct (IH elects Hl) as (ds' & Hr & Hp). rw Hr. eexists. split; [done|].
    cbn. by rw Hp.
Qed.

Lemma sort_delegates_perm ds : sort_delegates ds ≡ₚ ds.
Proof. apply merge_sort_Permutation. Qed.

Lemma redistributed_map {A} (m : member) (f : Delegate -> A) cap ds ds' :
  (forall v d, f (mset m v d) = f d) ->
  Forall2 (redistributed m cap) (at_least_one m <$> ds) ds' -> f <$> ds' = f <$> ds.
Proof.
  intros Hf H2. assert (f <$> (at_least_one m <$> ds) = f <$> ds) as <-.
  { rw -list_fmap_compose. apply list_fmap_ext. intros _ d _. rw /= /at_least_one.
    by case_match. }
  induction H2 as [|d d' xs xs' [_ Heq] _ IH]; [done|]. cbn. f_equal; [|done].
  by rw Heq Hf.
Qed.

(** The sum of a member over a set, each counted as one at least. *)
Definition weight (m : member) (ds : list Delegate) : Z :=
  sumZ (mget m) (at_least_one m <$> ds).
Definition amounts_ok (ds : list Delegate) : Prop :=
  Forall (fun d => 0 <= d_vote d /\ 0 <= d_stake d) ds /\
  weight vote_member ds < 2 ^ 128 /\ weight stake_member ds < 2 ^ 128.

#[global] Instance weight_proper m : Proper ((≡ₚ) ==> (=)) (weight m).
Proof. intros xs ys Hp. rw /weight. by rw Hp. Qed.
#[global] Instance amounts_ok_proper : Proper ((≡ₚ) ==> iff) amounts_ok.
Proof. intros xs ys Hp. rw /amounts_ok. by rw Hp. Qed.

Lemma redistribute_both ds :
  amounts_ok ds ->
  exists ds1 ds2, Redistribute vote_member ds = Some ds1 /\
    Redistribute stake_member ds1 = Some ds2 /\
    (forall A (f : Delegate -> A), (forall v d, f (set_d_vote v d) = f d) ->
       (forall v d, f (set_d_stake v d) = f d) -> f <$> ds2 = f <$> ds).
Proof.
  intros (Hp & Hv & Hs).
  destruct (Redistribute_ok vote_member ds) as (ds1 & Hr1 & H1 & _);
    [eapply Forall_impl; [exact Hp|naive_solver]|done|].
  assert (d_stake <$> ds1 = d_stake <$> ds) as Hst
    by (eapply (redistributed_map vote_member); [|exact H1]; done).
  assert (sumZ d_stake (at_least_one stake_member <$> ds1)
          = sumZ d_stake (at_least_one stake_member <$> ds)) as Hsum.
  { assert (forall xs, sumZ d_stake (at_least_one stake_member <$> xs)
              = sumZ (fun z => if z =? 0 then 1 else z) (d_stake <$> xs)) as Hx.
    { induction xs as [|x xs IH]; [done|]. cbn [fmap list_fmap]. rw !sumZ_cons IH. f_equal.
      rw /at_least_one /=. by case_match. }
    by rw !Hx Hst. }
  destruct (Redistribute_ok stake_member ds1) as (ds2 & Hr2 & H2 & _).
  { assert (Forall (fun z => 0 <= z) (d_stake <$> ds1)) as Hz.
    { rw Hst. apply Forall_fmap. eapply Forall_impl; [exact Hp|naive_solver]. }
    exact (proj1 (Forall_fmap d_stake _ _) Hz). }
  { cbn. by rw Hsum. }
  exists ds1, ds2. split_and!; try done. intros A f Hf Hf'.
  rw (redistributed_map stake_member f _ _ _ Hf' H2). by apply (redistributed_map vote_member f _ _ _ Hf H1).
Qed.

Lemma seat_ok force retiring elects ds :
  length elects = length (leaving retiring ds) -> amounts_ok (staying retiring ds ++ elects) ->
  exists ds', seat false force retiring elects ds = Some ds' /\
    (fun d => (d_account d, starting_term d)) <$> ds'
    ≡ₚ (fun d => (d_account d, starting_term d)) <$> (staying retiring ds ++ elects).
Proof.
  intros Hl Ha. destruct (replace_retiring_ok force retiring ds elects Hl) as (ds1 & Hr & Hp).
  rw /seat Hr. cbn [mbind option_bind orb snd fst]. rw bool_decide_true //.
  destruct (redistribute_both (sort_delegates ds1)) as (ds2 & ds3 & Hv & Hs & Hf).
  { by rw sort_delegates_perm Hp. }
  rw Hv. cbn [mbind option_bind]. exists ds3. split; [done|].
  rw (Hf _ (fun d => (d_account d, starting_term d))) //. by rw sort_delegates_perm Hp.
Qed.
End Seats.

(** ** The next epoch *)
Section NextEpoch.
Context {L : Lmdb} {LL : LmdbLaws L} {B : Blake2b}.

(** [prev] is the epoch block at the tip of the chain. *)
Definition tip_block (s : Store) (prev : ApprovedEB) : Prop :=
  exists tip, mdb_get 0 (epoch_tip_db (elections s)) = Some tip /\
    mdb_get (digest tip) (epoch_db (elections s)) = Some prev.

Lemma epoch_get_n_tip s prev b s' :
  tip_block s prev -> epoch_get_n 0 any_epoch s = Ok (b, s') -> b = prev /\ s' = s.
Proof.
  intros (tip & Ht & Hp).
  rw /epoch_get_n /epoch_tip_get /get_elections /gets /mbind /M_bind Ht. cbn [epoch_walk].
  rw /mbind /M_bind /epoch_get /get_elections /gets /massert.
  destruct (negb (digest tip =? 0)); [|done]. cbn. rw Hp. by intros [= -> ->].
Qed.

(** The delegates to retire, and that eight of them are in office. *)
Lemma GetRetiringDelegates_found next s prev r s' :
  START_ELECTIONS_EPOCH < next -> tip_block s prev ->
  GetRetiringDelegates next s = Ok (r, s') ->
  s' = s /\ length (filter (fun d => d ∈ r) (eb_delegates prev)) = 8%nat.
Proof.
  intros Hn Hp. rw /GetRetiringDelegates bind_ok => -[[r' v] [s1 [H1 H2]]].
  assert (s1 = s /\ v = true) as [-> ->].
  { rw (proj2 (Z.ltb_lt _ _) Hn) in H1.
    destruct (ShouldForceRetire next); apply bind_ok in H1 as (x & s2 & Hx & [= _ <- <-]);
      (split; [symmetry|done]); refine (preserves_ok eq _ _ _ _ _ Hx);
      rw ?/GetDelegatesToForceRetire; solve_frame. }
  cbn [snd fst] in H2. apply bind_ok in H2 as (u & s2 & H2 & [= <- <-]).
  apply bind_ok in H2 as (b & s3 & Hb & H2).
  destruct (epoch_get_n_tip _ _ _ _ Hp Hb) as [-> ->]. move: H2. rw /massert.
  destruct (Nat.eqb_spec (length (filter (fun d => d ∈ r') (eb_delegates prev))) 8); [|done].
  by intros [= _ <-].
Qed.

Lemma leaving_eight (r prev : list Delegate) :
  NoDup (d_account <$> prev) -> length (filter (fun d => d ∈ r) prev) = 8%nat ->
  length (remove_dups (d_account <$> r)) = 8%nat ->
  length (leaving (remove_dups (d_account <$> r)) prev) = 8%nat.
Proof.
  intros Hnd Hf Hr. pose proof (NoDup_fmap_1 _ _ Hnd) as Hnd'.
  set (accs := remove_dups (d_account <$> r)) in *.
  assert (length (leaving accs prev) <= length accs)%nat.
  { rw -(length_fmap d_account). apply submseteq_length, NoDup_submseteq.
    - by apply NoDup_fmap_filter.
    - intros a (d & -> & Hd)%list_elem_of_fmap. by apply list_elem_of_filter in Hd as [? _]. }
  assert (length (filter (fun d => d ∈ r) prev) <= length (leaving accs prev))%nat.
  { apply submseteq_length, NoDup_submseteq; [by apply NoDup_filter|].
    intros d [Hd Hin]%list_elem_of_filter. apply list_elem_of_filter. split; [|done].
    by apply elem_of_remove_dups, list_elem_of_fmap_2. }
  lia.
Qed.
End NextEpoch.

(** C31 When the election has eight winners and eight delegates retire, the next
    epoch's delegates are computed: exactly the current ones that do not
    retire, and the winners, who start their term. *)
Theorem next_epoch_seats_the_winners {L : Lmdb} {LL : LmdbLaws L} {B : Blake2b}
    next s prev retiring :
  START_ELECTIONS_EPOCH < next -> tip_block s prev ->
  NoDup (d_account <$> eb_delegates prev) ->
  GetRetiringDelegates next s = Ok (retiring, s) ->
  length (remove_dups (d_account <$> retiring)) = 8%nat ->
  let winners := mdb_items (leading_candidates_db (elections s)) in
  let accounts := remove_dups (d_account <$> retiring) in
  length winners = 8%nat ->
  amounts_ok (staying accounts (eb_delegates prev) ++ (delegate_elect <$> winners)) ->
  exists ds, GetNextEpochDelegates true true next s = Ok ((ds, true), s) /\
    (fun d => (d_account d, starting_term d)) <$> ds ≡ₚ
    ((fun d => (d_account d, false)) <$>
       filter (fun d => d_account d ∉ accounts) (eb_delegates prev))
    ++ ((fun w => (w.1, true)) <$> winners).
Proof.
  intros Hn Hp Hnd Hr H8 winners accounts Hw Ha.
  destruct (GetRetiringDelegates_found next s prev retiring s Hn Hp Hr) as [_ Hf].
  destruct (seat_ok (ShouldForceRetire next) accounts (delegate_elect <$> winners)
              (eb_delegates prev)) as (ds & Hseat & Hds); [|done|].
  { rw length_fmap Hw. symmetry. by apply leaving_eight. }
  exists ds. split.
  - destruct Hp as (tip & Ht & Hb). rw /GetNextEpochDelegates (proj2 (Z.ltb_lt _ _) Hn).
    cbn [andb negb orb]. rw /mbind /M_bind /epoch_tip_get /get_elections /gets Ht.
    rw /epoch_get /get_elections /gets Hb Hr /GetDelegateElects (proj2 (Z.ltb_lt _ _) Hn).
    rw /GetElectionWinners /get_elections /gets /mbind /M_bind /mret /M_ret. fold winners.
    rw !length_fmap Hw H8. change (Z.of_nat 8 =? num_leading) with true.
    cbn [negb orb massert]. fold accounts. by rw Hseat.
  - rw Hds. rw fmap_app -!list_fmap_compose. done.
Qed.

(** ** Concrete runs *)
Section Runs.
#[local] Instance L : Lmdb := gmap_lmdb.
#[local] Instance LL : LmdbLaws L := gmap_lmdb_laws.
#[local] Instance B : Blake2b := encode_blake2b.

(** Delegates 1 to 32, all with 1000 votes and stake. *)
Definition genesis_set : list Delegate :=
  (fun i => new_delegate (Z.of_nat i) [] [] 1000 1000 false) <$> seq 1 32.
Definition block_of (previous : BlockHash) (epoch : Z) (ds : list Delegate) : ApprovedEB :=
  Build_ApprovedEB previous epoch (Build_Tip 0 0 0) 0 0 ds 0 false 0.
Definition genesis_eb : ApprovedEB := block_of 0 49 genesis_set.
(** Candidates 101 to 108 lead; the first has most of the votes. *)
Definition elected : table CandidateInfo :=
  foldr (fun i t => mdb_put (100 + Z.of_nat i)
           (candidate (if (i =? 1)%nat then 100000 else 5000) 2000) t) mdb_empty (seq 1 8).
Definition store51 : Store :=
  set_elections (set_leading_candidates_db elected (set_epoch_db (mdb_put 900 genesis_eb mdb_empty)
    (set_epoch_tip_db (mdb_put 0 (Build_Tip 49 49 900) mdb_empty) no_elections))) empty_store.

Lemma next_epoch_seats_the_winners_witness :
  exists ds, GetNextEpochDelegates true true 51 store51 = Ok ((ds, true), store51) /\
    (fun d => (d_account d, starting_term d)) <$> ds ≡ₚ
    ((fun d => (d_account d, false)) <$>
       filter (fun d => d_account d ∉ remove_dups (d_account <$> take 8 genesis_set)) genesis_set)
    ++ ((fun w => (w.1, true)) <$> mdb_items elected).
Proof.
  apply (next_epoch_seats_the_winners 51 store51 genesis_eb (take 8 genesis_set)).
  - done.
  - exists (Build_Tip 49 49 900). by split.
  - apply (bool_decide_unpack _). by vm_compute.
  - by_run.
  - by_run.
  - by_run.
  - rw /amounts_ok. apply (bool_decide_unpack _). by vm_compute.
Defined.

(** The epoch block that follows, with the delegates just computed. *)
Definition next_set : list Delegate :=
  match value_of (GetNextEpochDelegates true true 51) store51 with
  | Some (ds, _) => ds | None => [] end.
Definition store52 : Store :=
  set_elections (set_epoch_db (mdb_put 901 (block_of 900 50 next_set) (epoch_db (elections store51)))
    (set_epoch_tip_db (mdb_put 0 (Build_Tip 50 50 901) mdb_empty) (elections store51))) empty_store.

(** The delegates to retire are looked up among those in office with their
    votes. Redistribution changes the votes from epoch to epoch: as soon as it
    has raised those of a retiring delegate, here in the second election, the
    eight are not found and the node halts. *)
Lemma retiring_check_fails :
  GetRetiringDelegates 52 store52 = Halt "EpochVotingManager::GetRetiringDelegates".
Proof. by_run. Qed.
End Runs.
