(* ===== verification/EpochRewards.v ===== *)
(** * Rewards of an epoch (src/logos/rewards/epoch_rewards_manager.cpp)

    A representative that votes registers its stake for the rewards of the
    epoch; the fees of the epoch are pooled for the delegates. Functions that
    return [true] on an LMDB error return nothing here. *)
From stdpp Require Import base list numbers strings ssreflect.
From Stdlib Require Import QArith.QArith_base QArith.Qreduction QArith.Qring.
From S2P Require Import Prelude Serial Lmdb StakingTypes Requests Epochs BlockStore.
Open Scope Z_scope.

Module EpochRewardsManager.
Section Operations.
Context {L : Lmdb}.

(** The account, then the bytes of the epoch number. *)
Definition MakeKey (account : AccountAddress) (epoch : Z) : Z :=
  be_val (write_u256 account ++ write_u32 epoch).
(** [mdb_val(epoch_number)]: the bytes of the number. *)
Definition epoch_key (epoch_number : Z) : Z := be_val (write_u32 epoch_number).

Definition GetGlobalRewardsInfo (epoch_number : Z) : M Store GlobalRewardsInfo :=
  i ← global_rewards_get (epoch_key epoch_number);
  mret (default GlobalRewardsInfo_default i).
Definition AddGlobalStake (info : RepEpochInfo) : M Store unit :=
  g ← GetGlobalRewardsInfo (re_epoch_number info);
  global_rewards_put (epoch_key (re_epoch_number info))
    (Build_GlobalRewardsInfo (amt_add (gl_total_stake g) (re_total_stake info))
       (gl_remaining_reward g) (gl_total_reward g)).
Definition Init (rep_address : AccountAddress) (info : RepEpochInfo) : M Store unit :=
  rewards_put (MakeKey rep_address (re_epoch_number info))
    (Build_RewardsInfo false (re_levy_percentage info) (re_total_stake info)
       (re_self_stake info) (0 # 1) (0 # 1));;
  AddGlobalStake info.

Definition OnFeeCollected (epoch_number : Z) (value : Amount) : M Store unit :=
  f ← fee_pool_get (epoch_key epoch_number);
  fee_pool_put (epoch_key epoch_number) (amt_add (default 0 f) value).
Definition GetFeePool (epoch_number : Z) : M Store (option Amount) :=
  fee_pool_get (epoch_key epoch_number).
Definition RemoveFeePool (epoch_number : Z) : M Store bool :=
  fee_pool_remove (epoch_key epoch_number).

Definition SetGlobalReward (epoch_number : Z) (total_reward : Amount) : M Store unit :=
  g ← GetGlobalRewardsInfo epoch_number;
  global_rewards_put (epoch_key epoch_number)
    (Build_GlobalRewardsInfo (gl_total_stake g) (inject_Z total_reward) total_reward).

Definition GetRewardsInfo (rep_address : AccountAddress) (epoch_number : Z)
  : M Store RewardsInfo :=
  i ← rewards_get (MakeKey rep_address epoch_number);
  match i with
  | None => halt "EpochRewardsManager::GetRewardsInfo"
  | Some info => mret info
  end.
Definition RewardsAvailable (rep_address : AccountAddress) (epoch_number : Z) : M Store bool :=
  rewards_exist (MakeKey rep_address epoch_number).
Definition GlobalRewardsAvailable (epoch_number : Z) : M Store bool :=
  global_rewards_exist (epoch_key epoch_number).

(** Comparing and subtracting rationals, kept in lowest terms. *)
Definition rational_gt (a b : Q) : bool := negb (Qle_bool a b).
Definition rational_sub (a b : Q) : Q := Qred (a - b).

(** Returns the error and the updated record. *)
Definition HarvestReward (rep_address : AccountAddress) (epoch_number : Z) (harvest_amount : Q)
    (info : RewardsInfo) : M Store (bool * RewardsInfo) :=
  if rational_gt harvest_amount (rw_remaining_reward info) then mret (true, info)
  else
    let info := Build_RewardsInfo (rw_initialized info) (rw_levy_percentage info)
                  (rw_total_stake info) (rw_self_stake info)
                  (rational_sub (rw_remaining_reward info) harvest_amount)
                  (rw_total_reward info) in
    (if rational_gt (rw_remaining_reward info) (0 # 1) then
       rewards_put (MakeKey rep_address epoch_number) info
     else rewards_remove (MakeKey rep_address epoch_number);; mret tt);;
    mret (false, info).
Definition HarvestGlobalReward (epoch_number : Z) (harvest_amount : Q)
    (global_info : GlobalRewardsInfo) : M Store unit :=
  if rational_gt harvest_amount (gl_remaining_reward global_info) then
    halt "EpochRewardsManager::HarvestGlobalReward"
  else
    let global_info := Build_GlobalRewardsInfo (gl_total_stake global_info)
                         (rational_sub (gl_remaining_reward global_info) harvest_amount)
                         (gl_total_reward global_info) in
    if rational_gt (gl_remaining_reward global_info) (0 # 1) then
      global_rewards_put (epoch_key epoch_number) global_info
    else global_rewards_remove (epoch_key epoch_number);; mret tt.
End Operations.
End EpochRewardsManager.
Import EpochRewardsManager.

(** ** The keys of the tables *)
Lemma le_val_inj xs : forall ys,
  Forall byte_ok xs -> Forall byte_ok ys -> length xs = length ys -> le_val xs = le_val ys ->
  xs = ys.
Proof.
  induction xs as [|x xs IH]; intros [|y ys]; cbn [length le_val]; try done.
  rw !Forall_cons /byte_ok. intros [Hx Hxs] [Hy Hys] [= Hl] Hv. assert (x = y) as -> by lia.
  f_equal. apply IH; try done. lia.
Qed.
Lemma be_val_inj xs ys :
  Forall byte_ok xs -> Forall byte_ok ys -> length xs = length ys -> be_val xs = be_val ys ->
  xs = ys.
Proof.
  intros Hx Hy Hl Hv. apply (inj reverse), le_val_inj; rw ?Forall_reverse ?length_reverse //.
Qed.
Lemma MakeKey_inj a e a' e' :
  in_width 256 a -> in_width 256 a' -> in_width 32 e -> in_width 32 e' ->
  MakeKey a e = MakeKey a' e' -> a = a' /\ e = e'.
Proof.
  intros Ha Ha' He He' Hk. apply be_val_inj in Hk.
  - apply app_inj_length in Hk as [Hk%write_u256_inj Hk'%write_u32_inj]; rw ?length_be_bytes //.
  - apply Forall_app. split; [apply Forall_reverse|]; apply le_bytes_ok.
  - apply Forall_app. split; [apply Forall_reverse|]; apply le_bytes_ok.
  - by rw !length_app !length_be_bytes !length_le_bytes.
Qed.
Lemma epoch_key_inj e e' :
  in_width 32 e -> in_width 32 e' -> epoch_key e = epoch_key e' -> e = e'.
Proof.
  intros He He' Hk. apply be_val_inj in Hk; [|apply le_bytes_ok|apply le_bytes_ok|].
  - by apply write_u32_inj in Hk.
  - by rw !length_le_bytes.
Qed.

(** ** Registering stakes *)
Section Registering.
Context {L : Lmdb} {LL : LmdbLaws L}.

Fixpoint Init_all (xs : list (AccountAddress * RepEpochInfo)) : M Store unit :=
  match xs with
  | [] => mret tt
  | x :: xs => Init x.1 x.2;; Init_all xs
  end.
Definition global_stake (e : Z) (s : Store) : Amount :=
  gl_total_stake (default GlobalRewardsInfo_default
                    (mdb_get (epoch_key e) (global_rewards_db (elections s)))).
Definition stakes_of (e : Z) (xs : list (AccountAddress * RepEpochInfo)) : Z :=
  sumZ (fun x => re_total_stake x.2) (filter (fun x => re_epoch_number x.2 = e) xs).
Definition entry_key (x : AccountAddress * RepEpochInfo) : Z * Z := (x.1, re_epoch_number x.2).
Definition registration_wf (x : AccountAddress * RepEpochInfo) : Prop :=
  in_width 256 x.1 /\ in_width 32 (re_epoch_number x.2) /\ 0 <= re_total_stake x.2.
(** The record a registration leaves. *)
Definition initial_reward (i : RepEpochInfo) : RewardsInfo :=
  Build_RewardsInfo false (re_levy_percentage i) (re_total_stake i) (re_self_stake i)
    (0 # 1) (0 # 1).
Definition reward_at (x : AccountAddress * RepEpochInfo) (s : Store) : option RewardsInfo :=
  mdb_get (MakeKey x.1 (re_epoch_number x.2)) (rewards_db (elections s)).

Lemma stakes_of_nonneg e xs : Forall registration_wf xs -> 0 <= stakes_of e xs.
Proof.
  intros Hx. apply sumZ_nonneg, Forall_forall. intros x [_ Hin]%list_elem_of_filter.
  by apply (proj1 (Forall_forall _ _) Hx) in Hin as (_ & _ & ?).
Qed.
Lemma stakes_of_cons e x xs :
  stakes_of e (x :: xs) =
  (if decide (re_epoch_number x.2 = e) then re_total_stake x.2 else 0) + stakes_of e xs.
Proof. rw /stakes_of filter_cons. by case_decide; rw ?sumZ_cons. Qed.

Lemma Init_one x s :
  wp (Init x.1 x.2) (fun _ s' =>
    (forall k, mdb_get k (rewards_db (elections s')) =
       if decide (MakeKey x.1 (re_epoch_number x.2) = k) then Some (initial_reward x.2)
       else mdb_get k (rewards_db (elections s))) /\
    (forall e, in_width 32 e -> in_width 32 (re_epoch_number x.2) ->
       global_stake e s' = if decide (re_epoch_number x.2 = e)
                           then amt_add (global_stake e s) (re_total_stake x.2)
                           else global_stake e s)) s.
Proof.
  apply wpg_bind, wpg_modify, wpg_bind, wpg_bind, wpg_gets, wpg_ret, wpg_modify.
  split; [intros k; cbn; by rw get_put|].
  intros e He Hx. rw /global_stake /= get_put. case_decide as Hk.
  - apply epoch_key_inj in Hk; [|done..]. rw decide_True //=. by rw Hk.
  - rw decide_False //. congruence.
Qed.

(** Registrations with different keys. *)
Lemma Init_all_ok xs : forall s,
  Forall registration_wf xs -> NoDup (entry_key <$> xs) ->
  (forall e, in_width 32 e -> 0 <= global_stake e s /\ global_stake e s + stakes_of e xs < 2 ^ 128) ->
  wp (Init_all xs) (fun _ s' =>
    (forall e, in_width 32 e -> global_stake e s' = global_stake e s + stakes_of e xs) /\
    (forall x, x ∈ xs -> reward_at x s' = Some (initial_reward x.2)) /\
    (forall y, registration_wf y -> entry_key y ∉ entry_key <$> xs -> reward_at y s' = reward_at y s)) s.
Proof.
  induction xs as [|x xs IH]; intros s Hwf Hnd Hsum; cbn [Init_all].
  { apply wpg_ret. split_and!; [|set_solver|done]. intros e _. rw /stakes_of /=. lia. }
  apply Forall_cons in Hwf as [Hx Hxs]. rw fmap_cons NoDup_cons in Hnd.
  destruct Hnd as [Hnew Hnd]. pose proof Hx as (Ha & He & Ht).
  apply wpg_bind. eapply wpg_mono; [apply Init_one|]. intros _ s1 [Hrw Hgl].
  assert (forall e, in_width 32 e -> global_stake e s1 + stakes_of e xs =
            global_stake e s + stakes_of e (x :: xs) /\ 0 <= global_stake e s1) as Hone.
  { intros e Hw. rw (Hgl e Hw He) stakes_of_cons. destruct (Hsum e Hw) as [Hg Hs].
    rw stakes_of_cons in Hs. pose proof (stakes_of_nonneg e xs Hxs).
    case_decide; [rw amt_add_small; lia|lia]. }
  eapply wpg_mono.
  { apply IH; [done|done|]. intros e Hw. destruct (Hone e Hw), (Hsum e Hw). lia. }
  intros _ s2 (Hg2 & Hin & Hout). split_and!.
  - intros e Hw. rw Hg2 //. by apply Hone.
  - intros y [->|Hy]%elem_of_cons; [|by apply Hin]. rw Hout //. by rw /reward_at Hrw decide_True.
  - intros y Hy. rw fmap_cons not_elem_of_cons. intros [Hne Hnin]. rw Hout // /reward_at Hrw.
    case_decide as Hk; [|done]. destruct Hy as (? & ? & _).
    apply MakeKey_inj in Hk as [H1 H2]; [|done..]. destruct Hne. by rw /entry_key H1 H2.
Qed.
End Registering.

(** The global stake of an epoch is the sum of the stakes registered for it:
    after any registrations of different representatives and epochs whose
    stakes fit in 128 bits, every representative has its record and the total
    of each epoch has grown by exactly the stakes registered for it. *)
Lemma global_stake_is_the_sum {L : Lmdb} {LL : LmdbLaws L} xs (s : Store) :
  Forall registration_wf xs -> NoDup (entry_key <$> xs) ->
  (forall e, in_width 32 e -> 0 <= global_stake e s /\ global_stake e s + stakes_of e xs < 2 ^ 128) ->
  wp (Init_all xs) (fun _ s' =>
    (forall e, in_width 32 e -> global_stake e s' = global_stake e s + stakes_of e xs) /\
    (forall x, x ∈ xs -> reward_at x s' = Some (initial_reward x.2))) s.
Proof.
  intros Hwf Hnd Hsum. eapply wpg_mono; [by apply Init_all_ok|]. by intros _ s' (? & ? & _).
Qed.

(** ** Harvesting *)
Lemma rational_gt_spec a b : rational_gt a b = true <-> (b < a)%Q.
Proof.
  rw /rational_gt. destruct (Qle_bool a b) eqn:Hle; cbn.
  - split; [done|]. intros Hlt. apply Qle_bool_iff in Hle. by apply Qlt_not_le in Hlt.
  - split; [|done]. intros _. apply Qnot_le_lt. intros Hn%Qle_bool_iff. congruence.
Qed.
Lemma rational_gt_false a b : rational_gt a b = false <-> (a <= b)%Q.
Proof.
  rw /rational_gt negb_false_iff. apply Qle_bool_iff.
Qed.

Section Harvesting.
Context {L : Lmdb} {LL : LmdbLaws L}.
Variables (rep_address : AccountAddress) (epoch : Z).

(** The record is kept while something remains of the reward. *)
Definition kept (info : RewardsInfo) (s : Store) : Prop :=
  (0 <= rw_remaining_reward info)%Q /\
  mdb_get (MakeKey rep_address epoch) (rewards_db (elections s)) =
    if rational_gt (rw_remaining_reward info) (0 # 1) then Some info else None.

(** Harvests in sequence: what has been paid, the errors, the record. *)
Fixpoint harvests (qs : list Q) (info : RewardsInfo) : M Store (Q * list bool * RewardsInfo) :=
  match qs with
  | [] => mret (0 # 1, [], info)
  | q :: qs =>
      r ← HarvestReward rep_address epoch q info;
      t ← harvests qs r.2;
      let '(paid, errors, info) := t in
      mret (if (r.1 : bool) then paid else (q + paid)%Q, r.1 :: errors, info)
  end.

Lemma HarvestReward_ok q info s :
  (0 <= q)%Q -> kept info s ->
  wp (HarvestReward rep_address epoch q info) (fun r s' => kept r.2 s' /\
    r.1 = rational_gt q (rw_remaining_reward info) /\
    ((if r.1 then 0 else q) + rw_remaining_reward r.2 == rw_remaining_reward info)%Q /\
    (r.1 = true -> r.2 = info)) s.
Proof.
  intros Hq [H0 Hg]. rw /HarvestReward.
  destruct (rational_gt q _) eqn:Hgt.
  { apply wpg_ret. split_and!; try done. cbn. ring. }
  apply rational_gt_false in Hgt. set (info' := Build_RewardsInfo _ _ _ _ _ _).
  assert (rw_remaining_reward info' == rw_remaining_reward info - q)%Q as Hr by apply Qred_correct.
  assert (0 <= rw_remaining_reward info')%Q as Hpos.
  { rw Hr. apply (Qplus_le_r _ _ q). ring_simplify. exact Hgt. }
  assert (q + rw_remaining_reward info' == rw_remaining_reward info)%Q as Hsum by (rw Hr; ring).
  apply wpg_bind. destruct (rational_gt (rw_remaining_reward info') _) eqn:Hz.
  - apply wpg_modify, wpg_ret. split_and!; try done. split; [done|]. by rw Hz /= get_put_eq.
  - apply wpg_bind, wpg_bind, wpg_gets, wpg_bind, wpg_modify, wpg_ret, wpg_ret, wpg_ret.
    split_and!; try done. split; [done|]. by rw Hz /= get_del_eq.
Qed.
Lemma harvests_ok qs : forall info s,
  Forall (fun q => 0 <= q)%Q qs -> kept info s ->
  wp (harvests qs info) (fun r s' => kept r.2 s' /\ length r.1.2 = length qs /\
    (r.1.1 + rw_remaining_reward r.2 == rw_remaining_reward info)%Q /\ (0 <= r.1.1)%Q) s.
Proof.
  induction qs as [|q qs IH]; intros info s Hqs Hk; cbn [harvests].
  { apply wpg_ret. split_and!; try done. cbn. ring. }
  apply Forall_cons in Hqs as [Hq Hqs]. apply wpg_bind.
  eapply wpg_mono; [by apply HarvestReward_ok|]. intros [err info1] s1 (Hk1 & _ & Hsum & _).
  apply wpg_bind. eapply wpg_mono; [by apply IH|].
  intros [[paid errs] info2] s2 (Hk2 & Hl & Hsum2 & Hp). cbn [fst snd] in *. apply wpg_ret.
  cbn [fst snd length]. split_and!; [done|by rw Hl| |].
  - rw -Hsum -Hsum2. destruct err; ring.
  - destruct err; [done|]. by apply (Qplus_le_compat 0 _ 0).
Qed.
End Harvesting.

(** Harvests never pay more than the reward: whatever amounts are asked for,
    in whatever order, each is answered; the amounts paid and what remains add
    up to the reward exactly, as rationals, nothing is negative, and the record
    stays in the table exactly while something remains. *)
Lemma harvests_pay_the_reward {L : Lmdb} {LL : LmdbLaws L} rep_address epoch qs info (s : Store) :
  Forall (fun q => 0 <= q)%Q qs -> kept rep_address epoch info s ->
  wp (harvests rep_address epoch qs info) (fun r s' =>
    let '(paid, errors, info') := r in
    (paid + rw_remaining_reward info' == rw_remaining_reward info)%Q /\ (0 <= paid)%Q /\
    length errors = length qs /\ kept rep_address epoch info' s') s.
Proof.
  intros Hq Hk. eapply wpg_mono; [by apply harvests_ok|].
  by intros [[paid errors] info'] s' (? & ? & ? & ?).
Qed.

(** ** Concrete runs *)
Section Concrete.
#[local] Instance L : Lmdb := gmap_lmdb.
#[local] Instance LL : LmdbLaws L := gmap_lmdb_laws.

(** Two representatives register for epoch 50, one for epoch 51 too. *)
Definition registrations : list (AccountAddress * RepEpochInfo) :=
  [(5, Build_RepEpochInfo 10 50 100 40); (6, Build_RepEpochInfo 0 50 250 250);
   (5, Build_RepEpochInfo 10 51 120 60)].
Lemma global_stake_is_the_sum_witness :
  NoDup (entry_key <$> registrations) /\
  global_stake 50 (state_after (Init_all registrations) empty_store) = 350.
Proof.
  assert (NoDup (entry_key <$> registrations)) as Hnd by (by apply (bool_decide_eq_true_1 _)).
  split; [exact Hnd|].
  assert (forall e, stakes_of e registrations < 2 ^ 128) as Hs.
  { intros e. rw /registrations !stakes_of_cons. repeat case_decide; cbn in *; lia || done. }
  assert (Forall registration_wf registrations) as Hwf by (by repeat constructor).
  pose proof (global_stake_is_the_sum registrations empty_store Hwf Hnd
                (fun e _ => conj (Z.le_refl 0) (Hs e))) as Hw.
  rw /state_after /wpg in Hw |- *.
  destruct (Init_all registrations empty_store) as [[u s']|]; [|done]. destruct Hw as [Hg _].
  by rw (Hg 50).
Defined.

(** A reward of 10, a third of it, an amount too large and the rest. *)
Definition reward10 : RewardsInfo := Build_RewardsInfo true 10 100 40 (10 # 1) (10 # 1).
Definition reward_store : Store :=
  state_after (rewards_put (MakeKey 5 50) reward10) empty_store.
Definition some_harvests : list Q := [(10 # 3)%Q; (7 # 1)%Q; (20 # 3)%Q].
Lemma harvests_pay_the_reward_witness :
  kept 5 50 reward10 reward_store /\
  wp (harvests 5 50 some_harvests reward10) (fun r s' =>
    let '(paid, errors, info') := r in
    (paid + rw_remaining_reward info' == 10 # 1)%Q /\ (0 <= paid)%Q /\
    length errors = 3%nat /\ kept 5 50 info' s') reward_store.
Proof.
  assert (kept 5 50 reward10 reward_store) as Hk by (split; [done|by_run]).
  split; [exact Hk|]. apply (harvests_pay_the_reward 5 50 some_harvests reward10 reward_store);
    [by repeat constructor|exact Hk].
Defined.
End Concrete.
