(* ===== verification/Governance.v ===== *)
(** * Governance requests: validation and application

    What src/logos/consensus/persistence/request/request_persistence.cpp does
    with the requests of governance/requests.hpp: ValidateRequest decides, from
    the ledger and the epoch, whether a request may be applied, ApplyRequest
    updates representatives, candidates, stakes and rewards. The static member
    EpochVotingManager::ENABLE_ELECTIONS is an argument. Requests are stored by
    hash; the table of requests is taken restricted to governance requests,
    the only ones the code below looks up. *)
From stdpp Require Import base list numbers strings ssreflect.
From S2P Require Import Prelude Serial Lmdb StakingTypes Requests Epochs BlockStore Liabilities VotingPower AccountInfo Staking Elections EpochRewards.
Import VotingPowerManager BlockStoreElections.
Open Scope Z_scope.

(** enum class process_result (common.hpp) *)
Module ProcessResult.
Inductive t :=
| progress | propagate | no_propagate | bad_signature | old | negative_spend | fork
| unreceivable | gap_previous | gap_source | state_block_disabled
| not_receive_from_send | account_mismatch | opened_burn_account | balance_mismatch
| block_position | invalid_block_type | unknown_source_account | unknown_origin
| buffered | buffering_done | pending | already_reserved | initializing
| insufficient_fee | insufficient_balance | not_delegate | clock_drift
| wrong_sequence_number | invalid_request | invalid_tip | invalid_number_blocks
| revert_immutability | immutable | redundant | insufficient_token_balance
| invalid_token_id | untethered_account | invalid_controller | controller_capacity
| invalid_controller_action | unauthorized_request | prohibitted_request
| not_whitelisted | frozen | insufficient_token_fee | invalid_token_symbol
| invalid_token_name | invalid_token_amount | total_supply_overflow | key_collision
| invalid_fee | invalid_issuer_info | too_many_token_entries | elections_dead_period
| not_a_rep | already_voted | invalid_candidate | not_enough_stake
| never_announced_candidacy | already_renounced_candidacy | already_announced_candidacy
| is_rep | is_candidate | is_delegate | wrong_epoch_number | no_elections
| pending_rep_action | pending_candidacy_action | invalid_governance_subchain
| insufficient_funds_for_stake | invalid_account_type | proxy_to_self
| invalid_epoch_hash.
#[global] Instance t_eq_dec : EqDecision t.
Proof. solve_decision. Defined.
End ProcessResult.

(** The boolean a validation returns, with what it leaves in [result.code]; a
    validation may reject a request and leave the code as it was. *)
Inductive validation :=
| Valid
| Invalid (code : option ProcessResult.t).
#[global] Instance validation_eq_dec : EqDecision validation.
Proof. solve_decision. Defined.

Module RequestPersistence.
Import ProcessResult.

Definition VerifyCandidacyActionType (type : RequestType.t) : bool :=
  match type with
  | RequestType.AnnounceCandidacy | RequestType.RenounceCandidacy
  | RequestType.StopRepresenting => true
  | _ => false
  end.
Definition VerifyRepActionType (type : RequestType.t) : bool :=
  match type with
  | RequestType.AnnounceCandidacy | RequestType.StartRepresenting
  | RequestType.StopRepresenting => true
  | _ => false
  end.
(** Comparisons with [request->type]. *)
Definition is_announce (r : Governance) : bool :=
  bool_decide (gr_type r = RequestType.AnnounceCandidacy).
Definition is_renounce (r : Governance) : bool :=
  bool_decide (gr_type r = RequestType.RenounceCandidacy).
Definition is_start (r : Governance) : bool :=
  bool_decide (gr_type r = RequestType.StartRepresenting).
Definition is_stop (r : Governance) : bool :=
  bool_decide (gr_type r = RequestType.StopRepresenting).

Definition GetEpochNum (req : Governance) : Z := gr_epoch_num req.
(** The default constructor of RepInfo. *)
Definition RepInfo_default : RepInfo := Build_RepInfo 0 0 0 100.

Section Validation.
Context {L : Lmdb} {B : Blake2b}.
Variable ENABLE_ELECTIONS : bool.

Definition reject (code : ProcessResult.t) : M Store validation := mret (Invalid (Some code)).

Definition ValidateGovernanceSubchain (req : Governance) (info : account_info) : bool :=
  governance_subchain_head info =? gr_governance_subchain_prev req.

(** The members set_stake and stake of the requests that have them. *)
Definition stake_fields (b : GovernanceBody) : bool * Amount :=
  match b with
  | AnnounceCandidacy set_stake stake _ _ _ | RenounceCandidacy set_stake stake
  | StartRepresenting set_stake stake _ | StopRepresenting set_stake stake => (set_stake, stake)
  | _ => (false, 0)
  end.

Definition ValidateStake (req : Governance) (info : account_info) : M Store validation :=
  let '(set_stake, stake) := stake_fields (gr_body req) in
  if (set_stake : bool) then
    can_stake ← StakingManager.Validate (gr_origin req) info stake (gr_origin req)
                  (gr_epoch_num req) (gr_fee req);
    if (can_stake : bool) then mret Valid else reject insufficient_funds_for_stake
  else mret Valid.

Definition HasMinGovernanceStake (request : Governance) : M Store bool :=
  let '(set_stake, stake) := stake_fields (gr_body request) in
  let enough stake :=
    (MIN_REP_STAKE <=? stake)
    && (negb (is_announce request) || (MIN_DELEGATE_STAKE <=? stake)) in
  if (set_stake : bool) then mret (enough stake)
  else
    cur_stake ← StakingManager.GetCurrentStakedFunds (gr_origin request);
    match cur_stake with
    | None => mret false
    | Some cur_stake => mret (enough (sf_amount cur_stake))
    end.

Definition IsDelegateNextEpoch (account : AccountAddress) : M Store bool :=
  epoch ← epoch_get_n 0 any_epoch;
  mret (existsb (fun delegate => d_account delegate =? account) (eb_delegates epoch)).

Definition IsDeadPeriod (cur_epoch_num : Z) : M Store bool :=
  t ← epoch_tip_get;
  match t with
  | None => halt "PersistenceManager::IsDeadPeriod"
  | Some tip =>
      b ← epoch_get (digest tip);
      match b with
      | None => halt "PersistenceManager::IsDeadPeriod"
      | Some eb => mret (u32 (eb_epoch_number eb + 2) =? cur_epoch_num)
      end
  end.

(** [assert(!_store.request_get(hash, req, txn)); assert(verify(req->type));] *)
Definition action_request (verify : RequestType.t -> bool) (hash : BlockHash) : M Store Governance :=
  r ← request_get hash;
  match r with
  | None => halt "PersistenceManager::ValidateRequest"
  | Some req =>
      massert (verify (gr_type req)) "PersistenceManager::ValidateRequest";;
      mret req
  end.
Definition any_type (type : RequestType.t) : bool := true.
(** The request of rep_action_tip, which must be set. *)
Definition rep_action (rep : RepInfo) : M Store Governance :=
  massert (negb (rep_action_tip rep =? 0)) "PersistenceManager::ValidateRequest";;
  action_request VerifyRepActionType (rep_action_tip rep).
Definition candidacy_action (rep : RepInfo) : M Store Governance :=
  action_request VerifyCandidacyActionType (candidacy_action_tip rep).

(** The loop over the votes: are these proper votes? *)
Fixpoint validate_votes (cur_epoch_num : Z) (votes : list (AccountAddress * Z)) (total : Z)
  : M Store validation :=
  match votes with
  | [] => mret (if total <=? MAX_VOTES then Valid else Invalid None)
  | cp :: votes =>
      let total := wrap 64 (total + cp.2) in
      c ← candidate_get cp.1;
      match c with
      | None => reject invalid_candidate
      | Some _ =>
          r ← rep_get cp.1;
          match r with
          | None => halt "PersistenceManager::ValidateRequest"
          | Some c_rep =>
              massert (negb (candidacy_action_tip c_rep =? 0)) "PersistenceManager::ValidateRequest";;
              candidacy_req ← candidacy_action c_rep;
              if is_announce candidacy_req then
                if GetEpochNum candidacy_req =? cur_epoch_num then reject invalid_candidate
                else validate_votes cur_epoch_num votes total
              else if GetEpochNum candidacy_req <? cur_epoch_num then reject invalid_candidate
              else validate_votes cur_epoch_num votes total
          end
      end
  end.

(** [election_vote_tip]: did the representative vote already this epoch? *)
Definition already_voted_in (rep : RepInfo) (cur_epoch_num : Z) : M Store bool :=
  if election_vote_tip rep =? 0 then mret false
  else
    vote_req ← action_request any_type (election_vote_tip rep);
    mret (GetEpochNum vote_req =? cur_epoch_num).

Definition ValidateElectionVote (request : Governance) (votes : list (AccountAddress * Z))
    (info : account_info) (cur_epoch_num : Z) : M Store validation :=
  if negb (gr_epoch_num request =? cur_epoch_num) then reject wrong_epoch_number
  else if (cur_epoch_num <? START_ELECTIONS_EPOCH) || negb ENABLE_ELECTIONS then
    reject no_elections
  else if negb (ValidateGovernanceSubchain request info) then reject invalid_governance_subchain
  else
    dead ← IsDeadPeriod cur_epoch_num;
    if (dead : bool) then reject elections_dead_period
    else
      r ← rep_get (gr_origin request);
      match r with
      | None => reject not_a_rep
      | Some rep =>
          rep_req ← rep_action rep;
          if (is_start rep_req || is_announce rep_req) && (GetEpochNum rep_req =? cur_epoch_num)
          then reject pending_rep_action
          else if is_stop rep_req && (GetEpochNum rep_req <? cur_epoch_num)
          then reject not_a_rep
          else
            voted ← already_voted_in rep cur_epoch_num;
            if (voted : bool) then reject already_voted
            else validate_votes cur_epoch_num votes 0
      end.

Definition ValidateAnnounceCandidacy (request : Governance) (info : account_info)
    (cur_epoch_num : Z) : M Store validation :=
  if negb (gr_epoch_num request =? cur_epoch_num) then reject wrong_epoch_number
  else
    dead ← IsDeadPeriod cur_epoch_num;
    if (dead : bool) then reject elections_dead_period
    else if (cur_epoch_num <? START_ELECTIONS_EPOCH - 1) || negb ENABLE_ELECTIONS then
      reject no_elections
    else if negb (ValidateGovernanceSubchain request info) then
      reject invalid_governance_subchain
    else
      r ← rep_get (gr_origin request);
      pending ← match r with
                | None => mret false
                | Some rep =>
                    rep_request ← rep_action rep;
                    mret (GetEpochNum rep_request =? cur_epoch_num)
                end;
      if (pending : bool) then reject pending_rep_action
      else
        let rep := default RepInfo_default r in
        let stake_checks :=
          enough ← HasMinGovernanceStake request;
          if (enough : bool) then ValidateStake request info else reject not_enough_stake in
        if candidacy_action_tip rep =? 0 then stake_checks
        else
          candidacy_req ← candidacy_action rep;
          if is_announce candidacy_req then reject already_announced_candidacy
          else if GetEpochNum candidacy_req =? cur_epoch_num then reject pending_candidacy_action
          else stake_checks.

Definition ValidateRenounceCandidacy (request : Governance) (info : account_info)
    (cur_epoch_num : Z) : M Store validation :=
  if negb ENABLE_ELECTIONS then reject no_elections
  else if negb (gr_epoch_num request =? cur_epoch_num) then reject wrong_epoch_number
  else
    dead ← IsDeadPeriod cur_epoch_num;
    if (dead : bool) then reject elections_dead_period
    else if negb (ValidateGovernanceSubchain request info) then
      reject invalid_governance_subchain
    else
      r ← rep_get (gr_origin request);
      match r with
      | None => reject not_a_rep
      | Some rep =>
          if candidacy_action_tip rep =? 0 then reject never_announced_candidacy
          else
            candidacy_req ← candidacy_action rep;
            if is_renounce candidacy_req then reject already_renounced_candidacy
            else if GetEpochNum candidacy_req =? cur_epoch_num then
              reject pending_candidacy_action
            else
              enough ← HasMinGovernanceStake request;
              if (enough : bool) then ValidateStake request info else reject not_enough_stake
      end.

Definition ValidateStartRepresenting (request : Governance) (info : account_info)
    (cur_epoch_num : Z) : M Store validation :=
  if negb ENABLE_ELECTIONS then reject no_elections
  else if negb (gr_epoch_num request =? cur_epoch_num) then reject wrong_epoch_number
  else
    dead ← IsDeadPeriod cur_epoch_num;
    if (dead : bool) then reject elections_dead_period
    else if negb (ValidateGovernanceSubchain request info) then
      reject invalid_governance_subchain
    else
      let stake_checks :=
        enough ← HasMinGovernanceStake request;
        if (enough : bool) then ValidateStake request info else reject not_enough_stake in
      r ← rep_get (gr_origin request);
      match r with
      | None => stake_checks
      | Some rep =>
          rep_req ← rep_action rep;
          if is_start rep_req || is_announce rep_req then reject is_rep
          else if GetEpochNum rep_req =? cur_epoch_num then reject pending_rep_action
          else stake_checks
      end.

Definition ValidateStopRepresenting (request : Governance) (info : account_info)
    (cur_epoch_num : Z) : M Store validation :=
  if negb ENABLE_ELECTIONS then reject no_elections
  else if negb (gr_epoch_num request =? cur_epoch_num) then reject wrong_epoch_number
  else
    dead ← IsDeadPeriod cur_epoch_num;
    if (dead : bool) then reject elections_dead_period
    else if negb (ValidateGovernanceSubchain request info) then
      reject invalid_governance_subchain
    else
      let delegate_checks :=
        delegate ← IsDelegateNextEpoch (gr_origin request);
        if (delegate : bool) then reject is_delegate else ValidateStake request info in
      r ← rep_get (gr_origin request);
      match r with
      | None => reject not_a_rep
      | Some rep =>
          rep_request ← rep_action rep;
          if GetEpochNum rep_request =? cur_epoch_num then reject pending_rep_action
          else if is_stop rep_request then reject not_a_rep
          else if candidacy_action_tip rep =? 0 then delegate_checks
          else
            candidacy_req ← candidacy_action rep;
            if GetEpochNum candidacy_req =? cur_epoch_num then reject pending_candidacy_action
            else if is_announce candidacy_req then reject is_candidate
            else delegate_checks
      end.

Definition ValidateProxy (request : Governance) (lock_proxy : Amount) (rep : AccountAddress)
    (info : account_info) (cur_epoch_num : Z) : M Store validation :=
  if negb (gr_epoch_num request =? cur_epoch_num) then reject wrong_epoch_number
  else if negb (ValidateGovernanceSubchain request info) then reject invalid_governance_subchain
  else if rep =? gr_origin request then reject proxy_to_self
  else
    o ← rep_get (gr_origin request);
    active ← match o with
             | None => mret false
             | Some rep_info =>
                 req ← action_request any_type (rep_action_tip rep_info);
                 mret (negb (is_stop req))
             end;
    if (active : bool) then reject is_rep
    else
      t ← rep_get rep;
      match t with
      | None => reject not_a_rep
      | Some rep_info =>
          req ← action_request any_type (rep_action_tip rep_info);
          if is_stop req then reject not_a_rep
          else
            can_stake ← StakingManager.Validate (gr_origin request) info lock_proxy rep
                          (gr_epoch_num request) (gr_fee request);
            if (can_stake : bool) then mret Valid else reject insufficient_funds_for_stake
      end.

Definition ValidateStakeRequest (request : Governance) (stake : Amount) (info : account_info)
    (cur_epoch_num : Z) : M Store validation :=
  if negb (gr_epoch_num request =? cur_epoch_num) then reject wrong_epoch_number
  else if negb (ValidateGovernanceSubchain request info) then reject invalid_governance_subchain
  else if negb (rep (new_rep info) =? 0) then reject not_a_rep
  else
    o ← rep_get (gr_origin request);
    too_low ← match o with
              | None => mret false
              | Some rep_info =>
                  req ← action_request any_type (rep_action_tip rep_info);
                  if negb (is_stop req) && (stake <? MIN_REP_STAKE) then mret true
                  else if candidacy_action_tip rep_info =? 0 then mret false
                  else
                    req ← action_request any_type (candidacy_action_tip rep_info);
                    mret (is_announce req && (stake <? MIN_DELEGATE_STAKE))
              end;
    if (too_low : bool) then reject not_enough_stake
    else
      can_stake ← StakingManager.Validate (gr_origin request) info stake (gr_origin request)
                    (gr_epoch_num request) (gr_fee request);
      if (can_stake : bool) then mret Valid else reject insufficient_funds_for_stake.

Definition ValidateUnstake (request : Governance) (info : account_info) (cur_epoch_num : Z)
  : M Store validation :=
  if negb (gr_epoch_num request =? cur_epoch_num) then reject wrong_epoch_number
  else if negb (ValidateGovernanceSubchain request info) then reject invalid_governance_subchain
  else if negb (rep (new_rep info) =? 0) then reject not_a_rep
  else
    o ← rep_get (gr_origin request);
    match o with
    | None => mret Valid
    | Some rep_info =>
        req ← action_request any_type (rep_action_tip rep_info);
        if is_stop req then mret Valid else reject not_enough_stake
    end.

(** ValidateRequestWithStaking<T>, by the type of the request. *)
Definition ValidateRequest (request : Governance) (info : account_info) (cur_epoch_num : Z)
  : M Store validation :=
  match gr_body request with
  | Proxy lock_proxy rep => ValidateProxy request lock_proxy rep info cur_epoch_num
  | Stake stake => ValidateStakeRequest request stake info cur_epoch_num
  | Unstake => ValidateUnstake request info cur_epoch_num
  | ElectionVote votes => ValidateElectionVote request votes info cur_epoch_num
  | AnnounceCandidacy _ _ _ _ _ => ValidateAnnounceCandidacy request info cur_epoch_num
  | RenounceCandidacy _ _ => ValidateRenounceCandidacy request info cur_epoch_num
  | StartRepresenting _ _ _ => ValidateStartRepresenting request info cur_epoch_num
  | StopRepresenting _ _ => ValidateStopRepresenting request info cur_epoch_num
  end.
End Validation.

Section Application.
Context {L : Lmdb} {B : Blake2b}.

(** [assert(!_store.rep_get(request.origin, rep, txn))] *)
Definition get_rep (account : AccountAddress) : M Store RepInfo :=
  r ← rep_get account;
  match r with
  | None => halt "PersistenceManager::ApplyRequest"
  | Some rep => mret rep
  end.
(** [if(request.set_stake) StakingManager::GetInstance()->Stake(...)] *)
Definition apply_stake (request : Governance) (info : account_info) : M Store account_info :=
  let '(set_stake, stake) := stake_fields (gr_body request) in
  if (set_stake : bool) then
    StakingManager.Stake (gr_origin request) info stake (gr_origin request) (gr_epoch_num request)
  else mret info.
Definition with_head (request : Governance) (info : account_info) : account_info :=
  set_governance_subchain_head (GetHash request) info.

Definition ApplyStartRepresenting (request : Governance) (levy_percentage : Z)
    (info : account_info) : M Store account_info :=
  let info := with_head request info in
  rep_put (gr_origin request) (RepInfo_of_start (GetHash request) levy_percentage);;
  request_put request;;
  apply_stake request info.

Definition ApplyStopRepresenting (request : Governance) (info : account_info)
  : M Store account_info :=
  let info := with_head request info in
  rep ← get_rep (gr_origin request);
  rep_put (gr_origin request) (set_rep_action_tip (GetHash request) rep);;
  rep_mark_remove (gr_origin request);;
  request_put request;;
  apply_stake request info.

(** [p.num_votes * voting_power.number()], a product of 128 bits. *)
Definition weighted (voting_power : Amount) (votes : list (AccountAddress * Z))
  : list (AccountAddress * Amount) :=
  (fun p => (p.1, u128 (p.2 * voting_power))) <$> votes.

Definition ApplyElectionVote (request : Governance) (votes : list (AccountAddress * Z))
    (info : account_info) : M Store account_info :=
  let info := with_head request info in
  request_put request;;
  rep ← get_rep (gr_origin request);
  let rep := set_election_vote_tip (GetHash request) rep in
  rep_put (gr_origin request) rep;;
  voting_power ← GetCurrentVotingPower (gr_origin request) (gr_epoch_num request);
  add_weighted_votes (gr_epoch_num request) (weighted voting_power votes);;
  v ← GetVotingPowerInfo_epoch (gr_origin request) (gr_epoch_num request);
  match v with
  | None => halt "PersistenceManager::ApplyRequest"
  | Some vpi =>
      EpochRewardsManager.Init (gr_origin request)
        (Build_RepEpochInfo (rep_levy_percentage rep) (gr_epoch_num request)
           (amt_add (self_stake (vp_current vpi)) (locked_proxied (vp_current vpi)))
           (self_stake (vp_current vpi)));;
      mret info
  end.

(** Whether the account is added to the candidates now. For a delegate in
    office the loop over [j] looks for it in the block of three epochs ago; its
    bound tests [i], and when the delegate did not start its term there, the
    loop reads past the end of the array. *)
Definition add_to_candidates_db (origin : AccountAddress) : M Store bool :=
  eb ← epoch_get_n 0 any_epoch;
  if existsb (fun d => d_account d =? origin) (eb_delegates eb) then
    eb ← epoch_get_n 3 any_epoch;
    if existsb (fun d => (d_account d =? origin) && starting_term d) (eb_delegates eb)
    then mret true
    else halt "PersistenceManager::ApplyRequest: delegates[j]"
  else mret true.

Definition ApplyAnnounceCandidacy (request : Governance) (set_stake : bool) (stake : Amount)
    (bls_key ecies_key : list Z) (levy_percentage : Z) (info : account_info)
  : M Store account_info :=
  let info := with_head request info in
  r ← rep_get (gr_origin request);
  let rep := default (RepInfo_of_announce (GetHash request) levy_percentage) r in
  let candidate :=
    CandidateInfo_of set_stake stake bls_key ecies_key levy_percentage (gr_epoch_num request) in
  candidate ← (if set_stake then mret candidate
               else
                 cur_stake ← StakingManager.GetCurrentStakedFunds (gr_origin request);
                 match cur_stake with
                 | None => halt "PersistenceManager::ApplyRequest"
                 | Some cur_stake => mret (set_next_stake (sf_amount cur_stake) candidate)
                 end);
  rep_put (gr_origin request) (set_candidacy_action_tip (GetHash request) rep);;
  add ← add_to_candidates_db (gr_origin request);
  (if (add : bool) then candidate_put (gr_origin request) candidate else mret tt);;
  request_put request;;
  apply_stake request info.

(** [candidate_get], TransitionIfNecessary, [next_stake = ...], [candidate_put]. *)
Definition update_candidate_stake (request : Governance) (stake : option Amount) : M Store unit :=
  c ← candidate_get (gr_origin request);
  match c with
  | None => mret tt
  | Some candidate =>
      let candidate := Candidate_TransitionIfNecessary (gr_epoch_num request) candidate in
      candidate_put (gr_origin request)
        (match stake with Some a => set_next_stake a candidate | None => candidate end)
  end.

Definition ApplyRenounceCandidacy (request : Governance) (set_stake : bool) (stake : Amount)
    (info : account_info) : M Store account_info :=
  let info := with_head request info in
  c ← candidate_get (gr_origin request);
  (match c with
   | None => mret tt
   | Some _ =>
       candidate_mark_remove (gr_origin request);;
       update_candidate_stake request (if set_stake then Some stake else None)
   end);;
  rep ← get_rep (gr_origin request);
  rep_put (gr_origin request) (set_candidacy_action_tip (GetHash request) rep);;
  request_put request;;
  apply_stake request info.

Definition ApplyProxy (request : Governance) (lock_proxy : Amount) (rep : AccountAddress)
    (info : account_info) : M Store account_info :=
  let info := with_head request info in
  request_put request;;
  StakingManager.Stake (gr_origin request) info lock_proxy rep (gr_epoch_num request).

(** ApplyRequest(Stake) and, with 0, ApplyRequest(Unstake). *)
Definition ApplyStake (request : Governance) (stake : Amount) (info : account_info)
  : M Store account_info :=
  let info := with_head request info in
  request_put request;;
  info ← StakingManager.Stake (gr_origin request) info stake (gr_origin request)
           (gr_epoch_num request);
  update_candidate_stake request (Some stake);;
  mret info.
Definition ApplyUnstake (request : Governance) (info : account_info) : M Store account_info :=
  ApplyStake request 0 info.

Definition ApplyRequest (request : Governance) (info : account_info) : M Store account_info :=
  match gr_body request with
  | Proxy lock_proxy rep => ApplyProxy request lock_proxy rep info
  | Stake stake => ApplyStake request stake info
  | Unstake => ApplyUnstake request info
  | ElectionVote votes => ApplyElectionVote request votes info
  | AnnounceCandidacy set_stake stake bls ecies levy =>
      ApplyAnnounceCandidacy request set_stake stake bls ecies levy info
  | RenounceCandidacy set_stake stake => ApplyRenounceCandidacy request set_stake stake info
  | StartRepresenting _ _ levy => ApplyStartRepresenting request levy info
  | StopRepresenting _ _ => ApplyStopRepresenting request info
  end.
End Application.
End RequestPersistence.
