(* ===== verification/GovernanceFrames.v ===== *)
(** * What staking and validation leave alone

    Staking reads representatives, requests and elections and never writes
    them; validating a request changes no table at all. *)
From stdpp Require Import base list numbers strings gmap ssreflect.
From S2P Require Import Prelude Serial Lmdb StakingTypes Requests Epochs BlockStore Liabilities VotingPower AccountInfo Staking StakingFunds Elections EpochRewards Governance.
Import LiabilityManager VotingPowerManager StakingManager BlockStoreElections RequestPersistence.
Open Scope Z_scope.

(** ** Staking leaves the registry alone *)
Lemma liability_same_registry `{Lmdb} {A} (m : M Store A) :
  preserves liability_frame m -> preserves same_registry m.
Proof. apply preserves_mono. by intros s s' (_ & _ & ?). Qed.
Lemma power_same_registry `{Lmdb} {A} (m : M Store A) :
  preserves power_frame m -> preserves same_registry m.
Proof. apply preserves_mono. by intros s s' (_ & _ & ?). Qed.
Ltac leaves_registry :=
  repeat first
    [ apply liability_same_registry; solve [eauto 1 with frame nocore]
    | apply power_same_registry; solve [eauto 1 with frame nocore]
    | frame_step ].

Section Registry.
Context {L : Lmdb} {B : Blake2b}.

Lemma stake_put_registry a f : preserves same_registry (stake_put a f).
Proof. table_frame. Qed.
Lemma stake_del_registry a : preserves same_registry (stake_del a).
Proof. table_frame. Qed.
Lemma thawing_put_registry a f : preserves same_registry (thawing_put a f).
Proof. table_frame. Qed.
Lemma thawing_del_registry a f : preserves same_registry (thawing_del a f).
Proof. table_frame. Qed.
Lemma thawing_replace_registry a f g : preserves same_registry (thawing_replace a f g).
Proof. table_frame. Qed.
End Registry.
#[export] Hint Resolve stake_put_registry stake_del_registry thawing_put_registry
  thawing_del_registry thawing_replace_registry : frame.

Section Registry2.
Context {L : Lmdb} {B : Blake2b}.

Lemma Store_staked_registry f o : preserves same_registry (Store_staked f o).
Proof. rw /Store_staked. leaves_registry. Qed.
Lemma Store_thawing_registry f o : preserves same_registry (Store_thawing f o).
Proof. rw /Store_thawing /ProcessThawingFunds /thawing_range /consolidate. leaves_registry. Qed.
End Registry2.
#[export] Hint Resolve Store_staked_registry Store_thawing_registry : frame.

Section Registry3.
Context {L : Lmdb} {B : Blake2b}.

Lemma UpdateAmountAndStore_thawing_registry f o a :
  preserves same_registry (UpdateAmountAndStore_thawing f o a).
Proof. rw /UpdateAmountAndStore_thawing /Delete_thawing. leaves_registry. Qed.
Lemma UpdateAmountAndStore_staked_registry f o a :
  preserves same_registry (UpdateAmountAndStore_staked f o a).
Proof. rw /UpdateAmountAndStore_staked /Delete_staked. leaves_registry. Qed.
Lemma Extract_registry {T R} `{!Funds T, !Funds R} (input : T) (output : R) a o info e :
  (forall f o a, preserves same_registry (UpdateAmountAndStore (T := T) f o a)) ->
  preserves same_registry (Extract input output a o info e).
Proof. intros HU. rw /Extract. leaves_registry; apply HU. Qed.
Lemma CreateStakedFunds_registry t o : preserves same_registry (CreateStakedFunds t o).
Proof. rw /CreateStakedFunds. leaves_registry. Qed.
Lemma CreateThawingFunds_registry t o e : preserves same_registry (CreateThawingFunds t o e).
Proof. rw /CreateThawingFunds. leaves_registry. Qed.
Lemma StakeAvailableFunds_registry c a o i e :
  preserves same_registry (StakeAvailableFunds c a o i e).
Proof. rw /StakeAvailableFunds. leaves_registry. Qed.
Lemma UpdateRep_registry e i r : preserves same_registry (UpdateRep e i r).
Proof. rw /UpdateRep. leaves_registry. Qed.
End Registry3.
#[export] Hint Resolve UpdateAmountAndStore_thawing_registry UpdateAmountAndStore_staked_registry
  CreateStakedFunds_registry CreateThawingFunds_registry StakeAvailableFunds_registry
  UpdateRep_registry : frame.

Section Registry4.
Context {L : Lmdb} {B : Blake2b}.

Lemma Extract_staked_registry {R} `{!Funds R} (i : StakedFunds) (o : R) a or info e :
  preserves same_registry (Extract i o a or info e).
Proof. apply Extract_registry. apply UpdateAmountAndStore_staked_registry. Qed.
Lemma Extract_thawing_registry {R} `{!Funds R} (i : ThawingFunds) (o : R) a or info e :
  preserves same_registry (Extract i o a or info e).
Proof. apply Extract_registry. apply UpdateAmountAndStore_thawing_registry. Qed.
End Registry4.
#[export] Hint Resolve Extract_staked_registry Extract_thawing_registry : frame.

Section Registry5.
Context {L : Lmdb} {B : Blake2b}.

Lemma BeginThawing_registry o i e c a : preserves same_registry (BeginThawing o i e c a).
Proof. rw /BeginThawing. leaves_registry. Qed.
Lemma fill_stake_registry o i t e c a : preserves same_registry (fill_stake o i t e c a).
Proof. rw /fill_stake /ProcessThawingFunds /thawing_range /extract_thawing. leaves_registry. Qed.
End Registry5.
#[export] Hint Resolve BeginThawing_registry fill_stake_registry : frame.

Section Registry6.
Context {L : Lmdb} {B : Blake2b}.

Lemma Stake_registry o i a t e : preserves same_registry (Stake o i a t e).
Proof.
  rw /Stake /GetCurrentStakedFunds /stake_get /ChangeTarget /ReduceStake /Delete_staked.
  leaves_registry.
Qed.
Lemma apply_stake_registry r i : preserves same_registry (apply_stake r i).
Proof. rw /apply_stake. destruct (stake_fields _) as [[] ?]; [apply Stake_registry|by frame_step]. Qed.
End Registry6.
#[export] Hint Resolve Stake_registry apply_stake_registry : frame.

(** ** Validation changes nothing *)
Ltac reads_only :=
  rw /rep_get /request_get /candidate_get /epoch_get /epoch_tip_get /get_elections
     /liability_get /liability_exists /stake_get /thawing_range;
  solve_frame.

Section ReadOnly.
Context {L : Lmdb} {B : Blake2b}.

Lemma scan_secondary_reads t e hs : preserves eq (scan_secondary t e hs).
Proof. induction hs as [|h hs IH]; cbn [scan_secondary]; rw /Get; reads_only; exact IH. Qed.
Lemma action_request_reads v h : preserves eq (action_request v h).
Proof. rw /action_request. reads_only. Qed.
Lemma GetCurrentStakedFunds_reads o : preserves eq (GetCurrentStakedFunds o).
Proof. rw /GetCurrentStakedFunds. reads_only. Qed.
Lemma IsDeadPeriod_reads e : preserves eq (IsDeadPeriod e).
Proof. rw /IsDeadPeriod. reads_only. Qed.
End ReadOnly.
#[export] Hint Resolve scan_secondary_reads action_request_reads
  GetCurrentStakedFunds_reads IsDeadPeriod_reads : frame.

Section ReadOnly2.
Context {L : Lmdb} {B : Blake2b}.

Lemma CanCreate_reads t o e : preserves eq (CanCreateSecondaryLiability t o e).
Proof.
  rw /CanCreateSecondaryLiability /Exists_ /GetSecondaryLiabilities. reads_only.
Qed.
Lemma candidacy_action_reads r : preserves eq (candidacy_action r).
Proof. apply action_request_reads. Qed.
Lemma rep_action_reads r : preserves eq (rep_action r).
Proof. rw /rep_action. solve_frame. Qed.
Lemma HasMinGovernanceStake_reads r : preserves eq (HasMinGovernanceStake r).
Proof. rw /HasMinGovernanceStake. solve_frame. Qed.
Lemma already_voted_in_reads r e : preserves eq (already_voted_in r e).
Proof. rw /already_voted_in. solve_frame. Qed.
End ReadOnly2.
#[export] Hint Resolve CanCreate_reads candidacy_action_reads rep_action_reads
  HasMinGovernanceStake_reads already_voted_in_reads : frame.

Section ReadOnly3.
Context {L : Lmdb} {B : Blake2b}.

Lemma Validate_reads o i a t e f : preserves eq (Validate o i a t e f).
Proof.
  rw /Validate /GetPruneableThawingAmount /ProcessThawingFunds /validate_thawing /usable
     /can_create_secondary_liability.
  reads_only.
Qed.
Lemma validate_votes_reads e votes : forall t, preserves eq (validate_votes e votes t).
Proof.
  induction votes as [|v votes IH]; intros t; cbn [validate_votes]; [by frame_step|].
  rw /reject. reads_only; apply IH.
Qed.
End ReadOnly3.
#[export] Hint Resolve Validate_reads validate_votes_reads : frame.

Section ReadOnly4.
Context {L : Lmdb} {B : Blake2b}.

Lemma ValidateStake_reads r i : preserves eq (ValidateStake r i).
Proof. rw /ValidateStake /reject. destruct (stake_fields _) as [[] ?]; solve_frame. Qed.
End ReadOnly4.
#[export] Hint Resolve ValidateStake_reads : frame.

Section ReadOnly5.
Context {L : Lmdb} {B : Blake2b}.

Lemma ValidateRequest_reads elections r i e : preserves eq (ValidateRequest elections r i e).
Proof.
  rw /ValidateRequest /ValidateProxy /ValidateStakeRequest /ValidateUnstake /ValidateElectionVote
     /ValidateAnnounceCandidacy /ValidateRenounceCandidacy /ValidateStartRepresenting
     /ValidateStopRepresenting /reject /IsDelegateNextEpoch /rep_get.
  solve_frame.
Qed.
End ReadOnly5.
