(* ===== verification/GovernanceRegistry.v ===== *)
(** * The registry of representatives, candidates and requests

    Validation follows tips: from the record of a representative to the request
    that made it one, to its last candidacy action and to its last vote, and
    asserts that they are stored and of the right kind. The invariant here is
    what these assertions need; every request that is applied keeps it, and
    under it no validation halts. *)
From stdpp Require Import base list numbers strings gmap ssreflect.
From S2P Require Import Prelude Serial Lmdb StakingTypes Requests Epochs BlockStore Liabilities VotingPower AccountInfo Staking StakingFunds Elections EpochRewards Governance GovernanceFrames.
Import LiabilityManager VotingPowerManager StakingManager BlockStoreElections RequestPersistence.
Open Scope Z_scope.

Abbreviation candidates s := (candidacy_db (elections s)).

Definition is_vote_type (type : RequestType.t) : bool :=
  match type with RequestType.ElectionVote => true | _ => false end.

Section Invariant.
Context {L : Lmdb} {B : Blake2b}.

(** The digest [h] is that of a stored request of [a] of the kind wanted. *)
Definition stored (verify : RequestType.t -> bool) (a : AccountAddress) (h : BlockHash)
    (s : Store) : Prop :=
  exists r, mdb_get h (request_db s) = Some r /\ verify (gr_type r) = true /\ gr_origin r = a.
Record rep_ok (a : AccountAddress) (rep : RepInfo) (s : Store) : Prop := {
  rk_action : rep_action_tip rep <> 0 /\ stored VerifyRepActionType a (rep_action_tip rep) s;
  rk_candidacy : candidacy_action_tip rep <> 0 ->
    stored VerifyCandidacyActionType a (candidacy_action_tip rep) s;
  rk_vote : election_vote_tip rep <> 0 -> stored is_vote_type a (election_vote_tip rep) s;
}.
Record registry_ok (s : Store) : Prop := {
  ro_request h r : mdb_get h (request_db s) = Some r -> h = GetHash r /\ Governance_wf r;
  ro_rep a rep : mdb_get a (representative_db s) = Some rep -> rep_ok a rep s;
  ro_candidate a c : mdb_get a (candidates s) = Some c ->
    exists rep, mdb_get a (representative_db s) = Some rep /\ candidacy_action_tip rep <> 0;
}.

(** The epoch block of the tip is stored. *)
Definition tip_stored (s : Store) : Prop :=
  exists tip eb, mdb_get 0 (epoch_tip_db (elections s)) = Some tip /\ digest tip <> 0 /\
    mdb_get (digest tip) (epoch_db (elections s)) = Some eb.
End Invariant.

(** ** No validation halts *)

(** [m] returns from [s] and leaves it as it is. *)
Definition safe {S A} (m : M S A) (s : S) : Prop := exists a, m s = Ok (a, s).

Section Safe.
Context {S : Type}.
Lemma safe_ret {A} (a : A) (s : S) : safe (mret a) s.
Proof. by exists a. Qed.
Lemma safe_gets {A} (f : S -> A) (s : S) : safe (gets f) s.
Proof. by exists (f s). Qed.
Lemma safe_bind {A B} (m : M S A) (f : A -> M S B) s :
  safe m s -> (forall a, m s = Ok (a, s) -> safe (f a) s) -> safe (m ≫= f) s.
Proof.
  intros [a Ha] Hf. destruct (Hf a Ha) as [b Hb]. exists b. apply bind_ok. by exists a, s.
Qed.
Lemma safe_massert b why (s : S) : b = true -> safe (massert b why) s.
Proof. intros ->. by exists tt. Qed.
Lemma safe_iterate {X A} (f : A -> X -> M S (A * bool)) xs s : forall a,
  (forall a x, x ∈ xs -> safe (f a x) s) -> safe (iterate f a xs) s.
Proof.
  induction xs as [|x xs IH]; intros a Hf; cbn [iterate]; [apply safe_ret|].
  apply safe_bind; [apply Hf; left|]. intros [a' []] _; cbn; [|apply safe_ret].
  apply IH. intros ? ? ?. apply Hf. by right.
Qed.
End Safe.

(** Walks through a validation; what remains are the lookups that must not fail. *)
Ltac safe_step :=
  lazymatch goal with
  | |- safe (mret _) _ => apply safe_ret
  | |- safe (gets _) _ => apply safe_gets
  | |- safe (_ ≫= _) _ => apply safe_bind; [|intros ? ?]
  | |- safe (iterate _ _ _) _ => apply safe_iterate; intros ? ? ?
  | |- safe (match _ with _ => _ end) _ => case_match
  end.

Section NeverHalts.
Context {L : Lmdb} {B : Blake2b}.
Variables (s : Store).
Hypotheses (Hreg : registry_ok s) (Htip : tip_stored s) (Hliab : liab_ok s).

Lemma safe_action verify a h : stored verify a h s -> safe (action_request verify h) s.
Proof.
  intros (r & Hg & Hv & _). exists r. rw /action_request /request_get /gets /mbind /M_bind Hg.
  by rw /massert Hv.
Qed.
Lemma stored_any verify a h : stored verify a h s -> stored any_type a h s.
Proof. intros (r & ? & _ & ?). by exists r. Qed.
Lemma rep_get_ok a rep s' : rep_get a s = Ok (Some rep, s') -> rep_ok a rep s.
Proof. intros [= Hg _]. by apply ro_rep. Qed.

Lemma safe_rep_action a rep : rep_ok a rep s -> safe (rep_action rep) s.
Proof.
  intros [[H0 Hs] _ _]. apply safe_bind; [|intros _ _; by eapply safe_action].
  apply safe_massert. by apply negb_true_iff, Z.eqb_neq.
Qed.
Lemma safe_rep_tip a rep : rep_ok a rep s -> safe (action_request any_type (rep_action_tip rep)) s.
Proof. intros [[_ Hs] _ _]. by eapply safe_action, stored_any. Qed.
Lemma safe_candidacy a rep :
  rep_ok a rep s -> (candidacy_action_tip rep =? 0) = false -> safe (candidacy_action rep) s.
Proof. intros [_ Hc _] H0%Z.eqb_neq. by eapply safe_action, Hc. Qed.
Lemma safe_candidacy_tip a rep :
  rep_ok a rep s -> (candidacy_action_tip rep =? 0) = false ->
  safe (action_request any_type (candidacy_action_tip rep)) s.
Proof. intros [_ Hc _] H0%Z.eqb_neq. by eapply safe_action, stored_any, Hc. Qed.
Lemma safe_voted a rep e : rep_ok a rep s -> safe (already_voted_in rep e) s.
Proof.
  intros [_ _ Hv]. rw /already_voted_in. case_match eqn:H0; [apply safe_ret|].
  apply safe_bind; [|intros; apply safe_ret]. apply Z.eqb_neq in H0.
  by eapply safe_action, stored_any, Hv.
Qed.
Lemma safe_dead e : safe (IsDeadPeriod e) s.
Proof.
  destruct Htip as (tip & eb & Ht & _ & He). eexists.
  by rw /IsDeadPeriod /epoch_tip_get /epoch_get /get_elections /gets /mbind /M_bind Ht He.
Qed.
Lemma safe_delegate a : safe (IsDelegateNextEpoch a) s.
Proof.
  destruct Htip as (tip & eb & Ht & H0 & He). eexists.
  rw /IsDelegateNextEpoch /epoch_get_n /epoch_tip_get /get_elections /gets /mbind /M_bind Ht.
  cbn [epoch_walk]. rw (proj2 (Z.eqb_neq _ _) H0) /massert /epoch_get /get_elections /gets.
  by rw /mbind /M_bind /= He.
Qed.

Lemma safe_scan t e hs :
  (forall h, h ∈ hs -> exists l, mdb_get h (master_liabilities_db s) = Some l) ->
  safe (scan_secondary t e hs) s.
Proof.
  induction hs as [|h hs IH]; intros Hs; cbn [scan_secondary]; [apply safe_ret|].
  apply safe_bind.
  - destruct (Hs h) as [l Hl]; [left|]. exists l.
    by rw /Get /liability_get /gets /mbind /M_bind Hl.
  - intros l _. case_match; [apply safe_ret|]. apply IH. intros h' ?. apply Hs. by right.
Qed.
Lemma safe_can_create t o e : safe (CanCreateSecondaryLiability t o e) s.
Proof.
  rw /CanCreateSecondaryLiability /Exists_ /liability_exists /GetSecondaryLiabilities.
  repeat safe_step. match goal with H : _ = Ok (?hs, _) |- context [?hs] => injection H as <- end.
  apply safe_scan. intros h (l & Hl & _)%lo_secondary; eauto.
Qed.
Lemma safe_usable o e t c f : safe (usable o e t c f) s.
Proof.
  rw /usable /can_create_secondary_liability. repeat safe_step. apply safe_can_create.
Qed.
Lemma safe_Validate o i a t e f : safe (Validate o i a t e f) s.
Proof.
  rw /Validate /GetPruneableThawingAmount /ProcessThawingFunds /thawing_range
     /GetCurrentStakedFunds /stake_get /validate_thawing.
  repeat safe_step; apply safe_usable.
Qed.
Lemma safe_ValidateStake r i : safe (ValidateStake r i) s.
Proof.
  rw /ValidateStake /reject. repeat safe_step. apply safe_Validate.
Qed.
Lemma safe_min_stake r : safe (HasMinGovernanceStake r) s.
Proof. rw /HasMinGovernanceStake /GetCurrentStakedFunds /stake_get. repeat safe_step. Qed.

Lemma safe_votes e votes : forall t, safe (validate_votes e votes t) s.
Proof.
  induction votes as [|v votes IH]; intros t; cbn [validate_votes]; [apply safe_ret|].
  apply safe_bind; [apply safe_gets|]. intros [c|] Hc; [|apply safe_ret].
  injection Hc as Hc. apply ro_candidate in Hc as (rep & Hr & H0); [|done].
  apply safe_bind; [apply safe_gets|]. intros r [= <-]. rw Hr.
  apply safe_bind; [apply safe_massert; by apply negb_true_iff, Z.eqb_neq|]. intros _ _.
  apply safe_bind; [|intros; repeat case_match; auto; apply safe_ret].
  eapply safe_candidacy; [by apply ro_rep|by apply Z.eqb_neq].
Qed.

(** The lookups of the validations. *)
Ltac safe_lookup :=
  match goal with
  | H : rep_get ?a s = Ok (Some ?rep, s) |- _ => apply rep_get_ok in H
  | |- safe (IsDeadPeriod _) _ => apply safe_dead
  | |- safe (rep_get _) _ => apply safe_gets
  | |- safe (IsDelegateNextEpoch _) _ => apply safe_delegate
  | |- safe (StakingManager.Validate _ _ _ _ _ _) _ => apply safe_Validate
  | |- safe (HasMinGovernanceStake _) _ => apply safe_min_stake
  | |- safe (ValidateStake _ _) _ => apply safe_ValidateStake
  | |- safe (validate_votes _ _ _) _ => apply safe_votes
  | |- safe (rep_action _) _ => by eapply safe_rep_action
  | |- safe (already_voted_in _ _) _ => by eapply safe_voted
  | |- safe (candidacy_action _) _ => by eapply safe_candidacy
  | |- safe (action_request any_type (rep_action_tip _)) _ => by eapply safe_rep_tip
  | |- safe (action_request any_type (candidacy_action_tip _)) _ => by eapply safe_candidacy_tip
  end.
Ltac safe_all := repeat first [safe_lookup | safe_step; cbn beta].

Lemma safe_announce el r i e : safe (ValidateAnnounceCandidacy el r i e) s.
Proof.
  rw /ValidateAnnounceCandidacy /reject.
  case_match; [apply safe_ret|]. apply safe_bind; [apply safe_dead|]. intros dead _.
  do 3 (case_match; [apply safe_ret|]). apply safe_bind; [apply safe_gets|]. intros o Ho.
  destruct o as [rep|]; cbn [default]; [apply rep_get_ok in Ho|].
  - safe_all.
  - change (candidacy_action_tip RepInfo_default) with 0. rw Z.eqb_refl. safe_all.
Qed.
Lemma safe_vote el r votes i e : safe (ValidateElectionVote el r votes i e) s.
Proof. rw /ValidateElectionVote /reject. safe_all. Qed.
Lemma safe_request el r i e : safe (ValidateRequest el r i e) s.
Proof.
  rw /ValidateRequest. case_match; try apply safe_announce;
    rw /ValidateProxy /ValidateStakeRequest /ValidateUnstake /ValidateElectionVote
       /ValidateRenounceCandidacy /ValidateStartRepresenting
       /ValidateStopRepresenting /reject; safe_all.
Qed.
End NeverHalts.
