(* ===== verification/GovernanceEffects.v ===== *)
(** * What applying a request does to the registry

    ApplyRequest stores the request, and replaces the record of its origin by
    one that follows from the record before and the request alone. From this
    the invariant of the registry is preserved by every request. *)
From stdpp Require Import base list numbers strings gmap ssreflect.
From S2P Require Import Prelude Serial Lmdb StakingTypes Requests Epochs BlockStore Liabilities VotingPower AccountInfo Staking StakingFunds Elections EpochRewards Governance GovernanceFrames GovernanceRegistry.
Import VotingPowerManager BlockStoreElections RequestPersistence.
Open Scope Z_scope.

(** The record of the origin after the request, from the one before. *)
Definition rep_after `{Blake2b} (r : Governance) (old : option RepInfo) : option RepInfo :=
  match gr_body r with
  | StartRepresenting _ _ levy => Some (RepInfo_of_start (GetHash r) levy)
  | StopRepresenting _ _ => set_rep_action_tip (GetHash r) <$> old
  | ElectionVote _ => set_election_vote_tip (GetHash r) <$> old
  | AnnounceCandidacy _ _ _ _ levy =>
      Some (set_candidacy_action_tip (GetHash r)
              (default (RepInfo_of_announce (GetHash r) levy) old))
  | RenounceCandidacy _ _ => set_candidacy_action_tip (GetHash r) <$> old
  | Proxy _ _ | Stake _ | Unstake => old
  end.

Section Frames.
Context {L : Lmdb} {B : Blake2b}.

(** Every candidate of [s'] is one of [s]. *)
Definition no_new_candidate (s s' : Store) : Prop :=
  representative_db s' = representative_db s /\ request_db s' = request_db s /\
  epoch_db (elections s') = epoch_db (elections s) /\
  epoch_tip_db (elections s') = epoch_tip_db (elections s) /\
  forall x, mdb_get x (candidates s') <> None -> mdb_get x (candidates s) <> None.
#[global] Instance no_new_candidate_preorder : PreOrder no_new_candidate.
Proof.
  split; [done|]. intros ??? (?&?&?&?&?) (?&?&?&?&?). split_and!; try congruence. auto.
Qed.

Lemma leading_put_frame a c : preserves only_leading (leading_put a c).
Proof. apply preserves_modify. intros s. apply only_leading_table. Qed.
Lemma sync_frame : preserves only_leading sync_leading_candidates.
Proof.
  rw /sync_leading_candidates /get_elections. apply preserves_bind; [apply _|by frame_step|].
  intros items. apply preserves_modify. intros s.
  pose proof (only_leading_intro (leading_candidates_db (elections s))) as Hf.
  specialize (Hf (foldl sync_one (0, (0, CandidateInfo_default)) items).1
                 (foldl sync_one (0, (0, CandidateInfo_default)) items).2 s).
  by destruct (elections s).
Qed.
Lemma update_leading_frame a c : preserves only_leading (update_leading_candidates a c).
Proof.
  rw /update_leading_candidates /get_elections.
  repeat first [apply leading_put_frame | apply sync_frame
    | lazymatch goal with |- preserves _ (modify_elections _) => fail | _ => frame_step end].
  - apply preserves_modify. intros s. apply only_leading_table.
  - apply preserves_modify. intros s. apply only_leading_size.
Qed.
End Frames.

Section Candidates.
Context {L : Lmdb} {LL : LmdbLaws L} {B : Blake2b}.

Lemma candidate_put_tables a c s :
  wlp (candidate_put a c) (fun _ s' =>
    representative_db s' = representative_db s /\ request_db s' = request_db s /\
    epoch_db (elections s') = epoch_db (elections s) /\
    epoch_tip_db (elections s') = epoch_tip_db (elections s) /\
    candidates s' = mdb_put a c (candidates s)) s.
Proof.
  apply wpg_bind, wp_modify_elections. eapply wpg_mono; [apply update_leading_frame|].
  intros _ s' (_ & _ & _ & -> & -> & t & n & m & ->). done.
Qed.
Lemma candidate_put_old a c s :
  mdb_get a (candidates s) <> None ->
  wlp (candidate_put a c) (fun _ s' => no_new_candidate s s') s.
Proof.
  intros Ha. eapply wpg_mono; [apply candidate_put_tables|].
  intros _ s' (? & ? & ? & ? & Hc). split_and!; try done. intros x. rw Hc get_put.
  by case_decide; [subst|].
Qed.
Lemma add_vote_frame a w e : preserves no_new_candidate (candidate_add_vote a w e).
Proof.
  intros s. apply wpg_bind, wp_get_elections. destruct (mdb_get _ _) eqn:Ha; [|by apply wpg_ret].
  apply wpg_bind. eapply wpg_mono; [apply candidate_put_old; by rw Ha|]. by intros.
Qed.
Lemma add_votes_frame e votes : preserves no_new_candidate (add_weighted_votes e votes).
Proof.
  induction votes as [|v votes IH]; cbn [add_weighted_votes]; [by frame_step|].
  apply preserves_bind; [apply _|apply add_vote_frame|]. intros err.
  apply preserves_bind; [apply _|by frame_step|]. auto.
Qed.
Lemma update_candidate_frame r a : preserves no_new_candidate (update_candidate_stake r a).
Proof.
  intros s. apply wpg_bind, wp_get_elections. destruct (mdb_get _ _) eqn:Ha; [|by apply wpg_ret].
  apply candidate_put_old. by rw Ha.
Qed.
Lemma registry_no_new {A} (m : M Store A) :
  preserves same_registry m -> preserves no_new_candidate m.
Proof. apply preserves_mono. intros s s' (? & ? & He). rw /no_new_candidate. by rw He. Qed.
Lemma Init_frame a i : preserves no_new_candidate (EpochRewardsManager.Init a i).
Proof.
  rw /EpochRewardsManager.Init /EpochRewardsManager.AddGlobalStake
     /EpochRewardsManager.GetGlobalRewardsInfo /rewards_put /global_rewards_get
     /global_rewards_put /get_elections /modify_elections.
  repeat (apply preserves_bind; [apply _| |intros ?]); try apply preserves_gets;
    try apply preserves_ret; try apply _; by apply preserves_modify.
Qed.
End Candidates.

(** ** The effect of a request *)
Section Effect.
Context {L : Lmdb} {LL : LmdbLaws L} {B : Blake2b}.

(** What [r] has done to the registry once it is applied. *)
Definition applied (r : Governance) (s s' : Store) : Prop :=
  request_db s' = mdb_put (GetHash r) r (request_db s) /\
  (forall x, mdb_get x (representative_db s') =
     if decide (gr_origin r = x) then rep_after r (mdb_get x (representative_db s))
     else mdb_get x (representative_db s)) /\
  epoch_db (elections s') = epoch_db (elections s) /\
  epoch_tip_db (elections s') = epoch_tip_db (elections s) /\
  (forall x, mdb_get x (candidates s') <> None ->
     mdb_get x (candidates s) <> None \/ (gr_origin r = x /\ is_announce r = true)).

Lemma applied_frame r s s' s'' : applied r s s' -> no_new_candidate s' s'' -> applied r s s''.
Proof.
  intros (Hq & Hr & He & Ht & Hc) (Hr' & Hq' & He' & Ht' & Hc').
  split_and!; [congruence| |congruence|congruence|auto]. intros x. by rw Hr'.
Qed.
Lemma applied_then {A} (m : M Store A) r s s' :
  applied r s s' -> preserves no_new_candidate m -> wlp m (fun _ s'' => applied r s s'') s'.
Proof.
  intros Ha Hm. eapply wpg_mono; [apply Hm|]. intros ? s'' Hf. by eapply applied_frame.
Qed.
Lemma applied_stake {A} (m : M Store A) r s s' :
  applied r s s' -> preserves same_registry m -> wlp m (fun _ s'' => applied r s s'') s'.
Proof. intros Ha Hm. by apply applied_then, registry_no_new. Qed.

(** The request is stored and nothing else happened. *)
Lemma applied_put r s s' :
  request_db s' = mdb_put (GetHash r) r (request_db s) ->
  representative_db s' = representative_db s -> no_new_candidate s (set_request_db (request_db s) s') ->
  (forall old, rep_after r old = old) -> applied r s s'.
Proof.
  intros Hq Hr (_ & _ & He & Ht & Hc) Ho. split_and!; try done; [|auto].
  intros x. rw Hr Ho. by case_decide.
Qed.
(** The request is stored and its origin gets a new record. *)
Lemma applied_rep r rep s s' :
  request_db s' = mdb_put (GetHash r) r (request_db s) ->
  representative_db s' = mdb_put (gr_origin r) rep (representative_db s) ->
  rep_after r (mdb_get (gr_origin r) (representative_db s)) = Some rep ->
  epoch_db (elections s') = epoch_db (elections s) ->
  epoch_tip_db (elections s') = epoch_tip_db (elections s) ->
  (forall x, mdb_get x (candidates s') <> None ->
     mdb_get x (candidates s) <> None \/ (gr_origin r = x /\ is_announce r = true)) ->
  applied r s s'.
Proof.
  intros Hq Hr Hn He Ht Hc. split_and!; try done. intros x. rw Hr get_put.
  case_decide as Hx; [subst x; by rw decide_True // Hn|by rw decide_False].
Qed.

Lemma apply_start r set_stake stake levy info s :
  gr_body r = StartRepresenting set_stake stake levy ->
  wlp (ApplyStartRepresenting r levy info) (fun _ s' => applied r s s') s.
Proof.
  intros Hb. apply wpg_bind, wpg_modify, wpg_bind, wpg_modify.
  apply applied_stake; [|apply apply_stake_registry].
  eapply applied_rep; try reflexivity; [by rw /rep_after Hb|by auto].
Qed.
Lemma apply_stop r set_stake stake info s :
  gr_body r = StopRepresenting set_stake stake ->
  wlp (ApplyStopRepresenting r info) (fun _ s' => applied r s s') s.
Proof.
  intros Hb. apply wpg_bind, wpg_bind, wpg_gets.
  destruct (mdb_get _ _) as [rep|] eqn:Hr; [|done].
  apply wpg_bind, wpg_modify, wpg_bind, wp_modify_elections, wpg_bind, wpg_modify.
  apply applied_stake; [|apply apply_stake_registry].
  eapply applied_rep; try reflexivity; [by rw /rep_after Hb Hr|by auto].
Qed.
Lemma apply_vote r votes info s :
  gr_body r = ElectionVote votes ->
  wlp (ApplyElectionVote r votes info) (fun _ s' => applied r s s') s.
Proof.
  intros Hb. apply wpg_bind, wpg_modify, wpg_bind, wpg_bind, wpg_gets. cbn [representative_db].
  destruct (mdb_get _ _) as [rep|] eqn:Hr; [|done].
  apply wpg_bind, wpg_modify. apply applied_then.
  - eapply applied_rep; try reflexivity; [by rw /rep_after Hb Hr|by auto].
  - apply preserves_bind; [apply _| |intros w].
    { apply registry_no_new. rw /GetCurrentVotingPower /GetVotingPowerInfo /transition_stored
        /voting_power_get /fallback_voting_power_get. leaves_registry. }
    apply preserves_bind; [apply _|apply add_votes_frame|intros _].
    apply preserves_bind; [apply _| |intros [vpi|]; [|by apply preserves_halt]].
    { apply registry_no_new. rw /GetVotingPowerInfo_epoch /GetVotingPowerInfo /transition_stored
        /voting_power_get. leaves_registry. }
    apply preserves_bind; [apply _|apply Init_frame|intros _]. by frame_step.
Qed.

Lemma add_to_candidates_reads o : preserves eq (add_to_candidates_db o).
Proof. rw /add_to_candidates_db. solve_frame. Qed.
(** The candidate that AnnounceCandidacy stores is known before anything is written. *)
Lemma announced_reads r (set_stake : bool) (c : CandidateInfo) :
  preserves eq (if set_stake then mret c
                else
                  cur_stake ← StakingManager.GetCurrentStakedFunds (gr_origin r);
                  match cur_stake with
                  | None => halt "PersistenceManager::ApplyRequest"
                  | Some cur_stake => mret (set_next_stake (sf_amount cur_stake) c)
                  end).
Proof. solve_frame. Qed.

Lemma apply_announce r set_stake stake bls ecies levy info s :
  gr_body r = AnnounceCandidacy set_stake stake bls ecies levy ->
  wlp (ApplyAnnounceCandidacy r set_stake stake bls ecies levy info)
      (fun _ s' => applied r s s') s.
Proof.
  intros Hb. apply wpg_bind, wpg_gets, wpg_bind. eapply wpg_mono; [apply announced_reads|].
  intros c s1 <-. apply wpg_bind, wpg_modify, wpg_bind.
  eapply wpg_mono; [apply add_to_candidates_reads|]. intros add s2 <-. apply wpg_bind.
  assert (is_announce r = true) as Ha.
  { apply bool_decide_eq_true. by rw /gr_type Hb. }
  destruct add.
  - eapply wpg_mono; [apply candidate_put_tables|]. intros _ s2 (Hr & Hq & He & Ht & Hc).
    apply wpg_bind, wpg_modify. apply applied_stake; [|apply apply_stake_registry].
    eapply applied_rep; cbn; rw ?Hq ?Hr ?He ?Ht ?Hc; try reflexivity; [by rw /rep_after Hb|].
    intros x. rw get_put. case_decide; auto.
  - apply wpg_ret, wpg_bind, wpg_modify. apply applied_stake; [|apply apply_stake_registry].
    eapply applied_rep; try reflexivity; [by rw /rep_after Hb|by auto].
Qed.

Lemma apply_renounce r set_stake stake info s :
  gr_body r = RenounceCandidacy set_stake stake ->
  wlp (ApplyRenounceCandidacy r set_stake stake info) (fun _ s' => applied r s s') s.
Proof.
  intros Hb. apply wpg_bind, wp_get_elections, wpg_bind. eapply wpg_mono.
  { instantiate (1 := fun _ s' => no_new_candidate s s').
    case_match; [|by apply wpg_ret]. apply wpg_bind, wp_modify_elections.
    eapply wpg_mono; [apply update_candidate_frame|]. intros ? s' Hf. exact Hf. }
  intros _ s1 (Hr & Hq & He & Ht & Hc). apply wpg_bind, wpg_bind, wpg_gets. rw Hr.
  destruct (mdb_get _ _) as [rep|] eqn:Hg; [|done].
  apply wpg_bind, wpg_modify, wpg_bind, wpg_modify.
  apply applied_stake; [|apply apply_stake_registry].
  eapply applied_rep; cbn; rw ?Hq ?Hr ?He ?Ht; try reflexivity; [by rw /rep_after Hb Hg|by auto].
Qed.

Lemma apply_stake_request r amount info s :
  (forall old, rep_after r old = old) ->
  wlp (ApplyStake r amount info) (fun _ s' => applied r s s') s.
Proof.
  intros Ho. apply wpg_bind, wpg_modify, wpg_bind. eapply wpg_mono.
  { apply applied_stake; [|apply Stake_registry]. by apply applied_put. }
  intros info' s' Ha. apply wpg_bind. eapply wpg_mono.
  { eapply applied_then; [exact Ha|apply update_candidate_frame]. }
  intros ? s'' Ha'. by apply wpg_ret.
Qed.

(** Every branch of ApplyRequest. *)
Lemma ApplyRequest_applied r info s : wlp (ApplyRequest r info) (fun _ s' => applied r s s') s.
Proof.
  rw /ApplyRequest. destruct (gr_body r) eqn:Hb.
  - apply wpg_bind, wpg_modify. apply applied_stake; [|apply Stake_registry].
    apply applied_put; try done. intros old. by rw /rep_after Hb.
  - apply apply_stake_request. intros old. by rw /rep_after Hb.
  - apply apply_stake_request. intros old. by rw /rep_after Hb.
  - by apply apply_vote.
  - by apply apply_announce.
  - by eapply apply_renounce.
  - by eapply apply_start.
  - by eapply apply_stop.
Qed.
End Effect.
