(* ===== verification/GovernanceTheorems.v ===== *)
(** * Governance: what validation and application guarantee

    Applied requests keep the registry well formed, so that validation never
    runs into an assertion; a representative votes once per epoch, and a vote
    that is validated is counted. *)
From stdpp Require Import base list numbers strings gmap ssreflect.
From S2P Require Import Prelude Serial Lmdb StakingTypes Requests Epochs BlockStore Liabilities VotingPower AccountInfo Staking StakingFunds Elections EpochRewards Governance GovernanceFrames GovernanceRegistry GovernanceEffects.
Import VotingPowerManager BlockStoreElections RequestPersistence.
Open Scope Z_scope.

(** ** The registry stays well formed *)
Section Preservation.
Context {L : Lmdb} {LL : LmdbLaws L} {B : Blake2b} {BC : Blake2bCollisionFree B}.
Variables (r : Governance) (s s' : Store).
Hypotheses (Hok : registry_ok s) (Hwf : Governance_wf r) (Hh : GetHash r <> 0)
  (Happ : applied r s s').

(** A stored request keeps its type, origin and epoch: the request applied
    overwrites only one with the same digest. *)
Lemma request_kept h q :
  mdb_get h (request_db s) = Some q ->
  exists q', mdb_get h (request_db s') = Some q' /\ gr_type q' = gr_type q /\
    gr_origin q' = gr_origin q /\ gr_epoch_num q' = gr_epoch_num q.
Proof.
  intros Hg. destruct Happ as (Hq & _). rw Hq get_put. case_decide as Hd; [|by exists q].
  subst h. destruct (ro_request s Hok _ _ Hg) as [Hk Hw].
  destruct (GetHash_inj r q Hwf Hw Hk) as (? & ? & ? & _). by exists r.
Qed.
Lemma stored_kept verify a h : stored verify a h s -> stored verify a h s'.
Proof.
  intros (q & (q' & ? & Ht & Ho & _)%request_kept & ? & <-). exists q'. by rw Ht.
Qed.
Lemma stored_new verify : verify (gr_type r) = true -> stored verify (gr_origin r) (GetHash r) s'.
Proof. intros Hv. exists r. destruct Happ as (-> & _). by rw get_put_eq. Qed.
Lemma rep_kept a rep : rep_ok a rep s -> rep_ok a rep s'.
Proof. intros [[? ?] ? ?]. split; [split|..]; auto using stored_kept. Qed.

Lemma rep_after_ok rep :
  rep_after r (mdb_get (gr_origin r) (representative_db s)) = Some rep ->
  rep_ok (gr_origin r) rep s'.
Proof.
  pose proof (fun rep => ro_rep s Hok (gr_origin r) rep) as Hold.
  assert (forall verify, verify (body_type (gr_body r)) = true ->
    stored verify (gr_origin r) (GetHash r) s') as Hnew by (intros; by apply stored_new).
  rw /rep_after. destruct (gr_body r); cbn in Hnew; intros Ha.
  1-3: by apply rep_kept, Hold.
  1, 3, 5: destruct (mdb_get _ _) as [o|]; [|done]; injection Ha as <-;
    destruct (rep_kept _ _ (Hold o eq_refl)) as [[? ?] ? ?]; split; [split|..]; cbn; auto.
  - injection Ha as <-. destruct (mdb_get _ _) as [o|]; cbn [default].
    + destruct (rep_kept _ _ (Hold o eq_refl)) as [[? ?] ? ?]. split; [split|..]; cbn; auto.
    + split; [split|..]; cbn; auto. done.
  - injection Ha as <-. split; [split|..]; cbn; auto; done.
Qed.

Lemma applied_registry :
  (is_start r = true -> mdb_get (gr_origin r) (candidates s) = None) -> registry_ok s'.
Proof.
  intros Hst. pose proof Happ as (Hq & Hr & _ & _ & Hc). split.
  - intros h q. rw Hq get_put. case_decide; [by intros [= <-]; subst|by apply ro_request].
  - intros a rep. rw Hr. case_decide as Ha; [subst a; by apply rep_after_ok|].
    intros Hg. by apply rep_kept, ro_rep.
  - intros a c Ha. destruct (Hc a) as [Hold|[<- Hann]]; [by rw Ha| |].
    + destruct (mdb_get a (candidates s)) as [c0|] eqn:Hg; [|done].
      destruct (ro_candidate s Hok a c0 Hg) as (rep & Hrep & H0). rw Hr.
      case_decide as Hd; [subst a|by eauto]. rw Hrep.
      rw /is_start /gr_type in Hst. rw /rep_after.
      destruct (gr_body r); cbn; eauto. by specialize (Hst eq_refl); rw Hst in Hg.
    + rw Hr decide_True // /rep_after. apply bool_decide_eq_true in Hann. rw /gr_type in Hann.
      destruct (gr_body r); try done. by eauto.
Qed.
Lemma applied_tip : tip_stored s -> tip_stored s'.
Proof.
  intros (tip & eb & Ht & H0 & He). exists tip, eb.
  by destruct Happ as (_ & _ & -> & -> & _).
Qed.
End Preservation.

(** ** What a valid request satisfies *)
Section Validated.
Context {L : Lmdb} {B : Blake2b}.

(** When [m] returns [Valid], [P] holds. *)
Definition valid_only (P : Prop) (m : M Store validation) (s : Store) : Prop :=
  wlp m (fun v _ => v = Valid -> P) s.

Lemma valid_ret P v (s : Store) : (v = Valid -> P) -> valid_only P (mret v) s.
Proof. done. Qed.
Lemma valid_reject P code (s : Store) : valid_only P (reject code) s.
Proof. done. Qed.
Lemma valid_known (P : Prop) m s : P -> valid_only P m s.
Proof. intros HP. rw /valid_only /wpg. by destruct (m s) as [[]|]. Qed.
Lemma valid_read {A} P (m : M Store A) (f : A -> M Store validation) s :
  preserves eq m -> (forall a, m s = Ok (a, s) -> valid_only P (f a) s) ->
  valid_only P (m ≫= f) s.
Proof.
  intros Hm Hf. apply wpg_bind. pose proof (Hm s) as Hs. move: Hs. rw {1 2}/wpg.
  destruct (m s) as [[a s']|] eqn:Hr; [intros <-|done]. by apply Hf.
Qed.
Lemma valid_gets {A} P (g : Store -> A) (f : A -> M Store validation) s :
  valid_only P (f (g s)) s -> valid_only P (gets g ≫= f) s.
Proof. intros Hf. by apply wpg_bind, wpg_gets. Qed.

(** A request that is valid is of the current epoch. *)
Lemma valid_epoch el r info e s :
  valid_only (gr_epoch_num r = e) (ValidateRequest el r info e) s.
Proof.
  assert (gr_epoch_num r = e \/ gr_epoch_num r <> e) as [He|He%Z.eqb_neq] by lia;
    [by apply valid_known|].
  rw /ValidateRequest. case_match;
    rw /ValidateProxy /ValidateStakeRequest /ValidateUnstake /ValidateElectionVote
       /ValidateAnnounceCandidacy /ValidateRenounceCandidacy /ValidateStartRepresenting
       /ValidateStopRepresenting He; try done; by case_match.
Qed.

(** The action that made [a] a representative, or ended it. *)
Definition action_of (a : AccountAddress) (act : Governance) (s : Store) : Prop :=
  exists rep, mdb_get a (representative_db s) = Some rep /\
    mdb_get (rep_action_tip rep) (request_db s) = Some act.

Lemma action_request_run verify h q s :
  action_request verify h s = Ok (q, s) ->
  mdb_get h (request_db s) = Some q /\ verify (gr_type q) = true.
Proof.
  rw /action_request /request_get /gets /mbind /M_bind. destruct (mdb_get _ _) as [q'|]; [|done].
  rw /massert. destruct (verify _) eqn:Hv; [|done]. by intros [= <-].
Qed.
Lemma rep_action_run rep q s :
  rep_action rep s = Ok (q, s) ->
  mdb_get (rep_action_tip rep) (request_db s) = Some q /\ VerifyRepActionType (gr_type q) = true.
Proof.
  rw /rep_action. intros (u & s1 & Hm & Ha)%bind_ok. move: Hm. rw /massert.
  case_match; [|done]. intros [= <- <-]. by apply action_request_run in Ha.
Qed.

(** StartRepresenting is valid only for an account that is not a
    representative, or stopped to be one in another epoch. *)
Lemma valid_start el r info e s :
  is_start r = true ->
  valid_only (forall act, action_of (gr_origin r) act s ->
                is_stop act = true /\ gr_epoch_num act <> e) (ValidateRequest el r info e) s.
Proof.
  intros Hs. rw /ValidateRequest. apply bool_decide_eq_true in Hs. rw /gr_type in Hs.
  destruct (gr_body r); try done. rw /ValidateStartRepresenting.
  do 2 (case_match; [done|]). apply valid_read; [apply IsDeadPeriod_reads|]. intros dead _.
  do 2 (case_match; [done|]). apply valid_gets.
  destruct (mdb_get _ _) as [rep|] eqn:Hr.
  - apply valid_read; [apply rep_action_reads|]. intros q [Hq Hv]%rep_action_run.
    destruct (is_start q || is_announce q) eqn:Hk; [done|].
    destruct (Z.eqb_spec (GetEpochNum q) e) as [|Hne]; [done|]. apply valid_known.
    intros act (rep' & Hr' & Hact). simplify_eq. split; [|done].
    move: Hk Hv. rw /is_start /is_announce /is_stop. by destruct (gr_type q).
  - apply valid_known. intros act (rep' & Hr' & _). congruence.
Qed.
(** A vote is valid only for an account that has not stopped to represent
    before the epoch and has not voted in it. *)
Definition may_vote (a : AccountAddress) (e : Z) (s : Store) : Prop :=
  exists rep act, mdb_get a (representative_db s) = Some rep /\
    mdb_get (rep_action_tip rep) (request_db s) = Some act /\
    VerifyRepActionType (gr_type act) = true /\
    (is_stop act = true -> e <= gr_epoch_num act) /\
    (is_stop act = false -> gr_epoch_num act <> e) /\
    (election_vote_tip rep <> 0 -> exists q,
       mdb_get (election_vote_tip rep) (request_db s) = Some q /\ gr_epoch_num q <> e).
Lemma valid_vote el r votes info e s :
  gr_body r = ElectionVote votes ->
  valid_only (may_vote (gr_origin r) e s /\ value_of (validate_votes e votes 0) s = Some Valid)
    (ValidateRequest el r info e) s.
Proof.
  intros Hb. rw /ValidateRequest Hb /ValidateElectionVote.
  do 3 (case_match; [done|]). apply valid_read; [apply IsDeadPeriod_reads|]. intros dead _.
  case_match; [done|]. apply valid_gets. destruct (mdb_get _ _) as [rep|] eqn:Hr; [|done].
  apply valid_read; [apply rep_action_reads|]. intros act [Hact Hv]%rep_action_run.
  destruct (_ && _) eqn:Hpend; [done|]. destruct (is_stop act && _) eqn:Hstop; [done|].
  apply valid_read; [apply already_voted_in_reads|]. intros voted Hvoted.
  destruct voted; [done|]. rw /valid_only /wpg /value_of.
  destruct (validate_votes e votes 0 s) as [[v s1]|]; [intros ->; split; [|done]|done].
  exists rep, act. split_and!; try done.
  - intros Hs. rw Hs in Hstop. by apply Z.ltb_ge in Hstop.
  - intros Hs He. apply andb_false_iff in Hpend as [Hpend|Hpend%Z.eqb_neq]; [|done].
    move: Hs Hv Hpend. rw /is_start /is_announce /is_stop. by destruct (gr_type act).
  - intros Hnz%Z.eqb_neq. move: Hvoted. rw /already_voted_in Hnz.
    intros (q & s2 & Hq & Hret)%bind_ok.
    pose proof (preserves_ok eq _ _ _ _ (action_request_reads _ _) Hq) as <-.
    apply action_request_run in Hq as [Hq _]. exists q. split; [done|].
    injection Hret as Hret. by apply Z.eqb_neq.
Qed.
End Validated.

(** ** Requests of one epoch, each validated where it is applied *)
Section Runs.
Context {L : Lmdb} {LL : LmdbLaws L} {B : Blake2b} {BC : Blake2bCollisionFree B}.
Variables (el : bool) (e : Z).

(** Zero is not a digest: it stands for the absence of a request. An account
    that starts to represent is not a candidate: the record of a
    representative that stopped goes with the epoch, its candidacy before. *)
Record governance_step (r : Governance) (s s' : Store) : Prop := {
  gs_wf : Governance_wf r;
  gs_hash : GetHash r <> 0;
  gs_start : is_start r = true -> mdb_get (gr_origin r) (candidates s) = None;
  gs_run : exists info info', ValidateRequest el r info e s = Ok (Valid, s) /\
    ApplyRequest r info s = Ok (info', s');
}.
(** Requests applied, whether validated or not. *)
Inductive applied_run : list Governance -> Store -> Store -> Prop :=
| applied_nil s : applied_run [] s s
| applied_cons r rs info info' s s1 s2 :
    Governance_wf r -> GetHash r <> 0 ->
    (is_start r = true -> mdb_get (gr_origin r) (candidates s) = None) ->
    ApplyRequest r info s = Ok (info', s1) -> applied_run rs s1 s2 ->
    applied_run (r :: rs) s s2.
Inductive governance_run : list Governance -> Store -> Store -> Prop :=
| run_nil s : governance_run [] s s
| run_cons r rs s s1 s2 :
    governance_step r s s1 -> governance_run rs s1 s2 -> governance_run (r :: rs) s s2.

Lemma step_applied r s s' : governance_step r s s' -> applied r s s'.
Proof.
  intros [_ _ _ (info & info' & _ & Ha)].
  by apply (wlp_ok _ _ _ _ _ (ApplyRequest_applied r info s)) in Ha.
Qed.
Lemma step_registry r s s' : registry_ok s -> governance_step r s s' -> registry_ok s'.
Proof.
  intros Hok Hs. pose proof (step_applied r s s' Hs) as Ha. destruct Hs as [? ? ? _].
  by apply (applied_registry r s s').
Qed.
Lemma run_registry rs s s' :
  registry_ok s -> tip_stored s -> governance_run rs s s' -> registry_ok s' /\ tip_stored s'.
Proof.
  intros Hok Ht Hr. induction Hr as [|r rs s s1 s2 Hs _ IH]; [done|].
  apply IH; [by apply (step_registry r s)|]. by apply (applied_tip r s), Ht; apply step_applied.
Qed.
Lemma step_valid (P : Prop) r s s' :
  (forall info, valid_only P (ValidateRequest el r info e) s) -> governance_step r s s' -> P.
Proof.
  intros Hv [_ _ _ (info & info' & Hval & _)]. by apply (wlp_ok _ _ _ _ _ (Hv info)) in Hval; auto.
Qed.

(** [a] has voted in the epoch, and is a representative or has stopped to be
    one in the epoch. *)
Definition has_voted (a : AccountAddress) (s : Store) : Prop :=
  exists rep act vote, mdb_get a (representative_db s) = Some rep /\
    mdb_get (rep_action_tip rep) (request_db s) = Some act /\
    (is_stop act = true -> gr_epoch_num act = e) /\
    election_vote_tip rep <> 0 /\
    mdb_get (election_vote_tip rep) (request_db s) = Some vote /\ gr_epoch_num vote = e.

Lemma has_voted_after a r s s' :
  registry_ok s -> governance_step r s s' ->
  has_voted a s \/ (is_vote_type (gr_type r) = true /\ gr_origin r = a /\
                    forall h q, mdb_get h (request_db s) = Some q -> gr_epoch_num q <= e) ->
  has_voted a s'.
Proof.
  intros Hok Hs Hcase. pose proof (step_applied r s s' Hs) as Happ.
  assert (gr_epoch_num r = e) as He.
  { apply (step_valid _ r s s'); [|done]. intros. apply valid_epoch. }
  pose proof (request_kept r s s' Hok (gs_wf _ _ _ Hs) Happ) as Hkeep.
  assert (mdb_get (GetHash r) (request_db s') = Some r) as Hnew.
  { destruct Happ as (-> & _). by rw get_put_eq. }
  pose proof (gs_hash _ _ _ Hs) as Hh. destruct Happ as (_ & Hrep & _).
  destruct Hcase as [(rep & act & vote & Hr & Hact & Hst & H0 & Hvote & Hev)|(Hv & Ho & Hle)].
  - destruct (Hkeep _ _ Hact) as (act' & Hact' & Hty & _ & Hep).
    destruct (Hkeep _ _ Hvote) as (vote' & Hvote' & _ & _ & Hve).
    assert (is_stop act' = true -> gr_epoch_num act' = e) as Hst' by (rw /is_stop Hty Hep; auto).
    rw /has_voted Hrep. case_decide as Ho.
    2: { exists rep, act', vote'. split_and!; try done. by rw Hve. }
    rw Hr /rep_after. destruct (gr_body r) eqn:Hb; cbn [fmap option_fmap option_map default].
    1-3, 5-6: eexists _, act', vote'; split_and!; try done; by rw Hve.
    + eexists _, act', r. by split_and!.
    + exfalso. assert (forall act, action_of (gr_origin r) act s ->
                is_stop act = true /\ gr_epoch_num act <> e) as Hn.
      { apply (step_valid _ r s s'); [|done]. intros. apply valid_start.
        by rw /is_start /gr_type Hb. }
      destruct (Hn act) as [? Hne]; [by exists rep; subst|]. by apply Hne, Hst.
    + eexists _, r, vote'. split_and!; try done. by rw Hve.
  - rw /gr_type in Hv. destruct (gr_body r) as [| | |votes| | | |] eqn:Hb; try done.
    assert (may_vote (gr_origin r) e s /\ value_of (validate_votes e votes 0) s = Some Valid)
      as [(rep & act & Hr & Hact & _ & Hstop & _) _].
    { apply (step_valid _ r s s'); [|done]. intros. by apply valid_vote. }
    destruct (Hkeep _ _ Hact) as (act' & Hact' & Hty & _ & Hep).
    rw /has_voted Hrep decide_True // -Ho Hr /rep_after Hb. eexists _, act', r. split_and!; try done.
    rw /is_stop Hty Hep. intros Hs'%Hstop. specialize (Hle _ _ Hact). lia.
Qed.

Lemma run_has_voted a rs s s' :
  registry_ok s -> governance_run rs s s' -> has_voted a s -> has_voted a s'.
Proof.
  intros Hok Hr. induction Hr as [|r rs s s1 s2 Hs _ IH]; [done|]. intros Hv.
  apply IH; [by apply (step_registry r s)|]. apply (has_voted_after a r s); auto.
Qed.
Lemma has_voted_invalid a r votes info s :
  has_voted a s -> gr_body r = ElectionVote votes -> gr_origin r = a ->
  valid_only False (ValidateRequest el r info e) s.
Proof.
  intros (rep & act & vote & Hr & _ & _ & H0 & Hvote & Hev) Hb Ho.
  eapply wpg_mono; [by apply (valid_vote el r votes info e s Hb)|].
  intros v ? Hv Hvalid. destruct (Hv Hvalid) as [(rep' & act' & Hr' & _ & _ & _ & _ & Hq) _].
  rw Ho in Hr'. simplify_eq. destruct (Hq H0) as (q & Hq' & Hne). congruence.
Qed.
End Runs.

Section Results.
Context {L : Lmdb} {LL : LmdbLaws L} {B : Blake2b} {BC : Blake2bCollisionFree B}.



(** C17 A representative votes at most once in an epoch: once its vote has been
    validated and applied, and after any further requests of the epoch,
    whoever sends them, every other vote of the representative is rejected. *)
Theorem one_vote_per_epoch el e r rs s s' r2 votes info :
  registry_ok s -> tip_stored s ->
  (forall h q, mdb_get h (request_db s) = Some q -> gr_epoch_num q <= e) ->
  is_vote_type (gr_type r) = true -> governance_run el e (r :: rs) s s' ->
  gr_body r2 = ElectionVote votes -> gr_origin r2 = gr_origin r ->
  exists code, ValidateRequest el r2 info e s' = Ok (Invalid code, s').
Proof.
  intros Hok Ht Hle Hv Hr Hb Ho. pose proof (run_registry el e _ _ _ Hok Ht Hr) as [Hok' Ht'].
  inversion Hr as [|? ? ? s1 ? Hs Hrs]; subst.
  assert (has_voted e (gr_origin r) s') as Hvoted.
  { eapply run_has_voted; [|exact Hrs|]; [by apply (step_registry el e r s)|].
    apply (has_voted_after el e _ r s); auto. }
  pose proof (has_voted_invalid el e _ r2 votes info s' Hvoted Hb Ho) as Hn.
  assert (safe (ValidateRequest el r2 info e) s') as [v Hsafe].
  { rw /ValidateRequest Hb. by apply safe_vote. }
  destruct v as [|code]; [|by exists code]. by apply (wlp_ok _ _ _ _ _ Hn) in Hsafe.
Qed.
End Results.

(** ** Concrete runs *)

(** A store without liabilities. *)
Lemma liab_ok_no_liabilities {L : Lmdb} {LL : LmdbLaws L} {B : Blake2b} s :
  master_liabilities_db s = mdb_empty -> rep_liabilities_db s = dup_empty ->
  secondary_liabilities_db s = dup_empty -> liab_ok s.
Proof.
  intros Hm Hr Hs. split; rw ?Hm ?Hr ?Hs; intros *; rw ?get_empty ?dups_empty //.
  by intros ?%elem_of_nil.
Qed.

Section Concrete.
#[local] Instance L : Lmdb := gmap_lmdb.
#[local] Instance LL : LmdbLaws L := gmap_lmdb_laws.
#[local] Instance B : Blake2b := encode_blake2b.
#[local] Instance BC : Blake2bCollisionFree B := encode_blake2b_inj.

(** Account 5 has represented since epoch 48, account 1 has been a candidate
    since then, and the block of epoch 49 has been created. *)
Definition request_of (origin epoch : Z) (body : GovernanceBody) : Governance :=
  Build_Governance origin 0 0 0 0 0 (Build_Locator 0 0) epoch 0 body.
Definition start5 : Governance := request_of 5 48 (StartRepresenting false 0 100).
Definition announce1 : Governance :=
  request_of 1 48 (AnnounceCandidacy false 0 (replicate 64 0) [] 100).
Definition epoch49 (delegates : list Delegate) : ApprovedEB :=
  Build_ApprovedEB 0 49 (Build_Tip 49 0 0) 0 0 delegates 0 false 0.
Definition election_tables : ElectionTables :=
  set_epoch_tip_db (mdb_put 0 (Build_Tip 49 0 7) mdb_empty)
    (set_epoch_db (mdb_put 7 (epoch49 []) mdb_empty)
       (set_candidacy_db (mdb_put 1 (candidate 0 10) mdb_empty) no_elections)).
Definition power5 : VotingPowerInfo :=
  Build_VotingPowerInfo (Build_VotingPowerSnapshot 10 20 30) (Build_VotingPowerSnapshot 10 20 40) 49.
Definition election_store : Store :=
  Build_Store L mdb_empty dup_empty mdb_empty dup_empty dup_empty
    (mdb_put 5 power5 mdb_empty) mdb_empty
    (mdb_put 5 (RepInfo_of_start (GetHash start5) 100)
       (mdb_put 1 (RepInfo_of_announce (GetHash announce1) 100) mdb_empty))
    (mdb_put (GetHash start5) start5 (mdb_put (GetHash announce1) announce1 mdb_empty))
    election_tables.
Definition vote5 (n : Z) : Governance := request_of 5 50 (ElectionVote [(1, n)]).
Definition after_vote5 : Store :=
  state_after (ApplyRequest (vote5 3) (fresh_account 100)) election_store.

Lemma vote5_wf n : in_width 8 n -> Governance_wf (vote5 n).
Proof.
  intros Hn. rw /Governance_wf. split_and!; try done. split; [cbn; lia|].
  constructor; [by split|constructor].
Qed.
Lemma start5_wf : Governance_wf start5.
Proof. rw /Governance_wf. by split_and!. Qed.
Lemma announce1_wf : Governance_wf announce1.
Proof. rw /Governance_wf. split_and!; try done. cbn. split_and!; try done. lia. Qed.
Lemma election_store_ok : registry_ok election_store.
Proof.
  split.
  - intros h r. cbn [request_db election_store]. rw !get_put get_empty. repeat case_decide; intros [= <-]; subst h;
      auto using start5_wf, announce1_wf.
  - intros a rep. cbn [representative_db election_store]. rw !get_put get_empty.
    repeat case_decide; intros [= <-]; subst a; split; try done; (split; [done|]) || intros _.
    + exists start5. cbn [request_db election_store]. by rw get_put_eq.
    + exists announce1. split; [by_run|done].
    + exists announce1. split; [by_run|done].
  - intros a c. change (candidates election_store) with (mdb_put 1 (candidate 0 10) mdb_empty).
    rw get_put get_empty. case_decide; intros [= <-]. subst a.
    exists (RepInfo_of_announce (GetHash announce1) 100). split; [by_run|by vm_compute].
Qed.
Lemma election_store_tip : tip_stored election_store.
Proof. exists (Build_Tip 49 0 7), (epoch49 []). split; [by_run|]. split; [done|by_run]. Qed.
Lemma election_store_epochs h q :
  mdb_get h (request_db election_store) = Some q -> gr_epoch_num q <= 50.
Proof.
  cbn [request_db election_store]. rw !get_put get_empty. by repeat case_decide; intros [= <-].
Qed.
Lemma vote5_step : governance_step true 50 (vote5 3) election_store after_vote5.
Proof.
  split; [by apply vote5_wf|by vm_compute|done|].
  exists (fresh_account 100), (with_head (vote5 3) (fresh_account 100)). split; by_run.
Qed.
Lemma vote5_run : governance_run true 50 [vote5 3] election_store after_vote5.
Proof. apply (run_cons _ _ _ _ _ after_vote5); [exact vote5_step|constructor]. Qed.



Lemma one_vote_per_epoch_witness :
  governance_run true 50 [vote5 3] election_store after_vote5 /\
  exists code, ValidateRequest true (vote5 2) (fresh_account 100) 50 after_vote5
               = Ok (Invalid code, after_vote5).
Proof.
  split; [exact vote5_run|].
  apply (one_vote_per_epoch true 50 (vote5 3) [] election_store after_vote5 (vote5 2) [(1, 2)]).
  - exact election_store_ok.
  - exact election_store_tip.
  - exact election_store_epochs.
  - reflexivity.
  - exact vote5_run.
  - reflexivity.
  - reflexivity.
Defined.
End Concrete.
