(* ===== verification/GovernanceVotes.v ===== *)
(** * Votes are counted

    The life of an election vote: a vote that ValidateRequest accepts is
    applied to completion by ApplyRequest, with the voting power its epoch
    gives the representative, and the stake of the representative is
    registered for the rewards of the epoch. *)
From Stdlib Require Import QArith.QArith_base.
From stdpp Require Import base list numbers strings gmap ssreflect.
From S2P Require Import Prelude Serial Lmdb StakingTypes Requests Epochs BlockStore Liabilities VotingPower AccountInfo Staking StakingFunds Elections EpochRewards Governance GovernanceFrames GovernanceRegistry GovernanceEffects GovernanceTheorems.
Import VotingPowerManager BlockStoreElections RequestPersistence.
Open Scope Z_scope.

(** ** The power of a vote *)
Section Power.
Context {L : Lmdb} {LL : LmdbLaws L}.

(** The power with which a vote of epoch [e] is counted: that of the record
    brought to the epoch or, when the record is already of a later epoch, the
    one kept in the fallback table. *)
Definition vote_power (e : Z) (rep : AccountAddress) (s : Store) : option Amount :=
  info ← mdb_get rep (voting_power_db s);
  if e <? vp_epoch_modified info
  then vf_power <$> mdb_get rep (voting_power_fallback_db s)
  else Some (GetPower (transitioned info e)).

Lemma transition_stored_ok info rep e s :
  registered rep s -> mdb_get rep (voting_power_db s) = Some info ->
  wp (transition_stored info rep e) (fun info' s' =>
    info' = transitioned info e /\ power_frame s s' /\
    mdb_get rep (voting_power_db s') = Some (transitioned info e) /\
    (e <= vp_epoch_modified info -> s' = s)) s.
Proof.
  intros Hr Hi. rw /transition_stored. apply wpg_bind.
  destruct (Z.ltb_spec (vp_epoch_modified info) e) as [Hlt|Hge].
  - eapply wpg_mono; [by apply Transition_ok|].
    rw (proj2 (Z.ltb_lt _ _) Hlt). intros _ s' (-> & _ & Hf & Hv). cbn [fst snd].
    apply wpg_bind. rw /StoreOrPrune /CanPrune. apply wpg_bind.
    destruct (registered_frame _ _ _ Hf Hr) as (ri & Hri & _).
    assert (wp (CanPrune rep (transitioned info e)) (fun c s'' => c = false /\ s'' = s') s') as Hc.
    { rw /CanPrune. case_match; [by apply wpg_ret|]. apply wpg_bind, wpg_gets. by rw Hri. }
    eapply wpg_mono; [exact Hc|]. intros c s'' [-> ->]. apply wpg_modify, wpg_ret.
    split_and!; [done| |by rw /= get_put_eq|lia].
    etransitivity; [exact Hf|done].
  - rw /TransitionIfNecessary (proj2 (Z.ltb_ge _ _) Hge). apply wpg_ret, wpg_bind, wpg_ret, wpg_ret.
    by rw /transitioned (proj2 (Z.ltb_ge _ _) Hge).
Qed.
Lemma transitioned_again info e : transitioned (transitioned info e) e = transitioned info e.
Proof.
  rw {2 3}/transitioned. destruct (_ <? _) eqn:Hlt; rw /transitioned /= ?Hlt ?Z.ltb_irrefl //.
Qed.
Lemma transitioned_epoch info e : e <= vp_epoch_modified (transitioned info e).
Proof. rw /transitioned. destruct (Z.ltb_spec (vp_epoch_modified info) e); cbn; lia. Qed.

Lemma GetCurrentVotingPower_ok info e rep p s :
  registered rep s -> mdb_get rep (voting_power_db s) = Some info ->
  vote_power e rep s = Some p ->
  wp (GetCurrentVotingPower rep e) (fun p' s' => p' = p /\ power_frame s s' /\
    mdb_get rep (voting_power_db s') = Some (transitioned info e)) s.
Proof.
  intros Hr Hi. rw /vote_power Hi. cbn [mbind option_bind]. intros Hp.
  apply wpg_bind, wpg_gets. rw Hi. apply wpg_bind.
  eapply wpg_mono; [by apply transition_stored_ok|]. intros _ s' (-> & Hf & Hv & Hsame).
  destruct (Z.ltb_spec e (vp_epoch_modified info)) as [Hlt|Hge].
  - rw Hsame; [|lia]. rw /transitioned (proj2 (Z.ltb_ge (vp_epoch_modified info) e)); [|lia].
    rw (proj2 (Z.ltb_lt _ _) Hlt). apply wpg_bind, wpg_gets.
    destruct (mdb_get rep (voting_power_fallback_db s)) as [f|]; [|done]. injection Hp as <-.
    by apply wpg_ret.
  - injection Hp as <-. destruct (Z.ltb_spec e (vp_epoch_modified (transitioned info e))) as [Hx|_].
    + move: Hx. rw /transitioned. destruct (Z.ltb_spec (vp_epoch_modified info) e); cbn; lia.
    + by apply wpg_ret.
Qed.
Lemma GetVotingPowerInfo_ok info e rep s :
  registered rep s -> mdb_get rep (voting_power_db s) = Some info -> e <= vp_epoch_modified info ->
  wp (GetVotingPowerInfo_epoch rep e) (fun o s' => o = Some info /\ s' = s) s.
Proof.
  intros Hr Hi He. apply wpg_bind, wpg_gets. rw Hi. apply wpg_bind.
  eapply wpg_mono; [by apply transition_stored_ok|]. intros _ s' (-> & _ & _ & Hs).
  apply wpg_ret. split; [|auto]. rw /transitioned.
  by destruct (Z.ltb_spec (vp_epoch_modified info) e); [lia|].
Qed.
End Power.

(** ** The ballot *)
Section Ballot.
Context {L : Lmdb} {LL : LmdbLaws L} {B : Blake2b}.

(** Accepted votes are for candidates, and at most eight. *)
Lemma validate_votes_ok e (votes : list (AccountAddress * Z)) : forall t s,
  0 <= t -> Forall (fun v : AccountAddress * Z => in_width 8 v.2) votes ->
  t + 256 * Z.of_nat (length votes) < 2 ^ 64 ->
  valid_only (Forall (fun v : AccountAddress * Z => mdb_get v.1 (candidates s) <> None) votes /\
              t + sumZ snd votes <= MAX_VOTES) (validate_votes e votes t) s.
Proof.
  induction votes as [|v votes IH]; intros t s Ht Hw Hlen; cbn [validate_votes].
  { apply valid_ret. case_match eqn:Hm; [|done]. intros _. split; [done|].
    apply Z.leb_le in Hm. cbn. lia. }
  apply Forall_cons in Hw as [Hv Hw]. rw /in_width in Hv. cbn [length] in Hlen.
  rw wrap_id; [|rw /in_width; lia]. apply valid_gets.
  destruct (mdb_get v.1 (candidates s)) eqn:Hc; [|done].
  assert (valid_only (Forall (fun v : AccountAddress * Z => mdb_get v.1 (candidates s) <> None) (v :: votes) /\
            t + sumZ snd (v :: votes) <= MAX_VOTES) (validate_votes e votes (t + v.2)) s) as Hrest.
  { eapply wpg_mono; [apply IH; [lia|done|lia]|]. intros x ? Hx Hval.
    destruct (Hx Hval) as [Hf Hs]. split; [constructor; [by rw Hc|done]|]. rw sumZ_cons. lia. }
  apply valid_gets. destruct (mdb_get v.1 (representative_db s)); [|done].
  apply valid_read; [by frame_step|]. intros _ _.
  apply valid_read; [apply candidacy_action_reads|]. intros q _. by repeat case_match.
Qed.

(** Without overflow a weighted vote is the product. *)
Lemma weighted_exact p (votes : list (AccountAddress * Z)) :
  0 <= p -> Forall (fun v : AccountAddress * Z => 0 <= v.2) votes -> sumZ snd votes <= MAX_VOTES ->
  MAX_VOTES * p < 2 ^ 128 ->
  weighted p votes = (fun v : AccountAddress * Z => (v.1, v.2 * p)) <$> votes /\
  sumZ snd (weighted p votes) = sumZ snd votes * p.
Proof.
  intros Hp. rw /weighted. induction votes as [|v votes IH]; [done|].
  intros [Hv Hvs]%Forall_cons. rw sumZ_cons !fmap_cons sumZ_cons. intros Hs Hm.
  assert (0 <= sumZ snd votes) as Hpos by (apply sumZ_nonneg; exact Hvs).
  destruct IH as [-> Hsum]; [done|lia|done|]. cbn [fst snd].
  rw /u128 wrap_id; [|rw /in_width; nia]. split; [done|]. rw Hsum. lia.
Qed.

(** The tables an election reads and writes. *)
Definition same_ballots (s s' : Store) : Prop :=
  candidates s' = candidates s /\
  leading_candidates_db (elections s') = leading_candidates_db (elections s) /\
  leading_candidates_size (elections s') = leading_candidates_size (elections s) /\
  min_leading_candidate (elections s') = min_leading_candidate (elections s).
Lemma counting_same `{!Blake2bCollisionFree B} e s0 done s s' :
  same_ballots s s' -> counting e s0 done s -> counting e s0 done s'.
Proof.
  intros (Hc & Hl & Hn & Hm) [(pool & Hp & [Ht Hs Hmin]) Hcand]. split.
  - exists pool. split; [done|]. split; rw ?Hl ?Hn ?Hm; done.
  - intros a. by rw Hc.
Qed.
Lemma registry_ballots s s' : same_registry s s' -> same_ballots s s'.
Proof. intros (_ & _ & He). rw /same_ballots. by rw He. Qed.

(** Voting power and the registry of representatives do not change with the votes. *)
Definition only_candidates (s s' : Store) : Prop :=
  representative_db s' = representative_db s /\ request_db s' = request_db s /\
  voting_power_db s' = voting_power_db s.
#[global] Instance only_candidates_preorder : PreOrder only_candidates.
Proof. split; [done|]. intros ??? (?&?&?) (?&?&?). split_and!; congruence. Qed.
Lemma candidate_put_power a c : preserves only_candidates (candidate_put a c).
Proof.
  intros s. apply wpg_bind, wp_modify_elections. eapply wpg_mono; [apply update_leading_frame|].
  intros ? s' (_ & _ & [Hv _] & Hr & Hq & _). by split_and!.
Qed.
Lemma add_votes_power e votes : preserves only_candidates (add_weighted_votes e votes).
Proof.
  induction votes as [|v votes IH]; cbn [add_weighted_votes]; [by frame_step|].
  apply preserves_bind; [apply _| |intros err].
  - rw /candidate_add_vote /candidate_get /get_elections. solve_frame; apply candidate_put_power.
  - apply preserves_bind; [apply _|by frame_step|]. auto.
Qed.
End Ballot.

(** ** A validated vote is counted *)
Section Counted.
Context {L : Lmdb} {LL : LmdbLaws L} {B : Blake2b} {BC : Blake2bCollisionFree B}.
Variables (e : Z) (s0 : Store).

(** What ApplyRequest registers for the rewards of the epoch. *)
Definition rewards_of (rep : RepInfo) (info : VotingPowerInfo) : RewardsInfo :=
  Build_RewardsInfo false (rep_levy_percentage rep)
    (amt_add (self_stake (vp_current info)) (locked_proxied (vp_current info)))
    (self_stake (vp_current info)) (0 # 1) (0 # 1).
Definition registered_reward (r : Governance) (reward : RewardsInfo) (s : Store) : Prop :=
  mdb_get (EpochRewardsManager.MakeKey (gr_origin r) (gr_epoch_num r)) (rewards_db (elections s))
  = Some reward.

Lemma Init_ok a i s :
  wp (EpochRewardsManager.Init a i) (fun _ s' => same_ballots s s' /\
    mdb_get (EpochRewardsManager.MakeKey a (re_epoch_number i)) (rewards_db (elections s')) =
      Some (Build_RewardsInfo false (re_levy_percentage i) (re_total_stake i)
              (re_self_stake i) (0 # 1) (0 # 1))) s.
Proof.
  apply wpg_bind, wp_modify_elections, wpg_bind, wpg_bind, wp_get_elections, wpg_ret,
    wp_modify_elections. split; [done|]. by rw /= get_put_eq.
Qed.

Lemma stored_vote_registered r rep s :
  is_election_vote r = true -> GetHash r <> 0 ->
  mdb_get (gr_origin r) (representative_db s) = Some rep -> election_vote_tip rep = GetHash r ->
  mdb_get (GetHash r) (request_db s) = Some r -> registered (gr_origin r) s.
Proof. intros Hv Hh Hr Ht Hq. exists rep. split; [done|]. rw Ht. by exists r. Qed.

Lemma apply_vote_counted r votes info rep base p done s :
  gr_epoch_num r = e -> gr_body r = ElectionVote votes -> GetHash r <> 0 ->
  mdb_get (gr_origin r) (representative_db s) = Some rep ->
  mdb_get (gr_origin r) (voting_power_db s) = Some base ->
  vote_power e (gr_origin r) s = Some p ->
  epoch_starts e s0 -> votes_wf s0 (done ++ weighted p votes) -> counting e s0 done s ->
  wp (ApplyElectionVote r votes info) (fun _ s' =>
    counting e s0 (done ++ weighted p votes) s' /\
    registered_reward r (rewards_of rep (transitioned base e)) s') s.
Proof.
  intros He Hb Hh Hrep Hbase Hp Hst Hv Hc.
  apply wpg_bind, wpg_modify, wpg_bind, wpg_bind, wpg_gets. cbn [representative_db set_request_db].
  rw Hrep. apply wpg_ret, wpg_bind, wpg_modify. rw He.
  set (s1 := set_representative_db _ _).
  assert (registered (gr_origin r) s1) as Hreg1.
  { eapply stored_vote_registered; [by rw /is_election_vote Hb|done|by apply get_put_eq|done|].
    by apply get_put_eq. }
  apply wpg_bind. eapply wpg_mono; [by apply (GetCurrentVotingPower_ok base)|].
  intros w s2 (-> & Hf & Hvp). destruct Hf as (_ & _ & Hreg).
  assert (counting e s0 done s2) as Hc2.
  { apply (counting_same e s0 done s1); [by apply registry_ballots|].
    by apply (counting_same e s0 done s). }
  apply wpg_bind. eapply wpg_mono.
  { apply (wpg_frame _ only_candidates); [apply add_votes_power|by apply counting_run]. }
  intros _ s3 [Hc3 (Hr3 & Hq3 & Hv3)].
  assert (registered (gr_origin r) s3) as Hreg3.
  { destruct Hreg as (Hr2 & Hq2 & _). destruct Hreg1 as (ri & H1 & H2).
    exists ri. by rw Hr3 Hr2 Hq3 Hq2. }
  apply wpg_bind. eapply wpg_mono.
  { apply (GetVotingPowerInfo_ok (transitioned base e)); [done|by rw Hv3|apply transitioned_epoch]. }
  intros _ s4 [-> ->]. apply wpg_bind. eapply wpg_mono; [apply Init_ok|].
  intros _ s5 [Hsame Hrw]. apply wpg_ret. split; [by apply (counting_same e s0 _ s3)|].
  by rw /registered_reward He.
Qed.
End Counted.

(** C16 Validated votes take effect: while the votes of an epoch are counted, a
    vote that ValidateRequest accepts is applied to completion by ApplyRequest;
    each of its candidates gains the number of votes times the power that the
    epoch gives the representative, and the representative's stake is
    registered for the rewards of the epoch. *)
Theorem validated_vote_is_counted {L : Lmdb} {LL : LmdbLaws L} {B : Blake2b}
    {BC : Blake2bCollisionFree B} el e s0 done s r votes info base p :
  epoch_starts e s0 -> votes_wf s0 done -> counting e s0 done s ->
  Governance_wf r -> GetHash r <> 0 -> gr_body r = ElectionVote votes ->
  ValidateRequest el r info e s = Ok (Valid, s) ->
  mdb_get (gr_origin r) (voting_power_db s) = Some base ->
  vote_power e (gr_origin r) s = Some p -> 0 <= p ->
  sumZ snd done + MAX_VOTES * p < 2 ^ 128 ->
  exists rep info' s', ApplyRequest r info s = Ok (info', s') /\
    mdb_get (gr_origin r) (representative_db s) = Some rep /\
    counting e s0 (done ++ ((fun v => (v.1, v.2 * p)) <$> votes)) s' /\
    registered_reward r (rewards_of rep (transitioned base e)) s'.
Proof.
  intros Hst [Hdone Hdsum] Hc Hwf Hh Hb Hval Hbase Hp Hp0 Hroom.
  pose proof (wlp_ok _ _ _ _ _ (valid_epoch el r info e s) Hval eq_refl) as He.
  pose proof (wlp_ok _ _ _ _ _ (valid_vote el r votes info e s Hb) Hval eq_refl)
    as [(rep & act & Hrep & _) Hvotes].
  assert ((length votes < 256)%nat /\ Forall (fun v => in_width 256 v.1 /\ in_width 8 v.2) votes)
    as [Hlen Hvw].
  { destruct Hwf as (_ & _ & _ & _ & _ & _ & _ & _ & _ & _ & Hbw). by rw Hb in Hbw. }
  assert (Forall (fun v : AccountAddress * Z => 0 <= v.2) votes) as Hpos.
  { eapply Forall_impl; [exact Hvw|]. by intros v [_ [? _]]. }
  apply run_value in Hvotes.
  eapply (wlp_ok _ _ _ _ _ (validate_votes_ok e votes 0 s _ _ _)) in Hvotes as [Hcand Hmax];
    [|done]. Unshelve.
  2: done. 2: { eapply Forall_impl; [exact Hvw|]. by intros v [_ ?]. } 2: lia.
  assert (0 <= sumZ snd done) as Hd0.
  { apply sumZ_nonneg. eapply Forall_impl; [exact Hdone|]. by intros v [? _]. }
  destruct (weighted_exact p votes) as [Hw Hsum]; [done|done|lia|change MAX_VOTES with 8 in *; lia|].
  rw -Hw. assert (votes_wf s0 (done ++ weighted p votes)) as Hvwf.
  { split.
    - apply Forall_app. split; [done|]. rw Hw. apply Forall_fmap, Forall_forall.
      intros v Hin. pose proof (proj1 (Forall_forall _ _) Hpos v Hin) as Hv0.
      split; [cbn in *; nia|]. pose proof (proj1 (Forall_forall _ _) Hcand v Hin) as Hvc.
      cbn in Hvc. rw (co_candidates _ _ _ _ Hc) in Hvc.
      cbn [fst]. by destruct (mdb_get v.1 (candidates s0)).
    - rw sumZ_app Hsum. nia. }
  pose proof (apply_vote_counted e s0 r votes info rep base p done s He Hb Hh Hrep Hbase Hp Hst
                Hvwf Hc) as Happ.
  apply wp_ok in Happ as (info' & s' & Hrun & Hc' & Hrw). exists rep, info', s'.
  split_and!; try done. by rw /ApplyRequest Hb.
Qed.

(** ** Concrete runs *)
Section Concrete.
#[local] Instance L : Lmdb := gmap_lmdb.
#[local] Instance LL : LmdbLaws L := gmap_lmdb_laws.
#[local] Instance B : Blake2b := encode_blake2b.
#[local] Instance BC : Blake2bCollisionFree B := encode_blake2b_inj.

Lemma election_store_starts : epoch_starts 50 election_store.
Proof.
  split; [|done]. intros a c.
  change (candidates election_store) with (mdb_put 1 (candidate 0 10) mdb_empty).
  rw get_put get_empty. case_decide; intros [= <-]. by subst a.
Qed.
(** The record of representative 5 is brought from epoch 49 to 50; its vote
    counts with the power it then has. *)
Lemma validated_vote_is_counted_witness :
  ValidateRequest true (vote5 3) (fresh_account 100) 50 election_store
  = Ok (Valid, election_store) /\
  exists rep info' s', ApplyRequest (vote5 3) (fresh_account 100) election_store = Ok (info', s') /\
    mdb_get 5 (representative_db election_store) = Some rep /\
    counting 50 election_store [(1, 165)] s' /\
    registered_reward (vote5 3) (rewards_of rep (transitioned power5 50)) s'.
Proof.
  split; [by_run|].
  apply (validated_vote_is_counted true 50 election_store [] election_store (vote5 3) [(1, 3)]
           (fresh_account 100) power5 55).
  - exact election_store_starts.
  - by split; [constructor|].
  - apply counting_start, election_store_starts.
  - by apply vote5_wf.
  - by vm_compute.
  - reflexivity.
  - by_run.
  - by_run.
  - by_run.
  - done.
  - done.
Defined.

(** In epoch 50 representative 5 has a stake of 40, in epoch 51 one of 50. A
    stake of epoch 51 is applied before its vote of epoch 50. *)
Definition before_stake : Store :=
  set_voting_power_db
    (mdb_put 5 (Build_VotingPowerInfo (vp_current power5) (vp_next power5) 50) mdb_empty)
    election_store.
Definition staked_early : Store := state_after (AddSelfStake 5 1000 51) before_stake.
Definition reward_stake (s : Store) : option Amount :=
  rw_total_stake <$> mdb_get (EpochRewardsManager.MakeKey 5 50)
    (rewards_db (elections (state_after (ApplyRequest (vote5 3) (fresh_account 100)) s))).
Definition votes_received (s : Store) : option Amount :=
  votes_received_weighted <$> mdb_get 1
    (candidates (state_after (ApplyRequest (vote5 3) (fresh_account 100)) s)).

(** A vote applied after a stake of the next epoch is weighted with the
    power of its own epoch, which the fallback table keeps, but registers the
    stake of the next epoch for the rewards of its own: ApplyRequest reads the
    record of voting power where GetCurrentTotalStake would give the stake of
    the vote's epoch. Nodes that apply the two requests in different orders
    register different stakes. *)
Lemma late_vote_registers_next_stake :
  ValidateRequest true (vote5 3) (fresh_account 100) 50 staked_early = Ok (Valid, staked_early) /\
  votes_received before_stake = Some 135 /\ votes_received staked_early = Some 135 /\
  reward_stake before_stake = Some 40 /\ reward_stake staked_early = Some 50 /\
  value_of (GetCurrentTotalStake 5 50) staked_early = Some 40.
Proof. split_and!; by_run. Qed.

(** Account 1 has a stake and is a delegate of the epochs 46 to 49, whose term
    started in epoch 47. *)
Definition office_seat (starting : bool) : Delegate :=
  new_delegate 1 (replicate 64 0) [] 10 10 starting.
Definition office_block (previous epoch : Z) (starting : bool) : ApprovedEB :=
  Build_ApprovedEB previous epoch (Build_Tip epoch 0 0) 0 0 [office_seat starting] 0 false 0.
Definition stake1 : StakedFunds := Build_StakedFunds 1 (2 ^ 128 / 500) 0.
Definition start1 : Governance := request_of 1 40 (StartRepresenting false 0 100).
Definition office_store : Store :=
  Build_Store L (mdb_put 1 stake1 mdb_empty) dup_empty mdb_empty dup_empty dup_empty
    mdb_empty mdb_empty (mdb_put 1 (RepInfo_of_start (GetHash start1) 100) mdb_empty)
    (mdb_put (GetHash start1) start1 mdb_empty)
    (set_epoch_tip_db (mdb_put 0 (Build_Tip 49 0 49) mdb_empty)
       (set_epoch_db
          (mdb_put 49 (office_block 48 49 false) (mdb_put 48 (office_block 47 48 false)
             (mdb_put 47 (office_block 46 47 true) (mdb_put 46 (office_block 0 46 false) mdb_empty))))
          no_elections)).
Definition announce_in_office : Governance :=
  request_of 1 50 (AnnounceCandidacy false 0 (replicate 64 0) [] 100).

(** A delegate in office may announce its candidacy for the next term:
    ValidateRequest accepts the request. ApplyRequest then searches the block
    of three epochs before for the start of the delegate's term with a loop
    that tests the wrong counter: when the term did not start there, which is
    in every epoch of office but the last, nothing ends the loop at the end of
    the array of delegates. *)
Lemma announce_in_office_reads_past_the_delegates :
  ValidateRequest true announce_in_office (fresh_account 100) 50 office_store
  = Ok (Valid, office_store) /\
  ApplyRequest announce_in_office (fresh_account 100) office_store
  = Halt "PersistenceManager::ApplyRequest: delegates[j]".
Proof. split; by_run. Qed.
End Concrete.
