(* ===== verification/Reservations.v ===== *)
(** * Account reservations (src/logos/consensus/persistence/reservations.cpp)

    A delegate that validates a request reserves the account of the request
    for its digest, so that no other request of the account is validated
    before the first is applied; a reservation that is not released expires
    after RESERVATION_PERIOD epochs. The current epoch, which the code asks
    ConsensusContainer for, is an argument. *)
From stdpp Require Import base list numbers strings gmap ssreflect.
From S2P Require Import Prelude Serial Lmdb StakingTypes.
Open Scope Z_scope.

Record reservation_info := { reservation : BlockHash; reservation_epoch : Z }.
#[global] Instance reservation_info_eq_dec : EqDecision reservation_info.
Proof. solve_decision. Defined.

Definition reservation_serialize (r : reservation_info) : list Z :=
  write_u256 (reservation r) ++ write_u32 (reservation_epoch r).
Definition reservation_Deserialize (bs : list Z) : option (reservation_info * list Z) :=
  h ← read_u256 bs; e ← read_u32 h.2; Some (Build_reservation_info h.1 e.1, e.2).

(** The cache, shared by all reservations, and the table of the store. *)
Record Cache `{Lmdb} := {
  cache : gmap AccountAddress reservation_info;
  reservation_db : table reservation_info;
}.

Definition RESERVATION_PERIOD : Z := 2.

Module ConsensusReservations.
Section Operations.
Context {L : Lmdb}.

Definition set_cache (c : gmap AccountAddress reservation_info) (s : Cache) : Cache :=
  Build_Cache L c (reservation_db s).
Definition reservation_get (account : AccountAddress) : M Cache (option reservation_info) :=
  gets (fun s => mdb_get account (reservation_db s)).

Definition Release (account : AccountAddress) (hash : BlockHash) : M Cache unit :=
  iter ← gets (fun s => cache s !! account);
  match iter with
  | Some info =>
      if reservation info =? hash then modify (fun s => set_cache (delete account (cache s)) s)
      else mret tt
  | None => mret tt
  end.

Definition CanAcquire (account : AccountAddress) (hash : BlockHash) (allow_duplicates : bool)
    (current_epoch : Z) : M Cache bool :=
  found ← gets (fun s => cache s !! account);
  match found with
  | None =>
      stored ← reservation_get account;
      match stored with
      | None => mret true
      | Some info =>
          modify (fun s => set_cache (<[account := info]> (cache s)) s);;
          mret false
      end
  | Some info =>
      if negb (reservation info =? hash)
      then mret (u32 (reservation_epoch info + RESERVATION_PERIOD) <=? current_epoch)
      else mret allow_duplicates
  end.

Definition UpdateReservation (hash : BlockHash) (account : AccountAddress) (current_epoch : Z)
  : M Cache unit :=
  found ← gets (fun s => cache s !! account);
  (match found with
   | Some info =>
       if negb (reservation info =? hash)
       then massert (negb (current_epoch <? u32 (reservation_epoch info + RESERVATION_PERIOD)))
              "ConsensusReservations::UpdateReservation"
       else mret tt
   | None => mret tt
   end);;
  modify (fun s => set_cache (<[account := Build_reservation_info hash current_epoch]> (cache s)) s).
End Operations.
End ConsensusReservations.
Import ConsensusReservations.

(** ** The protocol: reserve only after CanAcquire has said yes *)
Section Protocol.
Context {L : Lmdb}.

Inductive event :=
| Reserved (account : AccountAddress) (hash : BlockHash) (checked epoch : Z)
| Refused (account : AccountAddress) (hash : BlockHash)
| Released (account : AccountAddress) (hash : BlockHash).

Inductive step : Cache -> event -> Cache -> Prop :=
| step_reserve a h dup checked epoch s s1 s2 :
    CanAcquire a h dup checked s = Ok (true, s1) ->
    UpdateReservation h a epoch s1 = Ok (tt, s2) -> step s (Reserved a h checked epoch) s2
| step_refuse a h dup checked s s1 :
    CanAcquire a h dup checked s = Ok (false, s1) -> step s (Refused a h) s1
| step_release a h s s1 :
    Release a h s = Ok (tt, s1) -> step s (Released a h) s1.
Inductive run : Cache -> list event -> Cache -> Prop :=
| run_nil s : run s [] s
| run_cons s x s1 xs s2 : step s x s1 -> run s1 xs s2 -> run s (x :: xs) s2.

Definition unexpired (e : Z) (info : reservation_info) : Prop :=
  e < u32 (reservation_epoch info + RESERVATION_PERIOD).
(** When CanAcquire says yes. *)
Definition may_acquire (a : AccountAddress) (h : BlockHash) (dup : bool) (e : Z) (s : Cache)
  : Prop :=
  match cache s !! a with
  | None => mdb_get a (reservation_db s) = None
  | Some info => if decide (reservation info = h) then dup = true else ~ unexpired e info
  end.

Lemma CanAcquire_run a h dup e s :
  exists b s', CanAcquire a h dup e s = Ok (b, s') /\ (b = true <-> may_acquire a h dup e s) /\
    (b = true -> s' = s) /\
    (forall x i, cache s !! x = Some i -> cache s' !! x = Some i).
Proof.
  rw /CanAcquire /may_acquire /reservation_get /unexpired /mbind /M_bind /gets.
  destruct (cache s !! a) as [info|] eqn:Hc.
  - destruct (Z.eqb_spec (reservation info) h) as [Hh|Hh]; cbn [negb].
    + eexists _, _. split; [reflexivity|]. by rw decide_True.
    + eexists _, _. split; [reflexivity|]. rw decide_False // Z.leb_le. split; [lia|done].
  - destruct (mdb_get a (reservation_db s)) as [info|]; eexists _, _; (split; [reflexivity|]).
    + split; [done|]. split; [done|]. intros x i Hx. cbn. rw lookup_insert_ne //. congruence.
    + done.
Qed.

(** A reservation that CanAcquire allowed can be made, then or later. *)
Lemma UpdateReservation_run a h dup e e' s :
  may_acquire a h dup e s -> e <= e' ->
  UpdateReservation h a e' s =
    Ok (tt, set_cache (<[a := Build_reservation_info h e']> (cache s)) s).
Proof.
  rw /may_acquire /UpdateReservation /mbind /M_bind /gets /unexpired.
  destruct (cache s !! a) as [info|]; [|done]. intros Hm He.
  destruct (Z.eqb_spec (reservation info) h) as [Hh|Hh]; [done|].
  rw decide_False // in Hm. rw /massert. cbn [negb].
  destruct (Z.ltb_spec e' (u32 (reservation_epoch info + RESERVATION_PERIOD))); [lia|done].
Qed.

(** [a] is reserved for [h] since an epoch not before [e]. *)
Definition held (a : AccountAddress) (h : BlockHash) (e : Z) (s : Cache) : Prop :=
  exists info, cache s !! a = Some info /\ reservation info = h /\
    e <= reservation_epoch info < e + RESERVATION_PERIOD.
(** What happens while the reservation of [e] lasts. *)
Definition during (e : Z) (x : event) : Prop :=
  match x with
  | Reserved _ _ checked epoch => e <= checked <= epoch /\ epoch < e + RESERVATION_PERIOD
  | _ => True
  end.

Lemma held_step a h e s x s' :
  0 <= e -> e + 2 * RESERVATION_PERIOD < 2 ^ 32 -> held a h e s -> step s x s' -> during e x ->
  x <> Released a h ->
  held a h e s' /\ forall h' c c', x = Reserved a h' c c' -> h' = h.
Proof.
  rw /RESERVATION_PERIOD. intros He0 Hw (info & Hc & Hh & He) Hs Hd Hx.
  destruct Hs as [b h' dup checked epoch s s1 s2 Hcan Hup|b h' dup checked s s1 Hcan|b h' s s1 Hrel].
  - destruct (CanAcquire_run b h' dup checked s) as (r & s1' & Hr & Hiff & Hsame & _).
    rw Hr in Hcan. injection Hcan as -> ->. rw (Hsame eq_refl) in Hup.
    assert (may_acquire b h' dup checked s) as Hm by (by apply Hiff).
    destruct Hd as [[Hd1 Hd2] Hd3].
    rw (UpdateReservation_run b h' dup checked epoch s Hm Hd2) in Hup. injection Hup as <-.
    destruct (decide (a = b)) as [<-|Hab].
    + move: Hm. rw /may_acquire Hc /unexpired /RESERVATION_PERIOD.
      rw u32_id; [|rw /in_width; rw /RESERVATION_PERIOD in He; lia].
      rw /RESERVATION_PERIOD in Hd3 He.
      case_decide as Hd; [|lia]. intros _. split; [|by intros ??? [= <-]; congruence].
      eexists. cbn. rw lookup_insert_eq. split; [done|]. rw /RESERVATION_PERIOD. cbn.
      split; [congruence|lia].
    + split; [|by intros ??? [= <-]]. exists info. cbn. by rw lookup_insert_ne.
  - destruct (CanAcquire_run b h' dup checked s) as (r & s1' & Hr & _ & _ & Hkeep).
    rw Hr in Hcan. injection Hcan as _ <-. split; [|done]. exists info. auto.
  - split; [|done]. move: Hrel. rw /Release /mbind /M_bind /gets.
    destruct (cache s !! b) as [i|] eqn:Hb; [|by intros [= <-]; exists info].
    destruct (Z.eqb_spec (reservation i) h') as [Hi|Hi]; [|by intros [= <-]; exists info].
    intros [= <-]. exists info. cbn. rw lookup_delete_ne //. intros ->. congruence.
Qed.
Lemma held_run a h e s xs s' :
  0 <= e -> e + 2 * RESERVATION_PERIOD < 2 ^ 32 -> held a h e s -> run s xs s' ->
  Forall (during e) xs -> Released a h ∉ xs ->
  held a h e s' /\ forall h' c c', Reserved a h' c c' ∈ xs -> h' = h.
Proof.
  intros He0 Hw Hh Hr. induction Hr as [|s x s1 xs s2 Hs _ IH].
  { intros _ _. split; [done|]. intros ??? Hin. by apply elem_of_nil in Hin. }
  intros [Hx Hxs]%Forall_cons [Hn Hnin]%not_elem_of_cons.
  destruct (held_step a h e s x s1) as [Hh1 Heq]; [done..|congruence|].
  destruct (IH Hh1 Hxs Hnin) as [Hh2 Hall]. split; [done|].
  intros h' c c' [Hin|Hin]%elem_of_cons; [by eapply Heq|by eapply Hall].
Qed.
End Protocol.

(** C30 A reservation excludes every other request of the account: from the
    epoch in which an account is reserved for a request, whatever reservations
    are tried, refused and released for any account, until it is released for
    that request or RESERVATION_PERIOD epochs have passed, no other request
    reserves the account and it stays reserved. *)
Theorem reservation_excludes_others {L : Lmdb} a h e s xs s' :
  0 <= e -> e + 2 * RESERVATION_PERIOD < 2 ^ 32 ->
  cache s !! a = Some (Build_reservation_info h e) -> run s xs s' ->
  Forall (during e) xs -> Released a h ∉ xs ->
  (exists e', cache s' !! a = Some (Build_reservation_info h e') /\ e <= e') /\
  forall h' c c', Reserved a h' c c' ∈ xs -> h' = h.
Proof.
  intros He0 Hw Hc Hr Hd Hn. destruct (held_run a h e s xs s') as [Hh Hall]; try done.
  - eexists. split; [exact Hc|]. cbn. split; [done|]. rw /RESERVATION_PERIOD. lia.
  - split; [|done]. destruct Hh as ([h' e'] & Hc' & <- & He). exists e'. split; [done|]. apply He.
Qed.

(** Reserving never stops the node: CanAcquire always answers, yes exactly
    when the account is not reserved, its reservation has expired or it is for
    the same request and duplicates are allowed; and after a yes,
    UpdateReservation in that epoch or a later one makes the reservation. *)
Lemma reserving_never_halts {L : Lmdb} a h dup e e' s :
  e <= e' ->
  exists b s', CanAcquire a h dup e s = Ok (b, s') /\ (b = true <-> may_acquire a h dup e s) /\
    (b = true -> UpdateReservation h a e' s' =
       Ok (tt, set_cache (<[a := Build_reservation_info h e']> (cache s)) s)).
Proof.
  intros He. destruct (CanAcquire_run a h dup e s) as (b & s' & Hr & Hiff & Hsame & _).
  exists b, s'. split_and!; [done|apply Hiff|]. intros Hb. rw (Hsame Hb).
  apply (UpdateReservation_run a h dup e); [by apply Hiff|done].
Qed.

(** ** Concrete runs *)
Section Concrete.
#[local] Instance L : Lmdb := gmap_lmdb.

(** Account 7 is reserved for request 11 in epoch 60; request 12 is refused in
    epoch 61, request 13 of account 8 is not. *)
Definition reserved7 : Cache := Build_Cache L {[7 := Build_reservation_info 11 60]} mdb_empty.
Definition reserved78 : Cache :=
  Build_Cache L {[7 := Build_reservation_info 11 60; 8 := Build_reservation_info 13 61]} mdb_empty.
Lemma run7 : run reserved7 [Refused 7 12; Reserved 8 13 61 61; Released 7 12] reserved78.
Proof.
  apply (run_cons _ _ reserved7); [apply (step_refuse _ _ false 61); by_run|].
  apply (run_cons _ _ reserved78).
  { apply (step_reserve _ _ false _ _ _ reserved7); by_run. }
  apply (run_cons _ _ reserved78); [apply step_release; by_run|constructor].
Qed.
Lemma reservation_excludes_others_witness :
  run reserved7 [Refused 7 12; Reserved 8 13 61 61; Released 7 12] reserved78 /\
  exists e', cache reserved78 !! 7 = Some (Build_reservation_info 11 e') /\ 60 <= e'.
Proof.
  split; [exact run7|].
  apply (reservation_excludes_others 7 11 60 reserved7
           [Refused 7 12; Reserved 8 13 61 61; Released 7 12] reserved78).
  - done.
  - done.
  - by_run.
  - exact run7.
  - rw /during /RESERVATION_PERIOD. repeat constructor; lia.
  - rw !not_elem_of_cons. split_and!; try done. apply not_elem_of_nil.
Defined.
(** In epoch 62 the reservation has expired. *)
Lemma reserving_never_halts_witness :
  may_acquire 7 12 false 62 reserved7 /\
  exists b s', CanAcquire 7 12 false 62 reserved7 = Ok (b, s') /\
    (b = true <-> may_acquire 7 12 false 62 reserved7) /\
    (b = true -> UpdateReservation 12 7 63 s' =
       Ok (tt, set_cache (<[7 := Build_reservation_info 12 63]> (cache reserved7)) reserved7)).
Proof.
  split; [by vm_compute|]. apply (reserving_never_halts 7 12 false 62 63 reserved7). lia.
Defined.
End Concrete.
