(* ===== verification/EpochPersistence.v ===== *)
(** * The transition to a new epoch

    What src/logos/consensus/persistence/epoch/epoch_persistence.cpp does to
    the tables of staking and elections when an epoch block is applied: thawing
    funds of delegates are frozen or released, delegates whose term ends become
    candidates again, candidates and representatives that resigned are removed
    and the leading candidates are cleared. The chaining of request blocks and
    the rewards of delegates are in EpochBlocks.v. *)
From stdpp Require Import base list numbers strings gmap ssreflect.
From S2P Require Import Prelude Serial Lmdb StakingTypes Requests Epochs BlockStore Liabilities VotingPower AccountInfo Staking StakingFunds Elections EpochRewards Governance GovernanceFrames GovernanceRegistry GovernanceEffects GovernanceTheorems.
Import VotingPowerManager BlockStoreElections.
Open Scope Z_scope.

Module EpochPersistence.
Section Operations.
Context {L : Lmdb} {B : Blake2b}.

(** The accounts of delegates, as the loops visit them. *)
Fixpoint for_each {A} (f : A -> M Store unit) (xs : list A) : M Store unit :=
  match xs with
  | [] => mret tt
  | x :: xs => f x;; for_each f xs
  end.

Definition UpdateThawing (block : ApprovedEB) : M Store unit :=
  t ← epoch_tip_get;
  match t with
  | None => halt "PersistenceManager<ECT>::ApplyUpdates"
  | Some prev_tip =>
      p ← epoch_get (digest prev_tip);
      match p with
      | None => halt "PersistenceManager<ECT>::ApplyUpdates"
      | Some prev_epoch =>
          let new_dels := d_account <$> eb_delegates block in
          for_each (fun del =>
            if bool_decide (d_account del ∈ new_dels) then mret tt
            else StakingManager.SetExpirationOfFrozen (d_account del)
                   (u32 (eb_epoch_number block + 2))) (eb_delegates prev_epoch);;
          for_each (fun del =>
            StakingManager.MarkThawingAsFrozen (d_account del) (eb_epoch_number block))
            (eb_delegates block)
      end
  end.

Definition MarkDelegateElectsAsRemove : M Store unit :=
  t ← epoch_tip_get;
  match t with
  | None => halt "PersistenceManager<ECT>::MarkDelegateElectsAsRemove"
  | Some tip =>
      e ← epoch_get (digest tip);
      match e with
      | None => halt "PersistenceManager<ECT>::MarkDelegateElectsAsRemove"
      | Some epoch =>
          for_each (fun d => if starting_term d then candidate_mark_remove (d_account d)
                             else mret tt) (eb_delegates epoch)
      end
  end.

(** A delegate whose term ends is a candidate again, unless its last candidacy
    action is a resignation. *)
Definition reelection_candidate (next_epoch_num : Z) (d : Delegate) : M Store unit :=
  if starting_term d then
    r ← rep_get (d_account d);
    match r with
    | None => mret tt
    | Some rep =>
        q ← request_get (candidacy_action_tip rep);
        match q with
        | None => halt "PersistenceManager<ECT>::AddReelectionCandidates"
        | Some req =>
            match gr_body req with
            | AnnounceCandidacy set_stake stake bls ecies levy =>
                let candidate := CandidateInfo_of set_stake stake bls ecies levy (gr_epoch_num req) in
                v ← GetVotingPowerInfo_epoch (d_account d) next_epoch_num;
                match v with
                | None => halt "PersistenceManager<ECT>::AddReelectionCandidates"
                | Some vp_info =>
                    candidate_put (d_account d)
                      (set_next_stake (self_stake (vp_next vp_info))
                         (set_cur_stake (self_stake (vp_current vp_info)) candidate))
                end
            | _ => mret tt
            end
        end
    end
  else mret tt.
Definition AddReelectionCandidates (next_epoch_num : Z) : M Store unit :=
  epoch ← epoch_get_n 3 is_not_extension;
  for_each (reelection_candidate next_epoch_num) (eb_delegates epoch).

(** The body of the loop of UpdateRepresentativesDB. *)
Definition remove_rep (account : AccountAddress) : M Store unit :=
  status ← gets (fun s => missing account (representative_db s));
  modify (fun s => set_representative_db (mdb_del account (representative_db s)) s);;
  TryPrune account;;
  massert (negb status) "PersistenceManager<ECT>::UpdateRepresentativesDB".
Definition UpdateRepresentativesDB : M Store unit :=
  accounts ← get_elections (fun e => dup_get 0 (remove_reps_db e));
  for_each remove_rep accounts;;
  modify_elections (set_remove_reps_db dup_empty).

(** The body of the loop of UpdateCandidatesDB. *)
Definition remove_candidate (account : AccountAddress) : M Store unit :=
  status ← get_elections (fun e => missing account (candidacy_db e));
  modify_elections (fun e => set_candidacy_db (mdb_del account (candidacy_db e)) e);;
  massert (negb status) "PersistenceManager<ECT>::UpdateCandidatesDB".
Definition UpdateCandidatesDB : M Store unit :=
  accounts ← get_elections (fun e => dup_get 0 (remove_candidates_db e));
  for_each remove_candidate accounts;;
  modify_elections (set_remove_candidates_db dup_empty);;
  modify_elections (fun e => set_leading_candidates_size 0 (set_leading_candidates_db mdb_empty e)).

Definition TransitionCandidatesDBNextEpoch (next_epoch_num : Z) : M Store unit :=
  (if START_ELECTIONS_EPOCH <=? next_epoch_num then AddReelectionCandidates next_epoch_num
   else mret tt);;
  (if START_ELECTIONS_EPOCH <? next_epoch_num then MarkDelegateElectsAsRemove else mret tt);;
  UpdateCandidatesDB.
Definition TransitionNextEpoch (next_epoch_num : Z) : M Store unit :=
  TransitionCandidatesDBNextEpoch next_epoch_num;;
  UpdateRepresentativesDB.

Definition UpdateGlobalRewards (block : ApprovedEB) : M Store unit :=
  available ← EpochRewardsManager.GlobalRewardsAvailable (eb_epoch_number block);
  if (available : bool) then
    p ← epoch_get (eb_previous block);
    match p with
    | None => halt "PersistenceManager<ECT>::UpdateGlobalRewards"
    | Some previous =>
        EpochRewardsManager.SetGlobalReward (eb_epoch_number block)
          (amt_sub (eb_total_supply block) (eb_total_supply previous))
    end
  else mret tt.
End Operations.
End EpochPersistence.
Import EpochPersistence.

(** ** Loops *)
Lemma wpg_for_each {L : Lmdb} {A} (H : Prop) (f : A -> M Store unit) (I : list A -> Store -> Prop) xs :
  forall done s, I done s ->
  (forall before x after s, done ++ xs = before ++ x :: after -> I before s ->
     wpg H (f x) (fun _ s' => I (before ++ [x]) s') s) ->
  wpg H (for_each f xs) (fun _ s' => I (done ++ xs) s') s.
Proof.
  induction xs as [|x xs IH]; intros done s HI Hstep; cbn [for_each].
  { apply wpg_ret. by rw app_nil_r. }
  apply wpg_bind. eapply wpg_mono; [by apply (Hstep done x xs)|]. intros ? s' HI'.
  rw (app_assoc done [x] xs). apply IH; [done|]. intros before y after s1 Heq.
  apply (Hstep before y after). by rw -Heq -app_assoc.
Qed.

(** ** Removing what is marked *)
Section Removing.
Context {L : Lmdb} {LL : LmdbLaws L} {B : Blake2b}.

Definition marked_candidates (s : Store) : list AccountAddress :=
  dup_get 0 (remove_candidates_db (elections s)).
Definition marked_reps (s : Store) : list AccountAddress :=
  dup_get 0 (remove_reps_db (elections s)).

(** [t'] is [t] without the keys [ks]. *)
Definition without {V} (ks : list Z) (t t' : table V) : Prop :=
  forall x, mdb_get x t' = if decide (x ∈ ks) then None else mdb_get x t.
Lemma without_nil {V} (t : table V) : without [] t t.
Proof. intros x. case_decide as Hx; [by apply elem_of_nil in Hx|done]. Qed.
Lemma without_del {V} ks k (t t' : table V) :
  without ks t t' -> without (ks ++ [k]) t (mdb_del k t').
Proof.
  intros Hw x. rw get_del. rw Hw. repeat case_decide; set_solver.
Qed.

(** What the removal of candidates leaves alone. *)
Definition candidates_frame (s s' : Store) : Prop :=
  same_power s s' /\ representative_db s' = representative_db s /\ request_db s' = request_db s /\
  epoch_db (elections s') = epoch_db (elections s) /\
  epoch_tip_db (elections s') = epoch_tip_db (elections s) /\
  remove_reps_db (elections s') = remove_reps_db (elections s).
#[global] Instance candidates_frame_preorder : PreOrder candidates_frame.
Proof.
  split; [done|]. intros x y z (?&?&?&?&?&?) (?&?&?&?&?&?). split_and!; try congruence.
  by transitivity y.
Qed.

(** Every marked candidate is removed and no other; the leading candidates are
    cleared. It halts only when a marked candidate is not there. *)
Lemma UpdateCandidatesDB_ok (H : Prop) s :
  H \/ Forall (fun a => mdb_get a (candidates s) <> None) (marked_candidates s) ->
  wpg H UpdateCandidatesDB (fun _ s' =>
    without (marked_candidates s) (candidates s) (candidates s') /\ marked_candidates s' = [] /\
    leading_candidates_db (elections s') = mdb_empty /\
    leading_candidates_size (elections s') = 0 /\ candidates_frame s s') s.
Proof.
  intros Hm. apply wpg_bind, wp_get_elections, wpg_bind. fold (marked_candidates s).
  pose proof (dups_nodup 0 (remove_candidates_db (elections s))) as Hnd.
  fold (marked_candidates s) in Hnd. eapply wpg_mono.
  { apply (wpg_for_each H remove_candidate (fun ks s' =>
             without ks (candidates s) (candidates s') /\ candidates_frame s s') _ []).
    - split; [apply without_nil|done].
    - cbn [app]. intros before x after s1 Heq [Hw Hf].
      apply wpg_bind, wp_get_elections, wpg_bind, wp_modify_elections, wpg_massert.
      + intros _. split; [by apply without_del|]. etransitivity; [exact Hf|done].
      + intros Hx. destruct Hm as [?|Hm]; [done|]. exfalso. move: Hx. rw /missing Hw.
        rw Heq in Hnd, Hm. apply NoDup_app in Hnd as (_ & Hnd & _).
        apply Forall_app in Hm as [_ [Hx _]%Forall_cons].
        rw decide_False; [by destruct (mdb_get x _)|]. intros Hin. apply (Hnd x Hin). left. }
  cbn [app]. intros _ s1 [Hw Hf]. apply wpg_bind, wp_modify_elections, wp_modify_elections.
  split; [done|]. split; [apply dups_empty|]. do 2 (split; [done|]). etransitivity; [exact Hf|done].
Qed.

Lemma TryPrune_ok a s : wp (TryPrune a) (fun _ s' => power_frame s s') s.
Proof.
  apply wpg_bind, wpg_gets. destruct (mdb_get _ _) as [info|] eqn:Hi; [|by apply wpg_ret].
  apply wpg_bind. assert (wp (CanPrune a info) (fun _ s' => s' = s) s) as Hc.
  { rw /CanPrune. case_match; [by apply wpg_ret|]. by apply wpg_bind, wpg_gets, wpg_ret. }
  eapply wpg_mono; [exact Hc|]. intros can s' ->. destruct can; [|by apply wpg_ret].
  apply wpg_bind, wpg_bind, wpg_gets, wpg_bind, wpg_modify, wpg_ret. by rw /missing Hi.
Qed.
Lemma wp_wpg {S A} (H : Prop) (m : M S A) Q s : wp m Q s -> wpg H m Q s.
Proof. rw /wpg. by destruct (m s) as [[]|]. Qed.

(** Every marked representative is removed and no other. *)
Lemma UpdateRepresentativesDB_ok (H : Prop) s :
  H \/ Forall (fun a => mdb_get a (representative_db s) <> None) (marked_reps s) ->
  wpg H UpdateRepresentativesDB (fun _ s' =>
    without (marked_reps s) (representative_db s) (representative_db s') /\ marked_reps s' = [] /\
    request_db s' = request_db s /\
    elections s' = set_remove_reps_db dup_empty (elections s)) s.
Proof.
  intros Hm. apply wpg_bind, wp_get_elections, wpg_bind. fold (marked_reps s).
  pose proof (dups_nodup 0 (remove_reps_db (elections s))) as Hnd. fold (marked_reps s) in Hnd.
  eapply wpg_mono.
  { apply (wpg_for_each H remove_rep (fun ks s' =>
             without ks (representative_db s) (representative_db s') /\
             request_db s' = request_db s /\ elections s' = elections s) _ []).
    - split; [apply without_nil|done].
    - cbn [app]. intros before x after s1 Heq (Hw & Hq & He).
      apply wpg_bind, wpg_gets, wpg_bind, wpg_modify, wpg_bind.
      eapply wpg_mono; [apply wp_wpg, TryPrune_ok|]. intros _ s2 (_ & _ & Hr2 & Hq2 & He2).
      apply wpg_massert.
      + intros _. split_and!; [rw Hr2; by apply without_del|by rw Hq2|by rw He2].
      + intros Hx. destruct Hm as [?|Hm]; [done|]. exfalso. move: Hx. rw /missing Hw.
        rw Heq in Hnd, Hm. apply NoDup_app in Hnd as (_ & Hnd & _).
        apply Forall_app in Hm as [_ [Hx _]%Forall_cons].
        rw decide_False; [by destruct (mdb_get x _)|]. intros Hin. apply (Hnd x Hin). left. }
  cbn [app]. intros _ s1 (Hw & Hq & He). apply wp_modify_elections.
  split_and!; try done; [apply dups_empty|cbn; by rw He].
Qed.
End Removing.

(** ** Candidates for reelection *)
Section Reelection.
Context {L : Lmdb} {LL : LmdbLaws L} {B : Blake2b}.

(** Every stored record of voting power is within its widths. *)
Definition power_wf (s : Store) : Prop :=
  forall r i, mdb_get r (voting_power_db s) = Some i -> snapshots_wf i.

Definition same_vp (s s' : Store) : Prop := voting_power_db s' = voting_power_db s.
#[global] Instance same_vp_preorder : PreOrder same_vp.
Proof. split; [done|]. rw /same_vp. intros ??? H1 H2. congruence. Qed.
Lemma HandleFallback_vp i r e : preserves same_vp (HandleFallback i r e).
Proof. rw /HandleFallback /request_get_election_vote. table_frame. Qed.

Lemma transition_stored_wf info rep e s :
  snapshots_wf info -> power_wf s ->
  wlp (transition_stored info rep e) (fun i s' => snapshots_wf i /\ power_wf s') s.
Proof.
  intros Hi Hs. apply wpg_bind. rw /TransitionIfNecessary.
  destruct (vp_epoch_modified info <? e); cycle 1.
  { apply wpg_ret, wpg_bind, wpg_ret, wpg_ret. done. }
  apply wpg_bind. eapply wpg_mono; [apply HandleFallback_vp|]. intros ? s1 Hv. apply wpg_ret.
  assert (snapshots_wf (Build_VotingPowerInfo (vp_next info) (vp_next info) e)) as Hn.
  { by destruct Hi. }
  assert (power_wf s1) as Hs1. { intros r i. rw Hv. apply Hs. }
  apply wpg_bind. cbn [fst snd]. rw /StoreOrPrune. apply wpg_bind. eapply wpg_mono.
  { instantiate (1 := fun _ s2 => same_vp s1 s2). rw /CanPrune.
    case_match; [by apply wpg_ret|]. by apply wpg_bind, wpg_gets, wpg_ret. }
  intros can s2 Hv2. destruct can.
  - apply wpg_bind, wpg_bind, wpg_gets, wpg_bind, wpg_modify, wpg_ret.
    case_match; [done|]. apply wpg_ret, wpg_ret. split; [done|]. intros r i. cbn.
    rw Hv2 get_del. case_decide; [done|apply Hs1].
  - apply wpg_modify, wpg_ret. split; [done|]. intros r i. cbn. rw Hv2 get_put.
    case_decide; [by intros [= <-]|apply Hs1].
Qed.
Lemma GetVotingPowerInfo_wf rep e s :
  power_wf s ->
  wlp (GetVotingPowerInfo_epoch rep e) (fun o s' => power_wf s' /\ power_frame s s' /\
    forall i, o = Some i -> snapshots_wf i) s.
Proof.
  intros Hs. eapply wpg_mono.
  { apply (wpg_frame _ power_frame); cycle 1.
    - instantiate (1 := fun o s' => power_wf s' /\ forall i, o = Some i -> snapshots_wf i).
      apply wpg_bind, wpg_gets. destruct (mdb_get _ _) as [info|] eqn:Hi; [|by apply wpg_ret].
      apply wpg_bind. eapply wpg_mono; [apply transition_stored_wf; [by eapply Hs|done]|].
      intros i s' [? ?]. apply wpg_ret. split; [done|]. by intros ? [= <-].
    - rw /GetVotingPowerInfo_epoch /GetVotingPowerInfo /voting_power_get /transition_stored.
      solve_frame. }
  by intros o s' [[? ?] ?].
Qed.

Lemma candidate_put_frame a c s :
  wlp (candidate_put a c) (fun _ s' => candidates_frame s s' /\
    candidates s' = mdb_put a c (candidates s) /\ marked_candidates s' = marked_candidates s) s.
Proof.
  apply wpg_bind, wp_modify_elections. eapply wpg_mono; [apply update_leading_frame|].
  intros _ s' (_ & _ & Hp & Hr & Hq & t & n & m & He). rw /candidates_frame /marked_candidates He.
  by destruct Hp.
Qed.

(** The candidates when the block of epoch [e - 1] is applied, or after some of
    the delegates have become candidates again. *)
Definition candidates_before (e : Z) (s : Store) : Prop :=
  forall a c, mdb_get a (candidates s) = Some c ->
    c_epoch_modified c < e /\ in_width 256 a /\ in_width 128 (next_stake c).
(** No request of the epoch has been applied yet, as in the dead period; zero is
    not a digest. *)
Definition requests_before (e : Z) (s : Store) : Prop :=
  forall h q, mdb_get h (request_db s) = Some q -> h <> 0 /\ gr_epoch_num q < e.
(** Whoever gave up representing is not a candidate any more: it resigned its
    candidacy, and its candidacy is to be removed with it. *)
Definition stopped_ok (s : Store) : Prop :=
  forall a, a ∈ marked_reps s ->
    (mdb_get a (candidates s) <> None -> a ∈ marked_candidates s) /\
    forall rep q, mdb_get a (representative_db s) = Some rep ->
      mdb_get (candidacy_action_tip rep) (request_db s) = Some q -> RequestPersistence.is_announce q = false.

Definition before_transition (e : Z) (s : Store) : Prop :=
  registry_ok s /\ power_wf s /\ candidates_before e s /\ requests_before e s /\ stopped_ok s.

Lemma frame_registry s s' :
  registry_ok s -> representative_db s' = representative_db s -> request_db s' = request_db s ->
  (forall a c, mdb_get a (candidates s') = Some c ->
     exists rep, mdb_get a (representative_db s) = Some rep /\ candidacy_action_tip rep <> 0) ->
  registry_ok s'.
Proof.
  intros Hok Hr Hq Hc. split; rw ?Hr ?Hq; [apply Hok| |done].
  intros a rep Hg. destruct (ro_rep s Hok a rep Hg) as [Ha Hca Hv].
  split; rw /stored ?Hq; done.
Qed.

(** The record of a delegate that becomes a candidate again. *)
Lemma reelected_ok e a rep q set_stake stake bls ecies levy vp s :
  before_transition e s -> mdb_get a (representative_db s) = Some rep ->
  mdb_get (candidacy_action_tip rep) (request_db s) = Some q ->
  gr_body q = AnnounceCandidacy set_stake stake bls ecies levy -> snapshots_wf vp ->
  wlp (candidate_put a (set_next_stake (self_stake (vp_next vp))
         (set_cur_stake (self_stake (vp_current vp))
            (CandidateInfo_of set_stake stake bls ecies levy (gr_epoch_num q)))))
      (fun _ s' => before_transition e s' /\ candidates_frame s s' /\
         marked_candidates s' = marked_candidates s) s.
Proof.
  intros (Hok & Hp & Hc & Hq & Hs) Hr Hg Hb Hvp. destruct (Hq _ _ Hg) as [H0 Hqe].
  eapply wpg_mono; [apply candidate_put_frame|]. intros _ s' (Hf & Hcand & Hm).
  pose proof Hf as ([Hv _] & Hr' & Hq' & _ & _ & Hmr). split; [|done].
  destruct (ro_rep s Hok a rep Hr) as [_ Hst _].
  split; [|split; [|split; [|split]]].
  - apply (frame_registry s); try done. intros x c. rw Hcand get_put.
    case_decide; [subst x; eauto|apply Hok].
  - intros r i. rw Hv. apply Hp.
  - intros x c. rw Hcand get_put. case_decide; [subst x|apply Hc]. intros [= <-]. cbn.
    split; [by eapply Hq|]. destruct (Hst H0) as (q' & Hg' & _ & Ho).
    destruct (ro_request s Hok _ _ Hg') as [_ (Hw & _)]. rw -Ho. split; [done|].
    destruct Hvp as [_ Hnext]. by destruct Hnext as (_ & _ & ?).
  - intros h q'. rw Hq'. apply Hq.
  - intros x. rw /marked_reps Hmr. intros Hin. destruct (Hs x Hin) as [Hs1 Hs2]. rw Hr' Hq'.
    split; [|done]. rw Hcand Hm get_put. case_decide as Hx; [|done]. subst x.
    specialize (Hs2 rep q Hr Hg). by rw /RequestPersistence.is_announce /gr_type Hb in Hs2.
Qed.

(** What becoming a candidate again leaves alone. *)
Definition reelection_frame (s s' : Store) : Prop :=
  representative_db s' = representative_db s /\ request_db s' = request_db s /\
  epoch_db (elections s') = epoch_db (elections s) /\
  epoch_tip_db (elections s') = epoch_tip_db (elections s) /\
  marked_reps s' = marked_reps s /\ marked_candidates s' = marked_candidates s.
#[global] Instance reelection_frame_preorder : PreOrder reelection_frame.
Proof. split; [done|]. intros x y z (?&?&?&?&?&?) (?&?&?&?&?&?). split_and!; congruence. Qed.

Lemma before_transition_power e s s' :
  before_transition e s -> power_frame s s' -> power_wf s' ->
  before_transition e s' /\ reelection_frame s s'.
Proof.
  intros (Hok & _ & Hc & Hq & Hs) (_ & _ & Hr & Hqq & He) Hp. split.
  - split; [|split; [done|split; [|split]]].
    + apply (frame_registry s); try done. intros a c. rw He. apply Hok.
    + intros a c. rw He. apply Hc.
    + intros h q. rw Hqq. apply Hq.
    + intros a. rw /marked_reps /marked_candidates He Hr Hqq. apply Hs.
  - rw /reelection_frame /marked_reps /marked_candidates He. by split_and!.
Qed.
Lemma reelection_one e d s :
  before_transition e s ->
  wlp (reelection_candidate e d) (fun _ s' => before_transition e s' /\ reelection_frame s s') s.
Proof.
  intros Hb. rw /reelection_candidate. destruct (starting_term d); [|by apply wpg_ret].
  apply wpg_bind, wpg_gets. destruct (mdb_get _ _) as [rep|] eqn:Hr; [|by apply wpg_ret].
  apply wpg_bind, wpg_gets. destruct (mdb_get (candidacy_action_tip rep) _) as [q|] eqn:Hq; [|done].
  destruct (gr_body q) eqn:Hbody; try by apply wpg_ret.
  apply wpg_bind. eapply wpg_mono; [apply GetVotingPowerInfo_wf; apply Hb|].
  intros [vp|] s1 (Hp & Hf & Hvp); [|done].
  destruct (before_transition_power e s s1 Hb Hf Hp) as [Hb1 Hf1].
  destruct Hf1 as (Hr1 & Hq1 & Hrest).
  eapply wpg_mono; [eapply (reelected_ok e _ rep q); [done| | |done|]|].
  - by rw Hr1.
  - by rw Hq1.
  - by apply Hvp.
  - intros _ s2 (Hb2 & (_ & Hr2 & Hq2 & He2 & Ht2 & Hm2) & Hmc). split; [done|].
    transitivity s1; [done|]. rw /reelection_frame /marked_reps Hm2. by split_and!.
Qed.
Lemma AddReelection_ok e s :
  before_transition e s ->
  wlp (AddReelectionCandidates e) (fun _ s' => before_transition e s' /\ reelection_frame s s') s.
Proof.
  intros Hb. apply wpg_bind. eapply wpg_mono; [apply epoch_get_n_reads|]. intros eb s1 <-.
  eapply wpg_mono; [apply (wpg_for_each _ _ (fun _ s' => before_transition e s' /\
                              reelection_frame s s') _ [])|by intros].
  - done.
  - intros before d after s1 _ [Hb1 Hf1]. eapply wpg_mono; [by apply reelection_one|].
    intros _ s2 [Hb2 Hf2]. split; [done|by transitivity s1].
Qed.

(** Winners of the election are marked, too. *)
Definition more_marked (s s' : Store) : Prop :=
  same_power s s' /\ representative_db s' = representative_db s /\ request_db s' = request_db s /\
  marked_candidates s ⊆ marked_candidates s' /\ exists t, elections s' = set_remove_candidates_db t (elections s).
#[global] Instance more_marked_preorder : PreOrder more_marked.
Proof.
  split.
  - intros s. split_and!; try done. exists (remove_candidates_db (elections s)).
    by destruct (elections s).
  - intros x y z (?&?&?&?&t&Ht) (?&?&?&?&t'&Ht'). split_and!; [by transitivity y|congruence..| |].
    + by transitivity (marked_candidates y).
    + exists t'. by rw Ht' Ht.
Qed.
Lemma mark_more a : preserves more_marked (candidate_mark_remove a).
Proof.
  apply preserves_modify. intros s. split_and!; try done; [|by eexists].
  intros x Hx. rw /marked_candidates /=. by apply dups_put_mono.
Qed.
Lemma for_each_frame {A} (R : relation Store) `{!PreOrder R} (f : A -> M Store unit) xs :
  (forall x, preserves R (f x)) -> preserves R (for_each f xs).
Proof.
  intros Hf. induction xs as [|x xs IH]; cbn [for_each]; [by frame_step|].
  by apply preserves_bind; [|apply Hf|intros _].
Qed.
Lemma MarkDelegateElects_more : preserves more_marked MarkDelegateElectsAsRemove.
Proof.
  rw /MarkDelegateElectsAsRemove /epoch_tip_get /epoch_get /get_elections.
  repeat lazymatch goal with
    | |- preserves _ (for_each _ _) => apply for_each_frame; [apply _|intros d; destruct (starting_term d)]
    | |- preserves _ (candidate_mark_remove _) => apply mark_more
    | _ => frame_step
    end.
Qed.
Lemma before_transition_marked e s s' :
  before_transition e s -> more_marked s s' -> before_transition e s'.
Proof.
  intros (Hok & Hp & Hc & Hq & Hs) ([Hv _] & Hr & Hqq & Hm & t & He).
  assert (candidates s' = candidates s) as Hcand by (by rw He).
  split; [|split; [|split; [|split]]].
  - apply (frame_registry s); try done. intros a c. rw Hcand. apply Hok.
  - intros r i. rw Hv. apply Hp.
  - intros a c. rw Hcand. apply Hc.
  - intros h q. rw Hqq. apply Hq.
  - intros a Ha. assert (a ∈ marked_reps s) as Ha'.
    { move: Ha. by rw /marked_reps He. }
    destruct (Hs a Ha') as [H1 H2]. rw Hcand Hr Hqq. split; [|done]. intros Hn. by apply Hm, H1.
Qed.
End Reelection.

Section Transition.
Context {L : Lmdb} {LL : LmdbLaws L} {B : Blake2b}.

(** The registry once candidates and representatives have been removed. *)
Lemma removed_registry e s s1 s2 :
  before_transition e s ->
  without (marked_candidates s) (candidates s) (candidates s1) -> candidates_frame s s1 ->
  without (marked_reps s1) (representative_db s1) (representative_db s2) ->
  request_db s2 = request_db s1 -> candidates s2 = candidates s1 -> registry_ok s2.
Proof.
  intros (Hok & _ & _ & _ & Hst) Hwc (_ & Hr & Hq & _ & _ & Hmr) Hwr Hq2 Hc2.
  rw /marked_reps Hmr -/(marked_reps s) Hr in Hwr. rw Hq in Hq2. split.
  - intros h r. rw Hq2. apply Hok.
  - intros a rep. rw Hwr. case_decide; [done|]. intros [Ha Hca Hv]%(ro_rep s Hok).
    split; rw /stored ?Hq2; done.
  - intros a c. rw Hc2 Hwc. case_decide as Hm; [done|]. intros Hg.
    destruct (ro_candidate s Hok a c Hg) as (rep & Hrep & H0). exists rep.
    rw Hwr. case_decide as Hmark; [|done]. destruct Hm. apply Hst; [done|]. by rw Hg.
Qed.

Definition transition_done (e : Z) (s s' : Store) : Prop :=
  epoch_starts e s' /\ registry_ok s' /\
  (forall a, a ∈ marked_candidates s -> mdb_get a (candidates s') = None) /\
  (forall a, a ∈ marked_reps s -> mdb_get a (representative_db s') = None) /\
  (forall a, a ∉ marked_reps s -> mdb_get a (representative_db s') = mdb_get a (representative_db s)) /\
  marked_candidates s' = [] /\ marked_reps s' = [].

Lemma removal_done e s1 s :
  before_transition e s1 -> representative_db s1 = representative_db s ->
  marked_reps s1 = marked_reps s -> marked_candidates s ⊆ marked_candidates s1 ->
  wlp (UpdateCandidatesDB;; UpdateRepresentativesDB) (fun _ s' => transition_done e s s') s1.
Proof.
  intros Hb Hr Hm Hmc. apply wpg_bind. eapply wpg_mono; [by apply UpdateCandidatesDB_ok; left|].
  intros _ s2 (Hw & Hmark & Hl & Hn & Hf).
  eapply wpg_mono; [by apply UpdateRepresentativesDB_ok; left|].
  intros _ s3 (Hwr & Hmr & Hq3 & He3).
  assert (candidates s3 = candidates s2) as Hc3 by (by rw He3).
  pose proof Hf as (_ & Hr2 & _ & _ & _ & Hmr2).
  assert (marked_reps s2 = marked_reps s) as Hms by (by rw /marked_reps Hmr2 -/(marked_reps s1) Hm).
  split; [|split; [by apply (removed_registry e s1 s2 s3)|]].
  - split; [|by rw He3]. intros a c. rw Hc3 Hw. case_decide; [done|]. by apply Hb.
  - split_and!; [| | |by rw /marked_candidates He3|done].
    + intros a Ha. rw Hc3 Hw. case_decide as Hd; [done|]. by destruct Hd; apply Hmc.
    + intros a Ha. rw Hwr Hms. by case_decide.
    + intros a Ha. rw Hwr Hms Hr2 Hr. by case_decide.
Qed.
End Transition.

(** C33 The transition to epoch [e] prepares its election: when the block of the
    epoch before is applied in the dead period, whatever was voted before,
    every candidate is one whose votes start anew, the table of leading
    candidates is empty, those marked for removal and only they are gone, and
    the registry is well formed again, so that the votes of the epoch are
    counted and no validation halts. *)
Theorem transition_starts_the_election {L : Lmdb} {LL : LmdbLaws L} {B : Blake2b} e s s' :
  before_transition e s -> TransitionNextEpoch e s = Ok (tt, s') -> transition_done e s s'.
Proof.
  intros Hb Hrun.
  apply (wlp_ok (TransitionNextEpoch e) (fun _ s' => transition_done e s s') s tt s'); [|exact Hrun].
  clear Hrun. apply wpg_bind, wpg_bind. eapply wpg_mono.
  { instantiate (1 := fun _ s1 => before_transition e s1 /\ reelection_frame s s1).
    case_match; [by apply AddReelection_ok|by apply wpg_ret]. }
  intros _ s1 [Hb1 (Hr1 & _ & _ & _ & Hm1 & Hc1)]. apply wpg_bind. eapply wpg_mono.
  { instantiate (1 := fun _ s2 => more_marked s1 s2).
    case_match; [apply MarkDelegateElects_more|by apply wpg_ret]. }
  intros ? s2 Hmore. pose proof Hmore as (_ & Hr2 & _ & Hc2 & t & He2).
  apply (wpg_bind_inv _ UpdateCandidatesDB (fun _ => UpdateRepresentativesDB)).
  apply removal_done; [by apply (before_transition_marked e s1)|congruence| |].
  - by rw /marked_reps He2 -/(marked_reps s1).
  - by rw -Hc1.
Qed.

(** The removal at the end of an epoch completes when everything marked is in
    its table: exactly the marked candidates and representatives are removed,
    each once, and nothing stays marked or leading. *)
Lemma marked_are_removed {L : Lmdb} {LL : LmdbLaws L} {B : Blake2b} s :
  Forall (fun a => mdb_get a (candidacy_db (elections s)) <> None) (marked_candidates s) ->
  Forall (fun a => mdb_get a (representative_db s) <> None) (marked_reps s) ->
  wp (UpdateCandidatesDB;; UpdateRepresentativesDB) (fun _ s' =>
    without (marked_candidates s) (candidacy_db (elections s)) (candidacy_db (elections s')) /\
    without (marked_reps s) (representative_db s) (representative_db s') /\
    marked_candidates s' = [] /\ marked_reps s' = [] /\
    leading_candidates_db (elections s') = mdb_empty /\ request_db s' = request_db s) s.
Proof.
  intros Hc Hr. apply wpg_bind. eapply wpg_mono; [by apply UpdateCandidatesDB_ok; right|].
  intros _ s1 (Hw & Hm & Hl & _ & (_ & Hr1 & Hq1 & _ & _ & Hmr)).
  assert (marked_reps s1 = marked_reps s) as Hms by (by rw /marked_reps Hmr).
  eapply wpg_mono; [apply UpdateRepresentativesDB_ok; right; by rw Hms Hr1|].
  intros _ s2 (Hw2 & Hm2 & Hq2 & He2). rw Hms Hr1 in Hw2.
  rw /marked_candidates He2. split_and!; try done. by rw Hq2.
Qed.

(** ** Concrete runs *)
Section Concrete.
#[local] Instance L : Lmdb := gmap_lmdb.
#[local] Instance LL : LmdbLaws L := gmap_lmdb_laws.
#[local] Instance B : Blake2b := encode_blake2b.

(** At the beginning of epoch 50: account 1 is a candidate, account 2 is a
    delegate whose term ends and which has not resigned its candidacy, account
    3 has resigned its candidacy and account 6 has stopped to represent. *)
Definition announce2 : Governance :=
  request_of 2 45 (AnnounceCandidacy false 0 (replicate 64 0) [] 100).
Definition renounce3 : Governance := request_of 3 49 (RenounceCandidacy false 0).
Definition start3 : Governance := request_of 3 40 (StartRepresenting false 0 100).
Definition stop6 : Governance := request_of 6 49 (StopRepresenting false 0).
Definition term_block (previous epoch : Z) (starting : bool) : ApprovedEB :=
  Build_ApprovedEB previous epoch (Build_Tip epoch 0 0) 0 0
    [new_delegate 2 (replicate 64 0) [] 10 10 starting] 0 false 0.
Definition requests49 : list Governance := [announce1; announce2; renounce3; start3; stop6].
Definition reps49 : list (AccountAddress * RepInfo) :=
  [(1, RepInfo_of_announce (GetHash announce1) 100); (2, RepInfo_of_announce (GetHash announce2) 100);
   (3, set_candidacy_action_tip (GetHash renounce3) (RepInfo_of_start (GetHash start3) 100));
   (6, Build_RepInfo 0 0 (GetHash stop6) 100)].
Definition end_of_49 : Store :=
  Build_Store L mdb_empty dup_empty mdb_empty dup_empty dup_empty
    (mdb_put 2 power5 mdb_empty) mdb_empty
    (foldr (fun r t => mdb_put r.1 r.2 t) mdb_empty reps49)
    (foldr (fun r t => mdb_put (GetHash r) r t) mdb_empty requests49)
    (set_remove_reps_db (dup_put 0 6 dup_empty) (set_remove_candidates_db (dup_put 0 3 dup_empty)
      (set_epoch_tip_db (mdb_put 0 (Build_Tip 49 0 49) mdb_empty)
         (set_epoch_db
            (mdb_put 49 (term_block 48 49 false) (mdb_put 48 (term_block 47 48 false)
               (mdb_put 47 (term_block 46 47 false) (mdb_put 46 (term_block 0 46 true) mdb_empty))))
            (set_candidacy_db (mdb_put 1 (candidate 7 10) (mdb_put 3 (candidate 9 10) mdb_empty))
               no_elections))))).

Lemma end_requests h q :
  mdb_get h (request_db end_of_49) = Some q -> h = GetHash q /\ q ∈ requests49.
Proof.
  cbn [request_db end_of_49 foldr requests49]. rw !get_put get_empty.
  repeat case_decide; intros [= <-]; subst h; (split; [done|set_solver]).
Qed.
Lemma end_reps a rep :
  mdb_get a (representative_db end_of_49) = Some rep -> (a, rep) ∈ reps49.
Proof.
  cbn [representative_db end_of_49 foldr reps49 fst snd]. rw !get_put get_empty.
  repeat case_decide; intros [= <-]; subst a; set_solver.
Qed.
Lemma end_candidates a c :
  mdb_get a (candidates end_of_49) = Some c -> (a = 1 /\ c = candidate 7 10) \/ (a = 3 /\ c = candidate 9 10).
Proof.
  change (candidates end_of_49)
    with (mdb_put 1 (candidate 7 10) (mdb_put 3 (candidate 9 10) (mdb_empty (V := CandidateInfo)))).
  rw !get_put get_empty. repeat case_decide; intros [= <-]; subst; auto.
Qed.
Lemma requests49_wf : Forall (fun q => Governance_wf q /\ GetHash q <> 0 /\ gr_epoch_num q < 50) requests49.
Proof.
  repeat constructor; try by vm_compute.
Qed.
Lemma stored_run verify a h q :
  mdb_get h (request_db end_of_49) = Some q -> verify (gr_type q) = true -> gr_origin q = a ->
  stored verify a h end_of_49.
Proof. intros. by exists q. Qed.

Lemma end_reps_ok : Forall (fun x => rep_ok x.1 x.2 end_of_49) reps49.
Proof.
  constructor; [|constructor; [|constructor; [|constructor; [|constructor]]]];
    (split; cbn [fst snd]; [split; [by vm_compute|]|intros Hn|intros Hn; by destruct Hn]).
  - by apply (stored_run _ _ _ announce1); [by_run|done|done].
  - by apply (stored_run _ _ _ announce1); [by_run|done|done].
  - by apply (stored_run _ _ _ announce2); [by_run|done|done].
  - by apply (stored_run _ _ _ announce2); [by_run|done|done].
  - by apply (stored_run _ _ _ start3); [by_run|done|done].
  - by apply (stored_run _ _ _ renounce3); [by_run|done|done].
  - by apply (stored_run _ _ _ stop6); [by_run|done|done].
  - by destruct Hn.
Qed.
Lemma end_ready : before_transition 50 end_of_49.
Proof.
  pose proof requests49_wf as Hwf.
  assert (forall h q, mdb_get h (request_db end_of_49) = Some q ->
            Governance_wf q /\ GetHash q <> 0 /\ gr_epoch_num q < 50 /\ h = GetHash q) as Hreq.
  { intros h q [Hh Hq]%end_requests. apply (proj1 (Forall_forall _ _) Hwf) in Hq. naive_solver. }
  split; [split|split; [|split; [|split]]].
  - intros h q Hq. destruct (Hreq h q Hq) as (? & ? & ? & ?). done.
  - intros a rep Hr%end_reps. by apply (proj1 (Forall_forall _ _) end_reps_ok) in Hr.
  - intros a c [[-> _]|[-> _]]%end_candidates.
    + exists (RepInfo_of_announce (GetHash announce1) 100). split; [by_run|by vm_compute].
    + exists (set_candidacy_action_tip (GetHash renounce3) (RepInfo_of_start (GetHash start3) 100)).
      split; [by_run|by vm_compute].
  - intros r i. change (voting_power_db end_of_49) with (mdb_put 2 power5 (mdb_empty (V := VotingPowerInfo))).
    rw get_put get_empty. case_decide; [intros [= <-]|done]. by repeat split.
  - intros a c [[-> ->]|[-> ->]]%end_candidates; by repeat split.
  - intros h q Hq. destruct (Hreq h q Hq) as (? & ? & ? & ?). subst h. done.
  - intros a. assert (marked_reps end_of_49 = [6]) as -> by by_run.
    intros ->%list_elem_of_singleton. split.
    + intros Hc. destruct (mdb_get 6 (candidates end_of_49)) eqn:E; [|done].
      by apply end_candidates in E as [[? _]|[? _]].
    + intros rep q Hr Hq. apply end_reps in Hr.
      assert (rep = Build_RepInfo 0 0 (GetHash stop6) 100) as ->.
      { rw /reps49 !elem_of_cons in Hr. repeat destruct Hr as [[=]|Hr]; [done|by apply not_elem_of_nil in Hr]. }
      destruct (Hreq _ _ Hq) as (_ & Hn & _ & Hz). cbn in Hz. congruence.
Qed.

Definition start_of_50 : Store := state_after (TransitionNextEpoch 50) end_of_49.
Lemma transition_starts_the_election_witness :
  TransitionNextEpoch 50 end_of_49 = Ok (tt, start_of_50) /\
  transition_done 50 end_of_49 start_of_50 /\
  mdb_get 2 (candidates start_of_50) <> None /\ mdb_get 3 (candidates start_of_50) = None.
Proof.
  assert (TransitionNextEpoch 50 end_of_49 = Ok (tt, start_of_50)) as Hrun by by_run.
  split; [exact Hrun|]. split; [|split; [|by_run]].
  2:{ assert (bool_decide (mdb_get 2 (candidates start_of_50) = None) = false) as H by by_run.
      by apply bool_decide_eq_false in H. }
  exact (transition_starts_the_election 50 end_of_49 start_of_50 end_ready Hrun).
Defined.

Lemma marked_are_removed_witness :
  marked_candidates end_of_49 = [3] /\
  wp (UpdateCandidatesDB;; UpdateRepresentativesDB) (fun _ s' =>
    without (marked_candidates end_of_49) (candidates end_of_49) (candidates s') /\
    without (marked_reps end_of_49) (representative_db end_of_49) (representative_db s') /\
    marked_candidates s' = [] /\ marked_reps s' = [] /\
    leading_candidates_db (elections s') = mdb_empty /\
    request_db s' = request_db end_of_49) end_of_49.
Proof.
  assert (marked_candidates end_of_49 = [3]) as Hc by by_run.
  assert (marked_reps end_of_49 = [6]) as Hr by by_run.
  split; [exact Hc|]. apply (marked_are_removed end_of_49).
  - rw Hc. repeat constructor. by vm_compute.
  - rw Hr. repeat constructor. by vm_compute.
Defined.
End Concrete.
