(* ===== verification/TokenTypes.v ===== *)
(** * Tokens (src/logos/token: common.hpp, common.cpp, account.cpp, entry.cpp)

    The enumerations of the token requests, the bit fields of settings and
    privileges, controllers, token accounts and the rules by which the settings
    of an account permit or forbid an operation. Enumerators are read from the
    wire as raw bytes and never checked: [Other] is a byte without a name. *)
From Stdlib Require Import QArith.
From stdpp Require Import base list numbers strings ssreflect.
From S2P Require Import Prelude Serial StakingTypes Requests.
Open Scope Z_scope.

(** The value of a local [bool] that no statement has assigned. *)
Class Indeterminate := indeterminate : bool.

(** enum class TokenSetting : uint8_t; an odd setting is the mutability of the
    previous one. *)
Module TokenSetting.
Inductive t :=
| Issuance | ModifyIssuance | Revoke | ModifyRevoke | Freeze | ModifyFreeze
| AdjustFee | ModifyAdjustFee | Whitelist | ModifyWhitelist | Unknown
| Other (v : Z).
#[global] Instance t_eq_dec : EqDecision t.
Proof. solve_decision. Defined.
Definition code (x : t) : Z :=
  match x with
  | Issuance => 0 | ModifyIssuance => 1 | Revoke => 2 | ModifyRevoke => 3 | Freeze => 4
  | ModifyFreeze => 5 | AdjustFee => 6 | ModifyAdjustFee => 7 | Whitelist => 8
  | ModifyWhitelist => 9 | Unknown => 10 | Other v => v
  end.
Definition of_code (z : Z) : t :=
  match z with
  | 0 => Issuance | 1 => ModifyIssuance | 2 => Revoke | 3 => ModifyRevoke | 4 => Freeze
  | 5 => ModifyFreeze | 6 => AdjustFee | 7 => ModifyAdjustFee | 8 => Whitelist
  | 9 => ModifyWhitelist | 10 => Unknown | _ => Other z
  end.
Definition wf (x : t) : Prop := of_code (code x) = x /\ in_width 8 (code x).
Lemma code_of_code z : code (of_code z) = z.
Proof. rw /of_code. by repeat case_match. Qed.
End TokenSetting.

(** enum class SettingValue : uint8_t *)
Module SettingValue.
Inductive t := Disabled | Enabled | Other (v : Z).
#[global] Instance t_eq_dec : EqDecision t.
Proof. solve_decision. Defined.
Definition code (x : t) : Z := match x with Disabled => 0 | Enabled => 1 | Other v => v end.
Definition of_code (z : Z) : t := match z with 0 => Disabled | 1 => Enabled | _ => Other z end.
Definition wf (x : t) : Prop := of_code (code x) = x /\ in_width 8 (code x).
End SettingValue.

(** enum class TokenFeeType : uint8_t *)
Module TokenFeeType.
Inductive t := Percentage | Flat | Unknown | Other (v : Z).
#[global] Instance t_eq_dec : EqDecision t.
Proof. solve_decision. Defined.
Definition code (x : t) : Z :=
  match x with Percentage => 0 | Flat => 1 | Unknown => 2 | Other v => v end.
Definition of_code (z : Z) : t :=
  match z with 0 => Percentage | 1 => Flat | 2 => Unknown | _ => Other z end.
Definition wf (x : t) : Prop := of_code (code x) = x /\ in_width 8 (code x).
End TokenFeeType.

(** enum class ControllerAction : uint8_t *)
Module ControllerAction.
Inductive t := Add | Remove | Unknown | Other (v : Z).
#[global] Instance t_eq_dec : EqDecision t.
Proof. solve_decision. Defined.
Definition code (x : t) : Z :=
  match x with Add => 0 | Remove => 1 | Unknown => 2 | Other v => v end.
Definition of_code (z : Z) : t :=
  match z with 0 => Add | 1 => Remove | 2 => Unknown | _ => Other z end.
Definition wf (x : t) : Prop := of_code (code x) = x /\ in_width 8 (code x).
End ControllerAction.

(** enum class UserStatus : uint8_t *)
Module UserStatus.
Inductive t := Frozen | Unfrozen | Whitelisted | NotWhitelisted | Unknown | Other (v : Z).
#[global] Instance t_eq_dec : EqDecision t.
Proof. solve_decision. Defined.
Definition code (x : t) : Z :=
  match x with
  | Frozen => 0 | Unfrozen => 1 | Whitelisted => 2 | NotWhitelisted => 3 | Unknown => 4
  | Other v => v
  end.
Definition of_code (z : Z) : t :=
  match z with
  | 0 => Frozen | 1 => Unfrozen | 2 => Whitelisted | 3 => NotWhitelisted | 4 => Unknown
  | _ => Other z
  end.
Definition wf (x : t) : Prop := of_code (code x) = x /\ in_width 8 (code x).
End UserStatus.

(** enum class ControllerPrivilege : uint8_t; the values are positions in the
    bit field of a controller and are never read from the wire. *)
Module ControllerPrivilege.
Inductive t :=
| ChangeIssuance | ChangeModifyIssuance | ChangeRevoke | ChangeModifyRevoke | ChangeFreeze
| ChangeModifyFreeze | ChangeAdjustFee | ChangeModifyAdjustFee | ChangeWhitelist
| ChangeModifyWhitelist | Issuance | Revoke | Freeze | AdjustFee | Whitelist
| UpdateIssuerInfo | UpdateController | Burn | Distribute | WithdrawFee | WithdrawLogos
| Unknown.
Definition code (x : t) : Z :=
  match x with
  | ChangeIssuance => 0 | ChangeModifyIssuance => 1 | ChangeRevoke => 2
  | ChangeModifyRevoke => 3 | ChangeFreeze => 4 | ChangeModifyFreeze => 5
  | ChangeAdjustFee => 6 | ChangeModifyAdjustFee => 7 | ChangeWhitelist => 8
  | ChangeModifyWhitelist => 9 | Issuance => 10 | Revoke => 11 | Freeze => 12
  | AdjustFee => 13 | Whitelist => 14 | UpdateIssuerInfo => 15 | UpdateController => 16
  | Burn => 17 | Distribute => 18 | WithdrawFee => 19 | WithdrawLogos => 20 | Unknown => 21
  end.
End ControllerPrivilege.

(** ** Bit fields (BitField<N> of lib/utility.hpp)

    A [std::bitset<32>] as its number. It is written as a 64-bit integer; what
    is read is cut to its 32 bits. Setting a position outside the set throws
    an exception that nothing catches. *)
Definition TOKEN_SETTINGS_COUNT : Z := 32.
Definition CONTROLLER_PRIVILEGE_COUNT : Z := 32.
Definition BitField : Type := Z.
Definition bit_at (f : BitField) (pos : Z) : bool := Z.testbit f pos.
Definition bit_set (f : BitField) (pos : Z) (value : bool) : option BitField :=
  if pos <? 32 then Some (if value then Z.setbit f pos else Z.clearbit f pos) else None.
Definition BitField_Serialize (f : BitField) : list Z := write_u64 f.
Definition BitField_Deserialize (bs : list Z) : option (BitField * list Z) :=
  v ← read_u64 bs; Some (wrap 32 v.1, v.2).

(** ** Controllers *)
Record ControllerInfo := { c_account : AccountAddress; c_privileges : BitField }.
Definition ControllerInfo_default : ControllerInfo := Build_ControllerInfo 0 0.
Definition has_privilege (c : ControllerInfo) (p : ControllerPrivilege.t) : bool :=
  bit_at (c_privileges c) (ControllerPrivilege.code p).
Definition ControllerInfo_Serialize (c : ControllerInfo) : list Z :=
  write_u256 (c_account c) ++ BitField_Serialize (c_privileges c).
Definition ControllerInfo_Deserialize (bs : list Z) : option (ControllerInfo * list Z) :=
  a ← read_u256 bs; p ← BitField_Deserialize a.2; Some (Build_ControllerInfo a.1 p.1, p.2).
Definition ControllerInfo_Hash_input (c : ControllerInfo) : list Z :=
  write_u256 (c_account c) ++ write_u64 (c_privileges c).

(** ControllerInfo::IsAuthorized(UserStatus) *)
Definition IsAuthorized_status (c : ControllerInfo) (status : UserStatus.t) : bool :=
  match status with
  | UserStatus.Frozen | UserStatus.Unfrozen => has_privilege c ControllerPrivilege.Freeze
  | UserStatus.Whitelisted | UserStatus.NotWhitelisted =>
      has_privilege c ControllerPrivilege.Whitelist
  | _ => false
  end.

(** ControllerInfo::IsAuthorized(TokenSetting): [result] is not initialised and
    no case assigns it for a setting without a name. *)
Definition IsAuthorized_setting `{Indeterminate} (c : ControllerInfo) (setting : TokenSetting.t)
  : bool :=
  match setting with
  | TokenSetting.Issuance => has_privilege c ControllerPrivilege.ChangeIssuance
  | TokenSetting.ModifyIssuance => has_privilege c ControllerPrivilege.ChangeModifyIssuance
  | TokenSetting.Revoke => has_privilege c ControllerPrivilege.ChangeRevoke
  | TokenSetting.ModifyRevoke => has_privilege c ControllerPrivilege.ChangeModifyRevoke
  | TokenSetting.Freeze => has_privilege c ControllerPrivilege.ChangeFreeze
  | TokenSetting.ModifyFreeze => has_privilege c ControllerPrivilege.ChangeModifyFreeze
  | TokenSetting.AdjustFee => has_privilege c ControllerPrivilege.ChangeAdjustFee
  | TokenSetting.ModifyAdjustFee => has_privilege c ControllerPrivilege.ChangeModifyAdjustFee
  | TokenSetting.Whitelist => has_privilege c ControllerPrivilege.ChangeWhitelist
  | TokenSetting.ModifyWhitelist => has_privilege c ControllerPrivilege.ChangeModifyWhitelist
  | TokenSetting.Unknown => false
  | TokenSetting.Other _ => indeterminate
  end.

(** ** Token accounts *)
Record TokenAccount := {
  ta_modified : Z;
  ta_head : BlockHash;
  ta_block_count : Z;
  ta_receive_head : BlockHash;
  ta_receive_count : Z;
  ta_balance : Amount;
  total_supply : Amount;
  token_balance : Amount;
  token_fee_balance : Amount;
  fee_type : TokenFeeType.t;
  fee_rate : Amount;
  symbol : list Z;
  name : list Z;
  issuer_info : list Z;
  controllers : list ControllerInfo;
  settings : BitField;
  issuance_request : BlockHash;
}.
Definition MAX_CONTROLLERS : nat := 10.

(** Account::Serialize, with the fields of the base class in its order. *)
Definition Account_Serialize (type balance modified head block_count receive_head receive_count : Z)
  : list Z :=
  write_u8 type ++ write_u128 balance ++ write_u64 modified ++ write_u256 head
  ++ write_u32 block_count ++ write_u256 receive_head ++ write_u32 receive_count.
(** Account::Deserialize: [error] is declared again where [head] is read, so
    that a failure from there on is not reported. *)
Definition Account_Deserialize (bs : list Z)
  : option ((Z * Amount * Z * BlockHash * Z * BlockHash * Z) * list Z) :=
  t ← read_u8 bs; b ← read_u128 t.2; m ← read_u64 b.2;
  Some (match (h ← read_u256 m.2; c ← read_u32 h.2; r ← read_u256 c.2; n ← read_u32 r.2;
               Some ((t.1, b.1, m.1, h.1, c.1, r.1, n.1), n.2)) with
        | Some x => x
        | None => ((t.1, b.1, m.1, 0, 0, 0, 0), [])
        end).

Fixpoint read_list {A} (read : list Z -> option (A * list Z)) (count : nat) (bs : list Z)
  : option (list A * list Z) :=
  match count with
  | O => Some ([], bs)
  | S count => x ← read bs; xs ← read_list read count x.2; Some (x.1 :: xs.1, xs.2)
  end.

(** enum class AccountType : uint8_t *)
Definition LogosAccount_type : Z := 0.
Definition TokenAccount_type : Z := 1.

(** TokenAccount::Serialize; [assert(controllers.size() <= MAX_CONTROLLERS)] is
    checked where the account is stored. *)
Definition TokenAccount_Serialize (a : TokenAccount) : list Z :=
  Account_Serialize TokenAccount_type (ta_balance a) (ta_modified a) (ta_head a)
    (ta_block_count a) (ta_receive_head a) (ta_receive_count a)
  ++ write_u128 (total_supply a) ++ write_u128 (token_balance a)
  ++ write_u128 (token_fee_balance a) ++ write_u8 (TokenFeeType.code (fee_type a))
  ++ write_u128 (fee_rate a) ++ write_string (symbol a) ++ write_string (name a)
  ++ write_string (issuer_info a) ++ write_u8 (Z.of_nat (length (controllers a)))
  ++ mjoin (ControllerInfo_Serialize <$> controllers a)
  ++ BitField_Serialize (settings a) ++ write_u256 (issuance_request a).
Definition TokenAccount_Deserialize (bs : list Z) : option (TokenAccount * list Z) :=
  h ← Account_Deserialize bs;
  let '(_, balance, modified, head, block_count, receive_head, receive_count) := h.1 in
  s ← read_u128 h.2; b ← read_u128 s.2; f ← read_u128 b.2;
  ft ← read_u8 f.2; fr ← read_u128 ft.2;
  sy ← read_string fr.2; nm ← read_string sy.2; ii ← read_string nm.2;
  n ← read_u8 ii.2; cs ← read_list ControllerInfo_Deserialize (Z.to_nat n.1) n.2;
  st ← BitField_Deserialize cs.2; ir ← read_u256 st.2;
  Some (Build_TokenAccount modified head block_count receive_head receive_count balance
          s.1 b.1 f.1 (TokenFeeType.of_code ft.1) fr.1 sy.1 nm.1 ii.1 cs.1 st.1 ir.1, ir.2).

(** ** Settings *)
Definition setting_of (a : TokenAccount) (s : TokenSetting.t) : bool :=
  bit_at (settings a) (TokenSetting.code s).
(** TokenAccount::Allowed *)
Definition Allowed (a : TokenAccount) (s : TokenSetting.t) : bool := setting_of a s.
Definition IsMutabilitySetting (s : TokenSetting.t) : bool := Z.odd (TokenSetting.code s).
(** The [assert] that the setting is not one of mutability; the enumerator is
    one byte wide. *)
Definition GetMutabilitySetting (s : TokenSetting.t) : option TokenSetting.t :=
  if IsMutabilitySetting s then None
  else Some (TokenSetting.of_code (wrap 8 (TokenSetting.code s + 1))).

Definition set_settings (f : BitField) (a : TokenAccount) : TokenAccount :=
  Build_TokenAccount (ta_modified a) (ta_head a) (ta_block_count a) (ta_receive_head a)
    (ta_receive_count a) (ta_balance a) (total_supply a) (token_balance a)
    (token_fee_balance a) (fee_type a) (fee_rate a) (symbol a) (name a) (issuer_info a)
    (controllers a) f (issuance_request a).
(** TokenAccount::Set, with a boolean and with a value of the request. *)
Definition Set_bool (a : TokenAccount) (s : TokenSetting.t) (value : bool) : option TokenAccount :=
  f ← bit_set (settings a) (TokenSetting.code s) value; Some (set_settings f a).
Definition Set_value (a : TokenAccount) (s : TokenSetting.t) (value : SettingValue.t)
  : option TokenAccount :=
  f ← bit_set (settings a) (TokenSetting.code s) (bool_decide (value = SettingValue.Enabled));
  Some (set_settings f a).

(** TokenAccount::IsAllowed(UserStatus) *)
Definition IsAllowed_status (a : TokenAccount) (status : UserStatus.t) : bool :=
  match status with
  | UserStatus.Frozen | UserStatus.Unfrozen => setting_of a TokenSetting.Freeze
  | UserStatus.Whitelisted | UserStatus.NotWhitelisted => setting_of a TokenSetting.Whitelist
  | _ => false
  end.

(** TokenAccount::IsAllowed(ChangeSetting) *)
Definition IsAllowed_change (a : TokenAccount) (s : TokenSetting.t) (value : SettingValue.t)
  : bool :=
  let disabling := bool_decide (value = SettingValue.Disabled) in
  match s with
  | TokenSetting.Issuance => setting_of a TokenSetting.ModifyIssuance
  | TokenSetting.ModifyIssuance => setting_of a TokenSetting.ModifyIssuance || disabling
  | TokenSetting.Revoke => setting_of a TokenSetting.ModifyRevoke
  | TokenSetting.ModifyRevoke => setting_of a TokenSetting.ModifyRevoke || disabling
  | TokenSetting.Freeze => setting_of a TokenSetting.ModifyFreeze
  | TokenSetting.ModifyFreeze => setting_of a TokenSetting.ModifyFreeze || disabling
  | TokenSetting.AdjustFee => setting_of a TokenSetting.ModifyAdjustFee
  | TokenSetting.ModifyAdjustFee => setting_of a TokenSetting.ModifyAdjustFee || disabling
  | TokenSetting.Whitelist => setting_of a TokenSetting.ModifyWhitelist
  | TokenSetting.ModifyWhitelist => setting_of a TokenSetting.ModifyWhitelist || disabling
  | TokenSetting.Unknown | TokenSetting.Other _ => false
  end.

(** ** Controllers of an account *)
Definition find_controller (account : AccountAddress) (cs : list ControllerInfo)
  : option ControllerInfo := List.find (fun c => c_account c =? account) cs.
Definition IsController (a : TokenAccount) (account : AccountAddress) : bool :=
  match find_controller account (controllers a) with Some _ => true | None => false end.
(** TokenAccount::GetController(account, controller): the flag it returns is
    assigned by the callback, which never runs on an empty list. *)
Definition GetController `{Indeterminate} (a : TokenAccount) (account : AccountAddress)
  : option ControllerInfo :=
  match controllers a with
  | [] => if indeterminate then Some ControllerInfo_default else None
  | cs => find_controller account cs
  end.

(** logos::account_info::GetEntry(token_id, val), of the same shape. *)
Definition find_entry (token_id : BlockHash) (es : list TokenEntry) : option TokenEntry :=
  List.find (fun e => te_token_id e =? token_id) es.
Definition TokenEntry_default : TokenEntry :=
  Build_TokenEntry 0 (Build_TokenUserStatus false false) 0.
Definition GetEntry `{Indeterminate} (info : account_info) (token_id : BlockHash)
  : option TokenEntry :=
  match entries info with
  | [] => if indeterminate then Some TokenEntry_default else None
  | es => find_entry token_id es
  end.

(** ** Transfers *)

(** TokenAccount::FeeSufficient: the percentage of what is sent, in 128-bit
    arithmetic. [min_fee] of an enumerator without a name keeps its initial 0. *)
Definition min_fee (a : TokenAccount) (token_total token_fee : Amount) : Amount :=
  match fee_type a with
  | TokenFeeType.Flat => fee_rate a
  | TokenFeeType.Percentage => u128 (fee_rate a * u128 (token_total - token_fee)) / 100
  | TokenFeeType.Unknown | TokenFeeType.Other _ => 0
  end.
Definition FeeSufficient (a : TokenAccount) (token_total token_fee : Amount) : bool :=
  min_fee a token_total token_fee <=? token_fee.

(** What TokenAccount::SendAllowed answers. *)
Inductive send_check := Allow | NotWhitelistedUser | FrozenUser.
Definition SendAllowed (a : TokenAccount) (status : TokenUserStatus) : send_check :=
  if setting_of a TokenSetting.Whitelist && negb (whitelisted status) then NotWhitelistedUser
  else if setting_of a TokenSetting.Freeze && frozen status then FrozenUser
  else Allow.

(** ** Identifiers (entry.cpp) *)
Definition TokenID_Hash_input (symbol name : list Z) (issuer : AccountAddress)
    (previous : BlockHash) : list Z :=
  write_u256 issuer ++ write_u256 previous ++ symbol ++ name.
Definition GetTokenID `{Blake2b} (symbol name : list Z) (issuer : AccountAddress)
    (previous : BlockHash) : BlockHash := blake2b (TokenID_Hash_input symbol name issuer previous).
Definition GetTokenUserID `{Blake2b} (token_id : BlockHash) (user : AccountAddress) : BlockHash :=
  blake2b (write_u256 token_id ++ write_u256 user).

(** TokenUserStatus and TokenEntry (entry.cpp) *)
Definition TokenUserStatus_Serialize (s : TokenUserStatus) : list Z :=
  write_bool (whitelisted s) ++ write_bool (frozen s).
Definition TokenUserStatus_Deserialize (bs : list Z) : option (TokenUserStatus * list Z) :=
  w ← read_bool bs; f ← read_bool w.2; Some (Build_TokenUserStatus w.1 f.1, f.2).
Definition TokenEntry_Serialize (e : TokenEntry) : list Z :=
  write_u256 (te_token_id e) ++ TokenUserStatus_Serialize (te_status e)
  ++ write_u128 (te_balance e).
Definition TokenEntry_Deserialize (bs : list Z) : option (TokenEntry * list Z) :=
  t ← read_u256 bs; s ← TokenUserStatus_Deserialize t.2; b ← read_u128 s.2;
  Some (Build_TokenEntry t.1 s.1 b.1, b.2).

(** logos::read and logos::write of a Rational: 32 bytes for the numerator and
    32 for the denominator. *)
Definition Rational_write (q : Q) : list Z :=
  le_bytes 32 (Qnum q) ++ le_bytes 32 (Zpos (Qden q)).
(** A 256-bit signed integer whose sign is not set by reading its bytes. *)
Definition Rational_read (bs : list Z) : option (Q * list Z) :=
  n ← read_bytes 32 bs; d ← read_bytes 32 n.2;
  match le_val d.1 with
  | Zpos p => Some (Qmake (le_val n.1) p, d.2)
  | _ => None
  end.

Definition RepRecord_Serialize (r : RepRecord) : list Z :=
  write_u256 (rep r) ++ write_u32 (epoch_first_active r).
Definition RepRecord_Deserialize (bs : list Z) : option (RepRecord * list Z) :=
  r ← read_u256 bs; e ← read_u32 r.2; Some (Build_RepRecord r.1 e.1, e.2).

Definition account_info_Serialize (i : account_info) : list Z :=
  Account_Serialize LogosAccount_type (balance i) (modified i) (head i) (block_count i)
    (receive_head i) (receive_count i)
  ++ write_u256 (governance_subchain_head i) ++ RepRecord_Serialize (new_rep i)
  ++ RepRecord_Serialize (old_rep i) ++ write_u256 (open_block i)
  ++ write_u16 (Z.of_nat (length (entries i))) ++ mjoin (TokenEntry_Serialize <$> entries i)
  ++ write_u32 (epoch_thawing_updated i) ++ write_u32 (epoch_secondary_liabilities_updated i)
  ++ write_u128 (available_balance i) ++ write_u32 (claim_epoch i) ++ Rational_write (dust i).
Definition account_info_Deserialize (bs : list Z) : option (account_info * list Z) :=
  h ← Account_Deserialize bs;
  let '(_, balance, modified, head, block_count, receive_head, receive_count) := h.1 in
  g ← read_u256 h.2; n ← RepRecord_Deserialize g.2; o ← RepRecord_Deserialize n.2;
  ob ← read_u256 o.2; c ← read_u16 ob.2;
  es ← read_list TokenEntry_Deserialize (Z.to_nat c.1) c.2;
  et ← read_u32 es.2; el ← read_u32 et.2; av ← read_u128 el.2; ce ← read_u32 av.2;
  d ← Rational_read ce.2;
  Some (Build_account_info modified head block_count receive_head receive_count balance
          g.1 o.1 n.1 ob.1 es.1 et.1 el.1 ce.1 d.1 av.1, d.2).

(** A digest of 256 bits for concrete runs, in which digests are hashed again. *)
Definition mod_blake2b : Blake2b :=
  foldl (fun h b => (h * 257 + b + 1) mod (2 ^ 255 - 19)) 1.
