(* ===== verification/TokenRequests.v ===== *)
(** * Sends, token requests and claims

    The requests that are not governance: request/requests.cpp (Send),
    token/requests.cpp and token/common.cpp (the token requests), and
    rewards/claim.cpp. What the classes share is [RequestBase]; a token request
    adds the identifier of its token and a variant for what each derived class
    adds. [Request] is any request, governance included. *)
From stdpp Require Import base list numbers strings ssreflect.
From S2P Require Import Prelude Serial StakingTypes Requests Governance TokenTypes.
Open Scope Z_scope.

(** Transaction<Amount> (request/transaction.hpp) *)
Record Transaction := { destination : AccountAddress; t_amount : Amount }.
#[global] Instance Transaction_eq_dec : EqDecision Transaction.
Proof. solve_decision. Defined.

(** The members of class Request. *)
Record RequestBase := {
  rq_origin : AccountAddress;
  rq_previous : BlockHash;
  rq_fee : Amount;
  rq_sequence : Z;
  rq_signature : Z;
  rq_next : BlockHash;
  rq_locator : Locator;
}.

(** What struct Issuance adds. *)
Record IssuanceFields := {
  is_symbol : list Z;
  is_name : list Z;
  is_total_supply : Amount;
  is_fee_type : TokenFeeType.t;
  is_fee_rate : Amount;
  is_settings : BitField;
  is_controllers : list ControllerInfo;
  is_issuer_info : list Z;
}.

(** The structures derived from TokenRequest. *)
Inductive TokenBody :=
| Issuance (i : IssuanceFields)
| IssueAdditional (amount : Amount)
| ChangeSetting (setting : TokenSetting.t) (value : SettingValue.t)
| ImmuteSetting (setting : TokenSetting.t)
| Revoke (source : AccountAddress) (transaction : Transaction)
| AdjustUserStatus (account : AccountAddress) (status : UserStatus.t)
| AdjustFee (fee_type : TokenFeeType.t) (fee_rate : Amount)
| UpdateIssuerInfo (new_info : list Z)
| UpdateController (action : ControllerAction.t) (controller : ControllerInfo)
| Burn (amount : Amount)
| Distribute (transaction : Transaction)
| WithdrawFee (transaction : Transaction)
| WithdrawLogos (transaction : Transaction)
| TokenSend (transactions : list Transaction) (token_fee : Amount).

Record TokenRequest := {
  tr_base : RequestBase;
  tr_token_id : BlockHash;
  tr_body : TokenBody;
}.
Record SendRequest := { s_base : RequestBase; s_transactions : list Transaction }.
Record ClaimRequest := {
  cl_base : RequestBase;
  cl_epoch_hash : BlockHash;
  cl_epoch_number : Z;
}.

Inductive Request :=
| RGovernance (g : Governance)
| RSend (s : SendRequest)
| RToken (t : TokenRequest)
| RClaim (c : ClaimRequest).

Definition governance_base (g : Governance) : RequestBase :=
  Build_RequestBase (gr_origin g) (gr_previous g) (gr_fee g) (gr_sequence g) (gr_signature g)
    (gr_next g) (gr_locator g).
Definition base_of (r : Request) : RequestBase :=
  match r with
  | RGovernance g => governance_base g
  | RSend s => s_base s
  | RToken t => tr_base t
  | RClaim c => cl_base c
  end.

Definition token_type (b : TokenBody) : RequestType.t :=
  match b with
  | Issuance _ => RequestType.Issuance
  | IssueAdditional _ => RequestType.IssueAdditional
  | ChangeSetting _ _ => RequestType.ChangeSetting
  | ImmuteSetting _ => RequestType.ImmuteSetting
  | Revoke _ _ => RequestType.Revoke
  | AdjustUserStatus _ _ => RequestType.AdjustUserStatus
  | AdjustFee _ _ => RequestType.AdjustFee
  | UpdateIssuerInfo _ => RequestType.UpdateIssuerInfo
  | UpdateController _ _ => RequestType.UpdateController
  | Burn _ => RequestType.Burn
  | Distribute _ => RequestType.Distribute
  | WithdrawFee _ => RequestType.WithdrawFee
  | WithdrawLogos _ => RequestType.WithdrawLogos
  | TokenSend _ _ => RequestType.TokenSend
  end.
Definition request_type (r : Request) : RequestType.t :=
  match r with
  | RGovernance g => gr_type g
  | RSend _ => RequestType.Send
  | RToken t => token_type (tr_body t)
  | RClaim _ => RequestType.Claim
  end.

(** ** Accounts and totals *)

(** GetAccount: the account whose chain the request extends. *)
Definition GetAccount (r : Request) : AccountAddress :=
  match r with
  | RToken t =>
      match tr_body t with
      | Issuance _ | TokenSend _ _ => rq_origin (tr_base t)
      | _ => tr_token_id t
      end
  | _ => rq_origin (base_of r)
  end.
(** TokenRequest::GetSource and its overriders. *)
Definition GetSource (t : TokenRequest) : AccountAddress :=
  match tr_body t with
  | Issuance _ | IssueAdditional _ => rq_origin (tr_base t)
  | Revoke source _ => source
  | _ => GetAccount (RToken t)
  end.
(** TokenRequest::GetDestination and its overriders. *)
Definition GetDestination (t : TokenRequest) : AccountAddress :=
  match tr_body t with
  | Distribute x | WithdrawFee x | WithdrawLogos x => destination x
  | _ => 0
  end.

(** Send::GetLogosTotal: the amounts sent to other accounts, and the fee. *)
Definition add_unless_self (origin : AccountAddress) (a : Amount) (t : Transaction) : Amount :=
  if destination t =? origin then a else amt_add a (t_amount t).
Definition Send_GetLogosTotal (s : SendRequest) : Amount :=
  amt_add (foldl (add_unless_self (rq_origin (s_base s))) 0 (s_transactions s))
    (rq_fee (s_base s)).
Definition GetLogosTotal (r : Request) : Amount :=
  match r with RSend s => Send_GetLogosTotal s | _ => rq_fee (base_of r) end.

(** TokenSend::GetTokenTotal *)
Definition transactions_total (ts : list Transaction) : Amount :=
  foldl (fun a t => amt_add a (t_amount t)) 0 ts.
Definition GetTokenTotal (r : Request) : Amount :=
  match r with
  | RToken t =>
      match tr_body t with
      | Revoke _ x | Distribute x | WithdrawFee x | WithdrawLogos x => t_amount x
      | Burn amount => amount
      | TokenSend ts token_fee => amt_add (transactions_total ts) token_fee
      | _ => 0
      end
  | _ => 0
  end.

(** PersistenceManager<R>::MinTransactionFee *)
Definition MinTransactionFee (type : RequestType.t) : Amount :=
  match type with
  | RequestType.ElectionVote | RequestType.Unknown => 0
  | _ => 0x21e19e0c9bab2400000
  end.

(** Send::AddTransaction and TokenSend::AddTransaction *)
Definition MAX_TRANSACTIONS : nat := 8.
Definition AddTransaction (t : Transaction) (ts : list Transaction) : option (list Transaction) :=
  if (length ts <? MAX_TRANSACTIONS)%nat then Some (ts ++ [t]) else None.

(** ** Digests *)
Definition base_Hash_input (type : RequestType.t) (b : RequestBase) : list Z :=
  write_u8 (RequestType.code type) ++ write_u256 (rq_origin b) ++ write_u256 (rq_previous b)
  ++ write_u128 (rq_fee b) ++ write_u32 (rq_sequence b).
Definition Transaction_Hash_input (t : Transaction) : list Z :=
  write_u256 (destination t) ++ write_u128 (t_amount t).
Definition Issuance_Hash_input (i : IssuanceFields) : list Z :=
  is_symbol i ++ is_name i ++ write_u128 (is_total_supply i)
  ++ write_u8 (TokenFeeType.code (is_fee_type i)) ++ write_u128 (is_fee_rate i)
  ++ write_u64 (is_settings i) ++ mjoin (ControllerInfo_Hash_input <$> is_controllers i)
  ++ is_issuer_info i.
Definition IssueAdditional_Hash_input (amount : Amount) : list Z := write_u128 amount.
Definition ChangeSetting_Hash_input (s : TokenSetting.t) (v : SettingValue.t) : list Z :=
  write_u8 (TokenSetting.code s) ++ write_u8 (SettingValue.code v).
Definition ImmuteSetting_Hash_input (s : TokenSetting.t) : list Z := write_u8 (TokenSetting.code s).
Definition Revoke_Hash_input (source : AccountAddress) (x : Transaction) : list Z :=
  write_u256 source ++ Transaction_Hash_input x.
Definition AdjustUserStatus_Hash_input (account : AccountAddress) (status : UserStatus.t) : list Z :=
  write_u256 account ++ write_u8 (UserStatus.code status).
Definition AdjustFee_Hash_input (ft : TokenFeeType.t) (fr : Amount) : list Z :=
  write_u8 (TokenFeeType.code ft) ++ write_u128 fr.
Definition UpdateIssuerInfo_Hash_input (new_info : list Z) : list Z := new_info.
Definition UpdateController_Hash_input (action : ControllerAction.t) (c : ControllerInfo) : list Z :=
  write_u8 (ControllerAction.code action) ++ ControllerInfo_Hash_input c.
Definition Burn_Hash_input (amount : Amount) : list Z := write_u128 amount.
Definition Distribute_Hash_input (x : Transaction) : list Z := Transaction_Hash_input x.
Definition WithdrawFee_Hash_input (x : Transaction) : list Z := Transaction_Hash_input x.
Definition WithdrawLogos_Hash_input (x : Transaction) : list Z := Transaction_Hash_input x.
Definition TokenSend_Hash_input (ts : list Transaction) (token_fee : Amount) : list Z :=
  mjoin (Transaction_Hash_input <$> ts) ++ write_u128 token_fee.
Definition token_Hash_input (b : TokenBody) : list Z :=
  match b with
  | Issuance i => Issuance_Hash_input i
  | IssueAdditional amount => IssueAdditional_Hash_input amount
  | ChangeSetting s v => ChangeSetting_Hash_input s v
  | ImmuteSetting s => ImmuteSetting_Hash_input s
  | Revoke source x => Revoke_Hash_input source x
  | AdjustUserStatus account status => AdjustUserStatus_Hash_input account status
  | AdjustFee ft fr => AdjustFee_Hash_input ft fr
  | UpdateIssuerInfo new_info => UpdateIssuerInfo_Hash_input new_info
  | UpdateController action c => UpdateController_Hash_input action c
  | Burn amount => Burn_Hash_input amount
  | Distribute x => Distribute_Hash_input x
  | WithdrawFee x => WithdrawFee_Hash_input x
  | WithdrawLogos x => WithdrawLogos_Hash_input x
  | TokenSend ts token_fee => TokenSend_Hash_input ts token_fee
  end.
Definition Send_Hash_input (s : SendRequest) : list Z :=
  mjoin (Transaction_Hash_input <$> s_transactions s).
Definition TokenRequest_Hash_input (t : TokenRequest) : list Z :=
  write_u256 (tr_token_id t) ++ token_Hash_input (tr_body t).
Definition Claim_Hash_input (c : ClaimRequest) : list Z :=
  write_u256 (cl_epoch_hash c) ++ write_u32 (cl_epoch_number c).
Definition request_hash `{Blake2b} (r : Request) : BlockHash :=
  match r with
  | RGovernance g => GetHash g
  | RSend s =>
      blake2b (base_Hash_input RequestType.Send (s_base s) ++ Send_Hash_input s)
  | RToken t =>
      blake2b (base_Hash_input (token_type (tr_body t)) (tr_base t)
               ++ TokenRequest_Hash_input t)
  | RClaim c =>
      blake2b (base_Hash_input RequestType.Claim (cl_base c) ++ Claim_Hash_input c)
  end.

(** ** Validation of a request by itself

    A chain of checks, each of which sets [result.code] and returns. *)
Definition require (b : bool) (code : ProcessResult.t) : validation :=
  if b then Valid else Invalid (Some code).
Definition and_then (a b : validation) : validation :=
  match a with Valid => b | Invalid _ => a end.
Declare Scope validation_scope.
Delimit Scope validation_scope with valid.
Infix ">&" := and_then (at level 61, left associativity) : validation_scope.

(** Request::Validate(result) *)
Definition Request_Validate (r : Request) : validation :=
  (require (negb (rq_origin (base_of r) =? 0)) ProcessResult.opened_burn_account >&
   require (MinTransactionFee (request_type r) <=? rq_fee (base_of r))
     ProcessResult.insufficient_fee)%valid.

(** TokenRequest::Validate(result) *)
Definition TokenRequest_Validate (t : TokenRequest) : validation :=
  (Request_Validate (RToken t) >&
   require (negb (tr_token_id t =? 0)) ProcessResult.invalid_token_id)%valid.

Definition ValidateTokenAmount (amount : Amount) (non_zero : bool) : bool :=
  negb (non_zero && (amount =? 0)).
Definition ValidateFee (ft : TokenFeeType.t) (fee_rate : Amount) : bool :=
  match ft with
  | TokenFeeType.Percentage => fee_rate <=? 100
  | TokenFeeType.Flat => ValidateTokenAmount fee_rate false
  | _ => false
  end.

(** std::isalnum and std::isspace in the C locale. *)
Definition is_alnum (c : Z) : bool :=
  (48 <=? c) && (c <=? 57) || (65 <=? c) && (c <=? 90) || (97 <=? c) && (c <=? 122).
Definition is_space (c : Z) : bool := (9 <=? c) && (c <=? 13) || (c =? 32).
Definition is_alphanumeric (s : list Z) : bool := forallb is_alnum s.
Definition is_valid_name (s : list Z) : bool :=
  forallb (fun c => is_alnum c || is_space c || (c =? 45) || (c =? 95)) s.
Definition is_empty {A} (xs : list A) : bool := match xs with [] => true | _ => false end.

Definition SYMBOL_MAX_SIZE : nat := 8.
Definition NAME_MAX_SIZE : nat := 32.
Definition INFO_MAX_SIZE : nat := 512.

(** Issuance::Validate(result), after that of its base class. *)
Definition Issuance_Validate `{Blake2b} (t : TokenRequest) (i : IssuanceFields) : validation :=
  (require (tr_token_id t =? GetTokenID (is_symbol i) (is_name i) (rq_origin (tr_base t))
                               (rq_previous (tr_base t))) ProcessResult.invalid_token_id >&
   require (negb (is_empty (is_symbol i)) && is_alphanumeric (is_symbol i)
            && (length (is_symbol i) <=? SYMBOL_MAX_SIZE)%nat)
     ProcessResult.invalid_token_symbol >&
   require (negb (is_empty (is_name i)) && is_valid_name (is_name i)
            && (length (is_name i) <=? NAME_MAX_SIZE)%nat) ProcessResult.invalid_token_name >&
   require (ValidateTokenAmount (is_total_supply i) true) ProcessResult.invalid_token_amount >&
   require (ValidateFee (is_fee_type i) (is_fee_rate i)) ProcessResult.invalid_fee >&
   require (length (is_controllers i) <=? MAX_CONTROLLERS)%nat
     ProcessResult.controller_capacity >&
   require (length (is_issuer_info i) <=? INFO_MAX_SIZE)%nat
     ProcessResult.invalid_issuer_info)%valid.

(** The overriders of Validate(result); ChangeSetting, AdjustUserStatus and
    WithdrawLogos have none. *)
Definition IssueAdditional_Validate (amount : Amount) : validation :=
  require (ValidateTokenAmount amount true) ProcessResult.invalid_token_amount.
Definition ImmuteSetting_Validate (setting : TokenSetting.t) : validation :=
  require (negb (IsMutabilitySetting setting)) ProcessResult.prohibitted_request.
Definition Revoke_Validate (x : Transaction) : validation :=
  require (ValidateTokenAmount (t_amount x) true) ProcessResult.invalid_token_amount.
Definition AdjustFee_Validate (ft : TokenFeeType.t) (fr : Amount) : validation :=
  require (ValidateFee ft fr) ProcessResult.invalid_fee.
Definition UpdateIssuerInfo_Validate (new_info : list Z) : validation :=
  require (length new_info <=? INFO_MAX_SIZE)%nat ProcessResult.invalid_issuer_info.
Definition UpdateController_Validate (action : ControllerAction.t) : validation :=
  require (bool_decide (action = ControllerAction.Add)
           || bool_decide (action = ControllerAction.Remove))
    ProcessResult.invalid_controller_action.
Definition Burn_Validate (amount : Amount) : validation :=
  require (ValidateTokenAmount amount true) ProcessResult.invalid_token_amount.
Definition Distribute_Validate (x : Transaction) : validation :=
  require (ValidateTokenAmount (t_amount x) true) ProcessResult.invalid_token_amount.
Definition WithdrawFee_Validate (x : Transaction) : validation :=
  require (ValidateTokenAmount (t_amount x) true) ProcessResult.invalid_token_amount.
Definition TokenSend_Validate (ts : list Transaction) : validation :=
  require (forallb (fun x => ValidateTokenAmount (t_amount x) true) ts)
    ProcessResult.invalid_token_amount.
Definition body_Validate `{Blake2b} (t : TokenRequest) : validation :=
  match tr_body t with
  | Issuance i => Issuance_Validate t i
  | IssueAdditional amount => IssueAdditional_Validate amount
  | ImmuteSetting setting => ImmuteSetting_Validate setting
  | Revoke _ x => Revoke_Validate x
  | AdjustFee ft fr => AdjustFee_Validate ft fr
  | UpdateIssuerInfo new_info => UpdateIssuerInfo_Validate new_info
  | UpdateController action _ => UpdateController_Validate action
  | Burn amount => Burn_Validate amount
  | Distribute x => Distribute_Validate x
  | WithdrawFee x => WithdrawFee_Validate x
  | TokenSend ts _ => TokenSend_Validate ts
  | ChangeSetting _ _ | AdjustUserStatus _ _ | WithdrawLogos _ => Valid
  end.
(** request->Validate(result) *)
Definition Validate_alone `{Blake2b} (r : Request) : validation :=
  match r with
  | RToken t => (TokenRequest_Validate t >& body_Validate t)%valid
  | _ => Request_Validate r
  end.

(** ** Validation against an account *)

(** Validate(result, info) where [info] is the token account. *)
Definition IssueAdditional_Validate_info (amount : Amount) (a : TokenAccount) : validation :=
  require (negb (amt_add (total_supply a) amount <? total_supply a))
    ProcessResult.total_supply_overflow.
Definition UpdateController_Validate_info `{Indeterminate} (action : ControllerAction.t)
    (c : ControllerInfo) (a : TokenAccount) : validation :=
  let found := GetController a (c_account c) in
  match action with
  | ControllerAction.Add =>
      match found with
      | Some _ => Valid
      | None =>
          require (negb (length (controllers a) =? MAX_CONTROLLERS)%nat)
            ProcessResult.controller_capacity
      end
  | ControllerAction.Remove =>
      require (match found with Some _ => true | None => false end)
        ProcessResult.invalid_controller
  | _ => Valid
  end.
Definition Burn_Validate_info (amount : Amount) (a : TokenAccount) : validation :=
  require (amount <=? token_balance a) ProcessResult.insufficient_token_balance.
Definition Distribute_Validate_info (x : Transaction) (a : TokenAccount) : validation :=
  require (t_amount x <=? token_balance a) ProcessResult.insufficient_token_balance.
Definition WithdrawFee_Validate_info (x : Transaction) (a : TokenAccount) : validation :=
  require (t_amount x <=? token_fee_balance a) ProcessResult.insufficient_token_balance.
Definition WithdrawLogos_Validate_info (t : TokenRequest) (x : Transaction) (a : TokenAccount)
  : validation :=
  (TokenRequest_Validate t >&
   require (t_amount x <=? ta_balance a) ProcessResult.insufficient_balance)%valid.
(** The default of class Request accepts. *)
Definition Validate_token_account `{Indeterminate} (t : TokenRequest) (a : TokenAccount)
  : validation :=
  match tr_body t with
  | IssueAdditional amount => IssueAdditional_Validate_info amount a
  | UpdateController action c => UpdateController_Validate_info action c a
  | Burn amount => Burn_Validate_info amount a
  | Distribute x => Distribute_Validate_info x a
  | WithdrawFee x => WithdrawFee_Validate_info x a
  | WithdrawLogos x => WithdrawLogos_Validate_info t x a
  | _ => Valid
  end.

(** Validate(result, info) of Revoke and TokenSend, where [info] is the account
    the tokens come from. *)
Definition Revoke_Validate_info `{Indeterminate} (t : TokenRequest) (x : Transaction)
    (i : account_info) : validation :=
  match GetEntry i (tr_token_id t) with
  | None => Invalid (Some ProcessResult.untethered_account)
  | Some e => require (t_amount x <=? te_balance e) ProcessResult.insufficient_token_balance
  end.
Definition TokenSend_Validate_info `{Indeterminate} (t : TokenRequest) (i : account_info)
  : validation :=
  match GetEntry i (tr_token_id t) with
  | None => Invalid (Some ProcessResult.untethered_account)
  | Some e =>
      require (GetTokenTotal (RToken t) <=? te_balance e) ProcessResult.insufficient_token_balance
  end.
Definition Validate_user_account `{Indeterminate} (t : TokenRequest) (i : account_info)
  : validation :=
  match tr_body t with
  | Revoke _ x => Revoke_Validate_info t x i
  | TokenSend _ _ => TokenSend_Validate_info t i
  | _ => Valid
  end.

(** ControllerInfo::IsAuthorized(request); a token setting that is already one
    of mutability fails the assertion of GetMutabilitySetting, [None]. *)
Definition IsAuthorized `{Indeterminate} (c : ControllerInfo) (b : TokenBody) : option bool :=
  match b with
  | Issuance _ | TokenSend _ _ => Some false
  | IssueAdditional _ => Some (has_privilege c ControllerPrivilege.Issuance)
  | ChangeSetting setting _ => Some (IsAuthorized_setting c setting)
  | ImmuteSetting setting => m ← GetMutabilitySetting setting; Some (IsAuthorized_setting c m)
  | Revoke _ _ => Some (has_privilege c ControllerPrivilege.Revoke)
  | AdjustUserStatus _ status => Some (IsAuthorized_status c status)
  | AdjustFee _ _ => Some (has_privilege c ControllerPrivilege.AdjustFee)
  | UpdateIssuerInfo _ => Some (has_privilege c ControllerPrivilege.UpdateIssuerInfo)
  | UpdateController _ _ => Some (has_privilege c ControllerPrivilege.UpdateController)
  | Burn _ => Some (has_privilege c ControllerPrivilege.Burn)
  | Distribute _ => Some (has_privilege c ControllerPrivilege.Distribute)
  | WithdrawFee _ => Some (has_privilege c ControllerPrivilege.WithdrawFee)
  | WithdrawLogos _ => Some (has_privilege c ControllerPrivilege.WithdrawLogos)
  end.

(** TokenAccount::IsAllowed(request) *)
Definition IsAllowed (a : TokenAccount) (b : TokenBody) : bool :=
  match b with
  | Issuance _ => false
  | IssueAdditional _ => setting_of a TokenSetting.Issuance
  | ChangeSetting setting value => IsAllowed_change a setting value
  | ImmuteSetting setting => negb (IsMutabilitySetting setting)
  | Revoke _ _ => setting_of a TokenSetting.Revoke
  | AdjustUserStatus _ status => IsAllowed_status a status
  | AdjustFee _ _ => setting_of a TokenSetting.AdjustFee
  | _ => true
  end.

(** IsTokenAdminRequest (token/utility.cpp) *)
Definition IsTokenAdminRequest (b : TokenBody) : bool :=
  match b with Issuance _ | TokenSend _ _ => false | _ => true end.
