(* ===== verification/TokenFormats.v ===== *)
(** * Formats of sends, token requests, claims and accounts

    Serialize and Deserialize of the classes of TokenRequests.v, DeserializeRequest
    for them, and the round trips of requests, token accounts and user accounts. *)
From Stdlib Require Import QArith.QArith_base.
From stdpp Require Import base list numbers strings ssreflect.
From S2P Require Import Prelude Serial StakingTypes Requests Governance TokenTypes TokenRequests.
Open Scope Z_scope.

(** logos::write<uint16_t>(stream, string) and its reader. *)
Definition write_string16 (cs : list Z) : list Z := write_u16 (Z.of_nat (length cs)) ++ cs.
Definition read_string16 (bs : list Z) : option (list Z * list Z) :=
  n ← read_u16 bs; read_bytes (Z.to_nat n.1) n.2.

Definition Transaction_Serialize (t : Transaction) : list Z :=
  write_u256 (destination t) ++ write_u128 (t_amount t).
Definition Transaction_Deserialize (bs : list Z) : option (Transaction * list Z) :=
  d ← read_u256 bs; a ← read_u128 d.2; Some (Build_Transaction d.1 a.1, a.2).

(** SerializeVector, with its assertion in the hypothesis of the round trip. *)
Definition SerializeVector {A} (f : A -> list Z) (xs : list A) : list Z :=
  write_u8 (Z.of_nat (length xs)) ++ mjoin (f <$> xs).
Definition DeserializeVector {A} (f : list Z -> option (A * list Z)) (bs : list Z)
  : option (list A * list Z) :=
  n ← read_u8 bs; read_list f (Z.to_nat n.1) n.2.

(** What each class writes after the identifier of the token, and how it is read
    back, up to the signature. *)
Definition Issuance_Serialize (i : IssuanceFields) : list Z :=
  write_string (is_symbol i) ++ write_string (is_name i) ++ write_u128 (is_total_supply i)
  ++ write_u8 (TokenFeeType.code (is_fee_type i)) ++ write_u128 (is_fee_rate i)
  ++ BitField_Serialize (is_settings i)
  ++ SerializeVector ControllerInfo_Serialize (is_controllers i)
  ++ write_string16 (is_issuer_info i).
Definition Issuance_Deserialize (bs : list Z) : option (IssuanceFields * list Z) :=
  sy ← read_string bs; nm ← read_string sy.2; ts ← read_u128 nm.2; ft ← read_u8 ts.2;
  fr ← read_u128 ft.2; st ← BitField_Deserialize fr.2;
  cs ← DeserializeVector ControllerInfo_Deserialize st.2; ii ← read_string16 cs.2;
  Some (Build_IssuanceFields sy.1 nm.1 ts.1 (TokenFeeType.of_code ft.1) fr.1 st.1 cs.1 ii.1, ii.2).
Definition IssueAdditional_Serialize (amount : Amount) : list Z := write_u128 amount.
Definition IssueAdditional_Deserialize (bs : list Z) : option (TokenBody * list Z) :=
  a ← read_u128 bs; Some (IssueAdditional a.1, a.2).
Definition ChangeSetting_Serialize (s : TokenSetting.t) (v : SettingValue.t) : list Z :=
  write_u8 (TokenSetting.code s) ++ write_u8 (SettingValue.code v).
Definition ChangeSetting_Deserialize (bs : list Z) : option (TokenBody * list Z) :=
  s ← read_u8 bs; v ← read_u8 s.2;
  Some (ChangeSetting (TokenSetting.of_code s.1) (SettingValue.of_code v.1), v.2).
Definition ImmuteSetting_Serialize (s : TokenSetting.t) : list Z := write_u8 (TokenSetting.code s).
Definition ImmuteSetting_Deserialize (bs : list Z) : option (TokenBody * list Z) :=
  s ← read_u8 bs; Some (ImmuteSetting (TokenSetting.of_code s.1), s.2).
Definition Revoke_Serialize (source : AccountAddress) (x : Transaction) : list Z :=
  write_u256 source ++ Transaction_Serialize x.
Definition Revoke_Deserialize (bs : list Z) : option (TokenBody * list Z) :=
  s ← read_u256 bs; x ← Transaction_Deserialize s.2; Some (Revoke s.1 x.1, x.2).
Definition AdjustUserStatus_Serialize (account : AccountAddress) (status : UserStatus.t) : list Z :=
  write_u256 account ++ write_u8 (UserStatus.code status).
Definition AdjustUserStatus_Deserialize (bs : list Z) : option (TokenBody * list Z) :=
  a ← read_u256 bs; s ← read_u8 a.2; Some (AdjustUserStatus a.1 (UserStatus.of_code s.1), s.2).
Definition AdjustFee_Serialize (ft : TokenFeeType.t) (fr : Amount) : list Z :=
  write_u8 (TokenFeeType.code ft) ++ write_u128 fr.
Definition AdjustFee_Deserialize (bs : list Z) : option (TokenBody * list Z) :=
  t ← read_u8 bs; r ← read_u128 t.2; Some (AdjustFee (TokenFeeType.of_code t.1) r.1, r.2).
Definition UpdateIssuerInfo_Serialize (new_info : list Z) : list Z := write_string16 new_info.
Definition UpdateIssuerInfo_Deserialize (bs : list Z) : option (TokenBody * list Z) :=
  i ← read_string16 bs; Some (UpdateIssuerInfo i.1, i.2).
Definition UpdateController_Serialize (action : ControllerAction.t) (c : ControllerInfo) : list Z :=
  write_u8 (ControllerAction.code action) ++ ControllerInfo_Serialize c.
Definition UpdateController_Deserialize (bs : list Z) : option (TokenBody * list Z) :=
  a ← read_u8 bs; c ← ControllerInfo_Deserialize a.2;
  Some (UpdateController (ControllerAction.of_code a.1) c.1, c.2).
Definition Burn_Serialize (amount : Amount) : list Z := write_u128 amount.
Definition Burn_Deserialize (bs : list Z) : option (TokenBody * list Z) :=
  a ← read_u128 bs; Some (Burn a.1, a.2).
Definition Distribute_Serialize (x : Transaction) : list Z := Transaction_Serialize x.
Definition Distribute_Deserialize (bs : list Z) : option (TokenBody * list Z) :=
  x ← Transaction_Deserialize bs; Some (Distribute x.1, x.2).
Definition WithdrawFee_Serialize (x : Transaction) : list Z := Transaction_Serialize x.
Definition WithdrawFee_Deserialize (bs : list Z) : option (TokenBody * list Z) :=
  x ← Transaction_Deserialize bs; Some (WithdrawFee x.1, x.2).
Definition WithdrawLogos_Serialize (x : Transaction) : list Z := Transaction_Serialize x.
Definition WithdrawLogos_Deserialize (bs : list Z) : option (TokenBody * list Z) :=
  x ← Transaction_Deserialize bs; Some (WithdrawLogos x.1, x.2).
Definition TokenSend_Serialize (ts : list Transaction) (token_fee : Amount) : list Z :=
  SerializeVector Transaction_Serialize ts ++ write_u128 token_fee.
Definition TokenSend_Deserialize (bs : list Z) : option (TokenBody * list Z) :=
  ts ← DeserializeVector Transaction_Deserialize bs; f ← read_u128 ts.2;
  Some (TokenSend ts.1 f.1, f.2).

Definition token_Serialize (b : TokenBody) : list Z :=
  match b with
  | Issuance i => Issuance_Serialize i
  | IssueAdditional amount => IssueAdditional_Serialize amount
  | ChangeSetting s v => ChangeSetting_Serialize s v
  | ImmuteSetting s => ImmuteSetting_Serialize s
  | Revoke source x => Revoke_Serialize source x
  | AdjustUserStatus account status => AdjustUserStatus_Serialize account status
  | AdjustFee ft fr => AdjustFee_Serialize ft fr
  | UpdateIssuerInfo new_info => UpdateIssuerInfo_Serialize new_info
  | UpdateController action c => UpdateController_Serialize action c
  | Burn amount => Burn_Serialize amount
  | Distribute x => Distribute_Serialize x
  | WithdrawFee x => WithdrawFee_Serialize x
  | WithdrawLogos x => WithdrawLogos_Serialize x
  | TokenSend ts token_fee => TokenSend_Serialize ts token_fee
  end.
Definition token_Deserialize (type : RequestType.t) (bs : list Z)
  : option (TokenBody * list Z) :=
  match type with
  | RequestType.Issuance => i ← Issuance_Deserialize bs; Some (Issuance i.1, i.2)
  | RequestType.IssueAdditional => IssueAdditional_Deserialize bs
  | RequestType.ChangeSetting => ChangeSetting_Deserialize bs
  | RequestType.ImmuteSetting => ImmuteSetting_Deserialize bs
  | RequestType.Revoke => Revoke_Deserialize bs
  | RequestType.AdjustUserStatus => AdjustUserStatus_Deserialize bs
  | RequestType.AdjustFee => AdjustFee_Deserialize bs
  | RequestType.UpdateIssuerInfo => UpdateIssuerInfo_Deserialize bs
  | RequestType.UpdateController => UpdateController_Deserialize bs
  | RequestType.Burn => Burn_Deserialize bs
  | RequestType.Distribute => Distribute_Deserialize bs
  | RequestType.WithdrawFee => WithdrawFee_Deserialize bs
  | RequestType.WithdrawLogos => WithdrawLogos_Deserialize bs
  | RequestType.TokenSend => TokenSend_Deserialize bs
  | _ => None
  end.
(** The parts of the formats. *)
Ltac unfold_formats :=
  rw ?/Issuance_Serialize ?/Issuance_Deserialize ?/IssueAdditional_Serialize
    ?/IssueAdditional_Deserialize ?/ChangeSetting_Serialize ?/ChangeSetting_Deserialize
    ?/ImmuteSetting_Serialize ?/ImmuteSetting_Deserialize ?/Revoke_Serialize ?/Revoke_Deserialize
    ?/AdjustUserStatus_Serialize ?/AdjustUserStatus_Deserialize ?/AdjustFee_Serialize
    ?/AdjustFee_Deserialize ?/UpdateIssuerInfo_Serialize ?/UpdateIssuerInfo_Deserialize
    ?/UpdateController_Serialize ?/UpdateController_Deserialize ?/Burn_Serialize
    ?/Burn_Deserialize ?/Distribute_Serialize ?/Distribute_Deserialize ?/WithdrawFee_Serialize
    ?/WithdrawFee_Deserialize ?/WithdrawLogos_Serialize ?/WithdrawLogos_Deserialize
    ?/TokenSend_Serialize ?/TokenSend_Deserialize.

(** Serialize of the derived class: its fields and, but for a claim, the
    signature. *)
Definition derived_Serialize (r : Request) : list Z :=
  match r with
  | RGovernance g => Governance_Serialize g ++ body_Serialize (gr_body g) (gr_signature g)
  | RSend s =>
      SerializeVector Transaction_Serialize (s_transactions s)
      ++ write_u512 (rq_signature (s_base s))
  | RToken t =>
      write_u256 (tr_token_id t) ++ token_Serialize (tr_body t)
      ++ write_u512 (rq_signature (tr_base t))
  | RClaim c => write_u256 (cl_epoch_hash c) ++ write_u32 (cl_epoch_number c)
  end.
Definition request_DoSerialize (r : Request) : list Z :=
  let b := base_of r in
  write_u8 (RequestType.code (request_type r)) ++ write_u256 (rq_origin b)
  ++ write_u256 (rq_previous b) ++ write_u128 (rq_fee b) ++ write_u32 (rq_sequence b).
(** Request::ToStream and Request::ToDatabase *)
Definition request_ToStream (r : Request) : list Z :=
  request_DoSerialize r ++ derived_Serialize r.
Definition request_ToDatabase (r : Request) : list Z :=
  request_DoSerialize r ++ Locator_Serialize (rq_locator (base_of r)) ++ derived_Serialize r
  ++ write_u256 (rq_next (base_of r)).

(** BuildRequest, then the Deserialize of the class: the members of the base
    class that [l] and the header give, the rest from the stream. The signature
    of a claim is never read: [claim_signature] is what its memory holds. *)
Section Deserialization.
Variable claim_signature : Z.
Definition derived_Deserialize (type : RequestType.t) (origin : AccountAddress)
    (previous : BlockHash) (fee : Amount) (sequence : Z) (l : Locator) (bs : list Z)
  : option (Request * list Z) :=
  let base signature := Build_RequestBase origin previous fee sequence signature 0 l in
  match type with
  | RequestType.Send =>
      ts ← DeserializeVector Transaction_Deserialize bs; g ← read_u512 ts.2;
      Some (RSend (Build_SendRequest (base g.1) ts.1), g.2)
  | RequestType.Claim =>
      h ← read_u256 bs; n ← read_u32 h.2;
      Some (RClaim (Build_ClaimRequest (base claim_signature) h.1 n.1), n.2)
  | RequestType.Unknown => None
  | RequestType.Proxy | RequestType.Stake | RequestType.Unstake | RequestType.ElectionVote
  | RequestType.AnnounceCandidacy | RequestType.RenounceCandidacy
  | RequestType.StartRepresenting | RequestType.StopRepresenting =>
      e ← Governance_Deserialize bs; b ← body_Deserialize type e.2;
      Some (RGovernance (Build_Governance origin previous fee sequence b.1.2 0 l e.1.1 e.1.2
                           b.1.1), b.2)
  | _ =>
      i ← read_u256 bs; b ← token_Deserialize type i.2; g ← read_u512 b.2;
      Some (RToken (Build_TokenRequest (base g.1) i.1 b.1), g.2)
  end.
(** DeserializeRequest(error, stream) *)
Definition request_of_stream (bs : list Z) : option (Request * list Z) :=
  h ← Request_Deserialize bs;
  let '(code, origin, previous, fee, sequence) := h.1 in
  type ← RequestType.of_code code;
  derived_Deserialize type origin previous fee sequence (Build_Locator 0 0) h.2.
(** DeserializeRequest(error, mdb_val): the DeserializeDB of a governance request
    leaves [next] in the stream, the others read it. *)
Definition set_next (n : BlockHash) (b : RequestBase) : RequestBase :=
  Build_RequestBase (rq_origin b) (rq_previous b) (rq_fee b) (rq_sequence b) (rq_signature b)
    n (rq_locator b).
Definition request_of_database (bs : list Z) : option (Request * list Z) :=
  h ← Request_Deserialize bs;
  let '(code, origin, previous, fee, sequence) := h.1 in
  type ← RequestType.of_code code;
  l ← Locator_Deserialize h.2;
  r ← derived_Deserialize type origin previous fee sequence l.1 l.2;
  match r.1 with
  | RGovernance _ => Some r
  | RSend s =>
      n ← read_u256 r.2;
      Some (RSend (Build_SendRequest (set_next n.1 (s_base s)) (s_transactions s)), n.2)
  | RToken t =>
      n ← read_u256 r.2;
      Some (RToken (Build_TokenRequest (set_next n.1 (tr_base t)) (tr_token_id t) (tr_body t)),
            n.2)
  | RClaim c =>
      n ← read_u256 r.2;
      Some (RClaim (Build_ClaimRequest (set_next n.1 (cl_base c)) (cl_epoch_hash c)
                      (cl_epoch_number c)), n.2)
  end.
End Deserialization.

(** ** Round trips of the parts *)
Definition BitField_wf (f : BitField) : Prop := in_width 32 f.
Definition ControllerInfo_wf (c : ControllerInfo) : Prop :=
  in_width 256 (c_account c) /\ BitField_wf (c_privileges c).
Definition Transaction_wf (t : Transaction) : Prop :=
  in_width 256 (destination t) /\ in_width 128 (t_amount t).
Definition TokenEntry_wf (e : TokenEntry) : Prop :=
  in_width 256 (te_token_id e) /\ in_width 128 (te_balance e).
Definition RepRecord_wf (r : RepRecord) : Prop :=
  in_width 256 (rep r) /\ in_width 32 (epoch_first_active r).

Lemma read_write_string16 cs rest :
  Z.of_nat (length cs) < 2 ^ 16 -> read_string16 (write_string16 cs ++ rest) = Some (cs, rest).
Proof.
  intros Hl. rw /read_string16 /write_string16 -app_assoc read_write_u16; [|rw /in_width; lia].
  cbn [mbind option_bind fst snd]. apply read_bytes_app. lia.
Qed.

Lemma BitField_roundtrip f rest :
  BitField_wf f -> BitField_Deserialize (BitField_Serialize f ++ rest) = Some (f, rest).
Proof.
  rw /BitField_wf /BitField_Deserialize /BitField_Serialize. intros Hf.
  rw read_write_u64; [|rw /in_width in Hf |- *; lia]. cbn [mbind option_bind fst snd].
  by rw wrap_id.
Qed.

Lemma ControllerInfo_roundtrip c rest :
  ControllerInfo_wf c ->
  ControllerInfo_Deserialize (ControllerInfo_Serialize c ++ rest) = Some (c, rest).
Proof.
  destruct c as [a p]. rw /ControllerInfo_wf /ControllerInfo_Deserialize /ControllerInfo_Serialize.
  cbn [c_account c_privileges]. intros [Ha Hp]. read_back. by rw BitField_roundtrip.
Qed.

Lemma Transaction_roundtrip t rest :
  Transaction_wf t ->
  Transaction_Deserialize (Transaction_Serialize t ++ rest) = Some (t, rest).
Proof.
  destruct t as [d a]. rw /Transaction_wf /Transaction_Deserialize /Transaction_Serialize.
  cbn [destination t_amount]. intros [Hd Ha]. by read_back.
Qed.

Lemma TokenEntry_roundtrip e rest :
  TokenEntry_wf e -> TokenEntry_Deserialize (TokenEntry_Serialize e ++ rest) = Some (e, rest).
Proof.
  destruct e as [i [w f] b]. rw /TokenEntry_wf /TokenEntry_Deserialize /TokenEntry_Serialize
    /TokenUserStatus_Serialize /TokenUserStatus_Deserialize.
  cbn [te_token_id te_status te_balance whitelisted frozen]. intros [Hi Hb]. by read_back.
Qed.

Lemma RepRecord_roundtrip r rest :
  RepRecord_wf r -> RepRecord_Deserialize (RepRecord_Serialize r ++ rest) = Some (r, rest).
Proof.
  destruct r as [a e]. rw /RepRecord_wf /RepRecord_Deserialize /RepRecord_Serialize.
  cbn [rep epoch_first_active]. intros [Ha He]. by read_back.
Qed.

Definition Rational_wf (q : Q) : Prop := in_width 256 (Qnum q) /\ in_width 256 (Zpos (Qden q)).
Lemma Rational_roundtrip q rest :
  Rational_wf q -> Rational_read (Rational_write q ++ rest) = Some (q, rest).
Proof.
  destruct q as [n d]. rw /Rational_wf /Rational_read /Rational_write. cbn [Qnum Qden].
  intros [Hn Hd]. rw -app_assoc read_bytes_app ?length_le_bytes //. cbn [mbind option_bind fst snd].
  rw read_bytes_app ?length_le_bytes //. cbn [mbind option_bind fst snd].
  rw !le_val_bytes !Z.mod_small //.
Qed.

Section Vectors.
Context {A : Type} (ser : A -> list Z) (des : list Z -> option (A * list Z)) (wf : A -> Prop).
Context (Hrt : forall x rest, wf x -> des (ser x ++ rest) = Some (x, rest)).

Lemma read_list_roundtrip xs rest :
  Forall wf xs -> read_list des (length xs) (mjoin (ser <$> xs) ++ rest) = Some (xs, rest).
Proof.
  induction 1 as [|x xs Hx _ IH]; [done|].
  cbn [length read_list fmap list_fmap mjoin list_join]. rw -app_assoc Hrt //=. by rw IH.
Qed.

Lemma vector_roundtrip xs rest :
  Forall wf xs -> (length xs < 256)%nat ->
  DeserializeVector des (SerializeVector ser xs ++ rest) = Some (xs, rest).
Proof.
  intros Hxs Hl. rw /DeserializeVector /SerializeVector -app_assoc read_write_u8;
    [|rw /in_width; lia].
  cbn [mbind option_bind fst snd]. rw Nat2Z.id. by apply read_list_roundtrip.
Qed.
End Vectors.

(** ** Round trips of the requests *)
Definition IssuanceFields_wf (i : IssuanceFields) : Prop :=
  (length (is_symbol i) < 256)%nat /\ (length (is_name i) < 256)%nat /\
  in_width 128 (is_total_supply i) /\ TokenFeeType.wf (is_fee_type i) /\
  in_width 128 (is_fee_rate i) /\ BitField_wf (is_settings i) /\
  Forall ControllerInfo_wf (is_controllers i) /\ (length (is_controllers i) < 255)%nat /\
  Z.of_nat (length (is_issuer_info i)) < 2 ^ 16.
Definition token_body_wf (b : TokenBody) : Prop :=
  match b with
  | Issuance i => IssuanceFields_wf i
  | IssueAdditional amount | Burn amount => in_width 128 amount
  | ChangeSetting s v => TokenSetting.wf s /\ SettingValue.wf v
  | ImmuteSetting s => TokenSetting.wf s
  | Revoke source x => in_width 256 source /\ Transaction_wf x
  | AdjustUserStatus account status => in_width 256 account /\ UserStatus.wf status
  | AdjustFee ft fr => TokenFeeType.wf ft /\ in_width 128 fr
  | UpdateIssuerInfo new_info => Z.of_nat (length new_info) < 2 ^ 16
  | UpdateController action c => ControllerAction.wf action /\ ControllerInfo_wf c
  | Distribute x | WithdrawFee x | WithdrawLogos x => Transaction_wf x
  | TokenSend ts token_fee =>
      Forall Transaction_wf ts /\ (length ts < 255)%nat /\ in_width 128 token_fee
  end.
Definition base_wf (b : RequestBase) : Prop :=
  in_width 256 (rq_origin b) /\ in_width 256 (rq_previous b) /\ in_width 128 (rq_fee b) /\
  in_width 32 (rq_sequence b) /\ in_width 512 (rq_signature b) /\ in_width 256 (rq_next b) /\
  in_width 256 (loc_hash (rq_locator b)) /\ in_width 16 (loc_index (rq_locator b)).
Definition Request_wf (r : Request) : Prop :=
  base_wf (base_of r) /\
  match r with
  | RGovernance g => Governance_wf g
  | RSend s => Forall Transaction_wf (s_transactions s) /\ (length (s_transactions s) < 255)%nat
  | RToken t => in_width 256 (tr_token_id t) /\ token_body_wf (tr_body t)
  | RClaim c => in_width 256 (cl_epoch_hash c) /\ in_width 32 (cl_epoch_number c)
  end.

(** Reads the parts of a request back. *)
Ltac read_parts :=
  repeat first
    [ progress read_back
    | rw read_write_string; [cbn [mbind option_bind fst snd]|lia]
    | rw read_write_string16; [cbn [mbind option_bind fst snd]|done]
    | rw BitField_roundtrip; [cbn [mbind option_bind fst snd]|done]
    | rw ControllerInfo_roundtrip; [cbn [mbind option_bind fst snd]|done]
    | rw Transaction_roundtrip; [cbn [mbind option_bind fst snd]|done]
    | rw (vector_roundtrip _ _ _ ControllerInfo_roundtrip);
        [cbn [mbind option_bind fst snd]|done|lia]
    | rw (vector_roundtrip _ _ _ Transaction_roundtrip);
        [cbn [mbind option_bind fst snd]|done|lia] ].

Lemma token_body_roundtrip b rest :
  token_body_wf b ->
  token_Deserialize (token_type b) (token_Serialize b ++ rest) = Some (b, rest).
Proof.
  destruct b; cbn [token_type token_Deserialize token_Serialize token_body_wf]; unfold_formats;
    rw ?/IssuanceFields_wf ?/TokenFeeType.wf ?/TokenSetting.wf ?/SettingValue.wf
       ?/UserStatus.wf ?/ControllerAction.wf; intros; destruct_and?; read_parts; try congruence.
  destruct i; cbn in *. congruence.
Qed.

Lemma request_header_roundtrip r rest :
  base_wf (base_of r) ->
  Request_Deserialize (request_DoSerialize r ++ rest)
  = Some ((RequestType.code (request_type r), rq_origin (base_of r), rq_previous (base_of r),
           rq_fee (base_of r), rq_sequence (base_of r)), rest).
Proof.
  intros (? & ? & ? & ? & _). pose proof (code_width (request_type r)).
  rw /Request_Deserialize /request_DoSerialize. by read_back.
Qed.

(** The members a stream gives: the locator [l] and, of a claim, the signature
    its memory happens to hold. *)
Definition as_read (claim_signature : Z) (l : Locator) (r : Request) : Request :=
  let base sig b :=
    Build_RequestBase (rq_origin b) (rq_previous b) (rq_fee b) (rq_sequence b) sig 0 l in
  match r with
  | RGovernance g => RGovernance (with_locator l g)
  | RSend s => RSend (Build_SendRequest (base (rq_signature (s_base s)) (s_base s))
                        (s_transactions s))
  | RToken t => RToken (Build_TokenRequest (base (rq_signature (tr_base t)) (tr_base t))
                          (tr_token_id t) (tr_body t))
  | RClaim c => RClaim (Build_ClaimRequest (base claim_signature (cl_base c))
                          (cl_epoch_hash c) (cl_epoch_number c))
  end.

Lemma derived_roundtrip sig r l rest :
  Request_wf r ->
  derived_Deserialize sig (request_type r) (rq_origin (base_of r)) (rq_previous (base_of r))
    (rq_fee (base_of r)) (rq_sequence (base_of r)) l (derived_Serialize r ++ rest)
  = Some (as_read sig l r, rest).
Proof.
  intros [(_ & _ & _ & _ & Hsig & _) Hr]. destruct r as [g|s|t|c]; cbn [base_of] in *.
  - cbn [derived_Serialize request_type]. rw -app_assoc.
    pose proof Hr as (_ & _ & _ & _ & Hs & _ & _ & _ & _ & _ & Hb).
    assert (Hbr := body_roundtrip (gr_body g) (gr_signature g) rest Hb Hs). move: Hbr.
    rw /gr_type. destruct (gr_body g) eqn:E; cbn [body_type derived_Deserialize];
      rw governance_fields_roundtrip //; cbn [mbind option_bind fst snd]; intros ->;
      by rw /= /with_locator -E.
  - destruct Hr as [Hts Hl]. cbn [derived_Serialize request_type derived_Deserialize].
    by read_parts.
  - destruct Hr as [Hi Hb]. cbn [derived_Serialize request_type]. rw -2!app_assoc.
    assert (Hbr := token_body_roundtrip (tr_body t)
      (write_u512 (rq_signature (tr_base t)) ++ rest) Hb). move: Hbr.
    destruct (tr_body t) eqn:E; cbn [token_type derived_Deserialize]; intros Hbr;
      rw read_write_u256 //; cbn [mbind option_bind fst snd]; rw Hbr;
      cbn [mbind option_bind fst snd]; rw read_write_u512 //; by rw /= -E.
  - destruct Hr as [Hh Hn]. cbn [derived_Serialize request_type derived_Deserialize].
    by read_back.
Qed.

(** C36 Every request that is not a claim reads back from the network as it was
    written, whatever follows it: sends, the fourteen token requests and
    governance requests. *)
Theorem requests_roundtrip sig r rest :
  Request_wf r -> (forall c, r <> RClaim c) ->
  request_of_stream sig (request_ToStream r ++ rest)
  = Some (as_read 0 (Build_Locator 0 0) r, rest).
Proof.
  intros Hr Hc. rw /request_of_stream /request_ToStream -app_assoc request_header_roundtrip;
    [|apply Hr]. cbn [mbind option_bind fst snd]. rw RequestType.of_code_code.
  cbn [mbind option_bind]. rw derived_roundtrip //. f_equal. destruct r; [done..|].
  by destruct (Hc c).
Qed.

(** Claim::Serialize does not write the signature and Claim::Deserialize does
    not read one: a claim arrives with whatever its memory held. *)
Lemma claim_signature_lost sig c rest :
  Request_wf (RClaim c) ->
  exists c', request_of_stream sig (request_ToStream (RClaim c) ++ rest)
             = Some (RClaim c', rest) /\
    cl_epoch_hash c' = cl_epoch_hash c /\ cl_epoch_number c' = cl_epoch_number c /\
    rq_signature (cl_base c') = sig.
Proof.
  intros Hr. rw /request_of_stream /request_ToStream -app_assoc request_header_roundtrip;
    [|apply Hr]. cbn [mbind option_bind fst snd]. rw RequestType.of_code_code.
  cbn [mbind option_bind]. rw derived_roundtrip //. eexists. by split_and!.
Qed.

(** ** Round trips of the accounts *)
Definition TokenAccount_wf (a : TokenAccount) : Prop :=
  in_width 64 (ta_modified a) /\ in_width 256 (ta_head a) /\ in_width 32 (ta_block_count a) /\
  in_width 256 (ta_receive_head a) /\ in_width 32 (ta_receive_count a) /\
  in_width 128 (ta_balance a) /\ in_width 128 (total_supply a) /\
  in_width 128 (token_balance a) /\ in_width 128 (token_fee_balance a) /\
  TokenFeeType.wf (fee_type a) /\ in_width 128 (fee_rate a) /\
  (length (symbol a) < 256)%nat /\ (length (name a) < 256)%nat /\
  Forall ControllerInfo_wf (controllers a) /\ (length (controllers a) < 256)%nat /\
  BitField_wf (settings a) /\ in_width 256 (issuance_request a).
Definition account_info_wf (i : account_info) : Prop :=
  in_width 64 (modified i) /\ in_width 256 (head i) /\ in_width 32 (block_count i) /\
  in_width 256 (receive_head i) /\ in_width 32 (receive_count i) /\
  in_width 128 (balance i) /\ in_width 256 (governance_subchain_head i) /\
  RepRecord_wf (old_rep i) /\ RepRecord_wf (new_rep i) /\ in_width 256 (open_block i) /\
  Forall TokenEntry_wf (entries i) /\ Z.of_nat (length (entries i)) < 2 ^ 16 /\
  in_width 32 (epoch_thawing_updated i) /\
  in_width 32 (epoch_secondary_liabilities_updated i) /\ in_width 32 (claim_epoch i) /\
  Rational_wf (dust i) /\ in_width 128 (available_balance i).

Lemma Account_roundtrip t b m h c r n rest :
  in_width 8 t -> in_width 128 b -> in_width 64 m -> in_width 256 h -> in_width 32 c ->
  in_width 256 r -> in_width 32 n ->
  Account_Deserialize (Account_Serialize t b m h c r n ++ rest)
  = Some ((t, b, m, h, c, r, n), rest).
Proof. intros. rw /Account_Deserialize /Account_Serialize. by read_back. Qed.

Lemma TokenAccount_roundtrip a rest :
  TokenAccount_wf a -> (length (issuer_info a) < 256)%nat ->
  TokenAccount_Deserialize (TokenAccount_Serialize a ++ rest) = Some (a, rest).
Proof.
  rw /TokenAccount_wf /TokenFeeType.wf. intros; destruct_and?.
  rw /TokenAccount_Deserialize /TokenAccount_Serialize -!app_assoc Account_roundtrip //.
  cbn [mbind option_bind fst snd]. read_parts.
  rw read_write_u8; [|rw /in_width; lia]. cbn [mbind option_bind fst snd].
  rw Nat2Z.id (read_list_roundtrip _ _ _ ControllerInfo_roundtrip) //.
  cbn [mbind option_bind fst snd]. read_parts. destruct a; cbn in *. congruence.
Qed.

Lemma account_info_roundtrip i rest :
  account_info_wf i ->
  account_info_Deserialize (account_info_Serialize i ++ rest) = Some (i, rest).
Proof.
  rw /account_info_wf. intros; destruct_and?.
  rw /account_info_Deserialize /account_info_Serialize -!app_assoc Account_roundtrip //.
  cbn [mbind option_bind fst snd]. read_parts.
  rw RepRecord_roundtrip //. cbn [mbind option_bind fst snd].
  rw RepRecord_roundtrip //. cbn [mbind option_bind fst snd]. read_parts.
  rw read_write_u16; [|rw /in_width; lia]. cbn [mbind option_bind fst snd].
  rw Nat2Z.id (read_list_roundtrip _ _ _ TokenEntry_roundtrip) //.
  cbn [mbind option_bind fst snd]. read_parts. rw Rational_roundtrip //. by destruct i.
Qed.

(** ** An issuer's information does not fit its length *)
Lemma read_write_u8_mod z rest : read_u8 (write_u8 z ++ rest) = Some (z mod 256, rest).
Proof.
  rw /read_u8 read_bytes_app ?length_le_bytes // /mbind /option_bind. cbn [fst snd].
  by rw le_val_bytes.
Qed.
Lemma read_bytes_length n bs xs rest : read_bytes n bs = Some (xs, rest) -> length xs = n.
Proof.
  rw /read_bytes. destruct (Nat.leb_spec n (length bs)); [|done].
  intros [= <- _]. rw length_take. lia.
Qed.

(** TokenAccount::Serialize writes the length of issuer_info in one byte, while
    the requests that set it may carry 512 bytes: an account whose information
    has 256 bytes or more, which UpdateIssuerInfo accepts, never reads back. *)
Lemma long_issuer_info_corrupts `{Blake2b} (a : TokenAccount) (t : TokenRequest) rest :
  TokenAccount_wf a -> tr_body t = UpdateIssuerInfo (issuer_info a) ->
  256 <= Z.of_nat (length (issuer_info a)) <= 512 ->
  body_Validate t = Valid /\
  forall a' r, TokenAccount_Deserialize (TokenAccount_Serialize a ++ rest) = Some (a', r) ->
    issuer_info a' <> issuer_info a.
Proof.
  intros Hwf Ht Hl. split.
  { rw /body_Validate Ht /UpdateIssuerInfo_Validate /require /INFO_MAX_SIZE.
    by destruct (Nat.leb_spec (length (issuer_info a)) 512); [|lia]. }
  intros a' r. move: Hwf. rw /TokenAccount_wf /TokenFeeType.wf. intros; destruct_and?.
  match goal with H : TokenAccount_Deserialize _ = _ |- _ => move: H end.
  rw /TokenAccount_Deserialize /TokenAccount_Serialize -!app_assoc Account_roundtrip //.
  cbn [mbind option_bind fst snd]. read_parts.
  rw {1}/read_string read_write_u8_mod. cbn [mbind option_bind fst snd].
  destruct (read_bytes _ _) as [[ii r']|] eqn:Hread; [|done]. cbn [mbind option_bind fst snd].
  apply read_bytes_length in Hread. intros Hrest Heq.
  do 4 (apply bind_Some in Hrest as (? & _ & Hrest)).
  injection Hrest as <- _. cbn [issuer_info] in Heq. subst ii.
  assert (Z.of_nat (length (issuer_info a)) mod 256 < 256) by (apply Z.mod_pos_bound; lia). lia.
Qed.

(** ** Digests do not determine an issuance *)

(** Neither the identifier of a token nor the digest that is signed separates
    the symbol from the name: one signature covers issuances that differ in
    both. *)
Lemma issuance_digest_ambiguous `{Blake2b} (b : RequestBase) (token_id : BlockHash) c s1 s2
    supply ft fr st cs info :
  let issue sy nm :=
    RToken (Build_TokenRequest b token_id
              (Issuance (Build_IssuanceFields sy nm supply ft fr st cs info))) in
  GetTokenID (s1 ++ [c]) s2 (rq_origin b) (rq_previous b)
  = GetTokenID s1 (c :: s2) (rq_origin b) (rq_previous b) /\
  request_hash (issue (s1 ++ [c]) s2) = request_hash (issue s1 (c :: s2)) /\
  issue (s1 ++ [c]) s2 <> issue s1 (c :: s2).
Proof.
  intros issue. split_and!.
  - by rw /GetTokenID /TokenID_Hash_input -app_assoc.
  - rw /issue /request_hash /TokenRequest_Hash_input. cbn [tr_base tr_body tr_token_id token_type
      token_Hash_input]. rw /Issuance_Hash_input. cbn [is_symbol is_name is_total_supply is_fee_type
      is_fee_rate is_settings is_controllers is_issuer_info]. by rw -(app_assoc s1).
  - intros [= Hs _]. apply (f_equal length) in Hs. move: Hs. rw length_app /=. lia.
Qed.

(** ** Concrete requests *)
Definition some_base : RequestBase :=
  Build_RequestBase 7 11 0x21e19e0c9bab2400000 3 99 12 (Build_Locator 5 1).
Definition some_token_send : Request :=
  RToken (Build_TokenRequest some_base 40
            (TokenSend [Build_Transaction 8 100; Build_Transaction 9 50] 2)).
Lemma requests_roundtrip_witness :
  request_of_stream 1 (request_ToStream some_token_send ++ [])
  = Some (as_read 0 (Build_Locator 0 0) some_token_send, []).
Proof.
  apply (requests_roundtrip 1 some_token_send []); [|done].
  repeat split; by repeat constructor.
Defined.

Definition some_claim : ClaimRequest := Build_ClaimRequest some_base 77 5.
Lemma claim_signature_lost_witness :
  rq_signature (cl_base some_claim) = 99 /\
  exists c', request_of_stream 1 (request_ToStream (RClaim some_claim) ++ []) = Some (RClaim c', []) /\
    cl_epoch_hash c' = cl_epoch_hash some_claim /\
    cl_epoch_number c' = cl_epoch_number some_claim /\ rq_signature (cl_base c') = 1.
Proof.
  split; [done|]. apply (claim_signature_lost 1 some_claim []). repeat split; done.
Defined.

Definition informed_account : TokenAccount :=
  Build_TokenAccount 0 0 0 0 0 0 1000 1000 0 TokenFeeType.Flat 1 [65] [66] (repeat 67 300) [] 0 0.
Definition inform : TokenRequest :=
  Build_TokenRequest some_base 40 (UpdateIssuerInfo (issuer_info informed_account)).
Lemma long_issuer_info_corrupts_witness :
  @body_Validate encode_blake2b inform = Valid /\
  forall a' r, TokenAccount_Deserialize (TokenAccount_Serialize informed_account ++ [])
               = Some (a', r) -> issuer_info a' <> issuer_info informed_account.
Proof.
  apply (@long_issuer_info_corrupts encode_blake2b informed_account inform []).
  - repeat split; try done; cbn; try lia; constructor.
  - done.
  - rw repeat_length. lia.
Defined.
