(* ===== verification/Ledger.v ===== *)
(** * The ledger: accounts, receives, request blocks

    The tables of block_store that request blocks write beside those of
    BlockStore.v (src/logos/blockstore.cpp), and Persistence::PlaceReceive
    (consensus/persistence/persistence.cpp), which links a receive into the
    chain of its account. *)
From stdpp Require Import base list numbers strings ssreflect.
From S2P Require Import Prelude Serial Lmdb StakingTypes Requests Epochs BlockStore AccountInfo Governance TokenTypes TokenRequests.
Open Scope Z_scope.

(** logos::Account and the classes derived from it. *)
Inductive Account :=
| UserAccount (i : account_info)
| TokenAcct (t : TokenAccount).

(** ReceiveBlock (consensus/messages/receive_block.hpp) *)
Record ReceiveBlock := { rc_previous : BlockHash; rc_source_hash : BlockHash; rc_index : Z }.
Definition ReceiveBlock_default : ReceiveBlock := Build_ReceiveBlock 0 0 0.
Definition set_rc_previous (p : BlockHash) (r : ReceiveBlock) : ReceiveBlock :=
  Build_ReceiveBlock p (rc_source_hash r) (rc_index r).
(** ReceiveBlock::Hash leaves out [previous]. *)
Definition ReceiveBlock_Hash `{Blake2b} (r : ReceiveBlock) : BlockHash :=
  blake2b (write_u256 (rc_source_hash r) ++ write_u16 (rc_index r)).

(** A post-committed request block: PrePrepareCommon and RequestBlock
    (consensus/messages/common.hpp, request_block.hpp), without the signatures. *)
Record ApprovedRB := {
  rb_primary_delegate : Z;
  rb_epoch_number : Z;
  rb_delegates_epoch_number : Z;
  rb_sequence : Z;
  rb_timestamp : Z;
  rb_previous : BlockHash;
  rb_requests : list Request;
  rb_next : BlockHash;
}.
Definition logos_version : Z := 0.
(** PostCommittedBlock::Hash: the first block of an epoch, which is linked to the
    previous epoch when it is stored, is hashed as if it had no predecessor. *)
Definition ApprovedRB_Hash `{Blake2b} (b : ApprovedRB) : BlockHash :=
  blake2b (write_u8 logos_version ++ write_u8 (rb_primary_delegate b)
           ++ write_u32 (rb_epoch_number b) ++ write_u32 (rb_delegates_epoch_number b)
           ++ write_u32 (rb_sequence b) ++ write_u64 (rb_timestamp b)
           ++ write_u256 (if rb_sequence b =? 0 then 0 else rb_previous b)
           ++ write_u16 (Z.of_nat (length (rb_requests b)))
           ++ mjoin ((fun r => write_u256 (request_hash r)) <$> rb_requests b)).
Definition set_rb_previous (p : BlockHash) (b : ApprovedRB) : ApprovedRB :=
  Build_ApprovedRB (rb_primary_delegate b) (rb_epoch_number b) (rb_delegates_epoch_number b)
    (rb_sequence b) (rb_timestamp b) p (rb_requests b) (rb_next b).
Definition set_rb_next (n : BlockHash) (b : ApprovedRB) : ApprovedRB :=
  Build_ApprovedRB (rb_primary_delegate b) (rb_epoch_number b) (rb_delegates_epoch_number b)
    (rb_sequence b) (rb_timestamp b) (rb_previous b) (rb_requests b) n.
Definition set_rb_requests (rs : list Request) (b : ApprovedRB) : ApprovedRB :=
  Build_ApprovedRB (rb_primary_delegate b) (rb_epoch_number b) (rb_delegates_epoch_number b)
    (rb_sequence b) (rb_timestamp b) (rb_previous b) rs (rb_next b).

(** The table of requests is [request_db] of the store for governance requests,
    [other_request_db] for the rest. *)
Record Ledger `{Lmdb} := {
  store : Store;
  account_db : table Account;
  token_user_status_db : table TokenUserStatus;
  receive_db : table ReceiveBlock;
  other_request_db : table Request;
  batch_db : table ApprovedRB;
  request_tips_db : table Tip;
}.

Section Tables.
Context {L : Lmdb} {B : Blake2b}.

Definition empty_ledger : Ledger := {|
  store := empty_store; account_db := mdb_empty; token_user_status_db := mdb_empty;
  receive_db := mdb_empty; other_request_db := mdb_empty; batch_db := mdb_empty;
  request_tips_db := mdb_empty |}.

Definition set_store t (l : Ledger) : Ledger :=
  Build_Ledger L t (account_db l) (token_user_status_db l) (receive_db l) (other_request_db l)
    (batch_db l) (request_tips_db l).
Definition set_account_db t (l : Ledger) : Ledger :=
  Build_Ledger L (store l) t (token_user_status_db l) (receive_db l) (other_request_db l)
    (batch_db l) (request_tips_db l).
Definition set_token_user_status_db t (l : Ledger) : Ledger :=
  Build_Ledger L (store l) (account_db l) t (receive_db l) (other_request_db l) (batch_db l)
    (request_tips_db l).
Definition set_receive_db t (l : Ledger) : Ledger :=
  Build_Ledger L (store l) (account_db l) (token_user_status_db l) t (other_request_db l)
    (batch_db l) (request_tips_db l).
Definition set_other_request_db t (l : Ledger) : Ledger :=
  Build_Ledger L (store l) (account_db l) (token_user_status_db l) (receive_db l) t
    (batch_db l) (request_tips_db l).
Definition set_batch_db t (l : Ledger) : Ledger :=
  Build_Ledger L (store l) (account_db l) (token_user_status_db l) (receive_db l)
    (other_request_db l) t (request_tips_db l).
Definition set_request_tips_db t (l : Ledger) : Ledger :=
  Build_Ledger L (store l) (account_db l) (token_user_status_db l) (receive_db l)
    (other_request_db l) (batch_db l) t.

(** An operation of the store within the ledger's transaction. *)
Definition in_store {A} (m : M Store A) : M Ledger A := fun l =>
  match m (store l) with
  | Ok (a, s) => Ok (a, set_store s l)
  | Halt why => Halt why
  end.

(** ** Accounts *)

(** account_get(account, shared_ptr<Account>) and account_exists *)
Definition account_get (account : AccountAddress) : M Ledger (option Account) :=
  gets (fun l => mdb_get account (account_db l)).
Definition account_exists (account : AccountAddress) : M Ledger bool :=
  gets (fun l => negb (missing account (account_db l))).
(** account_get(account, account_info): the record is read as that of a user
    whatever it is; the bytes of a token account are not modelled as one. *)
Definition user_account_get (account : AccountAddress) : M Ledger (option account_info) :=
  a ← account_get account;
  match a with
  | None => mret None
  | Some (UserAccount i) => mret (Some i)
  | Some (TokenAcct _) => halt "block_store::account_get"
  end.
(** token_account_get, likewise. *)
Definition token_account_get (token_id : BlockHash) : M Ledger (option TokenAccount) :=
  a ← account_get token_id;
  match a with
  | None => mret None
  | Some (TokenAcct t) => mret (Some t)
  | Some (UserAccount _) => halt "block_store::token_account_get"
  end.
(** account_put; TokenAccount::Serialize asserts the number of controllers. *)
Definition account_put (account : AccountAddress) (info : Account) : M Ledger unit :=
  match info with
  | UserAccount _ => mret tt
  | TokenAcct t =>
      massert (length (controllers t) <=? MAX_CONTROLLERS)%nat "TokenAccount::Serialize"
  end;;
  modify (fun l => set_account_db (mdb_put account info (account_db l)) l).
Definition token_account_put (token_id : BlockHash) (t : TokenAccount) : M Ledger unit :=
  account_put token_id (TokenAcct t).

(** ** Freezing and whitelisting of untethered users *)
Definition token_user_status_get (id : BlockHash) : M Ledger (option TokenUserStatus) :=
  gets (fun l => mdb_get id (token_user_status_db l)).
Definition token_user_status_put (id : BlockHash) (s : TokenUserStatus) : M Ledger unit :=
  modify (fun l => set_token_user_status_db (mdb_put id s (token_user_status_db l)) l).
Definition token_user_status_del (id : BlockHash) : M Ledger bool :=
  err ← gets (fun l => missing id (token_user_status_db l));
  modify (fun l => set_token_user_status_db (mdb_del id (token_user_status_db l)) l);;
  mret err.

(** ** Requests and request blocks *)
Definition stored_request (hash : BlockHash) (l : Ledger) : option Request :=
  match mdb_get hash (request_db (store l)) with
  | Some g => Some (RGovernance g)
  | None => mdb_get hash (other_request_db l)
  end.
Definition any_request_get (hash : BlockHash) : M Ledger (option Request) :=
  gets (stored_request hash).
Definition request_exists (hash : BlockHash) (l : Ledger) : bool :=
  match stored_request hash l with Some _ => true | None => false end.
Definition any_request_put (r : Request) : M Ledger unit :=
  let h := request_hash r in
  match r with
  | RGovernance g => in_store (request_put g)
  | _ =>
      in_store (modify (fun s => set_request_db (mdb_del h (request_db s)) s));;
      modify (fun l => set_other_request_db (mdb_put h r (other_request_db l)) l)
  end.

Definition request_block_get (hash : BlockHash) : M Ledger (option ApprovedRB) :=
  gets (fun l => mdb_get hash (batch_db l)).
Definition request_block_exists (b : ApprovedRB) : M Ledger bool :=
  gets (fun l => negb (missing (ApprovedRB_Hash b) (batch_db l))).
Fixpoint put_requests (rs : list Request) : M Ledger unit :=
  match rs with
  | [] => mret tt
  | r :: rs => any_request_put r;; put_requests rs
  end.
Definition request_block_put (b : ApprovedRB) (hash : BlockHash) : M Ledger unit :=
  modify (fun l => set_batch_db (mdb_put hash b (batch_db l)) l);;
  put_requests (rb_requests b).
(** consensus_block_update_next for a request block; [true] when it is missing. *)
Definition request_block_update_next (hash next : BlockHash) : M Ledger bool :=
  b ← request_block_get hash;
  match b with
  | None => mret true
  | Some b =>
      modify (fun l => set_batch_db (mdb_put hash (set_rb_next next b) (batch_db l)) l);;
      mret false
  end.

Definition get_request_tip_key (delegate_id epoch_number : Z) : Z :=
  Z.lor (Z.shiftl delegate_id 32) epoch_number.
Definition request_tip_get (delegate_id epoch_number : Z) : M Ledger (option Tip) :=
  gets (fun l => mdb_get (get_request_tip_key delegate_id epoch_number) (request_tips_db l)).
Definition request_tip_put (delegate_id epoch_number : Z) (tip : Tip) : M Ledger unit :=
  modify (fun l => set_request_tips_db
                     (mdb_put (get_request_tip_key delegate_id epoch_number) tip
                        (request_tips_db l)) l).

(** ** Receives *)
Definition receive_get (hash : BlockHash) : M Ledger (option ReceiveBlock) :=
  gets (fun l => mdb_get hash (receive_db l)).
Definition receive_put (hash : BlockHash) (r : ReceiveBlock) : M Ledger unit :=
  modify (fun l => set_receive_db (mdb_put hash r (receive_db l)) l).
End Tables.

(** ** Persistence::PlaceReceive *)
Section Receives.
Context {L : Lmdb} {B : Blake2b}.

(** The lambda get_timestamp: the timestamp of the block that caused a receive,
    and whether it is an epoch block. *)
Definition get_timestamp (r : ReceiveBlock) : M Ledger (Z * bool) :=
  ex ← gets (request_exists (rc_source_hash r));
  if (ex : bool) then
    q ← any_request_get (rc_source_hash r);
    match q with
    | None => halt "Persistence::PlaceReceive"
    | Some request =>
        b ← request_block_get (loc_hash (rq_locator (base_of request)));
        mret (match b with Some approved => rb_timestamp approved | None => 0 end, false)
    end
  else
    e ← in_store (epoch_get (rc_source_hash r));
    match e with
    | None => halt "Persistence::PlaceReceive"
    | Some epoch => mret (eb_timestamp epoch, true)
    end.

(** The lambda receive_cmp, which returns the timestamp of [b] too: it replaces
    the one of [a] in the next comparison. *)
Definition receive_cmp (timestamp_a : Z) (a b : ReceiveBlock) : M Ledger (bool * Z * bool) :=
  t ← get_timestamp b;
  mret (if timestamp_a =? t.1 then ReceiveBlock_Hash a <? ReceiveBlock_Hash b
        else timestamp_a <? t.1, t.1, t.2).

(** The loop: [prev] and [generated_prev] when it ends. The chain is finite:
    [fuel] bounds its length. *)
Fixpoint find_place (fuel : nat) (receive : ReceiveBlock) (timestamp_a : Z)
    (prev : ReceiveBlock) (generated_prev : bool) (cur : ReceiveBlock)
  : M Ledger (ReceiveBlock * bool) :=
  match fuel with
  | O => halt "Persistence::PlaceReceive"
  | S fuel =>
      c ← receive_cmp timestamp_a receive cur;
      let '(less, timestamp_a, generated_cur) := c in
      if (less : bool) then
        n ← receive_get (rc_previous cur);
        match n with
        | Some next => find_place fuel receive timestamp_a cur generated_cur next
        | None =>
            massert (rc_previous cur =? 0) "Persistence::PlaceReceive";;
            mret (cur, generated_cur)
        end
      else mret (prev, generated_prev)
  end.

(** The checks on the request behind [prev]. *)
Definition check_generated (prev : ReceiveBlock) (generated_prev : bool) : M Ledger unit :=
  if generated_prev then mret tt
  else
    q ← any_request_get (rc_source_hash prev);
    match q with
    | None => halt "Persistence::PlaceReceive"
    | Some request =>
        massert (negb (rq_origin (base_of request) =? 0)) "Persistence::PlaceReceive"
    end.

Definition PlaceReceive (receive : ReceiveBlock) (timestamp : Z) : M Ledger unit :=
  let hash := ReceiveBlock_Hash receive in
  c ← receive_get (rc_previous receive);
  match c with
  | Some cur =>
      fuel ← gets (fun l => length (mdb_items (receive_db l)));
      p ← find_place (S fuel) receive timestamp ReceiveBlock_default false cur;
      let '(prev, generated_prev) := p in
      if negb (rc_source_hash prev =? 0) then
        check_generated prev generated_prev;;
        receive_put (ReceiveBlock_Hash prev) (set_rc_previous hash prev);;
        receive_put hash (set_rc_previous (rc_previous prev) receive)
      else receive_put hash receive
  | None =>
      massert (rc_previous receive =? 0) "Persistence::PlaceReceive";;
      receive_put hash receive
  end.
End Receives.

(** ** What the operations leave alone *)
Section Frames.
Context {L : Lmdb} {B : Blake2b}.

(** Everything but the table of receives. *)
Definition same_but_receives (l l' : Ledger) : Prop :=
  store l' = store l /\ account_db l' = account_db l /\
  token_user_status_db l' = token_user_status_db l /\
  other_request_db l' = other_request_db l /\ batch_db l' = batch_db l /\
  request_tips_db l' = request_tips_db l.
(** Everything but the store of BlockStore.v. *)
Definition same_but_store (l l' : Ledger) : Prop :=
  account_db l' = account_db l /\ token_user_status_db l' = token_user_status_db l /\
  receive_db l' = receive_db l /\ other_request_db l' = other_request_db l /\
  batch_db l' = batch_db l /\ request_tips_db l' = request_tips_db l.
#[global] Instance same_but_receives_preorder : PreOrder same_but_receives.
Proof. split; [by intros []|intros [] [] []; rw /same_but_receives; naive_solver congruence]. Qed.
#[global] Instance same_but_store_preorder : PreOrder same_but_store.
Proof. split; [by intros []|intros [] [] []; rw /same_but_store; naive_solver congruence]. Qed.
#[global] Instance eq_preorder {A} : PreOrder (=@{A}).
Proof. split; [done|intros ? ? ? -> ->; done]. Qed.

Lemma in_store_wpg {A} H (m : M Store A) (Q : A -> Ledger -> Prop) l :
  wpg H m (fun a s => Q a (set_store s l)) (store l) -> wpg H (in_store m) Q l.
Proof. rw /wpg /in_store. by destruct (m (store l)) as [[]|]. Qed.
Lemma in_store_frame {A} (m : M Store A) : preserves same_but_store (in_store m).
Proof. intros l. apply in_store_wpg. rw /wpg. by destruct (m (store l)) as [[]|]. Qed.
Lemma in_store_reads {A} (m : M Store A) : preserves eq m -> preserves eq (in_store m).
Proof.
  intros Hm l. apply in_store_wpg. eapply wpg_mono; [apply Hm|]. intros ? s' <-. by destruct l.
Qed.

Lemma get_timestamp_reads r : preserves eq (get_timestamp r).
Proof.
  rw /get_timestamp /any_request_get /request_block_get. repeat frame_step.
  apply in_store_reads. rw /epoch_get /get_elections. solve_frame.
Qed.
Lemma find_place_reads fuel : forall r t p g c, preserves eq (find_place fuel r t p g c).
Proof.
  induction fuel as [|fuel IH]; intros; cbn [find_place]; [solve_frame|].
  apply preserves_bind; [apply _| |].
  { rw /receive_cmp. apply preserves_bind; [apply _|apply get_timestamp_reads|].
    intros. apply preserves_ret. apply _. }
  intros [[less t'] g']. destruct less; [|apply preserves_ret; apply _].
  rw /receive_get. repeat frame_step.
Qed.
Lemma PlaceReceive_frame r t : preserves same_but_receives (PlaceReceive r t).
Proof.
  assert (Heq : forall A (m : M Ledger A), preserves eq m -> preserves same_but_receives m).
  { intros A m Hm l. eapply wpg_mono; [apply Hm|]. by intros ? l' <-. }
  rw /PlaceReceive /receive_get /receive_put. repeat frame_step.
  - apply Heq, find_place_reads.
  - rw /check_generated /any_request_get. solve_frame.
Qed.
End Frames.
#[export] Hint Resolve in_store_frame PlaceReceive_frame : frame.
