(* ===== verification/ReceiveChain.v ===== *)
(** * The chain of receives of an account

    An account's receive_head names its last receive, every receive its
    predecessor. PlaceReceive is called with a receive whose [previous] is the
    old head, while the account's receive_head becomes the new receive. *)
From stdpp Require Import base list numbers strings ssreflect.
From S2P Require Import Prelude Serial Lmdb StakingTypes Requests Epochs BlockStore Governance TokenTypes TokenRequests Ledger.
Open Scope Z_scope.

Section Chain.
Context {L : Lmdb} {LL : LmdbLaws L} {B : Blake2b}.

(** The receives found by following [rc_previous] from [h]. *)
Inductive chain (l : Ledger) : BlockHash -> list ReceiveBlock -> Prop :=
| chain_nil : chain l 0 []
| chain_cons r rs :
    mdb_get (ReceiveBlock_Hash r) (receive_db l) = Some r ->
    chain l (rc_previous r) rs -> chain l (ReceiveBlock_Hash r) (r :: rs).

(** No receive has the hash 0, which ends the chains. *)
Definition no_zero_receive (l : Ledger) : Prop := mdb_get 0 (receive_db l) = None.

Lemma chain_unique l h rs : forall rs',
  no_zero_receive l -> chain l h rs -> chain l h rs' -> rs = rs'.
Proof.
  intros rs' H0 Hc. revert rs'. induction Hc as [|r rs Hr Hc IH]; intros rs' Hc'.
  - inversion Hc' as [Hz|r rs Hr _ Hh]; [done|]. by rw Hh H0 in Hr.
  - inversion Hc' as [Hz|r' rs0 Hr' Hc0 Hh]; [by rw -Hz H0 in Hr|].
    rw Hh Hr in Hr'. injection Hr' as <-. f_equal. auto.
Qed.

Lemma chain_app l h xs ys :
  chain l h (xs ++ ys) -> exists h', chain l h' ys.
Proof. revert h. induction xs as [|x xs IH]; intros h; [eauto|]. inversion 1; eauto. Qed.

Lemma chain_inv l h x rs :
  chain l h (x :: rs) ->
  h = ReceiveBlock_Hash x /\ mdb_get h (receive_db l) = Some x /\ chain l (rc_previous x) rs.
Proof. by inversion 1. Qed.
Lemma chain_nil_inv l h : chain l h [] -> h = 0.
Proof. by inversion 1. Qed.

Lemma chain_tail_ne l x rs y :
  no_zero_receive l -> chain l (ReceiveBlock_Hash x) (x :: rs) -> y ∈ rs ->
  ReceiveBlock_Hash y <> ReceiveBlock_Hash x.
Proof.
  intros H0 Hc (xs & ys & ->)%list_elem_of_split Heq.
  assert (exists h', chain l h' (y :: ys)) as [h' Hy].
  { apply (chain_app l (ReceiveBlock_Hash x) (x :: xs)). done. }
  assert (h' = ReceiveBlock_Hash y) as -> by by inversion Hy. rw Heq in Hy.
  apply (chain_unique _ _ _ _ H0 Hc) in Hy. apply (f_equal length) in Hy.
  rw /= length_app /= in Hy. lia.
Qed.

(** A chain survives changes of other records. *)
Lemma chain_put l h rs k v :
  chain l h rs -> (forall y, y ∈ rs -> ReceiveBlock_Hash y <> k) ->
  chain (set_receive_db (mdb_put k v (receive_db l)) l) h rs.
Proof.
  induction 1 as [|r rs Hr Hc IH]; intros Hne; constructor.
  - cbn [set_receive_db receive_db]. rw get_put_ne //. apply not_eq_sym, Hne. by left.
  - apply IH. intros y Hy. apply Hne. by right.
Qed.

(** The timestamp of the block behind a stored receive. *)
Definition dated (l : Ledger) (r : ReceiveBlock) (t : Z) (generated : bool) : Prop :=
  get_timestamp r l = Ok ((t, generated), l).
(** [receive_cmp] of a receive of time [ts] and a stored one of time [t]. *)
Definition precedes (r x : ReceiveBlock) (ts t : Z) : bool :=
  if ts =? t then ReceiveBlock_Hash r <? ReceiveBlock_Hash x else ts <? t.
Lemma receive_cmp_run l r x ts t g :
  dated l x t g -> receive_cmp ts r x l = Ok ((precedes r x ts t, t, g), l).
Proof. rw /dated /receive_cmp /mbind /M_bind. by intros ->. Qed.

(** A receive that does not precede the head of the chain, by the timestamps
    of their blocks and then by their hashes, becomes the new head: the chain is
    extended by it and keeps every earlier receive. *)
Lemma receive_in_order_extends_the_chain l r rs ts :
  no_zero_receive l -> chain l (rc_previous r) rs ->
  mdb_get (ReceiveBlock_Hash r) (receive_db l) = None ->
  match rs with
  | [] => True
  | x :: _ => exists t g, dated l x t g /\ precedes r x ts t = false
  end ->
  wp (PlaceReceive r ts) (fun _ l' =>
    chain l' (ReceiveBlock_Hash r) (r :: rs) /\ same_but_receives l l') l.
Proof.
  intros H0 Hc Hfresh Hx.
  enough (Hput : PlaceReceive r ts l = receive_put (ReceiveBlock_Hash r) r l).
  { rw /wpg Hput. split; [|done]. constructor; [by apply get_put_eq|].
    apply chain_put; [done|]. intros y Hy Heq. clear Hx.
    induction Hc as [|z zs Hz Hc IH]; [by apply not_elem_of_nil in Hy|].
    apply elem_of_cons in Hy as [->|Hy]; [by rw Heq Hfresh in Hz|auto]. }
  rw /PlaceReceive /receive_get /mbind /M_bind. cbn [gets].
  destruct rs as [|x rs].
  - apply chain_nil_inv in Hc as ->. by rw H0.
  - destruct Hx as (t & g & Hd & Hp). apply chain_inv in Hc as (Hh & Hxg & Hc').
    rw Hxg. cbn [find_place gets]. rw /mbind /M_bind (receive_cmp_run _ _ _ _ _ _ Hd) Hp. done.
Qed.

(** A receive of an earlier time than the head of the chain is put behind the
    head, wherever it belongs: the comparison with the next receive uses the
    timestamp of the head. And because the account's receive_head names the new
    receive, the old head is no longer on the chain of the account. *)
Lemma late_receive_drops_the_head l r x rs ts t g :
  no_zero_receive l -> chain l (ReceiveBlock_Hash x) (x :: rs) ->
  rc_previous r = ReceiveBlock_Hash x -> rc_source_hash x <> 0 ->
  mdb_get (ReceiveBlock_Hash r) (receive_db l) = None ->
  dated l x t g -> ts < t -> check_generated x g l = Ok (tt, l) ->
  match rs with
  | [] => True
  | y :: _ => exists t' g', dated l y t' g' /\ t' < t
  end ->
  wp (PlaceReceive r ts) (fun _ l' =>
    chain l' (ReceiveBlock_Hash r) (set_rc_previous (rc_previous x) r :: rs) /\
    mdb_get (ReceiveBlock_Hash x) (receive_db l') = Some (set_rc_previous (ReceiveBlock_Hash r) x) /\
    ReceiveBlock_Hash x ∉ map ReceiveBlock_Hash (set_rc_previous (rc_previous x) r :: rs)) l.
Proof.
  intros H0 Hc Hp Hs Hfresh Hd Hlt Hcheck Hy.
  pose proof (chain_inv _ _ _ _ Hc) as (_ & Hxg & Hc').
  assert (Hne : ReceiveBlock_Hash x <> ReceiveBlock_Hash r) by by (intros Heq; rw -Heq Hxg in Hfresh).
  assert (Hplace : forall n, (1 <= n)%nat ->
    find_place (S n) r ts ReceiveBlock_default false x l = Ok ((x, g), l)).
  { intros n Hn. cbn [find_place]. rw /mbind /M_bind (receive_cmp_run _ _ _ _ _ _ Hd).
    rw {1}/precedes. destruct (Z.eqb_spec ts t); [lia|]. destruct (Z.ltb_spec ts t); [|lia].
    rw /receive_get. cbn [gets]. destruct rs as [|y rs].
    - apply chain_nil_inv in Hc' as ->. by rw H0.
    - destruct n as [|n]; [lia|]. destruct Hy as (t' & g' & Hd' & Hlt').
      apply chain_inv in Hc' as (_ & Hyg & _). rw Hyg. cbn [find_place].
      rw /mbind /M_bind (receive_cmp_run _ _ _ _ _ _ Hd') /precedes.
      destruct (Z.eqb_spec t t'); [lia|]. by destruct (Z.ltb_spec t t'); [lia|]. }
  assert (Hlen : (1 <= length (mdb_items (receive_db l)))%nat).
  { apply items_get in Hxg. destruct (mdb_items _); [by apply not_elem_of_nil in Hxg|cbn; lia]. }
  rw /wpg /PlaceReceive /receive_get /mbind /M_bind. cbn [gets]. rw Hp Hxg (Hplace _ Hlen).
  destruct (Z.eqb_spec (rc_source_hash x) 0); [done|]. cbn [negb]. rw Hcheck.
  assert (Hrs : forall y, y ∈ rs -> ReceiveBlock_Hash y <> ReceiveBlock_Hash x).
  { intros y. by apply (chain_tail_ne l). }
  assert (Hrr : forall y, y ∈ rs -> ReceiveBlock_Hash y <> ReceiveBlock_Hash r).
  { intros y Hin Heq. clear - Hc' Hin Heq Hfresh.
    induction Hc' as [|z zs Hz Hc IH]; [by apply not_elem_of_nil in Hin|].
    apply elem_of_cons in Hin as [->|Hin]; [by rw Heq Hfresh in Hz|auto]. }
  split_and!.
  - apply (chain_cons _ (set_rc_previous (rc_previous x) r)).
    + by apply get_put_eq.
    + cbn [set_rc_previous rc_previous]. by do 2 (apply chain_put; [|done]).
  - cbn [receive_put modify set_receive_db receive_db]. rw get_put_ne; [|done]. by apply get_put_eq.
  - cbn [map]. rw not_elem_of_cons. split; [done|].
    intros (y & Heq & Hin)%list_elem_of_fmap. by eapply Hrs.
Qed.
End Chain.

Lemma reads_run {S A} (m : M S A) s a :
  preserves eq m -> value_of m s = Some a -> m s = Ok (a, s).
Proof.
  intros Hm Hv. pose proof (run_value _ _ _ Hv) as Hr.
  pose proof (preserves_ok _ _ _ _ _ Hm Hr) as Hs. by rw -Hs in Hr.
Qed.

(** ** Concrete chains

    Three sends to one account, confirmed by blocks of the times 100, 90 and 80. *)
Section Witness.
#[local] Existing Instance mod_blake2b.
#[local] Existing Instance gmap_lmdb.
#[local] Existing Instance gmap_lmdb_laws.

Definition send_at (origin block : Z) : Request :=
  RSend (Build_SendRequest
           (Build_RequestBase origin 0 0x21e19e0c9bab2400000 0 0 0 (Build_Locator block 0))
           [Build_Transaction 4 10]).
Definition block_at (timestamp : Z) : ApprovedRB := Build_ApprovedRB 0 3 3 1 timestamp 0 [] 0.
Definition receive_of (previous : BlockHash) (r : Request) : ReceiveBlock :=
  Build_ReceiveBlock previous (request_hash r) 0.
Definition receive1 : ReceiveBlock := receive_of 0 (send_at 5 90).
Definition receive2 : ReceiveBlock := receive_of (ReceiveBlock_Hash receive1) (send_at 6 100).
Definition chain_ledger : Ledger :=
  state_after
    (put_requests [send_at 5 90; send_at 6 100; send_at 7 80];;
     modify (set_batch_db (mdb_put 80 (block_at 80) (mdb_put 90 (block_at 90)
               (mdb_put 100 (block_at 100) mdb_empty))));;
     modify (set_receive_db (mdb_put (ReceiveBlock_Hash receive2) receive2
               (mdb_put (ReceiveBlock_Hash receive1) receive1 mdb_empty))))
    empty_ledger.
Definition receive3 : ReceiveBlock := receive_of (ReceiveBlock_Hash receive2) (send_at 7 80).

Lemma chain_ledger_chain : chain chain_ledger (ReceiveBlock_Hash receive2) [receive2; receive1].
Proof.
  constructor; [by vm_compute|]. constructor; [by vm_compute|]. constructor.
Qed.

(** A block of the time 110 comes in order. *)
Lemma receive_in_order_extends_the_chain_witness :
  wp (PlaceReceive receive3 110) (fun _ l' =>
    chain l' (ReceiveBlock_Hash receive3) [receive3; receive2; receive1] /\
    same_but_receives chain_ledger l') chain_ledger.
Proof.
  apply (receive_in_order_extends_the_chain chain_ledger receive3 [receive2; receive1] 110).
  - by vm_compute.
  - apply chain_ledger_chain.
  - by vm_compute.
  - exists 100, false. split; [|done].
    apply reads_run; [apply get_timestamp_reads|by vm_compute].
Defined.

(** The send of the time 80 belongs before both, and takes the place of the
    head instead. *)
Lemma late_receive_drops_the_head_witness :
  wp (PlaceReceive receive3 80) (fun _ l' =>
    chain l' (ReceiveBlock_Hash receive3)
      [set_rc_previous (ReceiveBlock_Hash receive1) receive3; receive1] /\
    mdb_get (ReceiveBlock_Hash receive2) (receive_db l')
    = Some (set_rc_previous (ReceiveBlock_Hash receive3) receive2) /\
    ReceiveBlock_Hash receive2
      ∉ map ReceiveBlock_Hash [set_rc_previous (ReceiveBlock_Hash receive1) receive3; receive1])
    chain_ledger.
Proof.
  apply (late_receive_drops_the_head chain_ledger receive3 receive2 [receive1] 80 100 false).
  - by vm_compute.
  - apply chain_ledger_chain.
  - done.
  - by vm_compute.
  - by vm_compute.
  - apply reads_run; [apply get_timestamp_reads|by vm_compute].
  - done.
  - apply reads_run; [|by vm_compute]. rw /check_generated /any_request_get. solve_frame.
  - exists 90, false. split; [|done].
    apply reads_run; [apply get_timestamp_reads|by vm_compute].
Defined.
End Witness.
