(* ===== verification/Transfers.v ===== *)
(** * Application of requests to the ledger

    PersistenceManager<R>::ApplyRequest and ApplySend
    (src/logos/consensus/persistence/request/request_persistence.cpp) for every
    type of request. The account of the request, [info], is a copy that is
    stored when the request has been applied; ApplySend reads and stores the
    accounts of the destinations in the meantime. *)
From Stdlib Require Import QArith.QArith_base QArith.Qreduction.
From stdpp Require Import base list numbers strings ssreflect.
From S2P Require Import Prelude Serial Lmdb StakingTypes Requests Epochs BlockStore VotingPower AccountInfo Staking EpochRewards Governance TokenTypes TokenRequests Ledger.
Import EpochRewardsManager.
Open Scope Z_scope.

(** ** Members of an account *)
Definition Account_head (a : Account) : BlockHash :=
  match a with UserAccount i => head i | TokenAcct t => ta_head t end.
Definition Account_block_count (a : Account) : Z :=
  match a with UserAccount i => block_count i | TokenAcct t => ta_block_count t end.
Definition Account_receive_head (a : Account) : BlockHash :=
  match a with UserAccount i => receive_head i | TokenAcct t => ta_receive_head t end.
(** GetBalance and GetAvailableBalance, of account_info and of TokenAccount. *)
Definition Account_GetBalance (a : Account) : Amount :=
  match a with UserAccount i => balance i | TokenAcct t => ta_balance t end.
Definition Account_GetAvailableBalance (a : Account) : Amount :=
  match a with UserAccount i => available_balance i | TokenAcct t => ta_balance t end.

(** [block_count++; head = h; modified = now] *)
Definition user_extend (h : BlockHash) (now : Z) (i : account_info) : account_info :=
  Build_account_info now h (u32 (block_count i + 1)) (receive_head i) (receive_count i)
    (balance i) (governance_subchain_head i) (old_rep i) (new_rep i) (open_block i) (entries i)
    (epoch_thawing_updated i) (epoch_secondary_liabilities_updated i) (claim_epoch i) (dust i)
    (available_balance i).
Definition token_extend (h : BlockHash) (now : Z) (t : TokenAccount) : TokenAccount :=
  Build_TokenAccount now h (u32 (ta_block_count t + 1)) (ta_receive_head t)
    (ta_receive_count t) (ta_balance t) (total_supply t) (token_balance t)
    (token_fee_balance t) (fee_type t) (fee_rate t) (symbol t) (name t) (issuer_info t)
    (controllers t) (settings t) (issuance_request t).
Definition Account_extend (h : BlockHash) (now : Z) (a : Account) : Account :=
  match a with
  | UserAccount i => UserAccount (user_extend h now i)
  | TokenAcct t => TokenAcct (token_extend h now t)
  end.

(** [receive_count++; receive_head = h; modified = now] *)
Definition user_received (h : BlockHash) (now : Z) (i : account_info) : account_info :=
  Build_account_info now (head i) (block_count i) h (u32 (receive_count i + 1))
    (balance i) (governance_subchain_head i) (old_rep i) (new_rep i) (open_block i) (entries i)
    (epoch_thawing_updated i) (epoch_secondary_liabilities_updated i) (claim_epoch i) (dust i)
    (available_balance i).
Definition token_received (h : BlockHash) (now : Z) (t : TokenAccount) : TokenAccount :=
  Build_TokenAccount now (ta_head t) (ta_block_count t) h (u32 (ta_receive_count t + 1))
    (ta_balance t) (total_supply t) (token_balance t) (token_fee_balance t) (fee_type t)
    (fee_rate t) (symbol t) (name t) (issuer_info t) (controllers t) (settings t)
    (issuance_request t).
Definition Account_received (h : BlockHash) (now : Z) (a : Account) : Account :=
  match a with
  | UserAccount i => UserAccount (user_received h now i)
  | TokenAcct t => TokenAcct (token_received h now t)
  end.

Definition set_receive_head (h : BlockHash) (i : account_info) : account_info :=
  Build_account_info (modified i) (head i) (block_count i) h (receive_count i)
    (balance i) (governance_subchain_head i) (old_rep i) (new_rep i) (open_block i) (entries i)
    (epoch_thawing_updated i) (epoch_secondary_liabilities_updated i) (claim_epoch i) (dust i)
    (available_balance i).
Definition set_entries (es : list TokenEntry) (i : account_info) : account_info :=
  Build_account_info (modified i) (head i) (block_count i) (receive_head i) (receive_count i)
    (balance i) (governance_subchain_head i) (old_rep i) (new_rep i) (open_block i) es
    (epoch_thawing_updated i) (epoch_secondary_liabilities_updated i) (claim_epoch i) (dust i)
    (available_balance i).
Definition set_claim (epoch : Z) (d : Q) (i : account_info) : account_info :=
  Build_account_info (modified i) (head i) (block_count i) (receive_head i) (receive_count i)
    (balance i) (governance_subchain_head i) (old_rep i) (new_rep i) (open_block i) (entries i)
    (epoch_thawing_updated i) (epoch_secondary_liabilities_updated i) epoch d
    (available_balance i).
(** account_info() with its open block. *)
Definition new_account (open : BlockHash) : account_info :=
  Build_account_info 0 0 0 0 0 0 0 (Build_RepRecord 0 0) (Build_RepRecord 0 0) open [] 0 0 0
    (0 # 1) 0.

Definition set_ta_balance (b : Amount) (t : TokenAccount) : TokenAccount :=
  Build_TokenAccount (ta_modified t) (ta_head t) (ta_block_count t) (ta_receive_head t)
    (ta_receive_count t) b (total_supply t) (token_balance t) (token_fee_balance t)
    (fee_type t) (fee_rate t) (symbol t) (name t) (issuer_info t) (controllers t) (settings t)
    (issuance_request t).
(** total_supply, token_balance and token_fee_balance *)
Definition set_tokens (s b f : Amount) (t : TokenAccount) : TokenAccount :=
  Build_TokenAccount (ta_modified t) (ta_head t) (ta_block_count t) (ta_receive_head t)
    (ta_receive_count t) (ta_balance t) s b f (fee_type t) (fee_rate t) (symbol t) (name t)
    (issuer_info t) (controllers t) (settings t) (issuance_request t).
Definition set_fee (ft : TokenFeeType.t) (fr : Amount) (t : TokenAccount) : TokenAccount :=
  Build_TokenAccount (ta_modified t) (ta_head t) (ta_block_count t) (ta_receive_head t)
    (ta_receive_count t) (ta_balance t) (total_supply t) (token_balance t)
    (token_fee_balance t) ft fr (symbol t) (name t) (issuer_info t) (controllers t) (settings t)
    (issuance_request t).
Definition set_issuer_info (i : list Z) (t : TokenAccount) : TokenAccount :=
  Build_TokenAccount (ta_modified t) (ta_head t) (ta_block_count t) (ta_receive_head t)
    (ta_receive_count t) (ta_balance t) (total_supply t) (token_balance t)
    (token_fee_balance t) (fee_type t) (fee_rate t) (symbol t) (name t) i (controllers t)
    (settings t) (issuance_request t).
Definition set_controllers (cs : list ControllerInfo) (t : TokenAccount) : TokenAccount :=
  Build_TokenAccount (ta_modified t) (ta_head t) (ta_block_count t) (ta_receive_head t)
    (ta_receive_count t) (ta_balance t) (total_supply t) (token_balance t)
    (token_fee_balance t) (fee_type t) (fee_rate t) (symbol t) (name t) (issuer_info t) cs
    (settings t) (issuance_request t).

(** Updates the first element that satisfies [p], as through the iterator that
    std::find_if returns; removes it. *)
Fixpoint update_first {A} (p : A -> bool) (f : A -> A) (xs : list A) : list A :=
  match xs with
  | [] => []
  | x :: xs => if p x then f x :: xs else x :: update_first p f xs
  end.
Fixpoint erase_first {A} (p : A -> bool) (xs : list A) : list A :=
  match xs with
  | [] => []
  | x :: xs => if p x then xs else x :: erase_first p xs
  end.
Definition entry_is (token_id : BlockHash) (e : TokenEntry) : bool := te_token_id e =? token_id.
Definition set_te_balance (b : Amount) (e : TokenEntry) : TokenEntry :=
  Build_TokenEntry (te_token_id e) (te_status e) b.
Definition set_te_status (s : TokenUserStatus) (e : TokenEntry) : TokenEntry :=
  Build_TokenEntry (te_token_id e) s (te_balance e).
Definition update_entry (token_id : BlockHash) (f : TokenEntry -> TokenEntry)
    (i : account_info) : account_info :=
  set_entries (update_first (entry_is token_id) f (entries i)) i.

Section Sends.
Context {L : Lmdb} {B : Blake2b}.
(** logos::seconds_since_epoch() *)
Variable now : Z.

(** info->SetBalance *)
Definition Account_SetBalance (a : Account) (new_balance : Amount) (epoch : Z)
  : M Ledger Account :=
  match a with
  | UserAccount i => i' ← in_store (SetBalance i new_balance epoch); mret (UserAccount i')
  | TokenAcct t => mret (TokenAcct (set_ta_balance new_balance t))
  end.

(** The branch of ApplySend that credits tokens: an account that had none of them
    is tethered, and takes its status over from the central list. *)
Definition tether (token_id : BlockHash) (user : AccountAddress) (i : account_info)
  : M Ledger account_info :=
  match find_entry token_id (entries i) with
  | Some _ => mret i
  | None =>
      let entry := Build_TokenEntry token_id (te_status TokenEntry_default) 0 in
      s ← token_user_status_get (GetTokenUserID token_id user);
      match s with
      | None => mret (set_entries (entries i ++ [entry]) i)
      | Some status =>
          err ← token_user_status_del (GetTokenUserID token_id user);
          massert (negb err) "PersistenceManager::ApplySend";;
          mret (set_entries (entries i ++ [set_te_status status entry]) i)
      end
  end.

(** ApplySend(send, ..., info, transaction_index): returns the account. *)
Definition ApplySend_to (send : Transaction) (timestamp : Z) (request_hash token_id : BlockHash)
    (origin : AccountAddress) (epoch_num : Z) (info : option Account) (transaction_index : Z)
  : M Ledger Account :=
  let receive := Build_ReceiveBlock
    (match info with Some a => Account_receive_head a | None => 0 end)
    request_hash transaction_index in
  let hash := ReceiveBlock_Hash receive in
  a ← match info with
      | Some a => mret a
      | None =>
          o ← account_get origin;
          match o with
          | None => halt "PersistenceManager::ApplySend"
          | Some _ => mret (UserAccount (new_account hash))
          end
      end;
  let a := Account_received hash now a in
  a ← (if token_id =? 0 then
         Account_SetBalance a (amt_add (Account_GetBalance a) (t_amount send)) epoch_num
       else
         match a with
         | TokenAcct _ => halt "PersistenceManager::ApplySend"
         | UserAccount i =>
             i ← tether token_id (destination send) i;
             mret (UserAccount (update_entry token_id
               (fun e => set_te_balance (amt_add (te_balance e) (t_amount send)) e) i))
         end);
  PlaceReceive receive timestamp;;
  mret a.

(** ApplySend(send, ..., transaction_index) *)
Definition ApplySend_one (send : Transaction) (timestamp : Z) (request_hash token_id : BlockHash)
    (origin : AccountAddress) (epoch_num : Z) (transaction_index : Z) : M Ledger unit :=
  info ← account_get (destination send);
  info ← ApplySend_to send timestamp request_hash token_id origin epoch_num info
           transaction_index;
  account_put (destination send) info.

(** ApplySend(request, ...): the loop over the transactions of a Send, which
    skips those to the sender, and of a TokenSend, which does not. *)
Fixpoint ApplySend_all (skip_self : bool) (ts : list Transaction) (timestamp : Z)
    (request_hash token_id : BlockHash) (origin : AccountAddress) (epoch_num : Z)
    (transaction_index : Z) : M Ledger unit :=
  match ts with
  | [] => mret tt
  | t :: ts =>
      if skip_self && (destination t =? origin) then
        ApplySend_all skip_self ts timestamp request_hash token_id origin epoch_num
          transaction_index
      else
        ApplySend_one t timestamp request_hash token_id origin epoch_num transaction_index;;
        ApplySend_all skip_self ts timestamp request_hash token_id origin epoch_num
          (wrap 16 (transaction_index + 1))
  end.
End Sends.

(** ** Token requests *)

(** The loops of UpdateController over the bits of a controller. *)
Definition add_privileges (p q : BitField) : BitField :=
  foldl (fun p i => if bit_at q i then Z.setbit p i else p) p (seqZ 0 CONTROLLER_PRIVILEGE_COUNT).
Definition remove_privileges (p q : BitField) : BitField :=
  foldl (fun p i => if bit_at q i then Z.clearbit p i else p) p
    (seqZ 0 CONTROLLER_PRIVILEGE_COUNT).
Definition no_privileges (q : BitField) : bool :=
  forallb (fun i => negb (bit_at q i)) (seqZ 0 CONTROLLER_PRIVILEGE_COUNT).
Definition controller_is (account : AccountAddress) (c : ControllerInfo) : bool :=
  c_account c =? account.
Definition set_privileges (p : BitField) (c : ControllerInfo) : ControllerInfo :=
  Build_ControllerInfo (c_account c) p.

(** The branches of UpdateController; [None] is the failing assertion that the
    controller to be removed exists. *)
Definition update_controllers (action : ControllerAction.t) (c : ControllerInfo)
    (cs : list ControllerInfo) : option (list ControllerInfo) :=
  let q := c_privileges c in
  match action, find_controller (c_account c) cs with
  | ControllerAction.Add, Some _ =>
      Some (update_first (controller_is (c_account c))
              (fun x => set_privileges (add_privileges (c_privileges x) q) x) cs)
  | ControllerAction.Add, None => Some (cs ++ [c])
  | ControllerAction.Remove, Some _ =>
      Some (if no_privileges q then erase_first (controller_is (c_account c)) cs
            else update_first (controller_is (c_account c))
                   (fun x => set_privileges (remove_privileges (c_privileges x) q) x) cs)
  | ControllerAction.Remove, None => None
  | _, _ => Some cs
  end.

(** The lambda do_adjust_status *)
Definition do_adjust_status (status : UserStatus.t) (s : TokenUserStatus) : TokenUserStatus :=
  match status with
  | UserStatus.Frozen => Build_TokenUserStatus (whitelisted s) true
  | UserStatus.Unfrozen => Build_TokenUserStatus (whitelisted s) false
  | UserStatus.Whitelisted => Build_TokenUserStatus true (frozen s)
  | UserStatus.NotWhitelisted => Build_TokenUserStatus false (frozen s)
  | _ => s
  end.

(** TokenAccount(issuance), with the balance and the genesis receive that
    ApplyRequest gives it. *)
Definition issued_account (i : IssuanceFields) (balance : Amount) (receive : BlockHash) (now : Z)
  : TokenAccount :=
  Build_TokenAccount now 0 0 receive 1 balance (is_total_supply i) (is_total_supply i) 0
    (is_fee_type i) (is_fee_rate i) (is_symbol i) (is_name i) (is_issuer_info i)
    (is_controllers i) (is_settings i) receive.

Definition REVOKE_OFFSET : Z := 0x80.

Section Tokens.
Context {L : Lmdb} {B : Blake2b}.
Variable now : Z.

(** The lambda adjust_token_user_status *)
Definition adjust_token_user_status (token_id : BlockHash) (account : AccountAddress)
    (status : UserStatus.t) : M Ledger unit :=
  let adjust_status :=
    s ← token_user_status_get (GetTokenUserID token_id account);
    token_user_status_put (GetTokenUserID token_id account)
      (do_adjust_status status (default (te_status TokenEntry_default) s)) in
  u ← user_account_get account;
  match u with
  | None => adjust_status
  | Some user =>
      match find_entry token_id (entries user) with
      | None => adjust_status
      | Some _ =>
          account_put account (UserAccount (update_entry token_id
            (fun e => set_te_status (do_adjust_status status (te_status e)) e) user))
      end
  end.

(** case RequestType::Issuance *)
Definition ApplyIssuance (t : TokenRequest) (i : IssuanceFields) (timestamp : Z)
  : M Ledger unit :=
  let receive := Build_ReceiveBlock 0 (request_hash (RToken t)) 0 in
  let balance := amt_sub (amt_add 0 (rq_fee (tr_base t)))
                   (MinTransactionFee RequestType.Issuance) in
  token_account_put (tr_token_id t)
    (issued_account i balance (ReceiveBlock_Hash receive) now);;
  PlaceReceive receive timestamp.

(** case RequestType::Revoke: the source first, then the destination. *)
Definition ApplyRevoke (t : TokenRequest) (source : AccountAddress) (x : Transaction)
    (timestamp cur_epoch_num : Z) : M Ledger unit :=
  let hash := request_hash (RToken t) in
  u ← user_account_get source;
  match u with
  | None => halt "PersistenceManager::ApplyRequest"
  | Some user =>
      match find_entry (tr_token_id t) (entries user) with
      | None => halt "PersistenceManager::ApplyRequest"
      | Some _ =>
          let user := update_entry (tr_token_id t)
            (fun e => set_te_balance (amt_sub (te_balance e) (t_amount x)) e) user in
          let receive := Build_ReceiveBlock (receive_head user) hash REVOKE_OFFSET in
          let user := set_receive_head (ReceiveBlock_Hash receive) user in
          PlaceReceive receive timestamp;;
          account_put source (UserAccount user)
      end
  end;;
  ApplySend_one now x timestamp hash (tr_token_id t) (rq_origin (tr_base t)) cur_epoch_num 0.

(** case RequestType::TokenSend; [source] is the account of the request. *)
Definition ApplyTokenSend (t : TokenRequest) (ts : list Transaction) (token_fee : Amount)
    (source : account_info) (timestamp cur_epoch_num : Z) : M Ledger account_info :=
  a ← token_account_get (tr_token_id t);
  match a with
  | None => halt "PersistenceManager::ApplyRequest"
  | Some token_account =>
      token_account_put (tr_token_id t)
        (set_tokens (total_supply token_account) (token_balance token_account)
           (amt_add (token_fee_balance token_account) token_fee) token_account);;
      match find_entry (tr_token_id t) (entries source) with
      | None => halt "PersistenceManager::ApplyRequest"
      | Some _ =>
          let source := update_entry (tr_token_id t)
            (fun e => set_te_balance (amt_sub (te_balance e) (GetTokenTotal (RToken t))) e)
            source in
          ApplySend_all now false ts timestamp (request_hash (RToken t)) (tr_token_id t)
            (rq_origin (tr_base t)) cur_epoch_num 0;;
          mret source
      end
  end.

(** The requests whose account is the token account. *)
Definition ApplyTokenAdmin (t : TokenRequest) (a : TokenAccount) (timestamp cur_epoch_num : Z)
  : M Ledger TokenAccount :=
  let send x token_id :=
    ApplySend_one now x timestamp (request_hash (RToken t)) token_id (rq_origin (tr_base t))
      cur_epoch_num 0 in
  let stop {A} : M Ledger A := halt "PersistenceManager::ApplyRequest" in
  let get (o : option TokenAccount) := match o with Some a => mret a | None => stop end in
  match tr_body t with
  | IssueAdditional amount =>
      mret (set_tokens (amt_add (total_supply a) amount) (amt_add (token_balance a) amount)
              (token_fee_balance a) a)
  | ChangeSetting setting value => get (Set_value a setting value)
  | ImmuteSetting setting =>
      get (m ← GetMutabilitySetting setting; Set_bool a m false)
  | Revoke source x => ApplyRevoke t source x timestamp cur_epoch_num;; mret a
  | AdjustUserStatus account status =>
      adjust_token_user_status (tr_token_id t) account status;; mret a
  | AdjustFee ft fr => mret (set_fee ft fr a)
  | UpdateIssuerInfo new_info => mret (set_issuer_info new_info a)
  | UpdateController action c =>
      get (cs ← update_controllers action c (controllers a); Some (set_controllers cs a))
  | Burn amount =>
      mret (set_tokens (amt_sub (total_supply a) amount) (amt_sub (token_balance a) amount)
              (token_fee_balance a) a)
  | Distribute x =>
      send x (tr_token_id t);;
      mret (set_tokens (total_supply a) (amt_sub (token_balance a) (t_amount x))
              (token_fee_balance a) a)
  | WithdrawFee x =>
      send x (tr_token_id t);;
      mret (set_tokens (total_supply a) (token_balance a)
              (amt_sub (token_fee_balance a) (t_amount x)) a)
  | WithdrawLogos x =>
      send x 0;; mret (set_ta_balance (amt_sub (ta_balance a) (t_amount x)) a)
  | Issuance _ | TokenSend _ _ => stop
  end.

(** The cases of the switch for token requests: [info] must be of the type the
    request expects. *)
Definition ApplyToken (t : TokenRequest) (info : Account) (timestamp cur_epoch_num : Z)
  : M Ledger Account :=
  match tr_body t, info with
  | Issuance i, _ => ApplyIssuance t i timestamp;; mret info
  | TokenSend ts fee, UserAccount source =>
      i ← ApplyTokenSend t ts fee source timestamp cur_epoch_num; mret (UserAccount i)
  | TokenSend _ _, TokenAcct _ => halt "PersistenceManager::ApplyRequest"
  | Revoke source x, UserAccount _ =>
      ApplyRevoke t source x timestamp cur_epoch_num;; mret info
  | AdjustUserStatus account status, UserAccount _ =>
      adjust_token_user_status (tr_token_id t) account status;; mret info
  | _, TokenAcct a =>
      a ← ApplyTokenAdmin t a timestamp cur_epoch_num; mret (TokenAcct a)
  | _, UserAccount _ => halt "PersistenceManager::ApplyRequest"
  end.
End Tokens.

(** ** Claims

    Rationals are exact here; the code keeps numerators and denominators in
    256-bit integers. A denominator 0 throws. *)
Definition rational (n d : Z) : option Q :=
  match d with Zpos p => Some (Qred (n # p)) | _ => None end.
Definition rational_mul (a b : Q) : Q := Qred (a * b).
Definition rational_add (a b : Q) : Q := Qred (a + b).

(** The lambda self_stake of ProcessClaim, in 256-bit arithmetic cut to 128. *)
Definition self_stake_of (is_rep : bool) (staked : Amount) (info : RewardsInfo) : Amount :=
  if is_rep then
    let factor := wrap 256 (100 - rw_levy_percentage info) in
    let proxy_stake := amt_sub (rw_total_stake info) (rw_self_stake info) in
    u128 (wrap 256 (rw_self_stake info + wrap 256 (factor * proxy_stake) / 100))
  else u128 (staked * rw_levy_percentage info / 100).

Section Claims.
Context {L : Lmdb} {B : Blake2b}.

(** The share of the global reward a representative is given when the first
    claim on its pool is made. *)
Definition init_reward (epoch : Z) (info : RewardsInfo) : M Ledger RewardsInfo :=
  if rw_initialized info then mret info
  else
    av ← in_store (GlobalRewardsAvailable epoch);
    if (av : bool) then
      g ← in_store (GetGlobalRewardsInfo epoch);
      match rational (rw_total_stake info) (gl_total_stake g) with
      | None => halt "PersistenceManager::ProcessClaim"
      | Some share =>
          let rep_pool := rational_mul share (inject_Z (gl_total_reward g)) in
          in_store (HarvestGlobalReward epoch rep_pool g);;
          mret (Build_RewardsInfo true (rw_levy_percentage info) (rw_total_stake info)
                  (rw_self_stake info) rep_pool rep_pool)
      end
    else halt "PersistenceManager::ProcessClaim".

(** The body of the loop over the epochs of one status. *)
Definition claim_one (is_rep : bool) (rep_address : AccountAddress) (staked : Amount)
    (claimed : Z) (sum : Q) (epoch : Z) : M Ledger Q :=
  if epoch <=? claimed then mret sum
  else
    av ← in_store (RewardsAvailable rep_address epoch);
    if (av : bool) then
      info ← in_store (GetRewardsInfo rep_address epoch);
      info ← init_reward epoch info;
      match rational (self_stake_of is_rep staked info) (rw_total_stake info) with
      | None => halt "PersistenceManager::ProcessClaim"
      | Some share =>
          let reward := rational_mul share (rw_total_reward info) in
          in_store (HarvestReward rep_address epoch reward info);;
          mret (rational_add sum reward)
      end
    else mret sum.
Fixpoint claim_epochs (is_rep : bool) (rep_address : AccountAddress) (staked : Amount)
    (claimed : Z) (sum : Q) (epochs : list Z) : M Ledger Q :=
  match epochs with
  | [] => mret sum
  | e :: es =>
      sum ← claim_one is_rep rep_address staked claimed sum e;
      claim_epochs is_rep rep_address staked claimed sum es
  end.

(** What the walk over the governance chain carries. *)
Record claim_state := {
  cs_peak : Z;
  cs_is_rep : bool;
  cs_rep : AccountAddress;
  cs_staked : Amount;
  cs_sum : Q;
}.
(** The switch: [None] where the code continues with the next request. *)
Definition claim_status (b : GovernanceBody) (s : claim_state)
  : option (bool * AccountAddress * Amount) :=
  match b with
  | Proxy lock_proxy rep =>
      Some (if lock_proxy =? 0 then (false, 0, 0) else (false, rep, lock_proxy))
  | AnnounceCandidacy _ _ _ _ _ | StartRepresenting _ _ _ => Some (true, 0, cs_staked s)
  | StopRepresenting _ _ => Some (false, cs_rep s, cs_staked s)
  | Stake _ | Unstake | ElectionVote _ | RenounceCandidacy _ _ => None
  end.
Definition claim_request (origin : AccountAddress) (claimed : Z) (g : Governance)
    (s : claim_state) : M Ledger claim_state :=
  let base := gr_epoch_num g in
  if base <? cs_peak s then
    match claim_status (gr_body g) s with
    | None => mret s
    | Some (is_rep, current_rep, staked) =>
        let has_rep := negb (current_rep =? 0) in
        massert (negb (has_rep && is_rep)) "PersistenceManager::ProcessClaim";;
        sum ← (if has_rep || is_rep then
                 claim_epochs is_rep (if is_rep then origin else current_rep) staked claimed
                   (cs_sum s) (seqZ (base + 1) (cs_peak s - base))
               else mret (cs_sum s));
        mret (Build_claim_state base is_rep current_rep staked sum)
    end
  else mret s.
(** The loop; [fuel] bounds the length of the governance chain. *)
Fixpoint claim_walk (fuel : nat) (origin : AccountAddress) (claimed : Z) (hash : BlockHash)
    (s : claim_state) : M Ledger claim_state :=
  if negb (hash =? 0) && (claimed <? cs_peak s) then
    match fuel with
    | O => halt "PersistenceManager::ProcessClaim"
    | S fuel =>
        q ← any_request_get hash;
        match q with
        | Some (RGovernance g) =>
            s ← claim_request origin claimed g s;
            claim_walk fuel origin claimed (gr_governance_subchain_prev g) s
        | _ => halt "PersistenceManager::ProcessClaim"
        end
    end
  else mret s.

(** Returns the whole part and the fraction of the reward. *)
Definition ProcessClaim (c : ClaimRequest) (info : account_info) : M Ledger (Amount * Q) :=
  fuel ← gets (fun l => length (mdb_items (request_db (store l))));
  s ← claim_walk fuel (rq_origin (cl_base c)) (claim_epoch info)
        (governance_subchain_head info)
        (Build_claim_state (cl_epoch_number c) false 0 0 (0 # 1));
  let n := Qnum (cs_sum s) in let d := Zpos (Qden (cs_sum s)) in
  mret (u128 (n / d), Qred ((n mod d) # Qden (cs_sum s))).

(** case RequestType::Claim *)
Definition ApplyClaim (now : Z) (c : ClaimRequest) (info : account_info)
    (timestamp cur_epoch_num : Z) : M Ledger Account :=
  sum ← ProcessClaim c info;
  let dust := rational_add (dust info) sum.2 in
  let carry := Zpos (Qden dust) <=? Qnum dust in
  let deposit := if carry then u128 (sum.1 + 1) else sum.1 in
  let dust := if carry then rational_sub dust (1 # 1) else dust in
  let info := UserAccount (set_claim (cl_epoch_number c) dust info) in
  if 0 <? deposit then
    ApplySend_to now (Build_Transaction (rq_origin (cl_base c)) deposit) timestamp
      (request_hash (RClaim c)) 0 (rq_origin (cl_base c)) cur_epoch_num (Some info) 0
  else mret info.
End Claims.

(** ** ApplyRequest *)
Section Application.
Context {L : Lmdb} {B : Blake2b}.
Variable now : Z.

(** case RequestType::Send; the fee has already been taken. *)
Definition ApplySendRequest (s : SendRequest) (source : account_info)
    (timestamp cur_epoch_num : Z) : M Ledger account_info :=
  i ← in_store (SetBalance source
        (amt_add (amt_sub (balance source) (Send_GetLogosTotal s)) (rq_fee (s_base s)))
        cur_epoch_num);
  ApplySend_all now true (s_transactions s) timestamp (request_hash (RSend s)) 0
    (rq_origin (s_base s)) cur_epoch_num 0;;
  mret i.

(** The switch over the type of the request. *)
Definition ApplyBody (r : Request) (info : Account) (timestamp cur_epoch_num : Z)
  : M Ledger Account :=
  match r, info with
  | RToken t, _ => ApplyToken now t info timestamp cur_epoch_num
  | RSend s, UserAccount i =>
      i ← ApplySendRequest s i timestamp cur_epoch_num; mret (UserAccount i)
  | RGovernance g, UserAccount i =>
      i ← in_store (RequestPersistence.ApplyRequest g i); mret (UserAccount i)
  | RClaim c, UserAccount i => ApplyClaim now c i timestamp cur_epoch_num
  | _, TokenAcct _ => halt "PersistenceManager::ApplyRequest"
  end.

Definition is_election_vote_request (r : Request) : bool :=
  bool_decide (request_type r = RequestType.ElectionVote).

(** PruneThawing of a user's account. *)
Definition prune_account (r : Request) (info : Account) (cur_epoch_num : Z)
  : M Ledger Account :=
  match info with
  | UserAccount i =>
      i ← in_store (StakingManager.PruneThawing (rq_origin (base_of r)) i cur_epoch_num); mret (UserAccount i)
  | TokenAcct _ => mret info
  end.
(** The fee of the request, of which an issuance gives the new account what
    exceeds the minimum. *)
Definition charge_fee (r : Request) (info : Account) (cur_epoch_num : Z) : M Ledger Account :=
  if is_election_vote_request r then mret info
  else
    let fee := rq_fee (base_of r) in
    info ← Account_SetBalance info (amt_sub (Account_GetBalance info) fee) cur_epoch_num;
    in_store (OnFeeCollected cur_epoch_num
      (if bool_decide (request_type r = RequestType.Issuance)
       then MinTransactionFee (request_type r) else fee));;
    mret info.

(** ApplyRequest(request, timestamp, cur_epoch_num, transaction): [committed] is the
    ledger before the transaction, which request_exists reads. *)
Definition ApplyRequest (committed : Ledger) (r : Request) (timestamp cur_epoch_num : Z)
  : M Ledger unit :=
  i ← account_get (GetAccount r);
  match i with
  | None => mret tt
  | Some info =>
      let hash := request_hash r in
      if negb (rq_previous (base_of r) =? Account_head info) then
        if (hash =? Account_head info) || request_exists hash committed then mret tt
        else halt "PersistenceManager<R>::ApplyRequest"
      else
        info ← prune_account r (Account_extend hash now info) cur_epoch_num;
        info ← charge_fee r info cur_epoch_num;
        info ← ApplyBody r info timestamp cur_epoch_num;
        account_put (GetAccount r) info
  end.

Fixpoint ApplyRequests (committed : Ledger) (rs : list Request) (timestamp cur_epoch_num : Z)
  : M Ledger unit :=
  match rs with
  | [] => mret tt
  | r :: rs =>
      ApplyRequest committed r timestamp cur_epoch_num;;
      ApplyRequests committed rs timestamp cur_epoch_num
  end.
Definition ApplyRequestBlock (committed : Ledger) (message : ApprovedRB) : M Ledger unit :=
  ApplyRequests committed (rb_requests message) (rb_timestamp message)
    (rb_epoch_number message).
End Application.
