(* ===== verification/RequestValidation.v ===== *)
(** * Validation of requests and of request blocks

    PersistenceManager<R> of
    src/logos/consensus/persistence/request/request_persistence.cpp: the checks
    of a request against the ledger and the reservations, of the requests of a
    block, and what ApplyUpdates stores and applies when a block is confirmed.
    The signature check and its configuration are parameters, as are
    EpochVotingManager::ENABLE_ELECTIONS, the clock and, for the reservations,
    the current epoch. *)
From stdpp Require Import base list numbers strings gmap ssreflect.
From S2P Require Import Prelude Serial Lmdb StakingTypes Requests Epochs BlockStore AccountInfo Staking EpochRewards Governance Reservations TokenTypes TokenRequests Ledger Transfers.
Import ConsensusReservations.
Open Scope Z_scope.

(** The ledger and the reservations. *)
Record Manager `{Lmdb} := { ledger : Ledger; reservations : Cache }.

Section Lifting.
Context {L : Lmdb}.
Definition in_ledger {A} (m : M Ledger A) : M Manager A := fun s =>
  match m (ledger s) with
  | Ok (a, l) => Ok (a, Build_Manager L l (reservations s))
  | Halt why => Halt why
  end.
Definition in_cache {A} (m : M Cache A) : M Manager A := fun s =>
  match m (reservations s) with
  | Ok (a, c) => Ok (a, Build_Manager L (ledger s) c)
  | Halt why => Halt why
  end.
End Lifting.

(** A check, and what follows when it passes. *)
Definition vbind {S} (m k : M S validation) : M S validation :=
  v ← m; match v with Valid => k | Invalid _ => mret v end.
Infix ">>&" := vbind (at level 62, left associativity) : validation_scope.
Definition vret {S} (v : validation) : M S validation := mret v.
Definition vfail {S} (code : ProcessResult.t) : M S validation := mret (Invalid (Some code)).

Section TokenValidation.
Context {L : Lmdb} {B : Blake2b} {I : Indeterminate}.
Open Scope validation_scope.

(** ValidateTokenAdminRequest *)
Definition ValidateTokenAdminRequest (t : TokenRequest) (info : Account) : M Ledger validation :=
  match info with
  | UserAccount _ => vfail ProcessResult.invalid_request
  | TokenAcct a =>
      match GetController a (rq_origin (tr_base t)) with
      | None => vfail ProcessResult.unauthorized_request
      | Some controller =>
          match IsAuthorized controller (tr_body t) with
          | None => halt "TokenAccount::GetMutabilitySetting"
          | Some false => vfail ProcessResult.unauthorized_request
          | Some true =>
              if negb (IsAllowed a (tr_body t)) then vfail ProcessResult.prohibitted_request
              else
                match tr_body t with
                | Revoke _ _ => vret Valid
                | _ => vret (Validate_token_account t a)
                end
          end
      end
  end.

Definition MAX_TOKEN_ENTRIES : Z := 65535.
(** What SendAllowed makes of [result.code]. *)
Definition send_allowed (a : TokenAccount) (status : TokenUserStatus) : validation :=
  match SendAllowed a status with
  | Allow => Valid
  | NotWhitelistedUser => Invalid (Some ProcessResult.not_whitelisted)
  | FrozenUser => Invalid (Some ProcessResult.frozen)
  end.

(** The lambda validate_destination: without an account there is nothing to cast
    to account_info, so that the branch for an unknown destination is not taken. *)
Definition validate_destination (dest : AccountAddress) (token_id : BlockHash)
    (a : TokenAccount) : M Ledger validation :=
  d ← account_get dest;
  match d with
  | Some (UserAccount user) =>
      match GetEntry user token_id with
      | Some e => vret (send_allowed a (te_status e))
      | None =>
          if Z.of_nat (length (entries user)) =? MAX_TOKEN_ENTRIES
          then vfail ProcessResult.too_many_token_entries
          else
            s ← token_user_status_get (GetTokenUserID token_id dest);
            vret (send_allowed a (default (te_status TokenEntry_default) s))
      end
  | _ => vfail ProcessResult.invalid_request
  end.

(** The loop over the transactions of a TokenSend. *)
Fixpoint validate_transactions (ts : list Transaction) (token_id : BlockHash) (a : TokenAccount)
    (token_total token_fee : Amount) : M Ledger validation :=
  match ts with
  | [] => vret Valid
  | t :: ts =>
      validate_destination (destination t) token_id a >>&
      vret (require (FeeSufficient a token_total token_fee) ProcessResult.insufficient_token_fee) >>&
      validate_transactions ts token_id a token_total token_fee
  end.

(** ValidateTokenTransfer *)
Definition ValidateTokenTransfer (t : TokenRequest) (info : Account) : M Ledger validation :=
  let total := GetTokenTotal (RToken t) in
  if total =? 0 then vret Valid
  else
    match tr_body t with
    | Revoke source x =>
        match info with
        | UserAccount _ => vfail ProcessResult.invalid_request
        | TokenAcct a =>
            s ← account_get (GetSource t);
            match s with
            | None => vfail ProcessResult.unknown_source_account
            | Some src =>
                validate_destination (destination x) (tr_token_id t) a >>&
                match src with
                | UserAccount u => vret (Validate_user_account t u)
                | TokenAcct _ => halt "Revoke::Validate"
                end
            end
        end
    | TokenSend ts token_fee =>
        ta ← token_account_get (tr_token_id t);
        match ta, info with
        | None, _ => vfail ProcessResult.invalid_token_id
        | Some _, TokenAcct _ => vfail ProcessResult.invalid_request
        | Some a, UserAccount user =>
            match GetEntry user (tr_token_id t) with
            | None => vfail ProcessResult.untethered_account
            | Some e =>
                vret (send_allowed a (te_status e)) >>&
                validate_transactions ts (tr_token_id t) a total token_fee >>&
                vret (Validate_user_account t user)
            end
        end
    | Distribute _ | WithdrawFee _ =>
        match info with
        | UserAccount _ => vfail ProcessResult.invalid_request
        | TokenAcct a =>
            if GetDestination t =? 0 then vfail ProcessResult.invalid_request
            else
              validate_destination (GetDestination t) (tr_token_id t) a >>&
              vret (Validate_token_account t a)
        end
    | _ => vret Valid
    end.

(** block_store::epoch_number_stored *)
Definition epoch_number_stored : M Ledger Z :=
  t ← in_store epoch_tip_get;
  match t with
  | None => halt "block_store::epoch_number_stored"
  | Some tip => mret (tip_epoch tip)
  end.
(** ValidateRequest(Claim) *)
Definition ValidateClaim (c : ClaimRequest) (info : Account) : M Ledger validation :=
  match info with
  | TokenAcct _ => halt "PersistenceManager<R>::ValidateRequest"
  | UserAccount user =>
      epoch ← epoch_number_stored;
      if (epoch <? cl_epoch_number c) || (cl_epoch_number c <=? claim_epoch user)
      then vfail ProcessResult.wrong_epoch_number
      else
        e ← in_store (epoch_get (cl_epoch_hash c));
        match e with
        | None => vfail ProcessResult.invalid_epoch_hash
        | Some eb =>
            vret (require (cl_epoch_number c =? eb_epoch_number eb)
                    ProcessResult.wrong_epoch_number)
        end
  end.
End TokenValidation.

(** enum class process_result_dependency (common.hpp): what a rejected block
    waits for. *)
Inductive process_result_dependency :=
| dep_progress | dep_not_applied | dep_bad_block | dep_general_error_code
| dep_previous_block | dep_sender_account | dep_last_microblock | dep_previous_epoch.
Definition ProcessResultToDependency (code : ProcessResult.t) : process_result_dependency :=
  match code with
  | ProcessResult.progress => dep_progress
  | ProcessResult.bad_signature => dep_not_applied
  | ProcessResult.gap_previous | ProcessResult.gap_source => dep_previous_block
  | ProcessResult.unknown_source_account | ProcessResult.unknown_origin
  | ProcessResult.insufficient_balance | ProcessResult.insufficient_token_balance
  | ProcessResult.untethered_account | ProcessResult.not_whitelisted | ProcessResult.frozen
  | ProcessResult.insufficient_funds_for_stake | ProcessResult.invalid_account_type =>
      dep_sender_account
  | ProcessResult.invalid_request => dep_general_error_code
  | ProcessResult.invalid_tip => dep_last_microblock
  | ProcessResult.elections_dead_period => dep_previous_epoch
  | _ => dep_bad_block
  end.
Definition MissingBlock (code : ProcessResult.t) : bool :=
  match ProcessResultToDependency code with
  | dep_progress | dep_not_applied | dep_bad_block => false
  | _ => true
  end.

(** Revoke and TokenSend reserve the user the tokens come from as well. *)
Definition needs_source (r : Request) : option TokenRequest :=
  match r with
  | RToken t =>
      match tr_body t with Revoke _ _ | TokenSend _ _ => Some t | _ => None end
  | _ => None
  end.

Section Validation.
Context {L : Lmdb} {B : Blake2b} {I : Indeterminate}.
Variable ENABLE_ELECTIONS : bool.
(** ConsensusContainer::ValidateSigConfig() && !request->VerifySignature(origin) *)
Variable bad_signature : Request -> bool.
Open Scope validation_scope.

(** The switch over the type of the request. *)
Definition ValidateBody (r : Request) (info : Account) (cur_epoch_num : Z)
  : M Ledger validation :=
  match r with
  | RSend _ => vret Valid
  | RGovernance g =>
      match info with
      | TokenAcct _ => vfail ProcessResult.invalid_account_type
      | UserAccount i =>
          in_store (RequestPersistence.ValidateRequest ENABLE_ELECTIONS g i cur_epoch_num)
      end
  | RClaim c => ValidateClaim c info
  | RToken t =>
      match tr_body t with
      | Issuance _ =>
          ex ← account_exists (tr_token_id t);
          vret (require (negb ex) ProcessResult.key_collision)
      | TokenSend _ _ => ValidateTokenTransfer t info
      | _ => ValidateTokenAdminRequest t info >>& ValidateTokenTransfer t info
      end
  end.

(** The check that the account has the Logos for the request, counting thawing
    funds that have expired. *)
Definition ValidateFunds (r : Request) (info : Account) (cur_epoch_num : Z)
  : M Ledger validation :=
  let short := ProcessResult.insufficient_balance in
  if Account_GetAvailableBalance info <? GetLogosTotal r then
    match info with
    | TokenAcct _ => vfail short
    | UserAccount i =>
        pruneable ← in_store (StakingManager.GetPruneableThawingAmount (rq_origin (base_of r)) i
                                cur_epoch_num);
        vret (require (GetLogosTotal r <=? amt_add (available_balance i) pruneable) short)
    end
  else vret Valid.

(** From the position of the request in its account's chain on. *)
Definition ValidateOnAccount (r : Request) (info : Account) (cur_epoch_num : Z)
    (allow_duplicates : bool) : M Ledger validation :=
  let hash := request_hash r in
  if negb (rq_previous (base_of r) =? Account_head info) then
    ex ← gets (request_exists hash);
    if (hash =? Account_head info) || ex then
      if allow_duplicates then vret Valid else vfail ProcessResult.old
    else vfail ProcessResult.fork
  else
    vret (require (Account_block_count info =? rq_sequence (base_of r))
            ProcessResult.wrong_sequence_number) >>&
    ValidateFunds r info cur_epoch_num >>&
    ValidateBody r info cur_epoch_num.

(** The reservations of the account and of the source. *)
Definition ValidateReservations (r : Request) (allow_duplicates : bool) (current_epoch : Z)
  : M Manager validation :=
  let hash := request_hash r in
  ok ← in_cache (CanAcquire (GetAccount r) hash allow_duplicates current_epoch);
  vret (require ok ProcessResult.already_reserved) >>&
  match needs_source r with
  | None => vret Valid
  | Some t =>
      ok ← in_cache (CanAcquire (GetTokenUserID (tr_token_id t) (GetSource t)) hash
                       allow_duplicates current_epoch);
      vret (require ok ProcessResult.already_reserved)
  end.

(** ValidateRequest(request, cur_epoch_num, result, allow_duplicates, prelim) *)
Definition ValidateRequest (r : Request) (cur_epoch_num current_epoch : Z)
    (allow_duplicates prelim : bool) : M Manager validation :=
  ex ← in_ledger (gets (request_exists (rq_previous (base_of r))));
  vret (require (prelim || (rq_previous (base_of r) =? 0) || ex) ProcessResult.gap_previous) >>&
  vret (require (negb (bad_signature r)) ProcessResult.bad_signature) >>&
  vret (Validate_alone r) >>&
  (known ← in_ledger (account_exists (rq_origin (base_of r)));
   vret (require known ProcessResult.unknown_origin)) >>&
  (i ← in_ledger (account_get (GetAccount r));
   match i with
   | None => vfail ProcessResult.invalid_token_id
   | Some info =>
       ValidateReservations r allow_duplicates current_epoch >>&
       if prelim then vret Valid
       else in_ledger (ValidateOnAccount r info cur_epoch_num allow_duplicates)
   end).

(** ValidateAndUpdate *)
Definition ValidateAndUpdate (r : Request) (cur_epoch_num current_epoch : Z)
    (allow_duplicates : bool) : M Manager validation :=
  ValidateRequest r cur_epoch_num current_epoch allow_duplicates false >>&
  (in_cache (UpdateReservation (request_hash r) (GetAccount r) current_epoch);;
   match needs_source r with
   | None => mret tt
   | Some t =>
       in_cache (UpdateReservation (request_hash r)
                   (GetTokenUserID (tr_token_id t) (GetSource t)) current_epoch)
   end;;
   vret Valid).

(** ValidateBatch: for every request whether it is rejected, and whether
    bootstrapping is asked for. [code] is what the last validation left in the
    result that all share; it is not initialised. *)
Fixpoint validate_batch (rs : list Request) (epoch_number current_epoch : Z)
    (code : option ProcessResult.t) : M Manager (list bool * bool) :=
  match rs with
  | [] => mret ([], false)
  | r :: rs =>
      v ← ValidateAndUpdate r epoch_number current_epoch true;
      let code := match v with
                  | Valid => Some ProcessResult.progress
                  | Invalid (Some c) => Some c
                  | Invalid None => code
                  end in
      rest ← validate_batch rs epoch_number current_epoch code;
      mret (match v with
            | Valid => (false :: rest.1, rest.2)
            | Invalid _ =>
                (true :: rest.1,
                 match code with Some c => MissingBlock c | None => indeterminate end || rest.2)
            end)
  end.
Definition ValidateBatch (rs : list Request) (epoch_number current_epoch : Z)
  : M Manager (list bool * bool) := validate_batch rs epoch_number current_epoch None.
End Validation.

(** ** Confirmed blocks *)
Definition GENESIS_EPOCH : Z := 2.
(** [request->locator = (hash, index)] *)
Definition set_locator (l : Locator) (b : RequestBase) : RequestBase :=
  Build_RequestBase (rq_origin b) (rq_previous b) (rq_fee b) (rq_sequence b) (rq_signature b)
    (rq_next b) l.
Definition locate (l : Locator) (r : Request) : Request :=
  match r with
  | RGovernance g =>
      RGovernance (Build_Governance (gr_origin g) (gr_previous g) (gr_fee g) (gr_sequence g)
                     (gr_signature g) (gr_next g) l (gr_epoch_num g)
                     (gr_governance_subchain_prev g) (gr_body g))
  | RSend s => RSend (Build_SendRequest (set_locator l (s_base s)) (s_transactions s))
  | RToken t => RToken (Build_TokenRequest (set_locator l (tr_base t)) (tr_token_id t) (tr_body t))
  | RClaim c => RClaim (Build_ClaimRequest (set_locator l (cl_base c)) (cl_epoch_hash c)
                          (cl_epoch_number c))
  end.
Definition locate_all (hash : BlockHash) (rs : list Request) : list Request :=
  imap (fun i r => locate (Build_Locator hash (wrap 16 (Z.of_nat i))) r) rs.

Section Blocks.
Context {L : Lmdb} {B : Blake2b}.
Variable now : Z.

(** The first request block of a delegate in an epoch is linked to the last one
    of the previous epoch, unless the epoch block has done so. *)
Definition link_epochs (committed : Ledger) (message : ApprovedRB) (hash : BlockHash)
  : M Ledger ApprovedRB :=
  if (rb_sequence message =? 0) && (GENESIS_EPOCH + 1 <? rb_epoch_number message) then
    match value_of epoch_number_stored committed with
    | None => halt "block_store::epoch_number_stored"
    | Some stored =>
        if u32 (stored + 1) =? rb_epoch_number message then
          match value_of (request_tip_get (rb_primary_delegate message)
                            (rb_epoch_number message)) committed with
          | Some (Some cur_tip) =>
              err ← request_block_update_next (digest cur_tip) hash;
              massert (negb err) "PersistenceManager<BSBCT>::StoreBatchMessage";;
              mret (set_rb_previous (digest cur_tip) message)
          | _ => halt "PersistenceManager<BSBCT>::StoreBatchMessage"
          end
        else mret message
    end
  else mret message.

(** StoreRequestBlock *)
Definition StoreRequestBlock (committed : Ledger) (message : ApprovedRB) (delegate_id : Z)
  : M Ledger unit :=
  let hash := ApprovedRB_Hash message in
  message ← link_epochs committed message hash;
  request_block_put message hash;;
  request_tip_put delegate_id (rb_epoch_number message)
    (Build_Tip (rb_epoch_number message) (rb_sequence message) (ApprovedRB_Hash message));;
  if rb_previous message =? 0 then mret tt
  else
    err ← request_block_update_next (rb_previous message) hash;
    massert (negb err) "PersistenceManager::StoreRequestBlock".

(** Release *)
Definition Release_request (r : Request) : M Manager unit :=
  in_cache (Release (GetAccount r) (request_hash r));;
  match needs_source r with
  | None => mret tt
  | Some t =>
      in_cache (Release (GetTokenUserID (tr_token_id t) (GetSource t)) (request_hash r))
  end.
Fixpoint Release_all (rs : list Request) : M Manager unit :=
  match rs with
  | [] => mret tt
  | r :: rs => Release_request r;; Release_all rs
  end.

(** ApplyUpdates: one transaction stores the block and applies its requests. *)
Definition ApplyUpdates (message : ApprovedRB) (delegate_id : Z) : M Manager unit :=
  let batch_hash := ApprovedRB_Hash message in
  exists_already ← in_ledger (request_block_exists message);
  if (exists_already : bool) then Release_all (rb_requests message)
  else
    let message := set_rb_requests (locate_all batch_hash (rb_requests message)) message in
    committed ← gets ledger;
    in_ledger (StoreRequestBlock committed message delegate_id;;
               ApplyRequestBlock now committed message);;
    Release_all (rb_requests message).
End Blocks.

