(* ===== verification/TokenSupply.v ===== *)
(** * The supply of a token

    The tokens that accounts hold, that the issuer has not distributed and that
    were paid as fees are together the total supply of the token; every request
    that the node validates keeps it so, with two exceptions that the theorems
    at the end exhibit. *)
From stdpp Require Import base list numbers strings ssreflect.
From S2P Require Import Prelude Serial Lmdb StakingTypes Requests Epochs BlockStore VotingPower AccountInfo Staking EpochRewards Governance Reservations TokenTypes TokenRequests TokenFormats Ledger Transfers RequestValidation.
Import ConsensusReservations.
Open Scope Z_scope.

(** What the entries of a user hold of a token. *)
Definition held_by (tok : BlockHash) (e : TokenEntry) : Z :=
  if te_token_id e =? tok then te_balance e else 0.
Definition holdings (tok : BlockHash) (es : list TokenEntry) : Z := sumZ (held_by tok) es.
(** What the account at [k] holds of the token [tok]. *)
Definition token_value (tok k : BlockHash) (a : Account) : Z :=
  match a with
  | UserAccount i => holdings tok (entries i)
  | TokenAcct t => if k =? tok then token_balance t + token_fee_balance t else 0
  end.
Definition account_supply (a : Account) : Z :=
  match a with UserAccount _ => 0 | TokenAcct t => total_supply t end.
Definition account_ok (a : Account) : Prop :=
  match a with
  | UserAccount i => Forall (fun e => 0 <= te_balance e) (entries i)
  | TokenAcct t =>
      0 <= token_balance t /\ 0 <= token_fee_balance t /\ in_width 128 (total_supply t)
  end.

Section Values.
Context {L : Lmdb} {LL : LmdbLaws L}.

Definition circulating (tok : BlockHash) (t : table Account) : Z :=
  sumZ (fun ka => token_value tok ka.1 ka.2) (mdb_items t).
Definition supply (tok : BlockHash) (t : table Account) : Z :=
  match mdb_get tok t with Some a => account_supply a | None => 0 end.
Definition value_at (tok k : BlockHash) (t : table Account) : Z :=
  match mdb_get k t with Some a => token_value tok k a | None => 0 end.

Definition accounts_ok (t : table Account) : Prop :=
  forall k a, mdb_get k t = Some a -> account_ok a.
(** Every token is backed. *)
Definition tokens_ok (t : table Account) : Prop :=
  accounts_ok t /\ forall tok, circulating tok t = supply tok t.

Lemma circulating_put tok k a t :
  circulating tok (mdb_put k a t)
  = circulating tok t - value_at tok k t + token_value tok k a.
Proof.
  rw /circulating /value_at items_put sumZ_cons. cbn [fst snd].
  destruct (mdb_get k t) as [a0|] eqn:E.
  - rw (items_del _ _ _ E) sumZ_cons. cbn [fst snd]. lia.
  - rw items_del_none //. lia.
Qed.
Lemma supply_put tok k a t :
  supply tok (mdb_put k a t) = if k =? tok then account_supply a else supply tok t.
Proof. rw /supply get_put. destruct (Z.eqb_spec k tok), (decide (k = tok)); naive_solver. Qed.
Lemma value_at_put tok k k' a t :
  value_at tok k' (mdb_put k a t) = if k =? k' then token_value tok k' a else value_at tok k' t.
Proof. rw /value_at get_put. destruct (Z.eqb_spec k k'), (decide (k = k')); naive_solver. Qed.
Lemma accounts_ok_put k a t : accounts_ok t -> account_ok a -> accounts_ok (mdb_put k a t).
Proof. intros Ht Ha k' a'. rw get_put. case_decide; [by intros [= <-]|apply Ht]. Qed.

Lemma holdings_nonneg tok es : Forall (fun e => 0 <= te_balance e) es -> 0 <= holdings tok es.
Proof.
  intros H. apply sumZ_nonneg. eapply Forall_impl; [exact H|]. intros e He.
  rw /held_by. by case_match.
Qed.
Lemma token_value_nonneg tok k a : account_ok a -> 0 <= token_value tok k a.
Proof.
  destruct a; cbn; [apply holdings_nonneg|]. intros (? & ? & ?). case_match; lia.
Qed.
Lemma value_at_nonneg tok k t : accounts_ok t -> 0 <= value_at tok k t.
Proof.
  intros Ht. rw /value_at. case_match eqn:E; [|done]. by eapply token_value_nonneg, Ht.
Qed.

(** The holdings of two accounts are part of what circulates. *)
Lemma circulating_del tok k t :
  circulating tok t = value_at tok k t + circulating tok (mdb_del k t).
Proof.
  rw /circulating /value_at. destruct (mdb_get k t) as [a|] eqn:E.
  - by rw (items_del _ _ _ E) sumZ_cons.
  - by rw items_del_none.
Qed.
Lemma value_at_del tok k k' t : k <> k' -> value_at tok k' (mdb_del k t) = value_at tok k' t.
Proof. intros Hk. by rw /value_at get_del_ne. Qed.
Lemma accounts_ok_del k t : accounts_ok t -> accounts_ok (mdb_del k t).
Proof. intros Ht k' a'. rw get_del. case_decide; [done|apply Ht]. Qed.
Lemma circulating_nonneg tok t : accounts_ok t -> 0 <= circulating tok t.
Proof.
  intros Ht. apply sumZ_nonneg, Forall_forall. intros [k a] Hk%items_get.
  by eapply token_value_nonneg, Ht.
Qed.
Lemma value_at_le tok k t : accounts_ok t -> value_at tok k t <= circulating tok t.
Proof.
  intros Ht. rw (circulating_del tok k).
  pose proof (circulating_nonneg tok _ (accounts_ok_del k t Ht)). lia.
Qed.
Lemma two_values_le tok k k' t :
  accounts_ok t -> k <> k' -> value_at tok k t + value_at tok k' t <= circulating tok t.
Proof.
  intros Ht Hk. rw (circulating_del tok k) -(value_at_del tok k k' t Hk).
  pose proof (value_at_le tok k' _ (accounts_ok_del k t Ht)). lia.
Qed.
Lemma supply_bound tok t : accounts_ok t -> 0 <= supply tok t < 2 ^ 128.
Proof.
  intros Ht. rw /supply. case_match eqn:E; [|done]. apply Ht in E. destruct a; cbn in *; [done|].
  apply E.
Qed.
End Values.

(** ** Entries *)
Lemma update_first_holdings tok id f es e :
  find_entry id es = Some e -> (forall x, te_token_id (f x) = te_token_id x) ->
  holdings tok (update_first (entry_is id) f es)
  = holdings tok es + (if id =? tok then te_balance (f e) - te_balance e else 0).
Proof.
  intros Hfind Hf. induction es as [|x es IH]; [done|]. move: Hfind. rw /find_entry /=.
  rw {1}/entry_is. destruct (Z.eqb_spec (te_token_id x) id) as [Hid|Hid].
  - intros [= ->]. rw /holdings !sumZ_cons /held_by Hf Hid. destruct (id =? tok); lia.
  - intros Hfind. rw /holdings !sumZ_cons -/(holdings tok _) -/(holdings tok es) IH //. lia.
Qed.
Lemma update_first_Forall {A} (P : A -> Prop) p f xs :
  Forall P xs -> (forall x, P x -> P (f x)) -> Forall P (update_first p f xs).
Proof.
  intros H Hf. induction H as [|x xs Hx Hxs IH]; cbn; [constructor|].
  destruct (p x); constructor; auto.
Qed.
Lemma find_entry_id id es e : find_entry id es = Some e -> te_token_id e = id /\ e ∈ es.
Proof.
  rw /find_entry. intros [Hin Hid]%List.find_some. split; [by apply Z.eqb_eq|].
  by apply list_elem_of_In.
Qed.
Lemma held_le tok es e :
  Forall (fun e => 0 <= te_balance e) es -> e ∈ es -> te_token_id e = tok ->
  te_balance e <= holdings tok es.
Proof.
  intros Hok (xs & ys & ->)%list_elem_of_split Hid.
  apply Forall_app in Hok as [H1 [H2 H3]%Forall_cons].
  rw /holdings sumZ_app sumZ_cons {2}/held_by Hid Z.eqb_refl.
  pose proof (holdings_nonneg tok xs H1). pose proof (holdings_nonneg tok ys H3).
  rw /holdings in H, H0. lia.
Qed.

(** ** What the parts of ApplyRequest do to the accounts *)

(** Accounts that agree in what they hold of every token. *)
Definition same_tokens (a a' : Account) : Prop :=
  match a, a' with
  | UserAccount i, UserAccount i' => entries i' = entries i
  | TokenAcct t, TokenAcct t' =>
      token_balance t' = token_balance t /\ token_fee_balance t' = token_fee_balance t /\
      total_supply t' = total_supply t
  | _, _ => False
  end.
#[global] Instance same_tokens_preorder : PreOrder same_tokens.
Proof. split; [by intros []|intros [] [] []; naive_solver congruence]. Qed.
Lemma same_tokens_value a a' tok k :
  same_tokens a a' -> token_value tok k a' = token_value tok k a.
Proof. destruct a, a'; cbn; [by intros ->|done..|]. intros (-> & -> & _). done. Qed.
Lemma same_tokens_supply a a' : same_tokens a a' -> account_supply a' = account_supply a.
Proof. destruct a, a'; cbn; [done..|]. by intros (_ & _ & ->). Qed.
Lemma same_tokens_ok a a' : same_tokens a a' -> account_ok a -> account_ok a'.
Proof. destruct a, a'; cbn; [by intros ->|done..|]. by intros (-> & -> & ->). Qed.
Lemma extend_same_tokens h n a : same_tokens a (Account_extend h n a).
Proof. by destruct a. Qed.
Lemma received_same_tokens h n a : same_tokens a (Account_received h n a).
Proof. by destruct a. Qed.

(** ** How other accounts develop while a request is applied

    The entries of [es] are still there in [es'] with no less, but for the
    tokens drawn on. *)
Definition entries_le (drawn : BlockHash -> bool) (es es' : list TokenEntry) : Prop :=
  forall tok e, drawn tok = false -> find_entry tok es = Some e ->
    exists e', find_entry tok es' = Some e' /\ te_balance e <= te_balance e'.
#[global] Instance entries_le_preorder drawn : PreOrder (entries_le drawn).
Proof.
  split; [by intros es tok e _ He; exists e|]. intros es1 es2 es3 H12 H23 tok e Hd He.
  destruct (H12 tok e Hd He) as (e2 & He2 & Hle). destruct (H23 tok e2 Hd He2) as (e3 & He3 & Hle').
  exists e3. split; [done|lia].
Qed.
Definition nothing_drawn (tok : BlockHash) : bool := false.
Lemma entries_le_weaken drawn es es' : entries_le nothing_drawn es es' -> entries_le drawn es es'.
Proof. intros H tok e _. by apply H. Qed.

(** A row of the table and what it becomes: accounts are created for users, the
    head stays, token accounts earn fees only, users lose no more than what is
    [drawn], and one that is not [involved] gets no tokens if it had none. *)
Definition row_le (drawn : BlockHash -> bool) (involved : bool) (o o' : option Account) : Prop :=
  match o, o' with
  | None, None => True
  | None, Some (UserAccount u') => involved = false -> forall tok, holdings tok (entries u') = 0
  | Some (UserAccount u), Some (UserAccount u') =>
      head u' = head u /\ entries_le drawn (entries u) (entries u') /\
      (involved = false -> (forall tok, holdings tok (entries u) = 0) ->
       forall tok, holdings tok (entries u') = 0)
  | Some (TokenAcct a), Some (TokenAcct a') =>
      ta_head a' = ta_head a /\ total_supply a' = total_supply a /\
      token_balance a' = token_balance a /\ token_fee_balance a <= token_fee_balance a'
  | _, _ => False
  end.
#[global] Instance row_le_preorder drawn involved : PreOrder (row_le drawn involved).
Proof.
  split.
  - intros [[u|a]|]; cbn; try split_and!; try done; reflexivity.
  - intros [[u1|a1]|] [[u2|a2]|] [[u3|a3]|]; cbn; try naive_solver.
    + intros (Hh & He & Hz) (Hh' & He' & Hz'). split_and!; [congruence|by etransitivity|auto].
    + intros (? & ? & ? & ?) (? & ? & ? & ?). split_and!; [congruence..|lia].
Qed.
Lemma row_le_weaken drawn involved o o' :
  row_le nothing_drawn false o o' -> row_le drawn involved o o'.
Proof.
  destruct o as [[|]|], o' as [[|]|]; cbn; try done; [|auto].
  intros (? & ? & ?). split_and!; [done|by apply entries_le_weaken|auto].
Qed.
Lemma row_le_involved drawn o o' : row_le drawn false o o' -> row_le drawn true o o'.
Proof. destruct o as [[|]|], o' as [[|]|]; cbn; naive_solver. Qed.
Lemma row_le_mono (d d' : BlockHash -> bool) involved o o' :
  (forall tok, d' tok = false -> d tok = false) ->
  row_le d involved o o' -> row_le d' involved o o'.
Proof.
  intros Hd. destruct o as [[|]|], o' as [[|]|]; cbn; try done.
  intros (? & He & ?). split_and!; [done| |done]. intros tok e Htok. by apply He, Hd.
Qed.
Lemma row_le_drawn drawn involved o o' :
  row_le nothing_drawn involved o o' -> row_le drawn involved o o'.
Proof. by apply row_le_mono. Qed.
(** The same tokens and the same head. *)
Definition same_row (a a' : Account) : Prop :=
  same_tokens a a' /\ Account_head a' = Account_head a.
#[global] Instance same_row_preorder : PreOrder same_row.
Proof.
  split; [by split|]. intros a b c [H1 H2] [H3 H4]. split; [by etransitivity|congruence].
Qed.
Lemma same_row_le a a' : same_row a a' -> row_le nothing_drawn false (Some a) (Some a').
Proof.
  intros [Ht Hh]. destruct a, a'; cbn in *; try done.
  - rw Ht. by split_and!.
  - destruct Ht as (-> & -> & ->). by split_and!.
Qed.
Lemma received_same_row h n a : same_row a (Account_received h n a).
Proof. by destruct a. Qed.

Lemma update_first_find tok id f es e :
  (forall x, te_token_id (f x) = te_token_id x) -> find_entry tok es = Some e ->
  find_entry tok (update_first (entry_is id) f es) = Some (if id =? tok then f e else e).
Proof.
  intros Hf. rw /find_entry. induction es as [|x es IH]; [done|]. cbn. rw {1}/entry_is.
  destruct (Z.eqb_spec (te_token_id x) tok) as [Hx|Hx].
  - intros [= ->]. destruct (Z.eqb_spec (te_token_id e) id) as [Hid|Hid]; cbn.
    + rw Hf Hx Z.eqb_refl. destruct (Z.eqb_spec id tok); congruence.
    + rw Hx Z.eqb_refl. destruct (Z.eqb_spec id tok); congruence.
  - intros He. destruct (Z.eqb_spec (te_token_id x) id) as [Hid|Hid]; cbn.
    + rw Hf. destruct (Z.eqb_spec (te_token_id x) tok); [done|].
      destruct (Z.eqb_spec id tok); [congruence|done].
    + destruct (Z.eqb_spec (te_token_id x) tok); [done|by apply IH].
Qed.

Section Parts.
Context {L : Lmdb} {LL : LmdbLaws L} {B : Blake2b}.

Definition same_accounts (l l' : Ledger) : Prop := account_db l' = account_db l.
#[global] Instance same_accounts_preorder : PreOrder same_accounts.
Proof. split; [done|intros ? ? ?; rw /same_accounts; congruence]. Qed.

Lemma frame_accounts {A} (R : relation Ledger) (m : M Ledger A) :
  preserves R m -> (forall l l', R l l' -> same_accounts l l') -> preserves same_accounts m.
Proof. intros Hm HR l. eapply wpg_mono; [apply Hm|]. intros ? l' ?. by apply HR. Qed.
Lemma in_store_accounts {A} (m : M Store A) : preserves same_accounts (in_store m).
Proof. apply (frame_accounts same_but_store); [auto with frame|by intros ? ? [? _]]. Qed.
Lemma PlaceReceive_accounts r t : preserves same_accounts (PlaceReceive r t).
Proof. apply (frame_accounts same_but_receives); [auto with frame|by intros ? ? (_ & ? & _)]. Qed.
Lemma token_user_status_del_accounts id : preserves same_accounts (token_user_status_del id).
Proof. rw /token_user_status_del. solve_frame. Qed.
Lemma any_request_get_accounts h : preserves same_accounts (any_request_get h).
Proof. rw /any_request_get. solve_frame. Qed.
Lemma token_user_status_put_accounts id s : preserves same_accounts (token_user_status_put id s).
Proof. rw /token_user_status_put. solve_frame. Qed.
End Parts.
#[export] Hint Resolve in_store_accounts PlaceReceive_accounts token_user_status_del_accounts
  token_user_status_put_accounts any_request_get_accounts : frame.

(** Claims touch the pools of rewards only. *)
Section Claims.
Context {L : Lmdb} {LL : LmdbLaws L} {B : Blake2b}.
Lemma claim_one_accounts b r st c q e : preserves same_accounts (claim_one b r st c q e).
Proof. rw /claim_one /init_reward. solve_frame. Qed.
Lemma claim_epochs_accounts b r st c es : forall q,
  preserves same_accounts (claim_epochs b r st c q es).
Proof.
  induction es as [|e es IH]; intros q; cbn [claim_epochs]; [apply preserves_ret; apply _|].
  apply preserves_bind; [apply _|apply claim_one_accounts|done].
Qed.
Lemma claim_walk_accounts o c fuel : forall h st, preserves same_accounts (claim_walk fuel o c h st).
Proof.
  induction fuel as [|fuel IH]; intros h st; cbn [claim_walk]; [solve_frame|].
  pose proof claim_epochs_accounts. rw /claim_request. repeat frame_step; auto.
Qed.
Lemma ProcessClaim_accounts c i : preserves same_accounts (ProcessClaim c i).
Proof. pose proof claim_walk_accounts. rw /ProcessClaim. repeat frame_step; auto. Qed.
End Claims.

(** Every result of [m] satisfies [P]. *)
Definition returns {S A} (P : A -> Prop) (m : M S A) : Prop := forall s, wlp m (fun a _ => P a) s.
Section Returns.
Context {S : Type}.
Lemma returns_ret {A} (P : A -> Prop) (a : A) : P a -> returns P (mret (M := M S) a).
Proof. by intros ? s. Qed.
Lemma returns_halt {A} (P : A -> Prop) why : returns P (halt (S := S) why).
Proof. by intros s. Qed.
Lemma returns_any {A} (m : M S A) : returns (fun _ => True) m.
Proof. intros s. rw /wpg. by destruct (m s) as [[]|]. Qed.
Lemma returns_bind {A C} (Q : A -> Prop) (P : C -> Prop) (m : M S A) (f : A -> M S C) :
  returns Q m -> (forall a, Q a -> returns P (f a)) -> returns P (m ≫= f).
Proof.
  intros Hm Hf s. apply wpg_bind. eapply wpg_mono; [apply Hm|]. intros a s' Ha. by apply Hf.
Qed.
Lemma returns_frame {A} (R : relation S) (P : A -> Prop) (m : M S A) s :
  returns P m -> preserves R m -> wlp m (fun a s' => P a /\ R s s') s.
Proof. intros Hm HR. apply wpg_frame; [done|apply Hm]. Qed.
End Returns.
(** Walks through a computation whose intermediate results do not matter. *)
Ltac returns_step :=
  lazymatch goal with
  | |- returns _ (mret _) => apply returns_ret
  | |- returns _ (halt _) => apply returns_halt
  | |- returns _ (_ ≫= _) => apply (returns_bind (fun _ => True)); [apply returns_any|intros ? _]
  | |- returns _ (if ?b then _ else _) => destruct b
  | |- returns _ (match ?x with _ => _ end) => destruct x
  end.

Section Balances.
Context {L : Lmdb} {LL : LmdbLaws L} {B : Blake2b}.

Lemma SetBalance_row i b e :
  returns (fun i' => entries i' = entries i /\ head i' = head i) (SetBalance i b e).
Proof. rw /SetBalance. by repeat returns_step. Qed.
Lemma SetAvailableBalance_entries i b e :
  returns (fun i' => entries i' = entries i) (SetAvailableBalance i b e).
Proof. rw /SetAvailableBalance. by repeat returns_step. Qed.
Lemma PruneThawing_entries o i e :
  returns (fun i' => entries i' = entries i) (StakingManager.PruneThawing o i e).
Proof.
  rw /StakingManager.PruneThawing. returns_step; [by returns_step|]. returns_step.
  exact (SetAvailableBalance_entries _ _ _).
Qed.

Lemma in_store_returns {A} (P : A -> Prop) (m : M Store A) : returns P m -> returns P (in_store m).
Proof. intros Hm l. apply in_store_wpg. apply Hm. Qed.

Lemma Account_SetBalance_ok a b e l :
  wlp (Account_SetBalance a b e) (fun a' l' => same_row a a' /\ same_accounts l l') l.
Proof.
  apply returns_frame.
  - destruct a; cbn; [|by apply returns_ret].
    eapply returns_bind; [apply in_store_returns, SetBalance_row|].
    intros i' [Hi Hh]. by apply returns_ret.
  - destruct a; cbn; solve_frame.
Qed.

Lemma tether_ok tokid user i l :
  wlp (tether tokid user i) (fun i' l' =>
    same_accounts l l' /\ (exists e, find_entry tokid (entries i') = Some e /\
      te_balance e = default 0 (te_balance <$> find_entry tokid (entries i))) /\
    (forall tok, holdings tok (entries i') = holdings tok (entries i)) /\
    (account_ok (UserAccount i) -> account_ok (UserAccount i')) /\
    head i' = head i /\ entries_le nothing_drawn (entries i) (entries i')) l.
Proof.
  assert (Hnew : forall s, find_entry tokid (entries i) = None ->
    let i' := set_entries (entries i ++ [Build_TokenEntry tokid s 0]) i in
    (exists e, find_entry tokid (entries i') = Some e /\ te_balance e = 0) /\
    (forall tok, holdings tok (entries i') = holdings tok (entries i)) /\
    (account_ok (UserAccount i) -> account_ok (UserAccount i')) /\
    head i' = head i /\ entries_le nothing_drawn (entries i) (entries i')).
  { intros s Hn i'. split_and!.
    - exists (Build_TokenEntry tokid s 0). split; [|done]. cbn [i' set_entries entries].
      move: Hn. rw /find_entry. induction (entries i) as [|x es IH]; cbn.
      + by rw Z.eqb_refl.
      + destruct (te_token_id x =? tokid); [done|apply IH].
    - intros tok. cbn [i' set_entries entries]. rw /holdings sumZ_app sumZ_cons /held_by /=.
      case_match; lia.
    - cbn. intros Hok. apply Forall_app. by repeat constructor.
    - done.
    - intros tok e _ He. exists e. split; [|done]. cbn [i' set_entries entries].
      move: He. rw /find_entry. induction (entries i) as [|x es IH]; [done|]. cbn.
      destruct (te_token_id x =? tok); [done|]. apply IH. move: Hn. rw /find_entry /=.
      by destruct (te_token_id x =? tokid). }
  rw /tether. destruct (find_entry tokid (entries i)) as [e|] eqn:E.
  { apply wpg_ret. split_and!; [done|by exists e|done..]. }
  apply wpg_bind, wpg_gets. destruct (mdb_get _ _) as [s|].
  - apply wpg_bind. eapply wpg_mono; [apply token_user_status_del_accounts|]. intros err l1 Hl1.
    apply wpg_bind, wpg_massert; [|done]. intros _. apply wpg_ret.
    split; [done|]. by apply Hnew.
  - apply wpg_ret. split; [done|]. by apply Hnew.
Qed.
End Balances.

(** ** Transfers *)
Section Sends.
Context {L : Lmdb} {LL : LmdbLaws L} {B : Blake2b}.
Variable now : Z.

(** The account that a transfer is credited to: the stored one or a new one. *)
Definition is_user (info : option Account) : Prop :=
  match info with Some (TokenAcct _) => False | _ => True end.
Definition user_entries (info : option Account) : list TokenEntry :=
  match info with Some (UserAccount i) => entries i | _ => [] end.

Lemma credit_ok tokid amount i e :
  find_entry tokid (entries i) = Some e -> account_ok (UserAccount i) ->
  0 <= amount -> te_balance e + amount < 2 ^ 128 ->
  let i' := update_entry tokid
    (fun e => set_te_balance (amt_add (te_balance e) amount) e) i in
  account_ok (UserAccount i') /\
  (forall tok, holdings tok (entries i')
              = holdings tok (entries i) + (if tokid =? tok then amount else 0)) /\
  entries_le nothing_drawn (entries i) (entries i').
Proof.
  intros He Hok Ha Hb i'. pose proof (find_entry_id _ _ _ He) as [_ Hin].
  assert (0 <= te_balance e) by (by eapply Forall_forall in Hok). split_and!.
  - cbn. apply update_first_Forall; [done|]. intros x _. apply amt_add_width.
  - intros tok. cbn [i' update_entry set_entries entries].
    rw (update_first_holdings _ _ _ _ e) //. cbn [set_te_balance te_balance].
    rw amt_add_small; [|lia]. case_match; lia.
  - intros tok x _ Hx. eexists. split; [by apply update_first_find|].
    destruct (Z.eqb_spec tokid tok) as [->|]; [|done]. assert (x = e) as -> by congruence.
    cbn. rw amt_add_small; lia.
Qed.

Lemma ApplySend_to_tokens send ts h tokid origin epoch info idx l :
  tokid <> 0 -> match info with Some a => account_ok a | None => True end ->
  0 <= t_amount send -> holdings tokid (user_entries info) + t_amount send < 2 ^ 128 ->
  wlp (ApplySend_to now send ts h tokid origin epoch info idx) (fun a' l' =>
    same_accounts l l' /\ is_user info /\ account_ok a' /\
    row_le nothing_drawn true info (Some a') /\
    exists i', a' = UserAccount i' /\
      forall tok, holdings tok (entries i')
        = holdings tok (user_entries info) + (if tokid =? tok then t_amount send else 0)) l.
Proof.
  intros Hid Hok Ha Hb. rw /ApplySend_to. apply wpg_bind.
  eapply (wpg_mono _ _ (fun a l' => same_accounts l l' /\ account_ok a /\
    (is_user info -> exists i, a = UserAccount i /\ entries i = user_entries info /\
       forall i0, info = Some (UserAccount i0) -> i = i0) /\
    (~ is_user info -> exists t, a = TokenAcct t))).
  { destruct info as [a|].
    - apply wpg_ret. split_and!; [done..| |]; destruct a; cbn; naive_solver.
    - apply wpg_bind, wpg_gets. destruct (mdb_get _ _); [|done]. apply wpg_ret.
      split_and!; [done|constructor|by eexists|by intros []]. }
  intros a l1 (Hl1 & Hoka & Huser & Htok). destruct (Z.eqb_spec tokid 0); [done|].
  apply wpg_bind. destruct a as [i|t]; cbn [Account_received]; [|done].
  assert (Hu : is_user info).
  { destruct (info) as [[|]|]; [done| |done]. destruct Htok as [? ?]; [by intros []|done]. }
  destruct (Huser Hu) as (i0 & [= <-] & Hent & Hinfo). apply wpg_bind.
  eapply wpg_mono; [apply tether_ok|].
  intros i1 l2 (Hl2 & (e & He & Hbal) & Hhold & Hok1 & Hhead & Hle).
  apply wpg_ret. cbn beta. apply wpg_bind. eapply wpg_mono; [apply PlaceReceive_accounts|].
  intros ? l3 Hl3. apply wpg_ret.
  assert (Hoki : account_ok (UserAccount i1)) by by apply Hok1.
  assert (Hbe : te_balance e + t_amount send < 2 ^ 128).
  { pose proof (find_entry_id _ _ _ He) as [Heid Hin].
    pose proof (held_le tokid (entries i1) e Hoki Hin Heid).
    rw Hhold /= Hent in H. lia. }
  destruct (credit_ok tokid (t_amount send) i1 e He Hoki Ha Hbe) as (Hok' & Hh' & Hle').
  split_and!; [by rw /same_accounts Hl3 Hl2 Hl1|done|done| |].
  { destruct info as [[i0|]|]; [|done..]. rw (Hinfo i0 eq_refl) in Hhead Hle.
    cbn. split_and!; [done|by etransitivity|done]. }
  eexists. split; [done|]. intros tok. by rw Hh' Hhold /= Hent.
Qed.

Lemma ApplySend_one_tokens send ts h tokid origin epoch idx l :
  tokid <> 0 -> accounts_ok (account_db l) -> 0 <= t_amount send ->
  (is_user (mdb_get (destination send) (account_db l)) ->
   value_at tokid (destination send) (account_db l) + t_amount send < 2 ^ 128) ->
  wlp (ApplySend_one now send ts h tokid origin epoch idx) (fun _ l' =>
    accounts_ok (account_db l') /\ is_user (mdb_get (destination send) (account_db l)) /\
    (forall tok, circulating tok (account_db l') = circulating tok (account_db l)
                   + (if tokid =? tok then t_amount send else 0)) /\
    (forall tok, supply tok (account_db l') = supply tok (account_db l)) /\
    (forall k, k <> destination send ->
       mdb_get k (account_db l') = mdb_get k (account_db l)) /\
    row_le nothing_drawn true (mdb_get (destination send) (account_db l))
      (mdb_get (destination send) (account_db l'))) l.
Proof.
  intros Hid Hok Ha Hb. rw /ApplySend_one. apply wpg_bind, wpg_gets. apply wpg_bind.
  set (info := mdb_get (destination send) (account_db l)) in *.
  assert (Hval : is_user info -> forall tok,
    value_at tok (destination send) (account_db l) = holdings tok (user_entries info)).
  { intros Hu tok. rw /value_at -/info. by destruct info as [[]|]. }
  assert (is_user info \/ ~ is_user info) as [Hu|Hu]
    by (destruct info as [[]|]; cbn; auto).
  2: { (* the token account cannot be credited *)
    destruct info as [[i|t]|] eqn:E; [by destruct Hu| |by destruct Hu].
    rw /ApplySend_to. apply wpg_bind. apply wpg_ret. apply wpg_bind. cbn [Account_received].
    by destruct (Z.eqb_spec tokid 0). }
  eapply wpg_mono; [apply ApplySend_to_tokens; [done| |done|]|].
  { destruct info eqn:E; [by eapply Hok|done]. }
  { rw -Hval //. by apply Hb. }
  intros a' l1 (Hl1 & _ & Hoka & Hrow & i' & -> & Hh). apply wpg_bind, wpg_ret, wpg_modify.
  cbn [set_account_db account_db]. rw Hl1. split_and!.
  - by apply accounts_ok_put.
  - done.
  - intros tok. rw circulating_put Hval //. cbn [token_value]. rw Hh. lia.
  - intros tok. rw supply_put. destruct (Z.eqb_spec (destination send) tok) as [<-|]; [|done].
    cbn. rw /supply -/info. by destruct info as [[]|].
  - intros k Hk. by rw get_put_ne.
  - by rw get_put_eq.
Qed.

(** Who gets the tokens of [ts]. *)
Definition receives (ts : list Transaction) (k : AccountAddress) : bool :=
  existsb (fun t => destination t =? k) ts.

(** The loop of a TokenSend, none of whose destinations is [k]. *)
Lemma ApplySend_all_tokens k tokid h origin epoch tstamp ts : forall idx l,
  tokid <> 0 -> accounts_ok (account_db l) -> Forall (fun t => 0 <= t_amount t) ts ->
  Forall (fun t => destination t <> k) ts ->
  circulating tokid (account_db l) - value_at tokid k (account_db l) + sumZ t_amount ts
    < 2 ^ 128 ->
  wlp (ApplySend_all now false ts tstamp h tokid origin epoch idx) (fun _ l' =>
    accounts_ok (account_db l') /\
    (forall tok, circulating tok (account_db l') = circulating tok (account_db l)
                   + (if tokid =? tok then sumZ t_amount ts else 0)) /\
    (forall tok, supply tok (account_db l') = supply tok (account_db l)) /\
    mdb_get k (account_db l') = mdb_get k (account_db l) /\
    forall k', row_le nothing_drawn (receives ts k') (mdb_get k' (account_db l))
                 (mdb_get k' (account_db l'))) l.
Proof.
  induction ts as [|t ts IH]; intros idx l Hid Hok Ha Hk Hb; cbn [ApplySend_all].
  { apply wpg_ret. split_and!; [done| |done..]. intros tok. cbn. case_match; lia. }
  apply Forall_cons in Ha as [Ha Has]. apply Forall_cons in Hk as [Hk Hks].
  rw sumZ_cons in Hb. pose proof (sumZ_nonneg t_amount ts Has) as Hs. cbn [andb].
  apply wpg_bind. eapply wpg_mono; [apply ApplySend_one_tokens; [done..|]|].
  { intros _. pose proof (two_values_le tokid k (destination t) _ Hok (not_eq_sym Hk)). lia. }
  intros ? l1 (Hok1 & _ & Hc1 & Hs1 & Hg1 & Hrow1).
  assert (Hgk : mdb_get k (account_db l1) = mdb_get k (account_db l)) by (apply Hg1; congruence).
  eapply wpg_mono; [apply IH; try done|].
  { rw Hc1 Z.eqb_refl. assert (value_at tokid k (account_db l1) = value_at tokid k (account_db l))
      as -> by by rw /value_at Hgk. lia. }
  intros ? l2 (Hok2 & Hc2 & Hs2 & Hg2 & Hrow2). split_and!; [done| | |by rw Hg2|].
  - intros tok. rw Hc2 Hc1 sumZ_cons. case_match; lia.
  - intros tok. by rw Hs2.
  - intros k'. specialize (Hrow2 k'). cbn [receives existsb]. rw -/(receives ts k').
    destruct (Z.eqb_spec (destination t) k') as [<-|Hne]; cbn [orb].
    + etransitivity; [exact Hrow1|]. by destruct (receives ts _); [|eapply row_le_involved].
    + by rw Hg1 // in Hrow2; apply not_eq_sym.
Qed.
End Sends.

(** ** Operations that move no tokens *)
Section Kept.
Context {L : Lmdb} {LL : LmdbLaws L} {B : Blake2b}.
Variable now : Z.

Definition tokens_kept (l l' : Ledger) : Prop :=
  (accounts_ok (account_db l) -> accounts_ok (account_db l')) /\
  (forall tok, circulating tok (account_db l') = circulating tok (account_db l)) /\
  (forall tok, supply tok (account_db l') = supply tok (account_db l)) /\
  (forall tok k, value_at tok k (account_db l') = value_at tok k (account_db l)) /\
  (forall k, row_le nothing_drawn false (mdb_get k (account_db l)) (mdb_get k (account_db l'))).
#[global] Instance tokens_kept_preorder : PreOrder tokens_kept.
Proof.
  split; [done|].
  intros l1 l2 l3 (Ho & Hc & Hs & Hv & Hr) (Ho' & Hc' & Hs' & Hv' & Hr').
  rw /tokens_kept. split_and!; auto; intros.
  1-3: congruence.
  etransitivity; [apply Hr|apply Hr'].
Qed.
Lemma kept_accounts {A} (m : M Ledger A) : preserves same_accounts m -> preserves tokens_kept m.
Proof.
  intros Hm l. eapply wpg_mono; [apply Hm|]. intros a l' Hl. by rw /tokens_kept Hl.
Qed.

(** Storing an account that holds the same tokens, or a new one with none. *)
Definition same_or_new (o : option Account) (a : Account) : Prop :=
  match o with
  | Some a0 => same_row a0 a
  | None => same_tokens (UserAccount (new_account 0)) a
  end.
Lemma kept_put k a l :
  same_or_new (mdb_get k (account_db l)) a ->
  tokens_kept l (set_account_db (mdb_put k a (account_db l)) l).
Proof.
  intros Hrow. rw /tokens_kept. cbn [set_account_db account_db].
  assert (Ha : same_tokens (default (UserAccount (new_account 0)) (mdb_get k (account_db l))) a).
  { move: Hrow. rw /same_or_new. by destruct (mdb_get k _); [intros [? _]|]. }
  assert (Hv : forall tok, token_value tok k a = value_at tok k (account_db l)).
  { intros tok. rw /value_at. destruct (mdb_get k _) as [a0|];
      rw (same_tokens_value _ _ tok k Ha) //. }
  split_and!.
  - intros Hok. apply accounts_ok_put; [done|]. destruct (mdb_get k _) as [a0|] eqn:E.
    + eapply same_tokens_ok; [exact Ha|by eapply Hok].
    + eapply same_tokens_ok; [exact Ha|constructor].
  - intros tok. rw circulating_put Hv. lia.
  - intros tok. rw supply_put. destruct (Z.eqb_spec k tok) as [<-|]; [|done].
    rw /supply. destruct (mdb_get k _) as [a0|]; by rw (same_tokens_supply _ _ Ha).
  - intros tok k'. rw value_at_put. destruct (Z.eqb_spec k k') as [<-|]; [apply Hv|done].
  - intros k'. rw get_put. case_decide as Hk; [subst k'|done].
    destruct (mdb_get k _) as [a0|]; [by apply same_row_le|].
    destruct a; [|done]. cbn in *. intros _ tok. by rw Ha.
Qed.

Lemma account_put_kept k a l :
  same_or_new (mdb_get k (account_db l)) a ->
  wlp (account_put k a) (fun _ l' => tokens_kept l l') l.
Proof.
  intros Ha. rw /account_put. apply wpg_bind. eapply (wpg_mono _ _ (fun _ l' => l' = l)).
  - destruct a; [by apply wpg_ret|]. by apply wpg_massert.
  - intros ? l' ->. apply wpg_modify. by apply kept_put.
Qed.

Lemma ApplySend_to_logos send ts h origin epoch info idx l :
  wlp (ApplySend_to now send ts h 0 origin epoch info idx) (fun a' l' =>
    same_accounts l l' /\ same_or_new info a') l.
Proof.
  rw /ApplySend_to. apply wpg_bind.
  eapply (wpg_mono _ _ (fun a l' => same_accounts l l' /\ same_or_new info a)).
  { destruct info; [by apply wpg_ret|]. apply wpg_bind, wpg_gets.
    by destruct (mdb_get _ _); [apply wpg_ret|]. }
  intros a l1 [Hl1 Ha]. cbn [Z.eqb]. apply wpg_bind.
  eapply wpg_mono; [apply Account_SetBalance_ok|]. intros a' l2 [Ha' Hl2].
  apply wpg_bind. eapply wpg_mono; [apply PlaceReceive_accounts|].
  intros ? l3 Hl3. apply wpg_ret. split; [by rw /same_accounts Hl3 Hl2 Hl1|].
  rw /same_or_new. destruct info; (etransitivity; [exact Ha|]);
    (etransitivity; [apply received_same_row|exact Ha' || apply Ha']).
Qed.
Lemma ApplySend_one_logos send ts h origin epoch idx :
  preserves tokens_kept (ApplySend_one now send ts h 0 origin epoch idx).
Proof.
  intros l. rw /ApplySend_one. apply wpg_bind, wpg_gets. apply wpg_bind.
  eapply wpg_mono; [apply ApplySend_to_logos|]. intros a' l1 [Hl1 Ha].
  eapply wpg_mono; [apply account_put_kept|].
  - by rw Hl1.
  - intros ? l2 Hl2. by rw /tokens_kept Hl1 in Hl2.
Qed.
Lemma ApplySend_all_logos skip h origin epoch tstamp ts : forall idx,
  preserves tokens_kept (ApplySend_all now skip ts tstamp h 0 origin epoch idx).
Proof.
  induction ts as [|t ts IH]; intros idx; cbn [ApplySend_all]; [apply preserves_ret; apply _|].
  destruct (skip && _); [apply IH|]. apply preserves_bind; [apply _|apply ApplySend_one_logos|].
  intros _. apply IH.
Qed.
End Kept.
