(* ===== verification/TokenEntries.v ===== *)
(** * Governance and the tokens of an account

    Staking and governance requests return the account they are given with the
    same token entries: every operation of StakingManager and LiabilityManager
    that returns an account, and RequestPersistence.ApplyRequest. *)
From stdpp Require Import base list numbers strings ssreflect.
From S2P Require Import Prelude Lmdb StakingTypes Requests Epochs BlockStore Liabilities VotingPower AccountInfo Staking Governance TokenTypes TokenRequests Ledger Transfers TokenSupply.
Import LiabilityManager StakingManager RequestPersistence.
Open Scope Z_scope.

(** Every account [m] returns, the part [account_of] of its result, has the
    entries of [i]. *)
Definition keeps_entries {S A} (i : account_info) (account_of : A -> account_info) (m : M S A)
  : Prop := returns (fun a => entries (account_of a) = entries i) m.

Section Staking.
Context {L : Lmdb} {B : Blake2b}.

Lemma iterate_returns {S X A} (P : A -> Prop) (f : A -> X -> M S (A * bool)) xs : forall a,
  P a -> (forall a x, P a -> returns (fun r => P r.1) (f a x)) -> returns P (iterate f a xs).
Proof.
  induction xs as [|x xs IH]; intros a Ha Hf; cbn [iterate]; [by apply returns_ret|].
  eapply returns_bind; [by apply Hf|]. intros [a' []] Ha'; cbn in *; [by apply IH|].
  by apply returns_ret.
Qed.

Lemma PruneSecondary_entries o i e :
  keeps_entries i id (PruneSecondaryLiabilities o i e).
Proof. rw /keeps_entries /PruneSecondaryLiabilities. by repeat returns_step. Qed.
Lemma CreateSecondary_entries t s a x i e :
  keeps_entries i snd (CreateSecondaryLiability t s a x i e).
Proof.
  rw /keeps_entries /CreateSecondaryLiability. returns_step.
  eapply returns_bind; [apply PruneSecondary_entries|]. intros i' Hi. by repeat returns_step.
Qed.
Lemma Extract_entries {T R} `{!Funds T, !Funds R} (input : T) (output : R) a o i e :
  keeps_entries i snd (Extract input output a o i e).
Proof.
  rw /keeps_entries /Extract.
  eapply (returns_bind (fun r => entries r.2 = entries i)).
  - returns_step; [|by apply returns_ret]. returns_step; [by apply returns_ret|].
    apply CreateSecondary_entries.
  - intros r Hr. by repeat returns_step.
Qed.
Lemma StakeAvailable_entries out a o i e :
  keeps_entries i snd (StakeAvailableFunds out a o i e).
Proof.
  rw /keeps_entries /StakeAvailableFunds. returns_step; [returns_step|].
  eapply returns_bind; [apply SetAvailableBalance_entries|]. intros i' Hi. by returns_step.
Qed.
Lemma BeginThawing_entries o i e c a : keeps_entries i snd (BeginThawing o i e c a).
Proof.
  rw /keeps_entries /BeginThawing. returns_step.
  eapply returns_bind; [apply Extract_entries|]. intros [[[? ?] ?] i'] Hi. by repeat returns_step.
Qed.
Lemma ReduceStake_entries o i e c a : keeps_entries i snd (ReduceStake o i e c a).
Proof. rw /keeps_entries /ReduceStake. returns_step. apply BeginThawing_entries. Qed.
Lemma ChangeTarget_entries o i e c t a : keeps_entries i snd (ChangeTarget o i e c t a).
Proof.
  rw /keeps_entries /ChangeTarget. do 2 returns_step.
  eapply returns_bind; [apply Extract_entries|]. intros [[[? ?] ?] i'] Hi. returns_step.
  eapply (returns_bind (fun i'' => entries i'' = entries i)).
  - returns_step; [|by returns_step]. eapply returns_bind; [apply BeginThawing_entries|].
    intros [? i''] Hi''. apply returns_ret. cbn in *. by rw Hi''.
  - intros i'' Hi''. by returns_step.
Qed.
Lemma extract_thawing_entries o e i st t :
  entries st.2 = entries i ->
  returns (fun r => entries r.1.2 = entries i) (extract_thawing o e st t).
Proof.
  destruct st as [[? ?] i']. intros Hi. rw /extract_thawing.
  eapply returns_bind; [apply Extract_entries|]. intros [[[? ?] ?] i''] Hi''.
  apply returns_ret. cbn in *. by rw Hi''.
Qed.
Lemma fill_stake_entries o i t e c a : keeps_entries i id (fill_stake o i t e c a).
Proof.
  rw /keeps_entries /fill_stake. eapply (returns_bind (fun i' => entries i' = entries i)).
  { rw /UpdateRep. by repeat returns_step. }
  intros i1 Hi1. eapply (returns_bind (fun r => entries r.2 = entries i)).
  - returns_step; [|by returns_step]. returns_step.
    eapply (returns_bind (fun st => entries st.2 = entries i)).
    + rw /ProcessThawingFunds. returns_step. apply iterate_returns; [done|].
      intros st x. apply extract_thawing_entries.
    + intros [[? ?] i2] Hi2. cbn in Hi2. returns_step; [|by returns_step].
      intros s1. eapply wpg_mono; [apply StakeAvailable_entries|]. intros ? ? ->. done.
  - intros [? i2] Hi2. by repeat returns_step.
Qed.
Lemma Stake_entries o i a t e : keeps_entries i id (Stake o i a t e).
Proof.
  rw /keeps_entries /Stake. returns_step. returns_step.
  - returns_step.
    + eapply returns_bind; [apply ChangeTarget_entries|]. intros [[? ?] i'] Hi. cbn in Hi.
      returns_step; [by repeat returns_step|]. intros s'.
      eapply wpg_mono; [apply fill_stake_entries|]. intros ? ? ->. done.
    + returns_step; [|apply fill_stake_entries].
      eapply returns_bind; [apply ReduceStake_entries|]. intros [? i'] Hi. by returns_step.
  - do 4 returns_step. apply fill_stake_entries.
Qed.

Lemma apply_stake_entries g i i0 :
  entries i = entries i0 -> keeps_entries i0 id (apply_stake g i).
Proof.
  intros Hi. rw /keeps_entries /apply_stake. destruct (stake_fields _) as [[] a].
  - intros s1. eapply wpg_mono; [apply Stake_entries|]. intros ? ? ->. done.
  - by returns_step.
Qed.

(** A governance request leaves the token entries of its account as they are. *)
Lemma governance_entries g i : keeps_entries i id (ApplyRequest g i).
Proof.
  rw /keeps_entries /ApplyRequest. case_match; rw /ApplyProxy /ApplyUnstake /ApplyStake
    /ApplyElectionVote /ApplyAnnounceCandidacy /ApplyRenounceCandidacy /ApplyStartRepresenting
    /ApplyStopRepresenting.
  all: repeat first
    [ apply apply_stake_entries; done
    | eapply returns_bind; [apply Stake_entries|intros ? ?]
    | exact (Stake_entries _ (with_head g i) _ _ _)
    | returns_step ]; done.
Qed.
End Staking.
