(* ===== verification/TokenConservation.v ===== *)
(** * Requests conserve the supply of tokens

    What a validated request guarantees of the balances it will draw on
    ([backed]), and that ApplyRequest, given that much, keeps every token backed
    ([tokens_ok]): what accounts hold, what is not distributed and the fees
    collected are the total supply. *)
From stdpp Require Import base list numbers strings ssreflect.
From S2P Require Import Prelude Serial Lmdb StakingTypes Requests Epochs BlockStore VotingPower AccountInfo Staking EpochRewards Governance Reservations TokenTypes TokenRequests TokenFormats Ledger Transfers RequestValidation TokenSupply TokenEntries.
Import ConsensusReservations.
Open Scope Z_scope.

(** ** What validation establishes *)
Section Backed.
Context {L : Lmdb}.

(** The account at [k] has [n] of the token [tok]; without an account, none. *)
Definition covers (tok k : BlockHash) (n : Amount) (t : table Account) : Prop :=
  n = 0 \/ exists u e, mdb_get k t = Some (UserAccount u) /\
    find_entry tok (entries u) = Some e /\ n <= te_balance e.

(** The balances a token request draws on, and the type of its account. The
    account of a token to be issued does not exist, or has been opened by a
    payment in Logos since. *)
Definition backed (r : Request) (t : table Account) : Prop :=
  match r with
  | RToken q =>
      let tok := tr_token_id q in
      tok <> 0 /\
      match tr_body q with
      | Issuance i =>
          rq_origin (tr_base q) <> tok /\ is_user (mdb_get tok t) /\
          forall tok', value_at tok' tok t = 0
      | TokenSend ts fee => covers tok (rq_origin (tr_base q)) (GetTokenTotal r) t
      | b =>
          exists a, mdb_get tok t = Some (TokenAcct a) /\
          match b with
          | IssueAdditional amount => total_supply a + amount < 2 ^ 128
          | Burn amount => amount <= token_balance a
          | Distribute x => t_amount x <= token_balance a
          | WithdrawFee x => t_amount x <= token_fee_balance a
          | Revoke source x => covers tok source (t_amount x) t
          | _ => True
          end
      end
  | _ => True
  end.

(** A TokenSend whose amounts and fee add up without wrapping and that sends
    nothing to its own origin. *)
Definition safe (r : Request) : Prop :=
  match r with
  | RToken q =>
      match tr_body q with
      | TokenSend ts fee =>
          sumZ t_amount ts + fee < 2 ^ 128 /\
          Forall (fun t => destination t <> rq_origin (tr_base q)) ts
      | _ => True
      end
  | _ => True
  end.
End Backed.

Lemma covers_le `{Lmdb} tok k n t u e :
  accounts_ok t -> covers tok k n t -> mdb_get k t = Some (UserAccount u) ->
  find_entry tok (entries u) = Some e -> n <= te_balance e.
Proof.
  intros Hok [->|(u' & e' & Hu' & He' & Hn)] Hu He; [|congruence].
  apply Hok in Hu. cbn in Hu. apply find_entry_id in He as [_ Hin]. by eapply Forall_forall in Hu.
Qed.

(** ** What a request does to the accounts of others

    The token that [r] draws from the account [k], the accounts its tokens
    move between, and the token it issues. *)
Definition drawn_on (r : Request) (k tok : BlockHash) : bool :=
  match r with
  | RToken q =>
      match tr_body q with
      | TokenSend _ _ => (rq_origin (tr_base q) =? k) && (tr_token_id q =? tok)
      | Revoke source _ => (source =? k) && (tr_token_id q =? tok)
      | _ => false
      end
  | _ => false
  end.
Definition involves (r : Request) (k : AccountAddress) : bool :=
  match r with
  | RToken q =>
      match tr_body q with
      | TokenSend ts _ => receives ts k
      | Revoke source x => (source =? k) || (destination x =? k)
      | Distribute x | WithdrawFee x => destination x =? k
      | _ => false
      end
  | _ => false
  end.
Definition issues (r : Request) : option BlockHash :=
  match r with
  | RToken q => match tr_body q with Issuance _ => Some (tr_token_id q) | _ => None end
  | _ => None
  end.
Definition rows `{Lmdb} (r : Request) (t t' : table Account) : Prop :=
  forall k, k <> GetAccount r -> issues r <> Some k ->
    row_le (drawn_on r k) (involves r k) (mdb_get k t) (mdb_get k t').
(** The account of the request itself: its user draws on no other token. *)
Definition own (r : Request) (a a' : Account) : Prop :=
  match a, a' with
  | UserAccount u, UserAccount u' => entries_le (drawn_on r (GetAccount r)) (entries u) (entries u')
  | TokenAcct _, TokenAcct _ => True
  | _, _ => False
  end.
Lemma same_tokens_own r a a' : same_tokens a a' -> own r a a'.
Proof. destruct a, a'; cbn; try done. intros ->. reflexivity. Qed.

Lemma transactions_total_small ts :
  Forall (fun t => 0 <= t_amount t) ts -> sumZ t_amount ts < 2 ^ 128 ->
  transactions_total ts = sumZ t_amount ts.
Proof.
  rw /transactions_total. intros Hts Hs.
  assert (forall acc, 0 <= acc -> acc + sumZ t_amount ts < 2 ^ 128 ->
    foldl (fun a t => amt_add a (t_amount t)) acc ts = acc + sumZ t_amount ts) as ->; [|lia..].
  clear Hs. induction Hts as [|t ts Ht Hts IH]; intros acc Ha Hb; cbn [foldl].
  - cbn. lia.
  - rw sumZ_cons in Hb. pose proof (sumZ_nonneg t_amount ts Hts).
    rw amt_add_small; [|lia]. rw IH ?sumZ_cons; lia.
Qed.
Lemma GetTokenTotal_small q ts fee :
  tr_body q = TokenSend ts fee -> Forall (fun t => 0 <= t_amount t) ts -> 0 <= fee ->
  sumZ t_amount ts + fee < 2 ^ 128 -> GetTokenTotal (RToken q) = sumZ t_amount ts + fee.
Proof.
  intros Hq Hts Hf Hs. pose proof (sumZ_nonneg t_amount ts Hts). rw /GetTokenTotal Hq.
  rw transactions_total_small //; [|lia]. rw amt_add_small; lia.
Qed.

(** ** Settling: the account of the request is stored last *)
Section Settling.
Context {L : Lmdb} {LL : LmdbLaws L}.

(** Storing [a] at [k] makes every token backed. *)
Definition settled (k : AccountAddress) (a : Account) (l : Ledger) : Prop :=
  accounts_ok (account_db l) /\ account_ok a /\
  forall tok, circulating tok (account_db l) - value_at tok k (account_db l) + token_value tok k a
    = if k =? tok then account_supply a else supply tok (account_db l).

Lemma account_put_settled k a l :
  settled k a l -> wlp (account_put k a) (fun _ l' => tokens_ok (account_db l')) l.
Proof.
  intros (Hok & Ha & Hs). rw /account_put. apply wpg_bind.
  eapply (wpg_mono _ _ (fun _ l' => l' = l)).
  - destruct a; [by apply wpg_ret|]. by apply wpg_massert.
  - intros ? l' ->. apply wpg_modify. split; cbn [set_account_db account_db].
    + by apply accounts_ok_put.
    + intros tok. by rw circulating_put supply_put Hs.
Qed.

(** What the switch of ApplyRequest leaves: [a] to be stored, [l'] the table. *)
Definition outcome (r : Request) (a0 : Account) (l : Ledger) (a : Account) (l' : Ledger) : Prop :=
  settled (GetAccount r) a l' /\ rows r (account_db l) (account_db l') /\ own r a0 a.

(** Nothing moved: neither in the table nor in the account. *)
Lemma outcome_kept r a0 a l l' :
  tokens_ok (account_db l) -> mdb_get (GetAccount r) (account_db l) = Some a0 ->
  same_tokens a0 a -> tokens_kept l l' -> outcome r a0 l a l'.
Proof.
  intros [Hok Hc] Hk Ha (Ho & Hc' & Hs & Hv & Hr). rw /outcome /settled.
  split_and!; [by apply Ho| | |by intros k' _ _; apply row_le_weaken|by apply same_tokens_own].
  all: set (k := GetAccount r) in *.
  - eapply same_tokens_ok; [done|by eapply Hok].
  - intros tok. rw Hc' Hv /value_at Hk (same_tokens_value _ _ tok k Ha) Hc Hs.
    destruct (Z.eqb_spec k tok) as [<-|]; [|lia].
    rw /supply Hk (same_tokens_supply _ _ Ha). lia.
Qed.
(** Only the token account [t] at [tok] is replaced, by [t']; [l'] credits
    [n] tokens to others. *)
Lemma settled_token tok t0 t' n l l' :
  tokens_ok (account_db l) -> mdb_get tok (account_db l) = Some (TokenAcct t0) ->
  account_ok (TokenAcct t') -> accounts_ok (account_db l') ->
  mdb_get tok (account_db l') = Some (TokenAcct t0) ->
  (forall tok', circulating tok' (account_db l') = circulating tok' (account_db l)
                  + (if tok =? tok' then n else 0)) ->
  (forall tok', supply tok' (account_db l') = supply tok' (account_db l)) ->
  token_balance t' + token_fee_balance t' + n - total_supply t'
    = token_balance t0 + token_fee_balance t0 - total_supply t0 ->
  settled tok (TokenAcct t') l'.
Proof.
  intros [Hok Hc] Hk Ht' Hok' Hk' Hc' Hs Hn. split_and!; [done..|]. intros tok'.
  rw Hc' Hs /value_at Hk' Hc /=. destruct (Z.eqb_spec tok tok') as [<-|]; [|lia].
  rw /supply Hk /=. lia.
Qed.
End Settling.

(** ** Application, case by case *)
Section Cases.
Context {L : Lmdb} {LL : LmdbLaws L} {B : Blake2b}.
Variables (now timestamp epoch : Z).

(** A token account's tokens go to a user: the account's own balances are
    enough for [x]. *)
Lemma admin_send_settled q x t0 t' l idx :
  tokens_ok (account_db l) -> tr_token_id q <> 0 ->
  mdb_get (tr_token_id q) (account_db l) = Some (TokenAcct t0) ->
  0 <= t_amount x <= token_balance t0 + token_fee_balance t0 ->
  account_ok (TokenAcct t') -> total_supply t' = total_supply t0 ->
  token_balance t' + token_fee_balance t' = token_balance t0 + token_fee_balance t0 - t_amount x ->
  wlp (ApplySend_one now x timestamp (request_hash (RToken q)) (tr_token_id q)
         (rq_origin (tr_base q)) epoch idx)
    (fun _ l' => settled (tr_token_id q) (TokenAcct t') l' /\
       forall k, row_le nothing_drawn (destination x =? k) (mdb_get k (account_db l))
                   (mdb_get k (account_db l'))) l.
Proof.
  intros Hl Hid Hk Hx Ht' Hs Hb. destruct Hl as [Hok Hc].
  assert (Hv : value_at (tr_token_id q) (tr_token_id q) (account_db l)
               = token_balance t0 + token_fee_balance t0) by rw /value_at Hk /= Z.eqb_refl //.
  eapply wpg_mono; [apply ApplySend_one_tokens; [done..|lia|]|].
  - intros Hu. assert (Hne : tr_token_id q <> destination x).
    { intros Heq. by rw -Heq Hk in Hu. }
    pose proof (two_values_le (tr_token_id q) _ _ _ Hok Hne).
    pose proof (supply_bound (tr_token_id q) _ Hok). rw Hc in H. lia.
  - intros ? l' (Hok' & Hu & Hc' & Hs' & Hg & Hrow). split.
    2: { intros k. destruct (Z.eqb_spec (destination x) k) as [<-|]; [done|].
         rw Hg; [reflexivity|congruence]. }
    eapply (settled_token _ t0 _ (t_amount x) l); try done.
    + rw Hg //. intros Heq. by rw -Heq Hk in Hu.
    + lia.
Qed.

(** The debit of one entry of a user. *)
Lemma debit_ok tokid amount i e :
  find_entry tokid (entries i) = Some e -> account_ok (UserAccount i) ->
  0 <= amount <= te_balance e -> te_balance e < 2 ^ 128 ->
  let i' := update_entry tokid
    (fun e => set_te_balance (amt_sub (te_balance e) amount) e) i in
  account_ok (UserAccount i') /\
  (forall tok, holdings tok (entries i')
              = holdings tok (entries i) - (if tokid =? tok then amount else 0)) /\
  entries_le (fun tok => tokid =? tok) (entries i) (entries i').
Proof.
  intros He Hok Ha Hb i'. split_and!.
  - cbn. apply update_first_Forall; [done|]. intros x _. apply amt_sub_width.
  - intros tok. cbn [i' update_entry set_entries entries].
    rw (update_first_holdings _ _ _ _ e) //. cbn [set_te_balance te_balance].
    rw amt_sub_small; [|lia]. case_match; lia.
  - intros tok x Hd Hx. exists x. split; [|done]. cbn [i' update_entry set_entries entries].
    by rw (update_first_find _ _ _ _ x) // Hd.
Qed.
(** A user's entry is part of the supply. *)
Lemma entry_bound tok k i e t :
  tokens_ok t -> mdb_get k t = Some (UserAccount i) -> find_entry tok (entries i) = Some e ->
  0 <= te_balance e <= value_at tok k t /\ value_at tok k t < 2 ^ 128.
Proof.
  intros [Hok Hc] Hk He. pose proof (find_entry_id _ _ _ He) as [Hid Hin].
  pose proof (Hok _ _ Hk) as Hi. cbn in Hi.
  pose proof (held_le tok (entries i) e Hi Hin Hid). pose proof (value_at_le tok k t Hok).
  pose proof (supply_bound tok t Hok). assert (0 <= te_balance e) by (by eapply Forall_forall in Hi).
  rw Hc in H0. rw /value_at Hk /= in H0 |- *. lia.
Qed.

(** Revoke: the source is debited in the table before the destination is
    credited, also when they are the same account. *)
Lemma ApplyRevoke_settled q source x t0 t l :
  tokens_ok (account_db l) -> tr_token_id q <> 0 ->
  mdb_get (tr_token_id q) (account_db l) = Some (TokenAcct t0) ->
  same_tokens (TokenAcct t0) (TokenAcct t) -> 0 <= t_amount x ->
  covers (tr_token_id q) source (t_amount x) (account_db l) ->
  wlp (ApplyRevoke now q source x timestamp epoch)
    (fun _ l' => settled (tr_token_id q) (TokenAcct t) l' /\
       forall k, row_le (fun tok => (source =? k) && (tr_token_id q =? tok))
                   ((source =? k) || (destination x =? k))
                   (mdb_get k (account_db l)) (mdb_get k (account_db l'))) l.
Proof.
  intros Hl Hid Hk Ht Hx Hb. pose proof Hl as [Hok Hc]. rw /ApplyRevoke. apply wpg_bind.
  rw {1}/user_account_get. apply wpg_bind. apply wpg_gets.
  destruct (mdb_get source (account_db l)) as [[u|]|] eqn:Hsrc; [|done..]. apply wpg_ret. apply wpg_bind.
  destruct (find_entry _ _) as [e|] eqn:He; [|done]. pose proof (covers_le _ _ _ _ u e Hok Hb Hsrc He) as Hcov.
  set (tok := tr_token_id q) in *.
  pose proof (entry_bound tok source u e _ Hl Hsrc He) as [He1 He2].
  destruct (debit_ok tok (t_amount x) u e He (Hok _ _ Hsrc)) as (Hu1 & Hu2 & Hu3); [lia..|].
  set (u' := update_entry _ _ u) in *. cbn zeta. apply wpg_bind.
  eapply wpg_mono; [apply PlaceReceive_accounts|]. intros ? l1 Hl1.
  apply wpg_bind, wpg_ret, wpg_modify. set (u'' := set_receive_head _ u').
  set (l2 := set_account_db _ l1).
  assert (Hdb : account_db l2 = mdb_put source (UserAccount u'') (account_db l))
    by (cbn; by rw Hl1).
  assert (Hne : source <> tok) by (intros ->; congruence).
  assert (Hok2 : accounts_ok (account_db l2)) by (rw Hdb; by apply accounts_ok_put).
  assert (Hv : forall tok', value_at tok' source (account_db l) = holdings tok' (entries u))
    by (intros; rw /value_at Hsrc //).
  assert (Hc2 : forall tok', circulating tok' (account_db l2) = circulating tok' (account_db l)
                  - (if tok =? tok' then t_amount x else 0)).
  { intros tok'. rw Hdb circulating_put Hv. cbn [token_value]. rw Hu2. lia. }
  assert (Hs2 : forall tok', supply tok' (account_db l2) = supply tok' (account_db l)).
  { intros tok'. rw Hdb supply_put. destruct (Z.eqb_spec source tok') as [<-|]; [|done].
    by rw /supply Hsrc. }
  assert (Hk2 : mdb_get tok (account_db l2) = Some (TokenAcct t0)) by by rw Hdb get_put_ne.
  eapply wpg_mono; [apply ApplySend_one_tokens; [done..|]|].
  - intros _. pose proof (value_at_le tok (destination x) _ Hok2).
    pose proof (supply_bound tok _ Hok). rw Hc2 Hc Z.eqb_refl in H. lia.
  - intros ? l' (Hok' & Hu & Hc' & Hs' & Hg & Hrow). destruct Ht as (Hb1 & Hb2 & Hb3). split.
    2: { intros k. etransitivity.
      + instantiate (1 := mdb_get k (account_db l2)). rw Hdb get_put.
        case_decide as Hk'; [subst k|reflexivity]. rw Hsrc Z.eqb_refl. cbn. by split_and!.
      + destruct (Z.eqb_spec (destination x) k) as [<-|]; [|rw Hg; [reflexivity|congruence]].
        rw orb_true_r. by apply row_le_drawn. }
    eapply (settled_token _ t0 _ 0 l); try done.
    + eapply (same_tokens_ok (TokenAcct t0)); [done|by eapply Hok].
    + rw Hg //. intros Heq. by rw -Heq Hk2 in Hu.
    + intros tok'. rw Hc' Hc2. case_match; lia.
    + intros tok'. by rw Hs' Hs2.
    + lia.
Qed.

(** TokenSend: the fee goes to the token account and the amounts to their
    destinations; the origin, stored last, is debited by both. *)
Lemma ApplyTokenSend_settled q ts fee i0 i l :
  tr_body q = TokenSend ts fee ->
  tokens_ok (account_db l) -> tr_token_id q <> 0 ->
  let origin := rq_origin (tr_base q) in
  mdb_get origin (account_db l) = Some (UserAccount i0) -> entries i = entries i0 ->
  Forall (fun t => 0 <= t_amount t) ts -> 0 <= fee ->
  sumZ t_amount ts + fee < 2 ^ 128 -> Forall (fun t => destination t <> origin) ts ->
  (forall e, find_entry (tr_token_id q) (entries i0) = Some e ->
     GetTokenTotal (RToken q) <= te_balance e) ->
  wlp (ApplyTokenSend now q ts fee i timestamp epoch)
    (fun i' l' => settled origin (UserAccount i') l' /\
       (forall k, row_le nothing_drawn (receives ts k) (mdb_get k (account_db l))
                    (mdb_get k (account_db l'))) /\
       entries_le (fun tok => tr_token_id q =? tok) (entries i0) (entries i')) l.
Proof.
  intros Hq Hl Hid origin Hk Hi Hts Hfee Hsum Hself Hb. pose proof Hl as [Hok Hc].
  pose proof (sumZ_nonneg t_amount ts Hts) as Hpos.
  rw (GetTokenTotal_small q ts fee) // in Hb. rw /ApplyTokenSend (GetTokenTotal_small q ts fee) //.
  apply wpg_bind. rw /token_account_get. apply wpg_bind. apply wpg_gets.
  set (tok := tr_token_id q) in *.
  destruct (mdb_get tok (account_db l)) as [[|a]|] eqn:Ha; [done| |done]. apply wpg_ret.
  apply wpg_bind. rw /token_account_put /account_put. apply wpg_bind.
  apply wpg_massert; [|done]. intros _. apply wpg_modify. rw Hi.
  destruct (find_entry tok (entries i0)) as [e|] eqn:He; [|done]. specialize (Hb e eq_refl).
  set (a' := set_tokens _ _ _ a). set (l1 := set_account_db _ l).
  assert (Hne : tok <> origin) by (intros Heq; rw Heq in Ha; congruence).
  pose proof (entry_bound tok origin i0 e _ Hl Hk He) as [He1 He2].
  pose proof (two_values_le tok tok origin _ Hok Hne) as Htwo.
  pose proof (supply_bound tok _ Hok) as Hsup. rw Hc in Htwo.
  assert (Hva : value_at tok tok (account_db l) = token_balance a + token_fee_balance a)
    by rw /value_at Ha /= Z.eqb_refl //.
  assert (Haok : account_ok (TokenAcct a)) by by eapply Hok. destruct Haok as (Ha1 & Ha2 & Ha3).
  assert (Hfees : amt_add (token_fee_balance a) fee = token_fee_balance a + fee)
    by (apply amt_add_small; lia).
  assert (Hok1 : accounts_ok (account_db l1)).
  { apply accounts_ok_put; [done|]. cbn. rw Hfees. split_and!; [done|lia|done]. }
  assert (Hc1 : forall tok', circulating tok' (account_db l1)
                  = circulating tok' (account_db l) + (if tok =? tok' then fee else 0)).
  { intros tok'. cbn [l1 set_account_db account_db]. rw circulating_put.
    rw /value_at Ha. cbn [token_value a' set_tokens token_balance token_fee_balance].
    rw Hfees. case_match; lia. }
  assert (Hs1 : forall tok', supply tok' (account_db l1) = supply tok' (account_db l)).
  { intros tok'. cbn [l1 set_account_db account_db]. rw supply_put.
    destruct (Z.eqb_spec tok tok') as [<-|]; [|done]. by rw /supply Ha. }
  assert (Hk1 : mdb_get origin (account_db l1) = Some (UserAccount i0)).
  { cbn [l1 set_account_db account_db]. by rw get_put_ne. }
  assert (Hv1 : forall tok', value_at tok' origin (account_db l1) = holdings tok' (entries i0))
    by (intros tok'; rw /value_at Hk1 //).
  apply wpg_bind. eapply wpg_mono; [apply (ApplySend_all_tokens now origin); try done|].
  { rw Hc1 Hc Z.eqb_refl Hv1. rw /value_at Hk /= in Htwo He1. lia. }
  intros ? l2 (Hok2 & Hc2 & Hs2 & Hg2 & Hrow2). apply wpg_ret.
  destruct (debit_ok tok (sumZ t_amount ts + fee) i e) as (Hd1 & Hd2 & Hd3);
    [by rw Hi| |lia..|].
  { cbn. rw Hi. exact (Hok _ _ Hk). }
  split_and!; [| |by rw Hi in Hd3].
  2: { intros k. etransitivity; [|apply Hrow2]. cbn [l1 set_account_db account_db]. rw get_put.
    case_decide as Hk'; [subst k|reflexivity]. rw Ha. cbn. rw Hfees. split_and!; [done..|lia]. }
  split_and!; [done|done|]. intros tok'.
  rw Hc2 Hc1 Hc Hs2 Hs1 {1}/value_at Hg2 Hk1. cbn [token_value account_supply]. rw Hd2 Hi.
  destruct (Z.eqb_spec origin tok') as [<-|].
  - destruct (Z.eqb_spec tok origin); [done|]. rw /supply Hk /=. lia.
  - case_match; lia.
Qed.

(** Issuance: the token account is new, with the whole supply. *)
Lemma ApplyIssuance_settled q fields a0 a k l :
  tokens_ok (account_db l) -> is_user (mdb_get (tr_token_id q) (account_db l)) ->
  (forall tok, value_at tok (tr_token_id q) (account_db l) = 0) -> k <> tr_token_id q ->
  in_width 128 (is_total_supply fields) ->
  mdb_get k (account_db l) = Some a0 -> same_tokens a0 a ->
  wlp (ApplyIssuance now q fields timestamp) (fun _ l' => settled k a l' /\
    forall k', k' <> tr_token_id q ->
      mdb_get k' (account_db l') = mdb_get k' (account_db l)) l.
Proof.
  intros [Hok Hc] Huser Hzero Hne Hw Hk Ha. set (tok := tr_token_id q) in *. rw /ApplyIssuance.
  apply wpg_bind. rw /token_account_put /account_put. apply wpg_bind.
  apply wpg_massert; [|done]. intros _. apply wpg_modify.
  eapply wpg_mono; [apply PlaceReceive_accounts|]. intros ? l' Hl'.
  rw /same_accounts in Hl'. cbn [set_account_db account_db] in Hl'.
  set (t := issued_account _ _ _ _) in Hl'. rw -/tok in Hl'.
  assert (Hsup : supply tok (account_db l) = 0)
    by (rw /supply; by destruct (mdb_get tok _) as [[]|]).
  split; [|intros k' Hk'; by rw Hl' get_put_ne].
  assert (Hok' : account_ok (TokenAcct t)) by (cbn; rw /in_width in Hw; split_and!; [lia..|done]).
  split_and!.
  - rw Hl'. by apply accounts_ok_put.
  - eapply same_tokens_ok; [done|by eapply Hok].
  - intros tok'. rw Hl' circulating_put supply_put value_at_put Hc.
    destruct (Z.eqb_spec tok k); [done|]. rw Hzero /value_at Hk (same_tokens_value _ _ tok' k Ha).
    rw (same_tokens_supply _ _ Ha). cbn [token_value account_supply].
    destruct (Z.eqb_spec k tok') as [<-|Hk'].
    + destruct (Z.eqb_spec tok k); [done|]. rw /supply Hk. lia.
    + destruct (Z.eqb_spec tok tok') as [<-|]; [rw Hsup /=; lia|lia].
Qed.
End Cases.

(** ** ApplyRequest *)
Section Application.
Context {L : Lmdb} {LL : LmdbLaws L} {B : Blake2b}.
Variables (now timestamp epoch : Z).

Lemma kept_put_value k a0 a l :
  mdb_get k (account_db l) = Some a0 -> (account_ok a0 -> account_ok a) ->
  (forall tok, token_value tok k a = token_value tok k a0) ->
  account_supply a = account_supply a0 -> row_le nothing_drawn false (Some a0) (Some a) ->
  tokens_kept l (set_account_db (mdb_put k a (account_db l)) l).
Proof.
  intros Hk Hok Hv Hs Hrow. rw /tokens_kept. cbn [set_account_db account_db]. split_and!.
  - intros Ht. apply accounts_ok_put; [done|]. by eapply Hok, Ht.
  - intros tok. rw circulating_put Hv /value_at Hk. lia.
  - intros tok. rw supply_put. destruct (Z.eqb_spec k tok) as [<-|]; [|done]. by rw /supply Hk.
  - intros tok k'. rw value_at_put. destruct (Z.eqb_spec k k') as [<-|]; [|done].
    by rw Hv /value_at Hk.
  - intros k'. rw get_put. case_decide as Hk'; [subst k'; by rw Hk|reflexivity].
Qed.
Lemma set_status_tokens tok u f :
  (account_ok (UserAccount u) ->
   account_ok (UserAccount (update_entry tok (fun e => set_te_status (f e) e) u))) /\
  (forall tok', holdings tok' (entries (update_entry tok (fun e => set_te_status (f e) e) u))
               = holdings tok' (entries u)) /\
  entries_le nothing_drawn (entries u)
    (entries (update_entry tok (fun e => set_te_status (f e) e) u)).
Proof.
  cbn [update_entry set_entries entries account_ok]. split_and!.
  { intros Hok. by apply update_first_Forall. }
  2: { intros tok' e _ He. eexists. split; [by apply update_first_find|]. by case_match. }
  intros tok'.
  induction (entries u) as [|e es IH]; [done|]. cbn [update_first]. case_match; [done|].
  by rw /holdings !sumZ_cons -/(holdings _ _) IH.
Qed.
Lemma adjust_status_kept tok account st :
  preserves tokens_kept (adjust_token_user_status tok account st).
Proof.
  assert (Hput : preserves tokens_kept
    (s ← token_user_status_get (GetTokenUserID tok account);
     token_user_status_put (GetTokenUserID tok account)
       (do_adjust_status st (default (te_status TokenEntry_default) s)))).
  { apply kept_accounts. rw /token_user_status_get. solve_frame. }
  intros l. rw /adjust_token_user_status. apply wpg_bind. rw /user_account_get. apply wpg_bind.
  apply wpg_gets. destruct (mdb_get account (account_db l)) as [[u|]|] eqn:Hu; [|done|].
  2: { apply wpg_ret. apply Hput. }
  apply wpg_ret. destruct (find_entry tok (entries u)); [|apply Hput].
  apply wpg_bind, wpg_ret, wpg_modify.
  destruct (set_status_tokens tok u (fun e => do_adjust_status st (te_status e))) as (Ho & Hh & Hle).
  apply (kept_put_value _ (UserAccount u)); try done. cbn. split_and!; [done..|].
  intros _ Hz tok'. exact (eq_trans (Hh tok') (Hz tok')).
Qed.

(** Changes of a token account that keep its tokens. *)
Lemma Set_value_tokens a s v a' : Set_value a s v = Some a' -> same_tokens (TokenAcct a) (TokenAcct a').
Proof. rw /Set_value /Set_bool. destruct (bit_set _ _ _); by intros [= <-]. Qed.
Lemma Set_bool_tokens a s v a' : Set_bool a s v = Some a' -> same_tokens (TokenAcct a) (TokenAcct a').
Proof. rw /Set_bool. destruct (bit_set _ _ _); by intros [= <-]. Qed.

(** The amounts of the body of a request are not negative. *)
Definition amounts_ok (b : TokenBody) : Prop :=
  match b with
  | Issuance i => in_width 128 (is_total_supply i)
  | IssueAdditional a | Burn a => in_width 128 a
  | Revoke _ x | Distribute x | WithdrawFee x => in_width 128 (t_amount x)
  | TokenSend ts fee => Forall (fun t => 0 <= t_amount t) ts /\ 0 <= fee
  | _ => True
  end.

(** A request of the token account itself that leaves the other accounts alone. *)
Lemma outcome_put q a0 a' l :
  tokens_ok (account_db l) -> GetAccount (RToken q) = tr_token_id q ->
  mdb_get (tr_token_id q) (account_db l) = Some (TokenAcct a0) -> account_ok (TokenAcct a') ->
  token_balance a' + token_fee_balance a' - total_supply a'
  = token_balance a0 + token_fee_balance a0 - total_supply a0 ->
  outcome (RToken q) (TokenAcct a0) l (TokenAcct a') l.
Proof.
  intros Hl HK Hk Ha' Hbal. split_and!; [|by intros k _ _|done]. rw HK.
  eapply (settled_token _ a0 a' 0 l); try done; [apply Hl| |lia].
  intros tok'. destruct (_ =? _); lia.
Qed.
(** What is undistributed or paid in fees is part of the supply. *)
Lemma token_account_bounds tok a t :
  tokens_ok t -> mdb_get tok t = Some (TokenAcct a) ->
  0 <= token_balance a /\ 0 <= token_fee_balance a /\ in_width 128 (total_supply a) /\
  token_balance a + token_fee_balance a <= total_supply a.
Proof.
  intros [Hok Hc] Hk. pose proof (value_at_le tok tok _ Hok) as Hv.
  rw Hc /value_at /supply Hk /= Z.eqb_refl in Hv. destruct (Hok _ _ Hk) as (? & ? & ?).
  by split_and!.
Qed.

(** Additional issues and burns change the supply and the balance alike. *)
Lemma admin_supply_outcome q a0 a l :
  tokens_ok (account_db l) -> amounts_ok (tr_body q) -> GetAccount (RToken q) = tr_token_id q ->
  mdb_get (tr_token_id q) (account_db l) = Some (TokenAcct a0) ->
  same_tokens (TokenAcct a0) (TokenAcct a) ->
  match tr_body q with
  | IssueAdditional n => total_supply a0 + n < 2 ^ 128
  | Burn n => n <= token_balance a0
  | _ => False
  end ->
  wlp (ApplyTokenAdmin now q a timestamp epoch)
    (fun a' l' => outcome (RToken q) (TokenAcct a0) l (TokenAcct a') l') l.
Proof.
  intros Hl Hamt HK Hk (Hb1 & Hb2 & Hb3) Hb.
  destruct (token_account_bounds _ _ _ Hl Hk) as (H1 & H2 & H3 & H4). rw /in_width in H3.
  rw /ApplyTokenAdmin. rw /amounts_ok in Hamt.
  destruct (tr_body q) as [|n| | | | | | | |n| | | |] eqn:Hq; try done; rw /in_width in Hamt;
    apply wpg_ret, outcome_put; try done;
    cbn [set_tokens total_supply token_balance token_fee_balance account_ok]; rw ?Hb1 ?Hb2 ?Hb3.
  - split_and!; [by apply amt_add_width|done|apply amt_add_width].
  - rw !amt_add_small; lia.
  - split_and!; [by apply amt_sub_width|done|apply amt_sub_width].
  - rw !amt_sub_small; lia.
Qed.

(** Distributions and withdrawals of fees move tokens of the token account. *)
Lemma admin_send_put q x t0 t' l :
  tokens_ok (account_db l) -> tr_token_id q <> 0 -> GetAccount (RToken q) = tr_token_id q ->
  (forall k, involves (RToken q) k = (destination x =? k)) ->
  mdb_get (tr_token_id q) (account_db l) = Some (TokenAcct t0) ->
  0 <= t_amount x <= token_balance t0 + token_fee_balance t0 ->
  account_ok (TokenAcct t') -> total_supply t' = total_supply t0 ->
  token_balance t' + token_fee_balance t' = token_balance t0 + token_fee_balance t0 - t_amount x ->
  wlp (ApplySend_one now x timestamp (request_hash (RToken q)) (tr_token_id q)
         (rq_origin (tr_base q)) epoch 0;; mret t')
    (fun a' l' => outcome (RToken q) (TokenAcct t0) l (TokenAcct a') l') l.
Proof.
  intros Hl Hid HK Hi Hk Hx Ht' Hs Hb. apply wpg_bind.
  eapply wpg_mono; [by apply (admin_send_settled _ _ _ q x t0 t')|]. intros ? l' [Hset Hr].
  apply wpg_ret. split_and!; [by rw HK| |done]. intros k _ _. rw Hi. apply row_le_drawn, Hr.
Qed.
Lemma admin_send_outcome q a0 a l :
  tokens_ok (account_db l) -> amounts_ok (tr_body q) -> tr_token_id q <> 0 ->
  mdb_get (tr_token_id q) (account_db l) = Some (TokenAcct a0) ->
  same_tokens (TokenAcct a0) (TokenAcct a) ->
  match tr_body q with
  | Distribute x => t_amount x <= token_balance a0
  | WithdrawFee x => t_amount x <= token_fee_balance a0
  | _ => False
  end ->
  wlp (ApplyTokenAdmin now q a timestamp epoch)
    (fun a' l' => outcome (RToken q) (TokenAcct a0) l (TokenAcct a') l') l.
Proof.
  intros Hl Hamt Hid Hk (Hb1 & Hb2 & Hb3) Hb.
  destruct (token_account_bounds _ _ _ Hl Hk) as (H1 & H2 & H3 & H4).
  pose proof H3 as H5. rw /in_width in H5.
  rw /ApplyTokenAdmin. rw /amounts_ok in Hamt.
  destruct (tr_body q) as [| | | | | | | | | |x|x| |] eqn:Hq; try done; rw /in_width in Hamt;
    apply admin_send_put; try done; try (cbn; rw Hq; done); try lia;
    cbn [account_ok set_tokens token_balance token_fee_balance total_supply]; rw ?Hb1 ?Hb2 ?Hb3;
    rw ?amt_sub_small; try lia; split_and!; try lia; done.
Qed.

Lemma ApplyTokenAdmin_outcome q a0 a l :
  tokens_ok (account_db l) -> amounts_ok (tr_body q) -> backed (RToken q) (account_db l) ->
  GetAccount (RToken q) = tr_token_id q ->
  mdb_get (tr_token_id q) (account_db l) = Some (TokenAcct a0) ->
  same_tokens (TokenAcct a0) (TokenAcct a) ->
  wlp (ApplyTokenAdmin now q a timestamp epoch)
    (fun a' l' => outcome (RToken q) (TokenAcct a0) l (TokenAcct a') l') l.
Proof.
  intros Hl Hamt [Hid Hb] HK Hk Ha.
  assert (Hkept : forall a' l', same_tokens (TokenAcct a) (TokenAcct a') -> tokens_kept l l' ->
    outcome (RToken q) (TokenAcct a0) l (TokenAcct a') l').
  { intros a' l' Ha' Hl'. apply outcome_kept; [done|by rw HK|by etransitivity|done]. }
  destruct (tr_body q) as [i|n|s v|s|src x|acc st|ft fr|info|act c|n|x|x|x|ts fee] eqn:Hq;
    [by cbn in HK; rw /ApplyTokenAdmin Hq|
     destruct Hb as (a1 & Ha1 & Hb); rw Hk in Ha1; injection Ha1 as <-..|by rw /ApplyTokenAdmin Hq].
  all: try (apply admin_supply_outcome; rw ?Hq; done).
  all: try (apply admin_send_outcome; rw ?Hq; done).
  all: rw /ApplyTokenAdmin Hq.
  - destruct (Set_value a s v) as [a'|] eqn:E; [|done]. apply wpg_ret, Hkept; [|done].
    by eapply Set_value_tokens.
  - destruct (GetMutabilitySetting s) as [m|]; [|done]. cbn [mbind option_bind].
    destruct (Set_bool a m false) as [a'|] eqn:E; [|done]. apply wpg_ret, Hkept; [|done].
    by eapply Set_bool_tokens.
  - apply wpg_bind. eapply wpg_mono; [eapply ApplyRevoke_settled; try done; apply Hamt|].
    intros ? l' [Hs Hr]. apply wpg_ret. split_and!; [by rw HK| |done].
    intros k _ _. cbn [involves]. rw Hq. eapply row_le_mono; [|apply Hr].
    intros tok. cbn [drawn_on]. by rw Hq.
  - apply wpg_bind. eapply wpg_mono; [apply adjust_status_kept|]. intros ? l' Hl'.
    by apply wpg_ret, Hkept.
  - by apply wpg_ret, Hkept.
  - by apply wpg_ret, Hkept.
  - destruct (update_controllers _ _ _) as [cs|]; [|done]. by apply wpg_ret, Hkept.
  - apply wpg_bind. eapply wpg_mono; [apply ApplySend_one_logos|]. intros ? l' Hl'.
    by apply wpg_ret, Hkept.
Qed.

(** The amounts of any request. *)
Definition request_amounts_ok (r : Request) : Prop :=
  match r with RToken q => amounts_ok (tr_body q) | _ => True end.

Lemma ApplyToken_outcome q a0 a l :
  tokens_ok (account_db l) -> amounts_ok (tr_body q) -> safe (RToken q) ->
  backed (RToken q) (account_db l) ->
  mdb_get (GetAccount (RToken q)) (account_db l) = Some a0 -> same_tokens a0 a ->
  wlp (ApplyToken now q a timestamp epoch) (fun a' l' => outcome (RToken q) a0 l a' l') l.
Proof.
  intros Hl Hamt Hsafe Hb Hk Ha. pose proof Hl as [Hok _].
  assert (Hadmin : forall t, a = TokenAcct t -> IsTokenAdminRequest (tr_body q) = true ->
    wlp (a' ← ApplyTokenAdmin now q t timestamp epoch; mret (TokenAcct a'))
      (fun a' l' => outcome (RToken q) a0 l a' l') l).
  { intros t -> Had. apply wpg_bind. eapply wpg_mono;
      [|intros a' l' Hl'; apply wpg_ret; exact Hl'].
    assert (HK : GetAccount (RToken q) = tr_token_id q) by (cbn; by destruct (tr_body q)).
    rw HK in Hk. destruct a0 as [|t0]; [done|]. by eapply ApplyTokenAdmin_outcome. }
  assert (Huser : forall i, a = UserAccount i -> IsTokenAdminRequest (tr_body q) = true -> False).
  { intros i -> Had. destruct a0; [|done]. destruct Hb as [_ Hb]. cbn in Hk.
    destruct (tr_body q); try done; destruct Hb as (? & ? & _); congruence. }
  rw /ApplyToken. destruct (tr_body q) as [i| | | | | | | | | | | | |ts fee] eqn:Hq.
  { destruct Hb as [_ Hb]. rw Hq in Hb. destruct Hb as (Hne & Hu & Hz). apply wpg_bind.
    assert (HK : GetAccount (RToken q) = rq_origin (tr_base q)) by by rw /= Hq.
    eapply wpg_mono; [eapply (ApplyIssuance_settled _ _ _ _ a0 a (GetAccount (RToken q)));
      rw ?HK //; by rw -HK|].
    intros ? l' [Hs Hg]. apply wpg_ret. split_and!; [done| |by apply same_tokens_own].
    intros k _ Hi. cbn [issues] in Hi. rw Hq in Hi. rw Hg; [reflexivity|by intros Heq; rw Heq in Hi]. }
  13: { destruct a as [i|t]; [|done]. destruct a0 as [i0|]; [|done]. destruct Hamt as [Hts Hfee].
    rw /safe Hq in Hsafe. destruct Hsafe as [Hsum Hself]. destruct Hb as [Hid Hb].
    assert (HK : GetAccount (RToken q) = rq_origin (tr_base q)) by by rw /= Hq.
    rw Hq in Hb. rw HK in Hk. apply wpg_bind.
    eapply wpg_mono; [eapply ApplyTokenSend_settled; try done|].
    - intros e He. by eapply covers_le.
    - intros i' l' (Hs & Hr & He). apply wpg_ret. split_and!; [by rw HK| |].
      + intros k _ _. cbn [involves]. rw Hq. by apply row_le_drawn.
      + cbn [own]. rw HK. intros tok e. cbn [drawn_on]. rw Hq Z.eqb_refl. apply He. }
  all: destruct a as [i|t]; [exfalso; by eapply Huser|by apply Hadmin].
Qed.

Lemma ApplyBody_outcome r a0 a l :
  tokens_ok (account_db l) -> request_amounts_ok r -> safe r -> backed r (account_db l) ->
  mdb_get (GetAccount r) (account_db l) = Some a0 -> same_tokens a0 a ->
  wlp (ApplyBody now r a timestamp epoch) (fun a' l' => outcome r a0 l a' l') l.
Proof.
  intros Hl Hamt Hsafe Hb Hk Ha.
  assert (Hkept : forall a' l', same_tokens a a' -> tokens_kept l l' -> outcome r a0 l a' l').
  { intros a' l' Ha' Hl'. apply outcome_kept; [done|done|by etransitivity|done]. }
  destruct r as [g|s|q|c]; [| |by eapply ApplyToken_outcome|]; destruct a as [i|]; try done;
    cbn [ApplyBody].
  - apply wpg_bind. eapply wpg_mono; [apply (returns_frame same_accounts);
      [apply in_store_returns, governance_entries|apply in_store_accounts]|].
    intros i' l' [Hi' Hl']. apply wpg_ret, Hkept; [done|]. by rw /tokens_kept Hl'.
  - apply wpg_bind. rw /ApplySendRequest. apply wpg_bind.
    eapply wpg_mono; [apply (returns_frame same_accounts);
      [apply in_store_returns, SetBalance_row|apply in_store_accounts]|].
    intros i' l1 [[Hi' _] Hl1]. apply wpg_bind. eapply wpg_mono; [apply ApplySend_all_logos|].
    intros ? l2 Hl2. apply wpg_ret. cbn beta. apply wpg_ret, Hkept; [done|].
    etransitivity; [|exact Hl2]. by rw /tokens_kept Hl1.
  - rw /ApplyClaim. apply wpg_bind. eapply wpg_mono; [apply ProcessClaim_accounts|].
    intros [n d] l1 Hl1. assert (Hk1 : tokens_kept l l1) by by rw /tokens_kept Hl1.
    cbn zeta. destruct (0 <? _); [|by apply wpg_ret, Hkept].
    eapply wpg_mono; [apply ApplySend_to_logos|]. intros a' l2 [Hl2 [Ha' _]].
    apply Hkept; [done|]. by rw /tokens_kept Hl2.
Qed.

(** The account before the switch, with its fee paid. *)
Lemma prologue_tokens r a l :
  wlp (a ← prune_account r a epoch; charge_fee r a epoch)
    (fun a' l' => same_tokens a a' /\ same_accounts l l') l.
Proof.
  apply wpg_bind. eapply (wpg_mono _ _ (fun a' l' => same_tokens a a' /\ same_accounts l l')).
  - destruct a as [i|t]; cbn [prune_account]; [|by apply wpg_ret]. apply wpg_bind.
    eapply wpg_mono; [apply (returns_frame same_accounts);
      [apply in_store_returns, PruneThawing_entries|apply in_store_accounts]|].
    intros i' l' [Hi Hl]. by apply wpg_ret.
  - intros a1 l1 [Ha1 Hl1]. rw /charge_fee. destruct (is_election_vote_request r).
    { by apply wpg_ret. }
    apply wpg_bind. eapply wpg_mono; [apply Account_SetBalance_ok|]. intros a2 l2 [[Ha2 _] Hl2].
    apply wpg_bind. eapply wpg_mono; [apply in_store_accounts|]. intros ? l3 Hl3.
    apply wpg_ret. split; by etransitivity; [|etransitivity].
Qed.

(** The request is backed if it is the next one of its account. *)
Definition ready (r : Request) (t : table Account) : Prop :=
  forall info, mdb_get (GetAccount r) t = Some info ->
    rq_previous (base_of r) = Account_head info -> backed r t.

(** What ApplyRequest makes of the accounts. *)
Definition applied (r : Request) (t t' : table Account) : Prop :=
  rows r t t' /\ forall a, mdb_get (GetAccount r) t = Some a ->
    exists a', mdb_get (GetAccount r) t' = Some a' /\ own r a a'.
Lemma applied_refl r t : applied r t t.
Proof.
  split; [by intros k _ _|]. intros a Ha. exists a. split; [done|]. by apply same_tokens_own.
Qed.
Lemma account_put_applied r a0 a l l' :
  outcome r a0 l a l' -> mdb_get (GetAccount r) (account_db l) = Some a0 ->
  wlp (account_put (GetAccount r) a) (fun _ l'' =>
    tokens_ok (account_db l'') /\ applied r (account_db l) (account_db l'')) l'.
Proof.
  intros (Hs & Hr & Ho) Hk. apply wpg_conj; [by apply account_put_settled|].
  rw /account_put. apply wpg_bind. eapply (wpg_mono _ _ (fun _ l'' => l'' = l')).
  - destruct a; [by apply wpg_ret|]. by apply wpg_massert.
  - intros ? l'' ->. apply wpg_modify. cbn [set_account_db account_db]. split.
    + intros k Hne Hi. rw get_put_ne //. by apply Hr.
    + intros a2 Ha2. rw Hk in Ha2. injection Ha2 as <-. exists a. by rw get_put_eq.
Qed.

(** A duplicate is skipped. *)
Lemma ApplyRequest_skips committed r l info :
  mdb_get (GetAccount r) (account_db l) = Some info ->
  rq_previous (base_of r) <> Account_head info ->
  wlp (ApplyRequest now committed r timestamp epoch) (fun _ l' => l' = l) l.
Proof.
  intros Hk Hp. rw /ApplyRequest. apply wpg_bind, wpg_gets. rw Hk.
  destruct (Z.eqb_spec (rq_previous (base_of r)) (Account_head info)); [done|]. cbn [negb].
  by destruct (_ || _).
Qed.

(** ApplyRequest keeps every token backed. *)
Lemma ApplyRequest_tokens committed r l :
  tokens_ok (account_db l) -> request_amounts_ok r -> safe r -> ready r (account_db l) ->
  wlp (ApplyRequest now committed r timestamp epoch) (fun _ l' =>
    tokens_ok (account_db l') /\ applied r (account_db l) (account_db l')) l.
Proof.
  intros Hl Hamt Hsafe Hb. rw /ApplyRequest. apply wpg_bind, wpg_gets.
  destruct (mdb_get (GetAccount r) (account_db l)) as [a0|] eqn:Hk;
    [|apply wpg_ret; by split; [|apply applied_refl]].
  destruct (Z.eqb_spec (rq_previous (base_of r)) (Account_head a0)) as [Hprev|]; cbn [negb].
  2: { destruct (_ || _); [|done]. apply wpg_ret. by split; [|apply applied_refl]. }
  specialize (Hb a0 Hk Hprev). set (h := request_hash r). set (m := prune_account _ _ _).
  assert (Hpro := prologue_tokens r (Account_extend h now a0) l). rw -/m in Hpro.
  apply wpg_bind. apply wpg_bind_inv in Hpro. eapply wpg_mono; [exact Hpro|].
  intros a1 l1 Hpro1. apply wpg_bind. eapply wpg_mono; [exact Hpro1|]. intros a2 l2 [Ha2 Hl2].
  apply wpg_bind. eapply wpg_mono; [eapply (ApplyBody_outcome _ a0); rw ?Hl2 //|].
  - etransitivity; [apply extend_same_tokens|done].
  - intros a3 l3 Ho. rw -Hl2. apply (account_put_applied _ a0 a3); [done|by rw Hl2].
Qed.
End Application.
