(* ===== verification/TokenBacking.v ===== *)
(** * Validated requests are backed

    ValidateRequest accepts a token request only when the balances it draws on
    suffice; with TokenConservation, what the node validates and applies keeps
    every token backed. *)
From stdpp Require Import base list numbers strings gmap ssreflect.
From S2P Require Import Prelude Serial Lmdb StakingTypes Requests Epochs BlockStore VotingPower AccountInfo Staking EpochRewards Governance Reservations TokenTypes TokenRequests TokenFormats Ledger Transfers RequestValidation TokenSupply TokenEntries TokenConservation.
Import ConsensusReservations.
Open Scope Z_scope.
Open Scope validation_scope.

(** When [m] accepts, [Q] holds of the state it leaves. *)
Definition passes {S} (m : M S validation) (Q : S -> Prop) (s : S) : Prop :=
  wlp m (fun v s' => v = Valid -> Q s') s.

Section Passes.
Context {S : Type}.
Lemma passes_vbind (m k : M S validation) Q s :
  passes m (passes k Q) s -> passes (m >>& k) Q s.
Proof.
  intros Hm. apply wpg_bind. eapply wpg_mono; [exact Hm|]. intros [|c] s' Hv; [by apply Hv|].
  by apply wpg_ret.
Qed.
Lemma passes_ret (v : validation) (Q : S -> Prop) s : (v = Valid -> Q s) -> passes (vret v) Q s.
Proof. intros Hv. by apply wpg_ret. Qed.
Lemma passes_fail c (Q : S -> Prop) s : passes (vfail c) Q s.
Proof. by apply wpg_ret. Qed.
Lemma passes_any (m : M S validation) (Q : Prop) s : Q -> passes m (fun _ => Q) s.
Proof. intros HQ. rw /passes /wpg. by destruct (m s) as [[]|]. Qed.
Lemma passes_mono (m : M S validation) (Q Q' : S -> Prop) s :
  passes m Q s -> (forall s', Q s' -> Q' s') -> passes m Q' s.
Proof. intros Hm HQ. eapply wpg_mono; [exact Hm|]. auto. Qed.
Lemma passes_frame (R : relation S) (m : M S validation) s : preserves R m -> passes m (R s) s.
Proof. intros Hm. eapply wpg_mono; [apply Hm|]. auto. Qed.
End Passes.

Lemma require_valid b c : require b c = Valid -> b = true.
Proof. by destruct b. Qed.
Lemma and_then_valid a b : (a >& b) = Valid -> a = Valid /\ b = Valid.
Proof. by destruct a. Qed.

Section Transfers.
Context {L : Lmdb} {LL : LmdbLaws L} {B : Blake2b} {I : Indeterminate}.

(** A check that only reads. *)
Lemma validate_destination_reads d tok a : preserves eq (validate_destination d tok a).
Proof. rw /validate_destination /vret /vfail /account_get /token_user_status_get. solve_frame. Qed.
Lemma validate_transactions_reads ts tok a tot fee :
  preserves eq (validate_transactions ts tok a tot fee).
Proof.
  induction ts as [|t ts IH]; cbn [validate_transactions]; rw /vbind /vret;
    pose proof validate_destination_reads; repeat frame_step; auto.
Qed.

Lemma GetEntry_covers k u tok e n (t : table Account) :
  GetEntry u tok = Some e -> mdb_get k t = Some (UserAccount u) -> 0 <= n <= te_balance e ->
  covers tok k n t.
Proof.
  rw /GetEntry. destruct (entries u) as [|x es] eqn:He.
  - destruct indeterminate; [|done]. intros [= <-] _ Hn. left. cbn in Hn. lia.
  - intros Hf Hk Hn. right. exists u, e. rw He. split_and!; [done..|lia].
Qed.

(** The destination of an accepted transfer is a user. *)
Definition user_at (k : AccountAddress) (t : table Account) : Prop :=
  exists u, mdb_get k t = Some (UserAccount u).
Lemma destination_passes d tok a (l : Ledger) :
  passes (validate_destination d tok a) (fun l' => l' = l /\ user_at d (account_db l)) l.
Proof.
  apply (wpg_mono _ _ (fun v l' => (v = Valid -> user_at d (account_db l)) /\ l = l')).
  - apply (wpg_frame _ eq); [apply validate_destination_reads|]. rw /validate_destination.
    apply wpg_bind, wpg_gets. destruct (mdb_get d _) as [[u|]|] eqn:Hd; [|by apply wpg_ret..].
    apply (passes_any _ (user_at d (account_db l))). by exists u.
  - intros v l' [Hu ->]. auto.
Qed.
Lemma transactions_pass ts tok a tot fee (l : Ledger) :
  passes (validate_transactions ts tok a tot fee)
    (fun l' => l' = l /\ Forall (fun t => user_at (destination t) (account_db l)) ts) l.
Proof.
  induction ts as [|t ts IH]; cbn [validate_transactions].
  - apply passes_ret. intros _. split; [done|constructor].
  - do 2 apply passes_vbind. eapply passes_mono; [apply destination_passes|].
    intros l' [-> Hu]. apply passes_ret. intros _. eapply passes_mono; [exact IH|].
    intros l' [-> Hts]. split; [done|]. by constructor.
Qed.

(** What ValidateTokenAdminRequest establishes. *)
Lemma admin_passes q info (l : Ledger) :
  passes (ValidateTokenAdminRequest q info) (fun l' => l' = l /\ exists a, info = TokenAcct a /\
    ((forall s x, tr_body q <> Revoke s x) -> Validate_token_account q a = Valid)) l.
Proof.
  rw /ValidateTokenAdminRequest. destruct info as [|a]; [apply passes_fail|].
  destruct (GetController _ _); [|apply passes_fail].
  destruct (IsAuthorized _ _) as [[]|]; [|apply passes_fail|done].
  destruct (negb _); [apply passes_fail|].
  destruct (tr_body q) eqn:Hq; apply passes_ret; intros Hv; split; try done; exists a;
    split; try done; intros Hn; try done.
  by destruct (Hn source transaction).
Qed.

(** What ValidateTokenTransfer establishes. *)
Definition placed (r : Request) (t : table Account) : Prop :=
  forall k, involves r k = true -> user_at k t.

Lemma revoke_passes q source x info (l : Ledger) :
  tr_body q = Revoke source x -> 0 <= t_amount x -> t_amount x <> 0 ->
  passes (ValidateTokenTransfer q info) (fun _ =>
    covers (tr_token_id q) source (t_amount x) (account_db l) /\
    placed (RToken q) (account_db l)) l.
Proof.
  intros Hq H0 Hx. rw /ValidateTokenTransfer {1}/GetTokenTotal Hq.
  destruct (Z.eqb_spec (t_amount x) 0); [done|]. destruct info as [|a]; [apply passes_fail|].
  apply wpg_bind. rw /GetSource Hq. apply wpg_gets.
  destruct (mdb_get source (account_db l)) as [src|] eqn:Hs; [|apply passes_fail].
  apply passes_vbind. eapply passes_mono; [apply destination_passes|].
  intros l' [-> Hd]. destruct src as [u|]; [|done]. apply passes_ret.
  rw /Validate_user_account Hq /Revoke_Validate_info.
  destruct (GetEntry u _) as [e'|] eqn:He'; [|done].
  intros Hv%require_valid. split; [eapply GetEntry_covers; [done..|lia]|].
  intros k. cbn [involves]. rw Hq. intros [Hk|Hk]%orb_true_iff; apply Z.eqb_eq in Hk as <-; [|done].
  by exists u.
Qed.
Lemma token_send_passes q ts fee info (l : Ledger) :
  tr_body q = TokenSend ts fee -> mdb_get (rq_origin (tr_base q)) (account_db l) = Some info ->
  (GetTokenTotal (RToken q) = 0 -> ts = []) ->
  passes (ValidateTokenTransfer q info) (fun _ =>
    covers (tr_token_id q) (rq_origin (tr_base q)) (GetTokenTotal (RToken q)) (account_db l) /\
    placed (RToken q) (account_db l)) l.
Proof.
  intros Hq Hk H0. rw /ValidateTokenTransfer Hq.
  destruct (Z.eqb_spec (GetTokenTotal (RToken q)) 0) as [Hz|Hz].
  { apply passes_ret. intros _. split; [by left|]. intros k. cbn [involves].
    by rw Hq (H0 Hz). }
  apply wpg_bind. rw /token_account_get. apply wpg_bind. apply wpg_gets.
  destruct (mdb_get (tr_token_id q) (account_db l)) as [[|a]|]; [done| |apply passes_fail].
  apply wpg_ret. destruct info as [u|]; [|apply passes_fail].
  destruct (GetEntry u _) as [e'|] eqn:He'; [|apply passes_fail].
  do 2 apply passes_vbind. apply passes_ret. intros _.
  eapply passes_mono; [apply transactions_pass|].
  intros l' [-> Hts]. apply passes_ret. rw /Validate_user_account Hq /TokenSend_Validate_info He'.
  intros Hv%require_valid. split.
  - eapply GetEntry_covers; [done..|]. split; [|lia]. rw /GetTokenTotal Hq. apply amt_add_width.
  - intros k. cbn [involves]. rw Hq. intros (t & Hin & Ht)%existsb_exists.
    apply list_elem_of_In in Hin. eapply Forall_forall in Hts; [|done].
    by apply Z.eqb_eq in Ht as <-.
Qed.
(** Distributions and withdrawals of fees. *)
Lemma admin_transfer_passes q info (l : Ledger) :
  match tr_body q with
  | Distribute x | WithdrawFee x => t_amount x <> 0
  | Revoke _ _ | TokenSend _ _ => False
  | _ => True
  end ->
  passes (ValidateTokenTransfer q info) (fun _ => placed (RToken q) (account_db l)) l.
Proof.
  intros Hq. rw /placed /involves.
  destruct (tr_body q) as [| | | | | | | | | |x|x| |] eqn:E; try done;
    try (apply passes_any; intros k; done);
    rw /ValidateTokenTransfer /GetTokenTotal E; destruct (Z.eqb_spec (t_amount x) 0); try done;
    (destruct info as [|a]; [apply passes_fail|]); rw /GetDestination E;
    (destruct (_ =? 0); [apply passes_fail|]); apply passes_vbind;
    (eapply passes_mono; [apply destination_passes|]); intros l' [-> Hu]; apply passes_any;
    by intros k <-%Z.eqb_eq.
Qed.
End Transfers.

(** ** Validation of a request *)
Section Validation.
Context {L : Lmdb} {LL : LmdbLaws L} {B : Blake2b} {I : Indeterminate}.
Variables (ENABLE_ELECTIONS : bool) (bad_signature : Request -> bool).

Lemma Request_wf_amounts r : Request_wf r -> request_amounts_ok r.
Proof.
  destruct r as [|s|q|]; try done. intros (_ & _ & Hb). cbn in *. rw /amounts_ok.
  destruct (tr_body q); try done; cbn in Hb; rw /Transaction_wf in Hb; try solve [naive_solver|by apply Hb].
  destruct Hb as (Hts & _ & Hfee). split; [|by apply Hfee].
  eapply Forall_impl; [exact Hts|]. intros t [_ Ht]. apply Ht.
Qed.

Lemma Validate_alone_token q :
  Validate_alone (RToken q) = Valid -> tr_token_id q <> 0 /\ body_Validate q = Valid.
Proof.
  intros [[_ Hid%require_valid]%and_then_valid Hb]%and_then_valid. split; [|done].
  by destruct (Z.eqb_spec (tr_token_id q) 0).
Qed.

Lemma issue_no_overflow total amount :
  in_width 128 total -> in_width 128 amount ->
  negb (amt_add total amount <? total) = true -> total + amount < 2 ^ 128.
Proof.
  rw /in_width. intros Ht Ha Hlt%negb_true_iff. apply Z.ltb_ge in Hlt.
  destruct (Z.lt_ge_cases (total + amount) (2 ^ 128)) as [|Hge]; [done|].
  rw /amt_add /u128 /wrap -(Z.mod_add _ (-1)) // Z.mod_small in Hlt; lia.
Qed.

Lemma admin_backed q a (l : Ledger) :
  accounts_ok (account_db l) -> amounts_ok (tr_body q) -> tr_token_id q <> 0 ->
  IsTokenAdminRequest (tr_body q) = true ->
  mdb_get (tr_token_id q) (account_db l) = Some (TokenAcct a) ->
  ((forall s x, tr_body q <> Revoke s x) -> Validate_token_account q a = Valid) ->
  (forall s x, tr_body q = Revoke s x ->
     covers (tr_token_id q) s (t_amount x) (account_db l)) ->
  backed (RToken q) (account_db l).
Proof.
  intros Hok Hamt Hid Had Hk Hv Hs. split; [done|]. rw /Validate_token_account in Hv.
  rw /amounts_ok in Hamt. destruct (Hok _ _ Hk) as (_ & _ & Hw).
  destruct (tr_body q) eqn:Hq; try done; exists a; split; try done;
    try (specialize (Hv ltac:(done)); apply require_valid in Hv).
  - by apply issue_no_overflow.
  - by apply Hs.
  - lia.
  - lia.
  - lia.
Qed.

(** What is known of a request that was accepted against the accounts [t]. *)
Definition fresh (r : Request) (t : table Account) : Prop :=
  forall tok, issues r = Some tok -> mdb_get tok t = None.
Definition accepted (r : Request) (t : table Account) : Prop :=
  backed r t /\ placed r t /\ fresh r t.

(** A transfer of amounts that are not 0 and do not overflow is empty if its
    total is 0. *)
Lemma empty_total q ts fee :
  tr_body q = TokenSend ts fee -> amounts_ok (tr_body q) -> safe (RToken q) ->
  body_Validate q = Valid -> GetTokenTotal (RToken q) = 0 -> ts = [].
Proof.
  intros Hq Hamt Hs Hb Hz. rw Hq in Hamt. destruct Hamt as [Hts Hf]. rw /safe Hq in Hs.
  rw (GetTokenTotal_small q ts fee) // in Hz; [|apply Hs].
  rw /body_Validate Hq in Hb. apply require_valid in Hb. destruct ts as [|t ts]; [done|].
  apply Forall_cons in Hts as [Ht Hts]. rw sumZ_cons in Hz.
  pose proof (sumZ_nonneg t_amount ts Hts). cbn in Hb. apply andb_true_iff in Hb as [Hn _].
  rw /ValidateTokenAmount in Hn. destruct (Z.eqb_spec (t_amount t) 0); [done|lia].
Qed.

Lemma ValidateBody_accepted r info cur (l : Ledger) :
  accounts_ok (account_db l) -> request_amounts_ok r -> safe r -> Validate_alone r = Valid ->
  mdb_get (GetAccount r) (account_db l) = Some info ->
  passes (ValidateBody ENABLE_ELECTIONS r info cur) (fun _ => accepted r (account_db l)) l.
Proof.
  intros Hok Hamt Hs Hv Hk. destruct r as [g|s|q|c]; try by apply passes_any.
  destruct (Validate_alone_token q Hv) as [Hid Hb]. cbn [ValidateBody].
  destruct (IsTokenAdminRequest (tr_body q)) eqn:Had.
  - assert (HK : GetAccount (RToken q) = tr_token_id q) by (cbn; by destruct (tr_body q)).
    assert (Hf : fresh (RToken q) (account_db l)).
    { intros tok. cbn [issues]. by destruct (tr_body q). }
    rw HK in Hk.
    assert (passes (ValidateTokenAdminRequest q info >>& ValidateTokenTransfer q info)
      (fun _ => accepted (RToken q) (account_db l)) l) as Hpass; [|by destruct (tr_body q)].
    apply passes_vbind. eapply passes_mono; [apply admin_passes|].
    intros ? (-> & a & -> & Ha). change (amounts_ok (tr_body q)) in Hamt.
    assert (Hn : match tr_body q with
                 | Revoke _ x | Distribute x | WithdrawFee x => t_amount x <> 0
                 | _ => True end).
    { rw /body_Validate in Hb. destruct (tr_body q); try done; apply require_valid in Hb;
        rw /ValidateTokenAmount in Hb; by destruct (Z.eqb_spec (t_amount transaction) 0). }
    destruct (tr_body q) eqn:Hq.
    all: try (eapply passes_mono; [apply admin_transfer_passes; rw Hq; done|]; intros l' Hp;
              split_and!; try done; eapply admin_backed; rw ?Hq; done).
    eapply passes_mono; [eapply revoke_passes; [done|apply Hamt|done]|].
    intros l' [Hc Hp]. split_and!; try done. eapply admin_backed; rw ?Hq //.
    by intros ? ? [= <- <-].
  - destruct (tr_body q) eqn:Hq; try done.
    + apply wpg_bind, wpg_gets. apply passes_ret. intros Hm%require_valid.
      assert (Hnone : mdb_get (tr_token_id q) (account_db l) = None).
      { move: Hm. rw /missing. by destruct (mdb_get (tr_token_id q) (account_db l)). }
      cbn in Hk. rw Hq in Hk. split_and!.
      * split; [done|]. rw Hq Hnone. split_and!; [congruence|done|]. intros tok.
        by rw /value_at Hnone.
      * intros k. cbn. by rw Hq.
      * intros tok. cbn. rw Hq. by intros [= <-].
    + cbn in Hk. rw Hq in Hk. eapply passes_mono; [eapply token_send_passes; [done..|]|].
      * by eapply empty_total.
      * intros l' [Hc Hp]. split_and!; [split; [done|by rw Hq]|done|]. intros tok. cbn. by rw Hq.
Qed.

Lemma ValidateFunds_accounts r info cur : preserves same_accounts (ValidateFunds r info cur).
Proof. rw /ValidateFunds /vfail /vret. solve_frame. Qed.

(** What the switch over the type establishes holds of a request that is the
    next of its account. *)
Lemma ValidateOnAccount_body (P : Prop) r info cur dup (l : Ledger) :
  (forall l1, same_accounts l l1 ->
     passes (ValidateBody ENABLE_ELECTIONS r info cur) (fun _ => P) l1) ->
  passes (ValidateOnAccount ENABLE_ELECTIONS r info cur dup)
    (fun _ => rq_previous (base_of r) = Account_head info -> P) l.
Proof.
  intros HP. rw /ValidateOnAccount.
  destruct (Z.eqb_spec (rq_previous (base_of r)) (Account_head info)) as [Hp|Hp]; cbn [negb].
  - do 2 apply passes_vbind. apply passes_ret. intros _.
    eapply passes_mono; [apply passes_frame, ValidateFunds_accounts|]. intros l' Hl'.
    by eapply passes_mono; [by apply HP|].
  - by apply passes_any.
Qed.

(** Managers with the same ledger. *)
Definition same_ledger (m m' : Manager) : Prop := ledger m' = ledger m.
#[global] Instance same_ledger_preorder : PreOrder same_ledger.
Proof. split; [done|intros ? ? ?; rw /same_ledger; congruence]. Qed.
Lemma in_cache_ledger {A} (k : M Cache A) : preserves same_ledger (in_cache k).
Proof. intros m. rw /wpg /in_cache. by destruct (k (reservations m)) as [[]|]. Qed.
Lemma in_ledger_wpg {A} H (k : M Ledger A) (Q : A -> Manager -> Prop) m :
  wpg H k (fun a l => Q a (Build_Manager L l (reservations m))) (ledger m) ->
  wpg H (in_ledger k) Q m.
Proof. rw /wpg /in_ledger. by destruct (k (ledger m)) as [[]|]. Qed.
Lemma ValidateReservations_ledger r dup ce :
  preserves same_ledger (ValidateReservations r dup ce).
Proof.
  pose proof (fun A => @in_cache_ledger A). rw /ValidateReservations /vbind /vret.
  repeat frame_step; auto.
Qed.

Lemma ValidateRequest_body (P : Account -> Prop) r cur ce dup m :
  (forall info l1, same_accounts (ledger m) l1 ->
     mdb_get (GetAccount r) (account_db (ledger m)) = Some info -> Validate_alone r = Valid ->
     passes (ValidateBody ENABLE_ELECTIONS r info cur) (fun _ => P info) l1) ->
  passes (ValidateRequest ENABLE_ELECTIONS bad_signature r cur ce dup false) (fun _ =>
    exists info, mdb_get (GetAccount r) (account_db (ledger m)) = Some info /\
      (rq_previous (base_of r) = Account_head info -> P info)) m.
Proof.
  intros HP. rw /ValidateRequest. apply wpg_bind, in_ledger_wpg, wpg_gets.
  destruct m as [l res]. cbn [ledger reservations] in *.
  do 4 apply passes_vbind. apply passes_ret. intros _. apply passes_ret. intros _.
  apply passes_ret. intros Hv. apply wpg_bind, in_ledger_wpg, wpg_gets.
  apply passes_ret. intros _. apply wpg_bind, in_ledger_wpg, wpg_gets.
  cbn [ledger reservations].
  destruct (mdb_get (GetAccount r) (account_db l)) as [info|] eqn:Hk; [|apply passes_fail].
  apply passes_vbind. eapply passes_mono; [apply passes_frame, ValidateReservations_ledger|].
  intros [l' res'] Hl'. rw /same_ledger /= in Hl'. subst l'. apply in_ledger_wpg.
  eapply wpg_mono; [apply (ValidateOnAccount_body (P info)); auto|]. intros v l' Ha Hvalid.
  exists info. auto.
Qed.

(** A request that ValidateRequest accepted is a duplicate or the next of its
    account, and then what it needs is there. *)
Definition validated (r : Request) (t : table Account) : Prop :=
  exists info, mdb_get (GetAccount r) t = Some info /\
    (rq_previous (base_of r) = Account_head info -> accepted r t).
Lemma ValidateRequest_validated r cur ce dup m :
  accounts_ok (account_db (ledger m)) -> request_amounts_ok r -> safe r ->
  passes (ValidateRequest ENABLE_ELECTIONS bad_signature r cur ce dup false)
    (fun _ => validated r (account_db (ledger m))) m.
Proof.
  intros Hok Hamt Hs. apply ValidateRequest_body. intros info l1 Hl1 Hk Hv.
  rw -Hl1 in Hok Hk |- *. by apply ValidateBody_accepted.
Qed.
End Validation.
