(* ===== verification/TokenBlocks.v ===== *)
(** * Request blocks conserve the supply of tokens

    The requests of a block are validated against the same ledger and applied
    one after the other. The reservations that ValidateBatch makes keep two of
    them from drawing on the same balance, so that what one was promised is
    still there when its turn comes. *)
From stdpp Require Import base list numbers strings gmap ssreflect.
From S2P Require Import Prelude Serial Lmdb StakingTypes Requests Epochs BlockStore VotingPower AccountInfo Staking EpochRewards Governance Reservations TokenTypes TokenRequests TokenFormats Ledger Transfers RequestValidation TokenSupply TokenEntries TokenConservation TokenBacking.
Import ConsensusReservations.
Open Scope Z_scope.
Open Scope validation_scope.

(** ** Requests that do not get in each other's way *)
Record distinct (r r' : Request) : Prop := {
  distinct_accounts : GetAccount r <> GetAccount r';
  distinct_draws : forall k tok, drawn_on r k tok = true -> drawn_on r' k tok = false;
  distinct_issues : forall tok, issues r = Some tok -> issues r' <> Some tok;
}.

Section Stability.
Context {L : Lmdb} {LL : LmdbLaws L} {B : Blake2b}.

(** [r], accepted against [t0], waits while [t0] becomes [t]. *)
Definition pending (t0 t : table Account) (r : Request) : Prop :=
  exists info0 info, mdb_get (GetAccount r) t0 = Some info0 /\
    mdb_get (GetAccount r) t = Some info /\ Account_head info = Account_head info0 /\
    (rq_previous (base_of r) = Account_head info0 -> accepted r t0 /\ backed r t).

Lemma validated_pending r t : validated r t -> pending t t r.
Proof. intros (info & Hk & Ha). exists info, info. split_and!; try done. intros Hp. by split; apply Ha. Qed.

(** Accounts of [t0] that another request [r] leaves standing. *)
Lemma known_row r t0 t t' k :
  fresh r t0 -> applied r t t' -> k <> GetAccount r -> is_Some (mdb_get k t0) ->
  row_le (drawn_on r k) (involves r k) (mdb_get k t) (mdb_get k t').
Proof.
  intros Hf [Hr _] Hne [a0 Ha0]. apply Hr; [done|]. intros Hi. apply Hf in Hi. congruence.
Qed.

Lemma covers_step r t0 t t' tok k n :
  fresh r t0 -> applied r t t' -> drawn_on r k tok = false ->
  covers tok k n t0 -> covers tok k n t -> covers tok k n t'.
Proof.
  intros Hf Ha Hd [|(u0 & e0 & Hu0 & _)]; [by left|]. intros [|(u & e & Hu & He & Hn)]; [by left|].
  right. assert (exists u', mdb_get k t' = Some (UserAccount u') /\
    entries_le (drawn_on r k) (entries u) (entries u')) as (u' & Hu' & Hle).
  { destruct (decide (k = GetAccount r)) as [->|Hne].
    - destruct Ha as [_ Hown]. destruct (Hown _ Hu) as ([u'|] & Hu' & Ho); [|done]. by exists u'.
    - pose proof (known_row r t0 t t' k Hf Ha Hne ltac:(by rw Hu0)) as Hrow.
      rw Hu in Hrow. destruct (mdb_get k t') as [[u'|]|]; [|done..].
      exists u'. split; [done|]. apply Hrow. }
  destruct (Hle tok e Hd He) as (e' & He' & Hle'). exists u', e'. split_and!; [done..|lia].
Qed.

(** A request keeps what it was promised while others are applied. *)
Lemma backed_step r' r t0 t t' :
  fresh r t0 -> placed r t0 -> is_Some (mdb_get (GetAccount r) t0) -> applied r t t' ->
  distinct r r' -> is_Some (mdb_get (GetAccount r') t0) -> accepted r' t0 -> backed r' t ->
  backed r' t'.
Proof.
  intros Hf Hp [a Ha] Happ Hd Hk' (Hb0 & Hp' & Hf') Hb. destruct r' as [| |q|]; [done..| |done].
  destruct Hb as [Hid Hb]. split; [done|]. destruct Hb0 as [_ Hb0].
  assert (Hdraw : forall k, drawn_on (RToken q) k (tr_token_id q) = true ->
    drawn_on r k (tr_token_id q) = false).
  { intros k Hk. destruct (drawn_on r k _) eqn:E; [|done]. by rw (distinct_draws _ _ Hd) in Hk. }
  assert (Hadmin : GetAccount (RToken q) = tr_token_id q -> forall a0,
    mdb_get (tr_token_id q) t = Some (TokenAcct a0) ->
    exists a', mdb_get (tr_token_id q) t' = Some (TokenAcct a') /\
      total_supply a' = total_supply a0 /\ token_balance a' = token_balance a0 /\
      token_fee_balance a0 <= token_fee_balance a').
  { intros HK a0 Ha0. rw HK in Hk'. assert (Hne : tr_token_id q <> GetAccount r).
    { rw -HK. apply not_eq_sym, Hd. }
    pose proof (known_row r t0 t t' _ Hf Happ Hne Hk') as Hrow. rw Ha0 in Hrow.
    destruct (mdb_get _ t') as [[|a']|]; [done| |done]. exists a'. by destruct Hrow as (_ & ? & ? & ?). }
  cbn [drawn_on GetAccount] in Hdraw, Hadmin.
  destruct (tr_body q) eqn:Hq;
    [|destruct Hb as (a0 & Ha0 & Hb); destruct (Hadmin eq_refl a0 Ha0) as (a' & Ha' & Hs & Ht & Hfee);
      exists a'; split; [done|]; try done; try lia..|].
  - destruct Hb as (Hne & Hu & Hz). split; [done|].
    assert (Hnone : mdb_get (tr_token_id q) t0 = None) by (apply Hf'; cbn; by rw Hq).
    destruct Happ as [Hrows _]. assert (Hrow := Hrows (tr_token_id q)).
    assert (Hinv : involves r (tr_token_id q) = false).
    { destruct (involves r _) eqn:E; [|done]. apply Hp in E as [u Hu']. congruence. }
    rw Hinv in Hrow. specialize (Hrow ltac:(congruence)).
    assert (Hiss : issues r <> Some (tr_token_id q)).
    { intros Hi. apply (distinct_issues _ _ Hd) in Hi. cbn in Hi. by rw Hq in Hi. }
    specialize (Hrow Hiss). rw /value_at in Hz |- *.
    destruct (mdb_get _ t) as [[u|]|]; [|done|]; destruct (mdb_get _ t') as [[u'|]|]; try done.
    + split; [done|]. cbn in *. by apply Hrow.
    + split; [done|]. cbn in *. by apply Hrow.
  - destruct Hb0 as (a1 & _ & Hc0). apply (covers_step r t0 t); try done. apply Hdraw.
    by rw !Z.eqb_refl.
  - apply (covers_step r t0 t); try done. apply Hdraw. by rw !Z.eqb_refl.
Qed.

Lemma pending_step r' r t0 t t' :
  fresh r t0 -> placed r t0 -> is_Some (mdb_get (GetAccount r) t0) -> applied r t t' ->
  distinct r r' -> pending t0 t r' -> pending t0 t' r'.
Proof.
  intros Hf Hp Hk Happ Hd (info0 & info & Hk0 & Hkt & Hh & Ha).
  assert (Hrow := known_row r t0 t t' (GetAccount r') Hf Happ (not_eq_sym (distinct_accounts _ _ Hd))
                    ltac:(by rw Hk0)).
  rw Hkt in Hrow. assert (exists info', mdb_get (GetAccount r') t' = Some info' /\
    Account_head info' = Account_head info) as (info' & Hk' & Hh').
  { destruct info as [u|a], (mdb_get _ t') as [[u'|a']|]; try done; eexists; (split; [done|]);
      apply Hrow. }
  exists info0, info'. split_and!; [done..|congruence|]. intros Hprev.
  destruct (Ha Hprev) as [Hacc Hb]. split; [done|].
  eapply (backed_step r' r t0 t t'); try done.
Qed.

Lemma ApplyRequests_tokens now committed timestamp epoch t0 rs : forall l,
  tokens_ok (account_db l) -> Forall request_amounts_ok rs -> Forall safe rs ->
  Forall (pending t0 (account_db l)) rs -> ForallOrdPairs distinct rs ->
  wlp (ApplyRequests now committed rs timestamp epoch) (fun _ l' => tokens_ok (account_db l')) l.
Proof.
  induction rs as [|r rs IH]; intros l Hl Hamt Hs Hp Hd; cbn [ApplyRequests]; [by apply wpg_ret|].
  apply Forall_cons in Hamt as [Hamt Hamts]. apply Forall_cons in Hs as [Hs Hss].
  apply Forall_cons in Hp as [(info0 & info & Hk0 & Hk & Hh & Ha) Hps].
  inversion Hd as [|? ? Hdr Hds]; subst. apply wpg_bind.
  destruct (decide (rq_previous (base_of r) = Account_head info)) as [Hprev|Hprev].
  - rw Hh in Hprev. destruct (Ha Hprev) as [(_ & Hpl & Hf) Hb].
    eapply wpg_mono; [apply ApplyRequest_tokens; try done|].
    { by intros info' Hk' _. }
    intros ? l' [Hl' Happ]. apply IH; try done. apply Forall_forall. intros r' Hin.
    apply (pending_step r' r t0 (account_db l)); try done.
    + by eapply List.Forall_forall in Hdr; [|apply list_elem_of_In].
    + by eapply Forall_forall in Hps.
  - eapply wpg_mono; [by eapply ApplyRequest_skips|]. intros ? l' ->. by apply IH.
Qed.
End Stability.

(** ** What the reservations of a batch exclude *)
Section Reserving.
Context {L : Lmdb} {LL : LmdbLaws L} {B : Blake2b} {I : Indeterminate}.
Variables (ENABLE_ELECTIONS : bool) (bad_signature : Request -> bool).

(** The accounts a request reserves. *)
Definition reserves (r : Request) (a : AccountAddress) : Prop :=
  a = GetAccount r \/ exists t, needs_source r = Some t /\
    a = GetTokenUserID (tr_token_id t) (GetSource t).
Lemma drawn_reserves r k tok : drawn_on r k tok = true -> reserves r (GetTokenUserID tok k).
Proof.
  destruct r as [| |q|]; try done. cbn. intros Hd. right. exists q. rw /GetSource. cbn.
  destruct (tr_body q); try done; apply andb_true_iff in Hd as [<-%Z.eqb_eq <-%Z.eqb_eq]; done.
Qed.

Lemma CanAcquire_passes a h dup ce (s : Cache) :
  wlp (CanAcquire a h dup ce) (fun b s' => b = true -> s' = s /\ may_acquire a h dup ce s) s.
Proof.
  destruct (CanAcquire_run a h dup ce s) as (b & s' & Hr & Hiff & Hsame & _).
  rw /wpg Hr. intros ->. split; [by apply Hsame|by apply Hiff].
Qed.
Lemma in_cache_wpg {A} H (k : M Cache A) (Q : A -> Manager -> Prop) m :
  wpg H k (fun a c => Q a (Build_Manager L (ledger m) c)) (reservations m) ->
  wpg H (in_cache k) Q m.
Proof. rw /wpg /in_cache. by destruct (k (reservations m)) as [[]|]. Qed.
Lemma UpdateReservation_inserts h a ce (s : Cache) :
  wlp (UpdateReservation h a ce) (fun _ s' =>
    cache s' = <[a := Build_reservation_info h ce]> (cache s)) s.
Proof.
  rw /UpdateReservation. apply wpg_bind, wpg_gets. apply wpg_bind.
  eapply (wpg_mono _ _ (fun _ s' => s' = s)).
  - repeat case_match; by try apply wpg_massert.
  - intros ? s' ->. by apply wpg_modify.
Qed.

Lemma reservations_pass r dup ce (m : Manager) :
  passes (ValidateReservations r dup ce) (fun m' => m' = m /\
    forall a, reserves r a -> may_acquire a (request_hash r) dup ce (reservations m)) m.
Proof.
  destruct m as [l c]. rw /ValidateReservations. apply wpg_bind, in_cache_wpg.
  eapply wpg_mono; [apply CanAcquire_passes|]. intros b c1 Hb. apply passes_vbind, passes_ret.
  intros ->%require_valid. destruct (Hb eq_refl) as [-> Hm]. cbn [reservations ledger] in *.
  destruct (needs_source r) as [t|] eqn:Ht.
  - apply wpg_bind, in_cache_wpg. eapply wpg_mono; [apply CanAcquire_passes|].
    intros b' c2 Hb'. apply passes_ret. intros ->%require_valid. destruct (Hb' eq_refl) as [-> Hm'].
    split; [done|]. intros a [->|(t' & Ht' & ->)]; [done|]. by assert (t' = t) as -> by congruence.
  - apply passes_ret. intros _. split; [done|]. intros a [->|(t' & Ht' & ->)]; [done|]. congruence.
Qed.

(** Validation changes neither the accounts nor the reservations. *)
Lemma ValidateOnAccount_accounts r info cur dup :
  preserves same_accounts (ValidateOnAccount ENABLE_ELECTIONS r info cur dup).
Proof.
  rw /ValidateOnAccount /vret /vbind /vfail. pose proof ValidateFunds_accounts.
  assert (forall d tok a, preserves same_accounts (validate_destination d tok a)).
  { intros. rw /validate_destination /vret /vfail /account_get /token_user_status_get. solve_frame. }
  assert (forall ts tok a tot fee, preserves same_accounts (validate_transactions ts tok a tot fee)).
  { intros ts ????. induction ts; cbn [validate_transactions]; rw /vbind /vret;
      repeat frame_step; auto. }
  assert (Htr : forall q, preserves same_accounts (ValidateTokenTransfer q info)).
  { intros. rw /ValidateTokenTransfer /vbind /vret /vfail /token_account_get /account_get.
    repeat frame_step; auto. }
  assert (Had : forall q, preserves same_accounts (ValidateTokenAdminRequest q info)).
  { intros. rw /ValidateTokenAdminRequest /vret /vfail. solve_frame. }
  assert (preserves same_accounts (ValidateBody ENABLE_ELECTIONS r info cur)).
  { rw /ValidateBody /ValidateClaim /epoch_number_stored /vbind /vret /vfail /account_exists.
    repeat frame_step; auto. }
  repeat frame_step; auto.
Qed.
Lemma ValidateRequest_passes r cur ce dup m :
  passes (ValidateRequest ENABLE_ELECTIONS bad_signature r cur ce dup false) (fun m' =>
    reservations m' = reservations m /\ same_accounts (ledger m) (ledger m') /\
    forall a, reserves r a -> may_acquire a (request_hash r) dup ce (reservations m)) m.
Proof.
  rw /ValidateRequest. apply wpg_bind, in_ledger_wpg, wpg_gets.
  destruct m as [l res]. cbn [ledger reservations] in *.
  do 4 apply passes_vbind. apply passes_ret. intros _. apply passes_ret. intros _.
  apply passes_ret. intros _. apply wpg_bind, in_ledger_wpg, wpg_gets.
  apply passes_ret. intros _. apply wpg_bind, in_ledger_wpg, wpg_gets.
  cbn [ledger reservations]. destruct (mdb_get _ _) as [info|]; [|apply passes_fail].
  apply passes_vbind. eapply passes_mono; [apply reservations_pass|]. intros m' [-> Hm].
  apply in_ledger_wpg. eapply wpg_mono; [apply ValidateOnAccount_accounts|]. by intros v l' Hl' _.
Qed.

(** [a] is reserved in epoch [ce] for the request of hash [h]. *)
Definition reserved_in (ce : Z) (a : AccountAddress) (h : BlockHash) (m : Manager) : Prop :=
  cache (reservations m) !! a = Some (Build_reservation_info h ce).

(** An accepted request has its reservations, and found them free or its own. *)
Lemma ValidateAndUpdate_passes r cur ce m :
  0 <= ce -> ce + RESERVATION_PERIOD < 2 ^ 32 ->
  passes (ValidateAndUpdate ENABLE_ELECTIONS bad_signature r cur ce true) (fun m' =>
    same_accounts (ledger m) (ledger m') /\
    (forall a, reserves r a -> reserved_in ce a (request_hash r) m') /\
    forall a h, reserved_in ce a h m ->
      reserved_in ce a h m' /\ (reserves r a -> request_hash r = h)) m.
Proof.
  rw /RESERVATION_PERIOD. intros Hce Hw. apply passes_vbind.
  eapply passes_mono; [apply ValidateRequest_passes|]. intros [l1 c1] (Hres & Hacc & Hm).
  cbn [ledger reservations] in *. subst c1.
  assert (Hown : forall a h, reserved_in ce a h m -> reserves r a -> request_hash r = h).
  { intros a h Ha Hr. specialize (Hm a Hr). move: Hm. rw /may_acquire Ha /unexpired. cbn.
    case_decide as Hd; [done|]. rw u32_id /RESERVATION_PERIOD; [lia|rw /in_width; lia]. }
  apply wpg_bind, in_cache_wpg. eapply wpg_mono; [apply UpdateReservation_inserts|].
  cbn [ledger reservations]. intros [] c2 Hc2. apply wpg_bind.
  eapply (wpg_mono _ _ (fun _ m' => ledger m' = l1 /\
    (forall a, reserves r a -> reserved_in ce a (request_hash r) m') /\
    forall a, ~ reserves r a -> cache (reservations m') !! a = cache (reservations m) !! a)).
  - destruct (needs_source r) as [t|] eqn:Ht.
    + apply in_cache_wpg. eapply wpg_mono; [apply UpdateReservation_inserts|].
      cbn [ledger reservations]. intros [] c3 Hc3. rw /reserved_in. cbn [reservations].
      rw Hc3 Hc2. split_and!; [done| |].
      * intros a Ha. destruct (decide (a = GetTokenUserID (tr_token_id t) (GetSource t))) as [->|];
          [by rw lookup_insert_eq|]. rw lookup_insert_ne //.
        destruct Ha as [->|(t' & Ht' & ->)]; [by rw lookup_insert_eq|congruence].
      * intros a Ha. rw !lookup_insert_ne //; intros <-; apply Ha; [by left|right; by exists t].
    + apply wpg_ret. rw /reserved_in. cbn [ledger reservations]. rw Hc2. split_and!; [done| |].
      * intros a [->|(t' & Ht' & _)]; [by rw lookup_insert_eq|congruence].
      * intros a Ha. rw lookup_insert_ne //. intros <-. apply Ha. by left.
  - intros [] m' (Hl & Hk & Hn). apply passes_ret. intros _. rw Hl. split_and!; [done..|].
    intros a h Ha. split; [|by apply Hown].
    destruct (decide (a = GetAccount r)) as [->|Hne].
    { rw -(Hown _ _ Ha ltac:(by left)). apply Hk. by left. }
    destruct (needs_source r) as [t|] eqn:Ht.
    + destruct (decide (a = GetTokenUserID (tr_token_id t) (GetSource t))) as [->|Hne'].
      { rw -(Hown _ _ Ha ltac:(right; by exists t)). apply Hk. right. by exists t. }
      rw /reserved_in Hn //. intros [|(t' & Ht' & ->)]; [done|congruence].
    + rw /reserved_in Hn //. intros [|(t' & Ht' & ->)]; [done|congruence].
Qed.

(** Two requests of an accepted batch that reserve the same account are the same. *)
Definition exclusive (r r' : Request) : Prop :=
  forall a, reserves r a -> reserves r' a -> request_hash r' = request_hash r.

Lemma validate_batch_passes cur ce rs : forall code m,
  0 <= ce -> ce + RESERVATION_PERIOD < 2 ^ 32 -> accounts_ok (account_db (ledger m)) ->
  Forall request_amounts_ok rs -> Forall safe rs ->
  wlp (validate_batch ENABLE_ELECTIONS bad_signature rs cur ce code) (fun res m' =>
    Forall (eq false) res.1 ->
    same_accounts (ledger m) (ledger m') /\
    Forall (fun r => validated r (account_db (ledger m))) rs /\
    ForallOrdPairs exclusive rs /\
    forall a h, reserved_in ce a h m ->
      Forall (fun r => reserves r a -> request_hash r = h) rs) m.
Proof.
  induction rs as [|r rs IH]; intros code m Hce Hw Hok Hamt Hs; cbn [validate_batch].
  { apply wpg_ret. intros _. split_and!; [done|constructor|constructor|]. constructor. }
  apply Forall_cons in Hamt as [Hamt Hamts]. apply Forall_cons in Hs as [Hs Hss].
  apply wpg_bind. eapply (wpg_mono _ _ (fun v m1 => v = Valid ->
    validated r (account_db (ledger m)) /\
    same_accounts (ledger m) (ledger m1) /\
    (forall a, reserves r a -> reserved_in ce a (request_hash r) m1) /\
    forall a h, reserved_in ce a h m ->
      reserved_in ce a h m1 /\ (reserves r a -> request_hash r = h))).
  { eapply wpg_mono; [apply (wpg_conj True);
      [exact (ValidateAndUpdate_passes r cur ce m Hce Hw)|]|].
    - apply passes_vbind. eapply passes_mono; [by apply ValidateRequest_validated|].
      intros m1 Hv. by apply passes_any.
    - cbn. intros v m1 [H1 H2] Hv. split; [by apply H2|by apply H1]. }
  intros v m1 Hv. apply wpg_bind. destruct v as [|c].
  - destruct (Hv eq_refl) as (Hval & Hacc & Hmine & Hkeep).
    eapply wpg_mono; [apply IH; rw ?Hacc; done|]. intros res m2 Hres. apply wpg_ret. cbn.
    intros [_ Hr]%Forall_cons. destruct (Hres Hr) as (Hacc2 & Hval2 & Hex & Hall).
    rw Hacc in Hval2. split_and!.
    + by etransitivity.
    + by constructor.
    + constructor; [|done]. apply List.Forall_forall. intros r' Hin%list_elem_of_In a Ha Ha'.
      specialize (Hall a _ (Hmine a Ha)). eapply Forall_forall in Hall; [|exact Hin]. by apply Hall.
    + intros a h Ha. destruct (Hkeep a h Ha) as [Ha1 Hr1]. constructor; [done|by apply Hall].
  - eapply wpg_mono; [apply returns_any|]. intros res m2 _. apply wpg_ret. cbn.
    by intros [? _]%Forall_cons.
Qed.
End Reserving.

Lemma pairs_distinct `{Lmdb} `{Blake2b} rs :
  ForallOrdPairs exclusive rs -> NoDup (request_hash <$> rs) -> NoDup (omap issues rs) ->
  ForallOrdPairs distinct rs.
Proof.
  induction 1 as [|r rs Hr Hrs IH]; [constructor|]. rw fmap_cons NoDup_cons.
  intros [Hh Hhs] Hi. assert (Hi' : NoDup (omap issues rs)).
  { cbn in Hi. destruct (issues r); [by apply NoDup_cons in Hi as [_ ?]|done]. }
  constructor; [|by apply IH]. apply List.Forall_forall. intros r' Hin.
  assert (Hne : request_hash r' <> request_hash r).
  { intros Heq. apply Hh. rw -Heq. apply list_elem_of_fmap_2. by apply list_elem_of_In. }
  assert (Hex : forall a, reserves r a -> reserves r' a -> False).
  { intros a Ha Ha'. eapply List.Forall_forall in Hr; [|exact Hin]. by apply Hne, (Hr a). }
  split.
  - intros Heq. eapply Hex; [by left|]. by left.
  - intros k tok Hd. destruct (drawn_on r' k tok) eqn:E; [|done].
    exfalso. by eapply Hex; apply drawn_reserves.
  - intros tok Ht Ht'. cbn in Hi. rw Ht in Hi. apply NoDup_cons in Hi as [Hn _]. apply Hn.
    apply list_elem_of_omap. exists r'. by split; [apply list_elem_of_In|].
Qed.

(** ** Confirmed blocks *)
Section Confirmed.
Context {L : Lmdb} {LL : LmdbLaws L} {B : Blake2b}.

(** The locator of a request does not matter. *)
Lemma imap_locate_Forall (P Q : Request -> Prop) rs :
  (forall lc r, P r -> Q (locate lc r)) -> Forall P rs ->
  forall f, Forall Q (imap (fun i r => locate (f i) r) rs).
Proof.
  intros HP. induction 1 as [|r rs Hr Hrs IH]; intros f; [constructor|].
  cbn. constructor; [by apply HP|]. apply (IH (f ∘ S)).
Qed.
Lemma locate_all_Forall (P : Request -> Prop) h rs :
  (forall lc r, P r -> P (locate lc r)) -> Forall P rs -> Forall P (locate_all h rs).
Proof. intros HP Hrs. exact (imap_locate_Forall P P rs HP Hrs (fun i => _)). Qed.
Lemma locate_all_pairs (P : Request -> Request -> Prop) h rs :
  (forall lc lc' r r', P r r' -> P (locate lc r) (locate lc' r')) ->
  ForallOrdPairs P rs -> ForallOrdPairs P (locate_all h rs).
Proof.
  intros HP Hrs. assert (forall f, ForallOrdPairs P (imap (fun i r => locate (f i) r) rs)) as Hall;
    [|apply (Hall (fun i => _))].
  induction Hrs as [|r rs Hr Hrs IH]; intros f; [constructor|].
  cbn. constructor; [|apply (IH (f ∘ S))].
  apply (imap_locate_Forall (P r) (P (locate (f 0%nat) r)) rs); [auto|done].
Qed.
Lemma locate_pending t0 t lc r : pending t0 t r -> pending t0 t (locate lc r).
Proof. by destruct r. Qed.
Lemma locate_amounts lc r : request_amounts_ok r -> request_amounts_ok (locate lc r).
Proof. by destruct r. Qed.
Lemma locate_safe lc r : safe r -> safe (locate lc r).
Proof. by destruct r. Qed.
Lemma locate_distinct lc lc' r r' : distinct r r' -> distinct (locate lc r) (locate lc' r').
Proof. by destruct r, r'; intros []. Qed.

Lemma put_requests_accounts rs : preserves same_accounts (put_requests rs).
Proof.
  induction rs as [|r rs IH]; cbn [put_requests]; [apply preserves_ret; apply _|].
  apply preserves_bind; [apply _| |done]. rw /any_request_put. solve_frame.
Qed.
Lemma request_block_put_accounts b h : preserves same_accounts (request_block_put b h).
Proof. pose proof put_requests_accounts. rw /request_block_put. repeat frame_step; auto. Qed.
Lemma StoreRequestBlock_accounts committed message d :
  preserves same_accounts (StoreRequestBlock committed message d).
Proof.
  pose proof request_block_put_accounts.
  rw /StoreRequestBlock /link_epochs /request_block_update_next /request_block_get
    /request_tip_put. repeat frame_step; auto.
Qed.
Lemma Release_all_ledger rs : preserves same_ledger (Release_all rs).
Proof.
  pose proof (fun A => @in_cache_ledger L A).
  induction rs as [|r rs IH]; cbn [Release_all]; [apply preserves_ret; apply _|].
  apply preserves_bind; [apply _| |done]. rw /Release_request. repeat frame_step; auto.
Qed.

Lemma ApplyUpdates_tokens now message d m :
  let t := account_db (ledger m) in
  tokens_ok t -> Forall request_amounts_ok (rb_requests message) ->
  Forall safe (rb_requests message) -> Forall (pending t t) (rb_requests message) ->
  ForallOrdPairs distinct (rb_requests message) ->
  wlp (ApplyUpdates now message d) (fun _ m' => tokens_ok (account_db (ledger m'))) m.
Proof.
  intros t Hl Hamt Hs Hp Hd. rw /ApplyUpdates. apply wpg_bind, in_ledger_wpg.
  rw /request_block_exists. apply wpg_gets. destruct m as [l c]. cbn [ledger reservations] in *.
  destruct (negb _).
  { eapply wpg_mono; [apply Release_all_ledger|]. by intros ? m' ->. }
  apply wpg_bind, wpg_gets. apply wpg_bind, in_ledger_wpg. cbn [ledger reservations].
  apply wpg_bind. eapply wpg_mono; [apply StoreRequestBlock_accounts|]. intros [] l1 Hl1.
  rw /ApplyRequestBlock. cbn [set_rb_requests rb_requests].
  eapply wpg_mono; [apply (ApplyRequests_tokens _ _ _ _ t)|]; rw ?Hl1 //.
  - apply locate_all_Forall; [apply locate_amounts|done].
  - apply locate_all_Forall; [apply locate_safe|done].
  - apply locate_all_Forall; [apply locate_pending|done].
  - apply locate_all_pairs; [apply locate_distinct|done].
  - intros [] l2 Hl2. eapply wpg_mono; [apply Release_all_ledger|]. by intros [] m' ->.
Qed.
End Confirmed.

(** The requests of a block whose transfers are safe: they are well formed, none
    overflows or goes to its own origin, their hashes differ and they issue
    different tokens. *)
Definition sound_requests `{Blake2b} (rs : list Request) : Prop :=
  Forall Request_wf rs /\ Forall safe rs /\
  NoDup (request_hash <$> rs) /\ NoDup (omap issues rs).

(** C2 A confirmed request block conserves every token. When ValidateBatch accepts
    all the requests of a block against a ledger in which every token is backed
    (what accounts hold, what is undistributed and the fees collected are the
    total supply), ApplyUpdates, which stores the block and applies them one
    after the other, leaves every token backed. The requests have different
    hashes and issue different tokens; no transfer of tokens overflows or goes
    to its own origin. *)
Theorem block_conserves_tokens `{LmdbLaws} `{Blake2b} `{Indeterminate}
    ENABLE_ELECTIONS bad_signature now message d cur ce m rejected boot m' m'' :
  let rs := rb_requests message in
  tokens_ok (account_db (ledger m)) -> sound_requests rs ->
  0 <= ce -> ce + RESERVATION_PERIOD < 2 ^ 32 ->
  ValidateBatch ENABLE_ELECTIONS bad_signature rs cur ce m = Ok ((rejected, boot), m') ->
  Forall (eq false) rejected ->
  ApplyUpdates now message d m' = Ok (tt, m'') ->
  tokens_ok (account_db (ledger m'')).
Proof.
  intros rs Hl (Hwf & Hs & Hh & Hi) Hce Hw Hv Hrej Hrun.
  assert (Hamt : Forall request_amounts_ok rs)
    by (eapply Forall_impl; [exact Hwf|]; apply Request_wf_amounts).
  pose proof (wpg_ok True _ _ _ _ _ (validate_batch_passes ENABLE_ELECTIONS bad_signature cur ce rs
    None m Hce Hw (proj1 Hl) Hamt Hs) Hv Hrej) as (Hacc & Hval & Hex & _).
  refine (wpg_ok True _ _ _ _ _ (ApplyUpdates_tokens now message d m' _ Hamt Hs _ _) Hrun);
    rw ?Hacc //.
  - eapply Forall_impl; [exact Hval|]. intros r. apply validated_pending.
  - by apply pairs_distinct.
Qed.

(** ** A concrete block

    Alice (5) holds 40 of the 100 tokens 7 and sends Bob (6) 10 of them for a
    fee of 2; Carol (8), a controller, distributes 25 to Bob. *)
Section Witness.
#[local] Existing Instance mod_blake2b.
#[local] Existing Instance gmap_lmdb.
#[local] Existing Instance gmap_lmdb_laws.
#[local] Instance no_garbage : Indeterminate := false.

Definition min_fee_amount : Amount := 0x21e19e0c9bab2400000.
Definition user_with (b : Amount) (es : list TokenEntry) : account_info :=
  Build_account_info 0 0 0 0 0 b 0 (Build_RepRecord 0 0) (Build_RepRecord 0 0) 1 es 0 0 0
    (Qreduction.Qred (QArith_base.Qmake 0 1)) b.
Definition token7 : TokenAccount :=
  Build_TokenAccount 0 0 0 0 0 (2 * min_fee_amount) 100 60 0 TokenFeeType.Flat 1 [65] [66] []
    [Build_ControllerInfo 8 (Z.shiftl 1 (ControllerPrivilege.code ControllerPrivilege.Distribute))]
    0 1.
Definition entry7 (n : Amount) : TokenEntry :=
  Build_TokenEntry 7 (Build_TokenUserStatus false false) n.
Definition accounts7 : table Account :=
  mdb_put 5 (UserAccount (user_with (2 * min_fee_amount) [entry7 40]))
    (mdb_put 6 (UserAccount (user_with 0 []))
      (mdb_put 7 (TokenAcct token7)
        (mdb_put 8 (UserAccount (user_with 0 [])) mdb_empty))).
Definition ledger7 : Ledger := set_account_db accounts7 empty_ledger.
Definition manager7 : Manager :=
  Build_Manager _ ledger7 (Build_Cache _ ∅ mdb_empty).
Definition request_by (origin : AccountAddress) (b : TokenBody) : Request :=
  RToken (Build_TokenRequest
            (Build_RequestBase origin 0 min_fee_amount 0 0 0 (Build_Locator 0 0)) 7 b).
Definition block7 : list Request :=
  [request_by 5 (TokenSend [Build_Transaction 6 10] 2);
   request_by 8 (Distribute (Build_Transaction 6 25))].
Definition message7 : ApprovedRB := Build_ApprovedRB 0 3 3 1 90 0 block7 0.

Definition validated7 : result ((list bool * bool) * Manager) :=
  ValidateBatch false (fun _ => false) block7 3 3 manager7.
Definition manager7' : Manager :=
  state_after (ValidateBatch false (fun _ => false) block7 3 3) manager7.
Definition manager7'' : Manager := state_after (ApplyUpdates 100 message7 1) manager7'.

Lemma accounts7_backed : tokens_ok accounts7.
Proof.
  split.
  - rw /accounts7. repeat (apply accounts_ok_put); [by intros k a; rw get_empty|cbn..];
      repeat constructor; done.
  - intros tok. rw /accounts7. rw !circulating_put !supply_put !value_at_put.
    assert (forall k, value_at tok k (mdb_empty : table Account) = 0) as Hz
      by (intros k; by rw /value_at get_empty).
    assert (circulating tok (mdb_empty : table Account) = 0) as -> by done.
    rw !Hz /supply get_empty. cbn -[Z.eqb].
    rw /holdings /held_by. cbn -[Z.eqb]. destruct (Z.eqb_spec 7 tok) as [<-|]; [done|].
    repeat case_match; lia.
Qed.
Lemma block_conserves_tokens_witness :
  tokens_ok (account_db (ledger manager7'')) /\
  map (fun k => value_at 7 k (account_db (ledger manager7''))) [5; 6; 7; 8] = [28; 35; 37; 0].
Proof.
  split; [|by vm_compute].
  apply (block_conserves_tokens false (fun _ => false) 100 message7 1 3 3 manager7 [false; false] false
           manager7' manager7'').
  - exact accounts7_backed.
  - split_and!.
    + repeat constructor; by vm_compute.
    + repeat constructor; by vm_compute.
    + by apply (bool_decide_unpack _); vm_compute.
    + by apply (bool_decide_unpack _); vm_compute.
  - done.
  - done.
  - by_run.
  - by repeat constructor.
  - by_run.
Defined.
End Witness.
