(* ===== verification/TokenAuthority.v ===== *)
(** * Who may change a token account

    The part of a token account that its controllers govern, [authority]: it
    changes only by a request of the account that one of its controllers is
    authorised to make, and a setting that is no longer mutable never changes
    again. *)
From stdpp Require Import base list numbers strings ssreflect.
From S2P Require Import Prelude Serial Lmdb StakingTypes Requests Epochs BlockStore VotingPower AccountInfo Staking EpochRewards Governance Reservations TokenTypes TokenRequests TokenFormats Ledger Transfers RequestValidation TokenSupply TokenConservation TokenBacking TokenBlocks.
Open Scope Z_scope.

Definition authority (a : TokenAccount) :=
  (fee_type a, fee_rate a, symbol a, name a, issuer_info a, controllers a, settings a,
   issuance_request a).

(** What a request of the account makes of it. *)
Definition authority_step (b : TokenBody) (a a' : TokenAccount) : Prop :=
  match b with
  | ChangeSetting s v => authority <$> Set_value a s v = Some (authority a')
  | ImmuteSetting s =>
      authority <$> (m ← GetMutabilitySetting s; Set_bool a m false) = Some (authority a')
  | AdjustFee ft fr => authority a' = authority (set_fee ft fr a)
  | UpdateIssuerInfo i => authority a' = authority (set_issuer_info i a)
  | UpdateController act c =>
      (fun cs => authority (set_controllers cs a)) <$> update_controllers act c (controllers a)
      = Some (authority a')
  | _ => authority a' = authority a
  end.

(** A step depends on no other part of the account. *)
Lemma authority_step_ext a2 b a a' :
  authority a2 = authority (token_extend 0 0 a) -> authority_step b a2 a' -> authority_step b a a'.
Proof.
  intros [= H1 H2 H3 H4 H5 H6 H7 H8]. rw /authority_step /Set_value /Set_bool.
  destruct b; rw /authority; cbn; try congruence; rw ?H7 ?H6.
  - destruct (bit_set _ _ _); [|done]. cbn. congruence.
  - destruct (GetMutabilitySetting _); [|done]. cbn. rw ?H7. destruct (bit_set _ _ _); [|done].
    cbn. congruence.
  - destruct (update_controllers _ _ _); [|done]. cbn. congruence.
Qed.

Section Kept.
Context {L : Lmdb} {LL : LmdbLaws L} {B : Blake2b}.
Variables (now timestamp epoch : Z).

(** Token accounts stay, with the same authority. *)
Definition authority_at (k : AccountAddress) (x : TokenAccount) (l : Ledger) : Prop :=
  exists a, mdb_get k (account_db l) = Some (TokenAcct a) /\ authority a = authority x.
Definition authority_kept (l l' : Ledger) : Prop :=
  forall k a, authority_at k a l -> authority_at k a l'.
#[global] Instance authority_kept_preorder : PreOrder authority_kept.
Proof. split; [by intros l k a|]. intros l1 l2 l3 H12 H23 k a Ha. by apply H23, H12. Qed.
Lemma authority_accounts {A} (m : M Ledger A) :
  preserves same_accounts m -> preserves authority_kept m.
Proof.
  intros Hm l. eapply wpg_mono; [apply Hm|]. intros ? l' Hl k a. by rw /authority_at Hl.
Qed.

(** [x] may replace the account [o]. *)
Definition succeeds (o : option Account) (x : Account) : Prop :=
  forall a, o = Some (TokenAcct a) -> exists a', x = TokenAcct a' /\ authority a' = authority a.
Lemma account_put_authority k x l :
  succeeds (mdb_get k (account_db l)) x ->
  wlp (account_put k x) (fun _ l' => authority_kept l l') l.
Proof.
  intros Hx. rw /account_put. apply wpg_bind. eapply (wpg_mono _ _ (fun _ l' => l' = l)).
  - destruct x; [by apply wpg_ret|]. by apply wpg_massert.
  - intros [] l' ->. apply wpg_modify. intros k' a (a0 & Ha0 & Hauth).
    rw /authority_at. cbn [set_account_db account_db]. rw get_put. case_decide as Hk.
    + subst k'. destruct (Hx _ Ha0) as (a' & -> & Ha'). exists a'. split; [done|congruence].
    + by exists a0.
Qed.

Lemma ApplySend_to_authority send h tok o info idx l :
  wlp (ApplySend_to now send timestamp h tok o epoch info idx)
    (fun x l' => same_accounts l l' /\ succeeds info x) l.
Proof.
  rw /ApplySend_to. apply wpg_bind.
  eapply (wpg_mono _ _ (fun x l' => same_accounts l l' /\ succeeds info x)).
  { destruct info as [x|]; [apply wpg_ret; split; [done|by intros a [= ->]; exists a]|].
    apply wpg_bind, wpg_gets. by destruct (mdb_get _ _). }
  intros x l1 [Hl1 Hx]. apply wpg_bind.
  eapply (wpg_mono _ _ (fun x l' => same_accounts l1 l' /\ succeeds info x)).
  - destruct (tok =? 0).
    + destruct x as [i|t]; cbn [Account_received Account_SetBalance].
      * apply wpg_bind. eapply wpg_mono; [apply in_store_accounts|]. intros i' l2 Hl2.
        apply wpg_ret. split; [done|]. intros a Ha. by destruct (Hx a Ha) as (? & ? & _).
      * apply wpg_ret. split; [done|]. intros a Ha. destruct (Hx a Ha) as (a' & [= ->] & Ha').
        eexists. by split.
    + destruct x as [i|t]; [|done]. apply wpg_bind. eapply wpg_mono; [apply tether_ok|].
      intros i' l2 (Hl2 & _). apply wpg_ret. split; [done|]. intros a Ha.
      by destruct (Hx a Ha) as (? & ? & _).
  - intros x' l2 [Hl2 Hx']. apply wpg_bind. eapply wpg_mono; [apply PlaceReceive_accounts|].
    intros [] l3 Hl3. apply wpg_ret. split; [|done]. by rw /same_accounts Hl3 Hl2.
Qed.
Lemma ApplySend_one_authority send h tok o idx :
  preserves authority_kept (ApplySend_one now send timestamp h tok o epoch idx).
Proof.
  intros l. rw /ApplySend_one. apply wpg_bind, wpg_gets. apply wpg_bind.
  eapply wpg_mono; [apply ApplySend_to_authority|]. intros x l' [Hl' Hx].
  eapply wpg_mono; [apply account_put_authority; by rw Hl'|].
  intros [] l2 Hl2. rw /authority_kept /authority_at in Hl2 |- *. by rw Hl' in Hl2.
Qed.
Lemma ApplySend_all_authority skip ts h tok o : forall idx,
  preserves authority_kept (ApplySend_all now skip ts timestamp h tok o epoch idx).
Proof.
  induction ts as [|t ts IH]; intros idx; cbn [ApplySend_all]; [apply preserves_ret; apply _|].
  destruct (skip && _); [apply IH|].
  apply preserves_bind; [apply _|apply ApplySend_one_authority|]. intros _. apply IH.
Qed.
(** A user's account is stored where one was read. *)
Lemma user_put_authority k u u' l :
  mdb_get k (account_db l) = Some (UserAccount u) ->
  wlp (account_put k (UserAccount u')) (fun _ l' => authority_kept l l') l.
Proof. intros Hu. apply account_put_authority. intros a. by rw Hu. Qed.

Lemma ApplyRevoke_authority q source x :
  preserves authority_kept (ApplyRevoke now q source x timestamp epoch).
Proof.
  intros l. rw /ApplyRevoke. apply wpg_bind. rw /user_account_get. apply wpg_bind. apply wpg_gets.
  destruct (mdb_get source (account_db l)) as [[u|]|] eqn:Hu; [|done..]. apply wpg_ret.
  apply wpg_bind. destruct (find_entry _ _); [|done]. apply wpg_bind.
  eapply wpg_mono; [apply PlaceReceive_accounts|]. intros [] l1 Hl1.
  eapply wpg_mono; [apply (user_put_authority _ u); by rw Hl1|]. intros [] l2 Hl2.
  eapply wpg_mono; [apply ApplySend_one_authority|]. intros [] l3 Hl3.
  etransitivity; [|exact Hl3]. rw /authority_kept /authority_at in Hl2 |- *. by rw Hl1 in Hl2.
Qed.
Lemma adjust_status_authority tok account st :
  preserves authority_kept (adjust_token_user_status tok account st).
Proof.
  assert (Hput : preserves authority_kept
    (s ← token_user_status_get (GetTokenUserID tok account);
     token_user_status_put (GetTokenUserID tok account)
       (do_adjust_status st (default (te_status TokenEntry_default) s)))).
  { apply authority_accounts. rw /token_user_status_get. solve_frame. }
  intros l. rw /adjust_token_user_status. apply wpg_bind. rw /user_account_get. apply wpg_bind.
  apply wpg_gets. destruct (mdb_get account (account_db l)) as [[u|]|] eqn:Hu; [|done|].
  2: { apply wpg_ret. apply Hput. }
  apply wpg_ret. destruct (find_entry tok (entries u)); [|apply Hput].
  by apply (user_put_authority _ u).
Qed.
Lemma ApplyTokenSend_authority q ts fee i :
  preserves authority_kept (ApplyTokenSend now q ts fee i timestamp epoch).
Proof.
  intros l. rw /ApplyTokenSend. apply wpg_bind. rw /token_account_get. apply wpg_bind.
  apply wpg_gets. destruct (mdb_get _ _) as [[|a]|] eqn:Ha; [done| |done]. apply wpg_ret.
  apply wpg_bind. eapply wpg_mono; [apply account_put_authority|].
  { intros a0 Ha0. rw Ha in Ha0. injection Ha0 as <-. eexists. by split. }
  intros [] l1 Hl1. destruct (find_entry _ _); [|done]. apply wpg_bind.
  eapply wpg_mono; [apply ApplySend_all_authority|]. intros [] l2 Hl2. apply wpg_ret.
  by etransitivity.
Qed.

Lemma ApplyTokenAdmin_authority q a l :
  wlp (ApplyTokenAdmin now q a timestamp epoch)
    (fun a' l' => authority_kept l l' /\ authority_step (tr_body q) a a') l.
Proof.
  rw /ApplyTokenAdmin. destruct (tr_body q) as [i|n|s v|s|src x|acc st|ft fr|info|act c|n|x|x|x|ts fee];
    cbn [authority_step]; try done; try (by apply wpg_ret; split).
  - by destruct (Set_value a s v).
  - by destruct (m ← GetMutabilitySetting s; Set_bool a m false).
  - apply wpg_bind. eapply wpg_mono; [apply ApplyRevoke_authority|]. intros [] l' Hl'. by apply wpg_ret.
  - apply wpg_bind. eapply wpg_mono; [apply adjust_status_authority|]. intros [] l' Hl'. by apply wpg_ret.
  - by destruct (update_controllers act c (controllers a)).
  - apply wpg_bind. eapply wpg_mono; [apply ApplySend_one_authority|]. intros [] l' Hl'. by apply wpg_ret.
  - apply wpg_bind. eapply wpg_mono; [apply ApplySend_one_authority|]. intros [] l' Hl'. by apply wpg_ret.
  - apply wpg_bind. eapply wpg_mono; [apply ApplySend_one_authority|]. intros [] l' Hl'. by apply wpg_ret.
Qed.

(** The account of the request after the switch. *)
Definition stepped (r : Request) (x x' : Account) : Prop :=
  forall a, x = TokenAcct a -> exists q a', r = RToken q /\ x' = TokenAcct a' /\
    authority_step (tr_body q) a a'.

Lemma ApplyToken_authority q x l :
  (forall tok, issues (RToken q) = Some tok -> is_user (mdb_get tok (account_db l))) ->
  wlp (ApplyToken now q x timestamp epoch)
    (fun x' l' => authority_kept l l' /\ stepped (RToken q) x x') l.
Proof.
  intros Hi. rw /stepped. destruct x as [i|a].
  - apply (wpg_mono _ _ (fun _ l' => authority_kept l l')); [|by intros ? l' Hl'].
    cbn [issues] in Hi. rw /ApplyToken. destruct (tr_body q); try done; apply wpg_bind;
      (eapply wpg_mono; [|intros ? l' Hl'; apply wpg_ret; exact Hl']).
    + rw /ApplyIssuance. apply wpg_bind. eapply wpg_mono; [apply account_put_authority|].
      { intros a Ha. specialize (Hi _ eq_refl). by rw Ha in Hi. }
      intros [] l1 Hl1. eapply wpg_mono; [apply authority_accounts, PlaceReceive_accounts|].
      intros [] l2 Hl2. by etransitivity.
    + apply ApplyRevoke_authority.
    + apply adjust_status_authority.
    + apply ApplyTokenSend_authority.
  - assert (Hadmin : wlp (a' ← ApplyTokenAdmin now q a timestamp epoch; mret (TokenAcct a'))
      (fun x' l' => authority_kept l l' /\ forall a0, TokenAcct a = TokenAcct a0 ->
         exists q' a', RToken q = RToken q' /\ x' = TokenAcct a' /\
           authority_step (tr_body q') a0 a') l).
    { apply wpg_bind. eapply wpg_mono; [apply ApplyTokenAdmin_authority|]. intros a' l' [Hl' Ha'].
      apply wpg_ret. split; [done|]. intros a0 [= <-]. by exists q, a'. }
    rw /ApplyToken. destruct (tr_body q) eqn:Hq; try done.
    apply wpg_bind. rw /ApplyIssuance. apply wpg_bind.
    eapply wpg_mono; [apply account_put_authority|].
    { intros a0 Ha. cbn [issues] in Hi. rw Hq in Hi. specialize (Hi _ eq_refl). by rw Ha in Hi. }
    intros [] l1 Hl1. eapply wpg_mono; [apply authority_accounts, PlaceReceive_accounts|].
    intros [] l2 Hl2. apply wpg_ret. split; [by etransitivity|]. intros a0 [= <-].
    exists q, a. by rw Hq.
Qed.

Lemma ApplyBody_authority r x l :
  (forall tok, issues r = Some tok -> is_user (mdb_get tok (account_db l))) ->
  wlp (ApplyBody now r x timestamp epoch)
    (fun x' l' => authority_kept l l' /\ stepped r x x') l.
Proof.
  intros Hi. destruct r as [g|s|q|c]; [| |by apply ApplyToken_authority|]; destruct x as [i|a];
    try done; cbn [ApplyBody];
    (eapply (wpg_mono _ _ (fun _ l' => authority_kept l l')); [|by intros x' l' Hl']).
  - apply wpg_bind. eapply wpg_mono; [apply authority_accounts, in_store_accounts|].
    intros i' l' Hl'. by apply wpg_ret.
  - apply wpg_bind. rw /ApplySendRequest. apply wpg_bind.
    eapply wpg_mono; [apply authority_accounts, in_store_accounts|]. intros i' l1 Hl1.
    apply wpg_bind. eapply wpg_mono; [apply ApplySend_all_authority|]. intros [] l2 Hl2.
    apply wpg_ret. cbn beta. apply wpg_ret. etransitivity; [exact Hl1|exact Hl2].
  - rw /ApplyClaim. apply wpg_bind. eapply wpg_mono; [apply authority_accounts, ProcessClaim_accounts|].
    intros [n d] l1 Hl1. cbn zeta. destruct (0 <? _); [|by apply wpg_ret].
    eapply wpg_mono; [apply ApplySend_to_authority|]. intros x l2 [Hl2 _].
    rw /authority_kept /authority_at in Hl1 |- *. by rw Hl2.
Qed.

Lemma prologue_authority r x l :
  wlp (x ← prune_account r x epoch; charge_fee r x epoch)
    (fun x' l' => same_accounts l l' /\ succeeds (Some x) x') l.
Proof.
  apply wpg_bind. eapply (wpg_mono _ _ (fun x' l' => same_accounts l l' /\ succeeds (Some x) x')).
  - destruct x as [i|t]; cbn [prune_account].
    + apply wpg_bind. eapply wpg_mono; [apply in_store_accounts|]. intros i' l' Hl'.
      by apply wpg_ret; split.
    + apply wpg_ret. split; [done|]. intros a [= <-]. by exists t.
  - intros x1 l1 [Hl1 Hx1]. rw /charge_fee. destruct (is_election_vote_request r).
    { by apply wpg_ret. }
    apply wpg_bind. eapply (wpg_mono _ _ (fun x' l' => same_accounts l l' /\ succeeds (Some x) x')).
    + destruct x1 as [i|t]; cbn [Account_SetBalance].
      * apply wpg_bind. eapply wpg_mono; [apply in_store_accounts|]. intros i' l' Hl'.
        apply wpg_ret. split; [by etransitivity|]. intros a Ha. by destruct (Hx1 a Ha) as (? & ? & _).
      * apply wpg_ret. split; [done|]. intros a Ha. destruct (Hx1 a Ha) as (a' & [= ->] & Ha').
        eexists. by split.
    + intros x2 l2 [Hl2 Hx2]. apply wpg_bind. eapply wpg_mono; [apply in_store_accounts|].
      intros [] l3 Hl3. apply wpg_ret. split; [by etransitivity|done].
Qed.

(** Token accounts after ApplyRequest. *)
Lemma ApplyRequest_authority committed r l tok a :
  (forall tok, issues r = Some tok -> is_user (mdb_get tok (account_db l))) ->
  mdb_get tok (account_db l) = Some (TokenAcct a) ->
  wlp (ApplyRequest now committed r timestamp epoch) (fun _ l' =>
    exists a', mdb_get tok (account_db l') = Some (TokenAcct a') /\
      (authority a' = authority a \/
       GetAccount r = tok /\ rq_previous (base_of r) = ta_head a /\
       exists q, r = RToken q /\ authority_step (tr_body q) a a')) l.
Proof.
  intros Hi Ha. rw /ApplyRequest. apply wpg_bind, wpg_gets.
  destruct (mdb_get (GetAccount r) (account_db l)) as [x|] eqn:Hx; [|apply wpg_ret; by eauto].
  destruct (Z.eqb_spec (rq_previous (base_of r)) (Account_head x)) as [Hprev|Hprev]; cbn [negb].
  2: { destruct (_ || _); [apply wpg_ret; by eauto|done]. }
  set (m := prune_account _ _ _). assert (Hpro := prologue_authority r
    (Account_extend (request_hash r) now x) l). rw -/m in Hpro.
  apply wpg_bind. apply wpg_bind_inv in Hpro. eapply wpg_mono; [exact Hpro|].
  intros x1 l1 Hpro1. apply wpg_bind. eapply wpg_mono; [exact Hpro1|]. intros x2 l2 [Hl2 Hx2].
  apply wpg_bind. eapply wpg_mono; [apply ApplyBody_authority|].
  { intros tok' Htok. rw Hl2. by apply Hi. }
  intros x3 l3 [Hl3 Hx3]. rw /account_put. apply wpg_bind.
  eapply (wpg_mono _ _ (fun _ l' => l' = l3)).
  { destruct x3; [by apply wpg_ret|]. by apply wpg_massert. }
  intros [] l4 ->. apply wpg_modify. cbn [set_account_db account_db]. rw get_put.
  case_decide as Hk.
  - rw -Hk Hx in Ha. injection Ha as ->. cbn [Account_extend] in Hx2.
    destruct (Hx2 _ eq_refl) as (a2 & -> & Ha2).
    destruct (Hx3 _ eq_refl) as (q & a3 & -> & -> & Hstep). exists a3. split; [done|]. right.
    split_and!; [done..|]. exists q. split; [done|]. by apply (authority_step_ext a2).
  - destruct (Hl3 tok a) as (a3 & Ha3 & Hauth); [exists a; by rw Hl2|]. exists a3. auto.
Qed.
End Kept.

(** ** Authorisation *)
Section Authorised.
Context {L : Lmdb} {LL : LmdbLaws L} {B : Blake2b} {I : Indeterminate}.
Variables (ENABLE_ELECTIONS : bool) (bad_signature : Request -> bool).
Open Scope validation_scope.

(** The origin of [q] is a controller of [a] with the privilege for the request,
    which the settings of [a] allow. *)
Definition authorised (q : TokenRequest) (a : TokenAccount) : Prop :=
  exists c, GetController a (rq_origin (tr_base q)) = Some c /\
    IsAuthorized c (tr_body q) = Some true /\ IsAllowed a (tr_body q) = true.
(** What validation establishes: a token to be issued does not exist, and a
    request of a token account is authorised. *)
Definition permitted (r : Request) (t : table Account) (info : Account) : Prop :=
  (forall tok, issues r = Some tok -> mdb_get tok t = None) /\
  forall q a, r = RToken q -> IsTokenAdminRequest (tr_body q) = true -> info = TokenAcct a ->
    authorised q a.

Lemma admin_authorised q a (l : Ledger) :
  passes (ValidateTokenAdminRequest q (TokenAcct a)) (fun _ => authorised q a) l.
Proof.
  rw /ValidateTokenAdminRequest. destruct (GetController _ _) as [c|] eqn:Hc; [|apply passes_fail].
  destruct (IsAuthorized _ _) as [[]|] eqn:Hau; [|apply passes_fail|done].
  destruct (IsAllowed _ _) eqn:Hal; [|apply passes_fail]. apply passes_any. by exists c.
Qed.
Lemma ValidateBody_permitted r info cur (l : Ledger) :
  passes (ValidateBody ENABLE_ELECTIONS r info cur)
    (fun _ => permitted r (account_db l) info) l.
Proof.
  destruct r as [g|s|q|c]; [by apply passes_any..| |by apply passes_any]. cbn [ValidateBody].
  destruct (IsTokenAdminRequest (tr_body q)) eqn:Had.
  - assert (Hp : passes (ValidateTokenAdminRequest q info >>& ValidateTokenTransfer q info)
      (fun _ => permitted (RToken q) (account_db l) info) l); [|by destruct (tr_body q)].
    apply passes_vbind. destruct info as [i|a]; [by apply wpg_ret|].
    eapply passes_mono; [apply admin_authorised|]. intros l' Ha. apply passes_any. split.
    + intros tok. cbn. by destruct (tr_body q).
    + by intros q' a' [= <-] _ [= <-].
  - destruct (tr_body q) eqn:Hq; try done.
    + apply wpg_bind, wpg_gets. apply passes_ret. intros Hm%require_valid. split.
      * intros tok. cbn. rw Hq. intros [= <-]. move: Hm. rw /missing.
        by destruct (mdb_get (tr_token_id q) (account_db l)).
      * intros q' a [= <-]. by rw Hq.
    + apply passes_any. split; [intros tok; cbn; by rw Hq|]. intros q' a [= <-]. by rw Hq.
Qed.

(** One request, validated against the ledger it is applied to. *)
Definition accepted_step (l : Ledger) (r : Request) (l' : Ledger) : Prop :=
  exists now committed timestamp cur ce dup c m',
    ValidateRequest ENABLE_ELECTIONS bad_signature r cur ce dup false (Build_Manager L l c)
    = Ok (Valid, m') /\
    ApplyRequest now committed r timestamp cur l = Ok (tt, l').
Inductive accepted_run : Ledger -> list Request -> Ledger -> Prop :=
| accepted_nil l : accepted_run l [] l
| accepted_cons l r l1 rs l2 :
    accepted_step l r l1 -> accepted_run l1 rs l2 -> accepted_run l (r :: rs) l2.

Lemma accepted_step_authority l r l' tok a :
  accepted_step l r l' -> mdb_get tok (account_db l) = Some (TokenAcct a) ->
  exists a', mdb_get tok (account_db l') = Some (TokenAcct a') /\
    (authority a' = authority a \/
     exists q, r = RToken q /\ tr_token_id q = tok /\ authorised q a /\
       authority_step (tr_body q) a a').
Proof.
  intros (now & committed & ts & cur & ce & dup & c & m' & Hv & Hrun) Ha.
  assert (Hpass : forall info l1, same_accounts l l1 ->
    passes (ValidateBody ENABLE_ELECTIONS r info cur)
      (fun _ => permitted r (account_db l) info) l1).
  { intros info l1 Hl1. rw -Hl1. apply ValidateBody_permitted. }
  assert (Hperm := wpg_ok True _ _ _ _ _ (ValidateRequest_body ENABLE_ELECTIONS bad_signature
    (permitted r (account_db l)) r cur ce dup (Build_Manager L l c)
    (fun info l1 Hl1 _ _ => Hpass info l1 Hl1)) Hv eq_refl).
  destruct Hperm as (info & Hk & Hp). cbn [ledger] in Hk.
  destruct (decide (rq_previous (base_of r) = Account_head info)) as [Hprev|Hprev].
  2: { assert (l' = l) as ->; [|by eauto].
    exact (wpg_ok True _ _ _ _ _ (ApplyRequest_skips now ts cur committed r l info Hk Hprev) Hrun). }
  destruct (Hp Hprev) as [Hfresh Hauth].
  destruct (wpg_ok True _ _ _ _ _ (ApplyRequest_authority now ts cur committed r l tok a
    ltac:(intros tok' Ht; by rw (Hfresh tok' Ht)) Ha) Hrun) as (a' & Ha' & Hor).
  exists a'. split; [done|]. destruct Hor as [|(HK & Hh & q & -> & Hstep)]; [by left|].
  assert (info = TokenAcct a) as -> by (rw HK in Hk; congruence).
  destruct (IsTokenAdminRequest (tr_body q)) eqn:Had.
  - right. exists q. split_and!; [done| |by apply Hauth|done]. rw -HK. cbn.
    by destruct (tr_body q).
  - left. move: Hstep. rw /authority_step. by destruct (tr_body q).
Qed.
End Authorised.

(** ** Settings *)
Lemma bit_set_spec f pos v f' n :
  0 <= pos -> bit_set f pos v = Some f' -> bit_at f' n = if pos =? n then v else bit_at f n.
Proof.
  intros Hp. rw /bit_set /bit_at. case_match; [|done]. intros [= <-]. destruct v.
  - rw Z.setbit_eqb //.
  - rw Z.clearbit_eqb. destruct (pos =? n); [by rw andb_false_r|by rw andb_true_r].
Qed.
(** A setting, the one that makes it mutable, and their positions. *)
Lemma mutability_code s m :
  in_width 8 (TokenSetting.code s) -> GetMutabilitySetting s = Some m ->
  TokenSetting.code m = TokenSetting.code s + 1 /\ Z.even (TokenSetting.code s) = true.
Proof.
  rw /GetMutabilitySetting /IsMutabilitySetting -Z.negb_even /in_width. intros Hs.
  destruct (Z.even (TokenSetting.code s)) eqn:E; [|done]. cbn [negb]. intros [= <-]. split; [|done].
  rw TokenSetting.code_of_code /wrap Z.mod_small //. apply Z.even_spec in E as [k Hk]. lia.
Qed.
Lemma mutability_odd s m :
  GetMutabilitySetting s = Some m -> 0 <= TokenSetting.code m /\ Z.odd (TokenSetting.code m) = true.
Proof.
  rw /GetMutabilitySetting /IsMutabilitySetting. destruct (Z.odd (TokenSetting.code s)) eqn:E; [done|].
  intros [= <-]. rw TokenSetting.code_of_code /wrap. split; [by apply Z.mod_pos_bound|].
  rw Z.mod_eq // Z.odd_sub Z.odd_mul (Z.odd_pow 2 8) // Z.odd_add E. done.
Qed.

Lemma authority_settings a a' : authority a' = authority a -> settings a' = settings a.
Proof. by intros [=]. Qed.

Section Immutable.
Context `{Indeterminate}.

(** A change that the account allows leaves an immutable setting as it is. *)
Lemma immutable_step q a a' s m :
  in_width 8 (TokenSetting.code s) -> GetMutabilitySetting s = Some m ->
  authorised q a -> authority_step (tr_body q) a a' -> setting_of a m = false ->
  setting_of a' m = false /\ setting_of a' s = setting_of a s.
Proof.
  intros Hw Hm (c & _ & _ & Hall) Hstep Hoff. destruct (mutability_code s m Hw Hm) as [Hcode Heven].
  rw /setting_of in Hoff |- *. rw /in_width in Hw.
  assert (Hset : forall pos v f, 0 <= pos -> bit_set (settings a) pos v = Some f ->
    (pos = TokenSetting.code m -> v = false) -> pos <> TokenSetting.code s ->
    bit_at f (TokenSetting.code m) = false /\
    bit_at f (TokenSetting.code s) = bit_at (settings a) (TokenSetting.code s)).
  { intros pos v f Hp Hf Hpm Hps. rw !(bit_set_spec (settings a) pos v f) //.
    destruct (Z.eqb_spec pos (TokenSetting.code m)) as [Hpm'|],
      (Z.eqb_spec pos (TokenSetting.code s)); try done. by rw Hpm. }
  destruct (tr_body q) as [| |s' v|s'| | | | | | | | | |]; cbn [authority_step] in Hstep;
    try (by rw (authority_settings _ _ Hstep)).
  - rw /Set_value in Hstep. destruct (bit_set (settings a) _ _) as [f|] eqn:Hf; [|done].
    cbn in Hstep. injection Hstep as _ _ _ _ _ _ <- _. cbn [IsAllowed] in Hall.
    rw /IsAllowed_change /setting_of in Hall. eapply Hset; [|exact Hf| |].
    + by destruct s'.
    + intros Hpm. apply bool_decide_eq_false. intros ->. rw -Hpm in Hoff Hcode.
      apply Z.even_spec in Heven as [k Hk].
      destruct s'; try done; try (by rw Hoff in Hall); cbn in Hcode; lia.
    + intros Hps. rw -Hps in Heven Hcode. rw Hcode in Hoff.
      destruct s'; try done; by rw Hoff in Hall.
  - destruct (GetMutabilitySetting s') as [m'|] eqn:Hm'; [|done]. cbn in Hstep.
    rw /Set_bool in Hstep. destruct (bit_set (settings a) _ _) as [f|] eqn:Hf; [|done].
    cbn in Hstep. injection Hstep as _ _ _ _ _ _ <- _.
    destruct (mutability_odd s' m' Hm') as [H0 Hodd]. eapply Hset; [done|exact Hf|done|].
    intros Heq. by rw Heq -Z.negb_even Heven in Hodd.
  - destruct (update_controllers _ _ _); [|done]. cbn in Hstep. injection Hstep as _ _ _ _ _ _ Hs _.
    by rw -Hs.
Qed.
End Immutable.

Lemma authorised_ext `{Indeterminate} q a a' :
  authority a' = authority a -> authorised q a' -> authorised q a.
Proof.
  intros [= _ _ _ _ _ Hc Hs _] (c & Hget & Hau & Hall). exists c. split_and!; [|done|].
  - move: Hget. by rw /GetController Hc.
  - move: Hall. rw /IsAllowed /IsAllowed_change /IsAllowed_status /setting_of. by rw Hs.
Qed.

(** C15 Only its controllers change a token account. Along any run of accepted
    requests a token account stays, and its fee, its information, its
    controllers and its settings stay as they are, unless one of the requests
    is a request of the account by an origin that the account, as it was, has
    as a controller with the privilege for it, and that its settings allow. *)
Theorem only_controllers_change_a_token `{LmdbLaws} `{Blake2b} `{Indeterminate}
    ENABLE_ELECTIONS bad_signature l rs l' tok a :
  accepted_run ENABLE_ELECTIONS bad_signature l rs l' ->
  mdb_get tok (account_db l) = Some (TokenAcct a) ->
  exists a', mdb_get tok (account_db l') = Some (TokenAcct a') /\
    (authority a' = authority a \/
     exists q, RToken q ∈ rs /\ tr_token_id q = tok /\ authorised q a).
Proof.
  intros Hrun. revert a. induction Hrun as [l|l r l1 rs l2 Hstep _ IH]; intros a Ha; [by eauto|].
  destruct (accepted_step_authority _ _ _ _ _ _ _ Hstep Ha) as (a1 & Ha1 & Hor).
  destruct (IH a1 Ha1) as (a2 & Ha2 & Hor2). exists a2. split; [done|].
  destruct Hor as [Heq|(q & -> & Htok & Hauth & _)].
  - destruct Hor2 as [|(q & Hin & Htok & Hauth)]; [left; congruence|right].
    exists q. split_and!; [by right|done|by eapply authorised_ext].
  - right. exists q. split_and!; [by left|done|done].
Qed.

(** C18 What a controller has made immutable stays so: when the mutability of a
    setting of a token account is off, no run of accepted requests turns it on
    again or changes the setting. *)
Theorem immutable_settings_are_permanent `{LmdbLaws} `{Blake2b} `{Indeterminate}
    ENABLE_ELECTIONS bad_signature l rs l' tok a s m :
  accepted_run ENABLE_ELECTIONS bad_signature l rs l' ->
  mdb_get tok (account_db l) = Some (TokenAcct a) ->
  in_width 8 (TokenSetting.code s) -> GetMutabilitySetting s = Some m ->
  setting_of a m = false ->
  exists a', mdb_get tok (account_db l') = Some (TokenAcct a') /\
    setting_of a' m = false /\ setting_of a' s = setting_of a s.
Proof.
  intros Hrun Ha Hw Hm. revert a Ha. induction Hrun as [l|l r l1 rs l2 Hstep _ IH];
    intros a Ha Hoff; [by eauto|].
  destruct (accepted_step_authority _ _ _ _ _ _ _ Hstep Ha) as (a1 & Ha1 & Hor).
  assert (setting_of a1 m = false /\ setting_of a1 s = setting_of a s) as [Hoff1 Hs1].
  { destruct Hor as [Heq|(q & -> & _ & Hauth & Hq)].
    - rw /setting_of (authority_settings _ _ Heq) //.
    - by eapply immutable_step. }
  destruct (IH a1 Ha1 Hoff1) as (a2 & Ha2 & Hoff2 & Hs2). exists a2. split_and!; [done..|congruence].
Qed.

(** ** A concrete run

    Carol (8) may change whether tokens of 7 can be issued, and whether that
    can be changed. She makes it immutable; then she may no longer change it. *)
Section Witness.
#[local] Existing Instance mod_blake2b.
#[local] Existing Instance gmap_lmdb.
#[local] Existing Instance gmap_lmdb_laws.
#[local] Existing Instance no_garbage.

Definition settled_token : TokenAccount :=
  Build_TokenAccount 0 0 0 0 0 (10 * min_fee_amount) 100 60 0 TokenFeeType.Flat 1 [65] [66] []
    [Build_ControllerInfo 8 3] 3 1.
Definition settled_ledger : Ledger :=
  set_account_db (mdb_put 7 (TokenAcct settled_token)
    (mdb_put 8 (UserAccount (user_with 0 [])) mdb_empty)) empty_ledger.
Definition carols (previous sequence : Z) (b : TokenBody) : Request :=
  RToken (Build_TokenRequest
            (Build_RequestBase 8 previous min_fee_amount sequence 0 0 (Build_Locator 0 0)) 7 b).
Definition immute : Request := carols 0 0 (ImmuteSetting TokenSetting.Issuance).
Definition immuted_ledger : Ledger :=
  state_after (ApplyRequest 100 settled_ledger immute 90 3) settled_ledger.
Definition stored_ledger : Ledger := state_after (put_requests [immute]) immuted_ledger.
Definition no_cache : Cache := Build_Cache _ ∅ mdb_empty.
(** Turning the mutability off again is accepted, changing the setting is not. *)
Definition disable : Request :=
  carols (request_hash immute) 1 (ChangeSetting TokenSetting.ModifyIssuance SettingValue.Disabled).
Definition change : Request :=
  carols (request_hash immute) 1 (ChangeSetting TokenSetting.Issuance SettingValue.Disabled).
Definition disabled_ledger : Ledger :=
  state_after (ApplyRequest 100 stored_ledger disable 90 3) stored_ledger.
Definition immuted_token : TokenAccount :=
  match mdb_get 7 (account_db stored_ledger) with Some (TokenAcct a) => a | _ => settled_token end.

Lemma settled_run : accepted_run false (fun _ => false) settled_ledger [immute] immuted_ledger.
Proof.
  eapply accepted_cons; [|constructor].
  exists 100, settled_ledger, 90, 3, 3, false, no_cache,
    (state_after (ValidateRequest false (fun _ => false) immute 3 3 false false)
       (Build_Manager _ settled_ledger no_cache)).
  split; by_run.
Qed.
Lemma only_controllers_change_a_token_witness :
  exists a', mdb_get 7 (account_db immuted_ledger) = Some (TokenAcct a') /\
    (authority a' = authority settled_token \/
     exists q, RToken q ∈ [immute] /\ tr_token_id q = 7 /\ authorised q settled_token).
Proof.
  apply (only_controllers_change_a_token false (fun _ => false) settled_ledger [immute]).
  - exact settled_run.
  - by vm_compute.
Defined.

Lemma immutable_settings_are_permanent_witness :
  value_of (ValidateRequest false (fun _ => false) change 3 3 false false)
    (Build_Manager _ stored_ledger no_cache)
  = Some (Invalid (Some ProcessResult.prohibitted_request)) /\
  exists a', mdb_get 7 (account_db disabled_ledger) = Some (TokenAcct a') /\
    setting_of a' TokenSetting.ModifyIssuance = false /\
    setting_of a' TokenSetting.Issuance = setting_of immuted_token TokenSetting.Issuance.
Proof.
  split; [by_run|].
  apply (immutable_settings_are_permanent false (fun _ => false) stored_ledger [disable]
           disabled_ledger 7 immuted_token TokenSetting.Issuance TokenSetting.ModifyIssuance).
  - eapply accepted_cons; [|constructor].
    exists 100, stored_ledger, 90, 3, 3, false, no_cache,
      (state_after (ValidateRequest false (fun _ => false) disable 3 3 false false)
         (Build_Manager _ stored_ledger no_cache)).
    split; by_run.
  - by vm_compute.
  - done.
  - done.
  - by vm_compute.
Defined.
End Witness.
