(* ===== verification/TokenDefects.v ===== *)
(** * Where tokens and Logos are not conserved

    The transfers that the theorems on the supply exclude: a TokenSend to its
    own origin, and one whose amounts add up to more than 128 bits hold; and a
    withdrawal of Logos by which the balance of a token account wraps around. *)
From stdpp Require Import base list numbers strings gmap ssreflect.
From S2P Require Import Prelude Serial Lmdb StakingTypes Requests Epochs BlockStore VotingPower AccountInfo Staking EpochRewards Governance Reservations TokenTypes TokenRequests TokenFormats Ledger Transfers RequestValidation TokenSupply TokenEntries TokenConservation TokenBacking TokenBlocks TokenAuthority.
Open Scope Z_scope.

Section SelfSend.
Context {L : Lmdb} {LL : LmdbLaws L} {B : Blake2b}.

(** The origin of [q] sends [amount] tokens to itself, for [fee]. *)
Definition sends_to_self (q : TokenRequest) (amount fee : Amount) : Prop :=
  tr_body q = TokenSend [Build_Transaction (rq_origin (tr_base q)) amount] fee.

Lemma ApplySend_one_put now send ts h tok o e idx l :
  wlp (ApplySend_one now send ts h tok o e idx) (fun _ l' =>
    exists a, account_db l' = mdb_put (destination send) a (account_db l)) l.
Proof.
  rw /ApplySend_one. apply wpg_bind, wpg_gets. apply wpg_bind.
  eapply wpg_mono; [apply ApplySend_to_authority|]. intros a l1 [Hl1 _].
  rw /account_put. apply wpg_bind. eapply (wpg_mono _ _ (fun _ l' => l' = l1)).
  - destruct a; [by apply wpg_ret|]. by apply wpg_massert.
  - intros [] l' ->. apply wpg_modify. exists a. cbn. by rw Hl1.
Qed.

(** What ApplyTokenSend makes of the table and of the copy of the origin. *)
Lemma self_send_table now q amount fee i ts e0 e l :
  sends_to_self q amount fee -> find_entry (tr_token_id q) (entries i) = Some e ->
  wlp (ApplyTokenSend now q [Build_Transaction (rq_origin (tr_base q)) amount] fee i ts e0)
    (fun i' l' => exists t x,
       mdb_get (tr_token_id q) (account_db l) = Some (TokenAcct t) /\
       account_db l' = mdb_put (rq_origin (tr_base q)) x
         (mdb_put (tr_token_id q) (TokenAcct (set_tokens (total_supply t) (token_balance t)
            (amt_add (token_fee_balance t) fee) t)) (account_db l)) /\
       i' = update_entry (tr_token_id q) (fun e => set_te_balance
              (amt_sub (te_balance e) (GetTokenTotal (RToken q))) e) i) l.
Proof.
  intros Hq He. rw /ApplyTokenSend. apply wpg_bind. rw /token_account_get. apply wpg_bind.
  apply wpg_gets. destruct (mdb_get _ _) as [[|t]|] eqn:Ht; [done| |done]. apply wpg_ret.
  apply wpg_bind. rw /token_account_put /account_put. apply wpg_bind.
  apply wpg_massert; [|done]. intros _. apply wpg_modify. rw He. cbn [ApplySend_all andb].
  apply wpg_bind. apply wpg_bind. eapply wpg_mono; [apply ApplySend_one_put|].
  intros [] l2 (x & Hl2). apply wpg_ret. apply wpg_ret. exists t, x. by rw Hl2.
Qed.

(** A TokenSend to its own origin destroys tokens. The transfer is credited
    to the account in the database, and the copy of the account from before,
    debited, is stored over it: when ApplyRequest returns, what is held of the
    token is less than its supply by the amount sent. *)
Lemma token_send_to_self_burns now committed q amount fee timestamp cur i e l l' :
  sends_to_self q amount fee -> tokens_ok (account_db l) -> 0 <= amount -> 0 <= fee ->
  mdb_get (rq_origin (tr_base q)) (account_db l) = Some (UserAccount i) ->
  rq_previous (tr_base q) = head i ->
  find_entry (tr_token_id q) (entries i) = Some e -> amount + fee <= te_balance e ->
  ApplyRequest now committed (RToken q) timestamp cur l = Ok (tt, l') ->
  circulating (tr_token_id q) (account_db l') = supply (tr_token_id q) (account_db l') - amount.
Proof.
  intros Hq Hl Ha Hf Hi Hp He Hb Hrun. pose proof Hl as [Hok Hc].
  set (tok := tr_token_id q) in *. set (o := rq_origin (tr_base q)) in *.
  assert (HK : GetAccount (RToken q) = o) by by rw /= Hq.
  pose proof (entry_bound tok o i e _ Hl Hi He) as [He1 He2].
  refine (wpg_ok True _ (fun _ l' => circulating tok (account_db l')
    = supply tok (account_db l') - amount) _ _ _ _ Hrun). clear Hrun l'.
  rw /ApplyRequest. apply wpg_bind, wpg_gets. rw HK Hi. cbn [Account_head base_of]. rw Hp Z.eqb_refl.
  cbn [negb]. set (m := prune_account _ _ _).
  assert (Hpro := prologue_tokens cur (RToken q)
    (Account_extend (request_hash (RToken q)) now (UserAccount i)) l). rw -/m in Hpro.
  apply wpg_bind. apply wpg_bind_inv in Hpro. eapply wpg_mono; [exact Hpro|].
  intros x1 l1 Hpro1. apply wpg_bind. eapply wpg_mono; [exact Hpro1|]. intros x2 l2 [Hx2 Hl2].
  destruct x2 as [i2|]; [|done]. cbn in Hx2. apply wpg_bind. cbn [ApplyBody]. rw /ApplyToken Hq.
  apply wpg_bind. eapply wpg_mono; [eapply self_send_table; [done|by rw Hx2]|].
  intros i3 l3 (t & x & Ht & Hdb & ->). apply wpg_ret. rw Hl2 in Ht Hdb.
  rw /account_put. apply wpg_bind, wpg_ret, wpg_modify. cbn [set_account_db account_db]. rw Hdb.
  assert (Htot : GetTokenTotal (RToken q) = amount + fee).
  { rw (GetTokenTotal_small q [Build_Transaction o amount] fee) //; cbn; [lia| |lia].
    by repeat constructor. }
  assert (Hne : tok <> o) by (intros Heq; rw -/tok Heq in Ht; congruence).
  destruct (debit_ok tok (amount + fee) i2 e) as (_ & Hh & _);
    [by rw Hx2|cbn; rw Hx2; exact (Hok _ _ Hi)|lia..|].
  rw Htot -/tok -/o !circulating_put !value_at_put !supply_put Z.eqb_refl Hc.
  destruct (Z.eqb_spec tok o) as [|_]; [done|]. destruct (Z.eqb_spec o tok) as [|_]; [done|].
  rw Z.eqb_refl. cbn [token_value account_supply]. rw Hh Hx2 Z.eqb_refl.
  cbn [set_tokens token_balance token_fee_balance total_supply].
  rw /value_at Ht Hi /supply Ht. cbn [token_value account_supply]. rw Z.eqb_refl.
  pose proof (token_account_bounds tok t _ Hl Ht) as (H1 & H2 & H3 & H4).
  pose proof (two_values_le tok tok o _ Hok Hne) as H5.
  rw Hc /supply /value_at Ht Hi /= Z.eqb_refl in H5. rw /in_width in H3.
  rw /value_at Hi /= in He1. rw amt_add_small; lia.
Qed.
End SelfSend.

(** ** Concrete ledgers *)
Section Concrete.
#[local] Existing Instance mod_blake2b.
#[local] Existing Instance gmap_lmdb.
#[local] Existing Instance gmap_lmdb_laws.
#[local] Existing Instance no_garbage.

(** What validating and applying a request against [l] leads to. *)
Definition accept (r : Request) (l : Ledger) : option (validation * Ledger) :=
  match ValidateRequest false (fun _ => false) r 3 3 false false (Build_Manager _ l no_cache) with
  | Ok (v, _) =>
      match ApplyRequest 100 l r 90 3 l with Ok (_, l') => Some (v, l') | Halt _ => None end
  | Halt _ => None
  end.

Lemma accept_run r l v :
  accept r l ≫= (fun x => Some x.1) = Some v ->
  accept r l = Some (v, state_after (ApplyRequest 100 l r 90 3) l).
Proof.
  rw /accept /state_after. destruct (ValidateRequest _ _ _ _ _ _ _ _) as [[v' m]|]; [|done].
  destruct (ApplyRequest _ _ _ _ _ _) as [[u l']|]; [|done]. by intros [= ->].
Qed.

(** Alice, with 40 of the 100 tokens, sends 10 to herself for a fee of 2. *)
Definition self_send : TokenRequest :=
  Build_TokenRequest (Build_RequestBase 5 0 min_fee_amount 0 0 0 (Build_Locator 0 0)) 7
    (TokenSend [Build_Transaction 5 10] 2).
Lemma token_send_to_self_burns_witness :
  (accept (RToken self_send) ledger7) ≫= (fun x => Some x.1) = Some Valid /\
  circulating 7 (account_db (state_after
    (ApplyRequest 100 ledger7 (RToken self_send) 90 3) ledger7)) = 100 - 10.
Proof.
  split; [by vm_compute|].
  pose proof (token_send_to_self_burns 100 ledger7 self_send 10 2 90 3
    (user_with (2 * min_fee_amount) [entry7 40]) (entry7 40) ledger7
    (state_after (ApplyRequest 100 ledger7 (RToken self_send) 90 3) ledger7)) as H.
  etransitivity; [apply H|by vm_compute].
  - done.
  - exact accounts7_backed.
  - done.
  - done.
  - by vm_compute.
  - done.
  - by vm_compute.
  - done.
  - by_run.
Defined.

(** Alice sends 2^127 tokens to Bob and as many to Carol. *)
Definition wrapped_send : Request :=
  request_by 5 (TokenSend [Build_Transaction 6 (2 ^ 127); Build_Transaction 8 (2 ^ 127)] 2).

(** Tokens are created by a transfer whose total overflows: the amounts of a
    TokenSend are added in 128 bits, so that two amounts of 2^127 and a fee of 2
    cost the sender 2. Validation accepts the request of a user with 40 tokens,
    and after it 2^128 more are held than the supply of 100. *)
Lemma overflowing_token_send_mints :
  GetTokenTotal wrapped_send = 2 /\
  exists l', accept wrapped_send ledger7 = Some (Valid, l') /\
    supply 7 (account_db l') = 100 /\
    circulating 7 (account_db l') = supply 7 (account_db l') + 2 ^ 128.
Proof.
  split; [by vm_compute|].
  exists (state_after (ApplyRequest 100 ledger7 wrapped_send 90 3) ledger7).
  split_and!; [by apply accept_run; vm_compute|by_run..].
Qed.

(** The token account has twice the minimal fee in Logos, and Carol the privilege
    to withdraw them. *)
Definition token7w : TokenAccount :=
  set_controllers [Build_ControllerInfo 8
    (Z.shiftl 1 (ControllerPrivilege.code ControllerPrivilege.WithdrawLogos))] token7.
Definition ledger7w : Ledger := set_account_db (mdb_put 7 (TokenAcct token7w) accounts7) ledger7.
Definition withdraw_all : Request :=
  request_by 8 (WithdrawLogos (Build_Transaction 6 (2 * min_fee_amount))).

(** A controller can withdraw Logos that a token account does not have: the
    fee and the amount of a WithdrawLogos are each compared with the balance
    and then both subtracted. Validation accepts the withdrawal of the whole
    balance; the balance of the token account wraps around to 2^128 less the
    fee. *)
Lemma withdraw_logos_wraps_the_balance :
  ta_balance token7w = 2 * min_fee_amount /\
  exists l' a u, accept withdraw_all ledger7w = Some (Valid, l') /\
    mdb_get 7 (account_db l') = Some (TokenAcct a) /\ ta_balance a = 2 ^ 128 - min_fee_amount /\
    mdb_get 6 (account_db l') = Some (UserAccount u) /\ balance u = 2 * min_fee_amount.
Proof.
  split; [done|].
  set (l' := state_after (ApplyRequest 100 ledger7w withdraw_all 90 3) ledger7w).
  exists l', (match mdb_get 7 (account_db l') with Some (TokenAcct a) => a | _ => token7 end),
    (match mdb_get 6 (account_db l') with Some (UserAccount u) => u | _ => user_with 0 [] end).
  split_and!; [by apply accept_run; vm_compute|by_run..].
Qed.
End Concrete.
