(* ===== verification/LogosTransfers.v ===== *)
(** * Sends conserve the Logos

    A Send takes from its origin what it sends to others and the fee, and gives
    every other account exactly what it was sent. *)
From stdpp Require Import base list numbers strings gmap ssreflect.
From S2P Require Import Prelude Serial Lmdb StakingTypes Requests Epochs BlockStore VotingPower AccountInfo Staking EpochRewards Governance Reservations TokenTypes TokenRequests TokenFormats Ledger Transfers RequestValidation TokenSupply TokenConservation TokenBacking TokenBlocks TokenAuthority.
Open Scope Z_scope.

(** The Logos of an account, and an account whose balances are in order. *)
Definition money_ok (a : Account) : Prop :=
  match a with UserAccount i => account_wf i | TokenAcct t => in_width 128 (ta_balance t) end.

Section Totals.
Context {L : Lmdb} {LL : LmdbLaws L}.

Definition logos_total (t : table Account) : Z :=
  sumZ (fun ka => Account_GetBalance ka.2) (mdb_items t).
Definition balance_at (k : AccountAddress) (t : table Account) : Z :=
  match mdb_get k t with Some a => Account_GetBalance a | None => 0 end.
Definition logos_ok (t : table Account) : Prop :=
  (forall k a, mdb_get k t = Some a -> money_ok a) /\ logos_total t < 2 ^ 128.

Lemma logos_put k a t :
  logos_total (mdb_put k a t) = logos_total t - balance_at k t + Account_GetBalance a.
Proof.
  rw /logos_total /balance_at items_put sumZ_cons. cbn [snd].
  destruct (mdb_get k t) as [a0|] eqn:E.
  - rw (items_del _ _ _ E) sumZ_cons. cbn [snd]. lia.
  - rw items_del_none //. lia.
Qed.
Lemma balance_at_put k k' a t :
  balance_at k' (mdb_put k a t) = if k =? k' then Account_GetBalance a else balance_at k' t.
Proof. rw /balance_at get_put. destruct (Z.eqb_spec k k'), (decide (k = k')); naive_solver. Qed.
Lemma money_nonneg a : money_ok a -> 0 <= Account_GetBalance a.
Proof. destruct a; cbn; [intros [? ?]; lia|by intros [? _]]. Qed.
Lemma balance_at_nonneg k t :
  (forall k a, mdb_get k t = Some a -> money_ok a) -> 0 <= balance_at k t.
Proof.
  intros Ht. rw /balance_at. destruct (mdb_get k t) eqn:E; [|done]. by eapply money_nonneg, Ht.
Qed.
Lemma logos_del k t : logos_total t = balance_at k t + logos_total (mdb_del k t).
Proof.
  rw /logos_total /balance_at. destruct (mdb_get k t) as [a|] eqn:E.
  - by rw (items_del _ _ _ E) sumZ_cons.
  - by rw items_del_none.
Qed.
Lemma balance_at_le k t :
  (forall k a, mdb_get k t = Some a -> money_ok a) -> balance_at k t <= logos_total t.
Proof.
  intros Ht. rw (logos_del k t). assert (0 <= logos_total (mdb_del k t)); [|lia].
  apply sumZ_nonneg, Forall_forall. intros [k' a] Hk%items_get. cbn. rw get_del in Hk.
  case_decide; [done|]. by eapply money_nonneg, Ht.
Qed.
End Totals.

Section Sends.
Context {L : Lmdb} {LL : LmdbLaws L} {B : Blake2b}.
Variables (now timestamp epoch : Z).

Lemma SetBalance_money i b e l :
  account_wf i -> in_width 128 b ->
  wlp (in_store (SetBalance i b e)) (fun i' l' => same_accounts l l' /\
    balance i' = b /\ account_wf i') l.
Proof.
  intros Hi Hb. eapply wpg_mono; [apply (wpg_conj True); [apply in_store_accounts|]|].
  - apply in_store_wpg. eapply wpg_mono; [by apply SetBalance_ok|].
    intros i' s' (Hb' & Hw & _). instantiate (1 := fun i' _ => balance i' = b /\ account_wf i').
    by split.
  - by intros i' l' [Hl [Hb' Hw]].
Qed.

(** A transfer of Logos credits its destination. *)
Lemma ApplySend_to_money send h o info idx l :
  match info with Some a => money_ok a | None => True end -> 0 <= t_amount send ->
  match info with Some a => Account_GetBalance a | None => 0 end + t_amount send < 2 ^ 128 ->
  wlp (ApplySend_to now send timestamp h 0 o epoch info idx) (fun a l' =>
    same_accounts l l' /\ money_ok a /\
    Account_GetBalance a
    = match info with Some a => Account_GetBalance a | None => 0 end + t_amount send) l.
Proof.
  intros Hok Ha Hb. rw /ApplySend_to. apply wpg_bind.
  eapply (wpg_mono _ _ (fun a l' => same_accounts l l' /\ money_ok a /\ Account_GetBalance a
    = match info with Some a => Account_GetBalance a | None => 0 end)).
  { destruct info as [x|]; [by apply wpg_ret|]. apply wpg_bind, wpg_gets.
    destruct (mdb_get _ _); [|done]. by apply wpg_ret. }
  intros a l1 (Hl1 & Hoka & Hbal). cbn [Z.eqb]. apply wpg_bind. rw -Hbal in Hb |- *.
  assert (Hadd : amt_add (Account_GetBalance a) (t_amount send)
                 = Account_GetBalance a + t_amount send).
  { apply amt_add_small. pose proof (money_nonneg a Hoka). lia. }
  assert (Hrec : Account_GetBalance (Account_received
    (ReceiveBlock_Hash (Build_ReceiveBlock match info with Some a => Account_receive_head a
                                            | None => 0 end h idx)) now a)
    = Account_GetBalance a) by by destruct a.
  rw Hrec Hadd. eapply (wpg_mono _ _ (fun a' l' => same_accounts l1 l' /\ money_ok a' /\
    Account_GetBalance a' = Account_GetBalance a + t_amount send)).
  - pose proof (money_nonneg a Hoka). destruct a as [i|t]; cbn [Account_received Account_SetBalance].
    + apply wpg_bind. eapply wpg_mono; [apply SetBalance_money; [done|rw /in_width; lia]|].
      intros i' l2 (Hl2 & Hi & Hw). by apply wpg_ret.
    + apply wpg_ret. split_and!; [done| |done]. cbn in *. rw /in_width. lia.
  - intros a' l2 (Hl2 & Hok2 & Hb2). apply wpg_bind.
    eapply wpg_mono; [apply PlaceReceive_accounts|]. intros [] l3 Hl3. apply wpg_ret.
    split_and!; [by rw /same_accounts Hl3 Hl2|done..].
Qed.

(** What the transactions [ts] give to [k]. *)
Definition sent_to (k : AccountAddress) (ts : list Transaction) : Z :=
  sumZ (fun t => if destination t =? k then t_amount t else 0) ts.
(** What they take from their origin. *)
Definition sent_by (o : AccountAddress) (ts : list Transaction) : Z :=
  sumZ (fun t => if destination t =? o then 0 else t_amount t) ts.

Lemma ApplySend_one_money send h o idx l :
  (forall k a, mdb_get k (account_db l) = Some a -> money_ok a) -> 0 <= t_amount send ->
  balance_at (destination send) (account_db l) + t_amount send < 2 ^ 128 ->
  wlp (ApplySend_one now send timestamp h 0 o epoch idx) (fun _ l' =>
    (forall k a, mdb_get k (account_db l') = Some a -> money_ok a) /\
    (forall k, k <> destination send ->
       mdb_get k (account_db l') = mdb_get k (account_db l)) /\
    balance_at (destination send) (account_db l')
    = balance_at (destination send) (account_db l) + t_amount send /\
    logos_total (account_db l') = logos_total (account_db l) + t_amount send) l.
Proof.
  intros Hok Ha Hb. rw /ApplySend_one. apply wpg_bind, wpg_gets. apply wpg_bind.
  rw {1}/balance_at in Hb.
  eapply wpg_mono; [apply ApplySend_to_money; [|done|exact Hb]|].
  { destruct (mdb_get _ _) eqn:E; [by eapply Hok|done]. }
  intros a l1 (Hl1 & Hoka & Hbal). rw /account_put. apply wpg_bind.
  eapply (wpg_mono _ _ (fun _ l' => l' = l1)).
  { destruct a; [by apply wpg_ret|]. by apply wpg_massert. }
  intros [] l2 ->. apply wpg_modify. cbn [set_account_db account_db]. rw Hl1. split_and!.
  - intros k a'. rw get_put. case_decide; [by intros [= <-]|apply Hok].
  - intros k Hk. by rw get_put_ne.
  - by rw balance_at_put Z.eqb_refl Hbal.
  - rw logos_put Hbal /balance_at. lia.
Qed.

(** The loop: the transactions to the origin are skipped. *)
Lemma ApplySend_all_money h o ts : forall idx l,
  (forall k a, mdb_get k (account_db l) = Some a -> money_ok a) ->
  Forall (fun t => 0 <= t_amount t) ts ->
  logos_total (account_db l) + sent_by o ts - balance_at o (account_db l) < 2 ^ 128 ->
  wlp (ApplySend_all now true ts timestamp h 0 o epoch idx) (fun _ l' =>
    (forall k a, mdb_get k (account_db l') = Some a -> money_ok a) /\
    mdb_get o (account_db l') = mdb_get o (account_db l) /\
    (forall k, k <> o ->
       balance_at k (account_db l') = balance_at k (account_db l) + sent_to k ts) /\
    logos_total (account_db l') = logos_total (account_db l) + sent_by o ts) l.
Proof.
  induction ts as [|t ts IH]; intros idx l Hok Ha Hb; cbn [ApplySend_all].
  { apply wpg_ret. split_and!; [done..| |]; rw ?/sent_by ?/sent_to /=; intros; lia. }
  apply Forall_cons in Ha as [Ha Has].
  assert (Hpos : 0 <= sent_by o ts).
  { apply sumZ_nonneg. eapply Forall_impl; [exact Has|]. intros x Hx. by destruct (_ =? _). }
  rw /sent_by sumZ_cons -/(sent_by o ts) in Hb |- *. cbn [andb].
  destruct (Z.eqb_spec (destination t) o) as [Hself|Hself].
  - eapply wpg_mono; [apply IH; [done..|lia]|]. intros [] l' (H1 & H2 & H3 & H4).
    split_and!; [done..| |lia]. intros k Hk. rw H3 // /sent_to sumZ_cons.
    destruct (Z.eqb_spec (destination t) k); [congruence|lia].
  - apply wpg_bind. eapply wpg_mono; [apply ApplySend_one_money; [done..|]|].
    { rw (logos_del o) in Hb. assert (balance_at (destination t) (account_db l)
        = balance_at (destination t) (mdb_del o (account_db l))) as ->
        by by rw /balance_at get_del_ne.
      pose proof (balance_at_le (destination t) (mdb_del o (account_db l))
        (fun k a => ltac:(rw get_del; case_decide; [done|apply Hok]))). lia. }
    intros [] l1 (Hok1 & Hg1 & Hb1 & Ht1).
    assert (Hgo : mdb_get o (account_db l1) = mdb_get o (account_db l)) by (apply Hg1; congruence).
    eapply wpg_mono; [apply IH; [done..|]|].
    { rw Ht1 /balance_at Hgo -/(balance_at o (account_db l)). lia. }
    intros [] l' (H1 & H2 & H3 & H4). split_and!; [done|congruence| |lia].
    intros k Hk. rw H3 // /sent_to sumZ_cons -/(sent_to k ts).
    destruct (Z.eqb_spec (destination t) k) as [<-|Hne]; [lia|].
    rw /balance_at Hg1; [|congruence]. lia.
Qed.

Lemma PruneThawing_money o i e l :
  account_wf i ->
  wlp (in_store (StakingManager.PruneThawing o i e)) (fun i' l' => same_accounts l l' /\
    balance i' = balance i /\ account_wf i') l.
Proof.
  intros Hi. eapply wpg_mono; [apply (wpg_conj True); [apply in_store_accounts|]|].
  - instantiate (1 := fun i' _ => balance i' = balance i /\ account_wf i').
    apply in_store_wpg. rw /StakingManager.PruneThawing. destruct (e <=? _); [by apply wpg_ret|].
    apply wpg_bind. eapply wpg_mono; [apply returns_any|]. intros n s1 _.
    eapply wpg_mono; [apply SetAvailableBalance_ok; [exact Hi|apply amt_add_width]|].
    intros i' s2 (-> & Hle & _). split; [done|]. split; [|apply Hi]. cbn [set_balances balance
      available_balance]. split; [apply amt_add_width|exact Hle].
  - by intros i' l' [Hl [Hb Hw]].
Qed.
(** The fee is taken from the balance. *)
Lemma prologue_money s i l :
  account_wf i -> 0 <= rq_fee (s_base s) <= balance i ->
  wlp (a ← prune_account (RSend s) (UserAccount i) epoch; charge_fee (RSend s) a epoch)
    (fun a l' => same_accounts l l' /\ exists i', a = UserAccount i' /\ account_wf i' /\
       balance i' = balance i - rq_fee (s_base s)) l.
Proof.
  intros Hi Hf. apply wpg_bind. cbn [prune_account]. apply wpg_bind.
  eapply wpg_mono; [by apply PruneThawing_money|]. intros i1 l1 (Hl1 & Hb1 & Hw1). apply wpg_ret.
  rw /charge_fee. cbn [Account_GetBalance Account_SetBalance base_of].
  replace (is_election_vote_request (RSend s)) with false by done.
  pose proof Hi as [_ Hmax]. apply wpg_bind. apply wpg_bind.
  rw Hb1 amt_sub_small; [|lia].
  eapply wpg_mono; [apply SetBalance_money; [done|rw /in_width; lia]|].
  intros i2 l2 (Hl2 & Hb2 & Hw2). apply wpg_ret. apply wpg_bind.
  eapply wpg_mono; [apply in_store_accounts|]. intros [] l3 Hl3. apply wpg_ret.
  split; [by rw /same_accounts Hl3 Hl2|]. by exists i2.
Qed.

Lemma Send_total_small o ts :
  Forall (fun t => 0 <= t_amount t) ts -> sent_by o ts < 2 ^ 128 ->
  foldl (add_unless_self o) 0 ts = sent_by o ts.
Proof.
  intros Hts Hs.
  assert (forall acc, 0 <= acc -> acc + sent_by o ts < 2 ^ 128 ->
    foldl (add_unless_self o) acc ts = acc + sent_by o ts) as ->; [|lia..].
  clear Hs. induction Hts as [|t ts Ht Hts IH]; intros acc Ha Hb; cbn [foldl].
  - cbn. lia.
  - assert (0 <= sent_by o ts).
    { apply sumZ_nonneg. eapply Forall_impl; [exact Hts|]. intros x Hx. by destruct (_ =? _). }
    rw /sent_by sumZ_cons -/(sent_by o ts) in Hb |- *. rw {2}/add_unless_self.
    destruct (destination t =? o); [rw IH; lia|]. rw amt_add_small; [|lia]. rw IH; lia.
Qed.
End Sends.

(** C7 A Send conserves the Logos. When the origin has what it sends to others and
    the fee, ApplyRequest takes exactly that from it, gives every other account
    what it was sent, opening it if necessary, and the sum of all balances
    decreases by the fee. *)
Theorem send_conserves_logos `{LmdbLaws} `{Blake2b} now committed s timestamp cur i l l' :
  let o := rq_origin (s_base s) in let ts := s_transactions s in let fee := rq_fee (s_base s) in
  logos_ok (account_db l) -> mdb_get o (account_db l) = Some (UserAccount i) ->
  rq_previous (s_base s) = head i -> Forall (fun t => 0 <= t_amount t) ts -> 0 <= fee ->
  sent_by o ts + fee <= balance i ->
  ApplyRequest now committed (RSend s) timestamp cur l = Ok (tt, l') ->
  logos_ok (account_db l') /\
  balance_at o (account_db l') = balance i - sent_by o ts - fee /\
  (forall k, k <> o -> balance_at k (account_db l') = balance_at k (account_db l) + sent_to k ts) /\
  logos_total (account_db l') = logos_total (account_db l) - fee.
Proof.
  intros o ts fee [Hok Hmax] Hi Hp Hts Hfee Hb Hrun.
  pattern l'. match goal with |- ?P l' => refine (wpg_ok True _ (fun _ => P) _ _ _ _ Hrun) end.
  clear Hrun l'. assert (Hpos : 0 <= sent_by o ts).
  { apply sumZ_nonneg. eapply Forall_impl; [exact Hts|]. intros x Hx. by destruct (_ =? _). }
  pose proof (Hok _ _ Hi) as Hwi. pose proof Hwi as [_ Hw].
  rw /ApplyRequest. apply wpg_bind, wpg_gets. cbn [GetAccount base_of]. rw -/o Hi.
  cbn [Account_head]. rw Hp Z.eqb_refl. cbn [negb Account_extend]. set (m := prune_account _ _ _).
  assert (Hpro := prologue_money cur s (user_extend (request_hash (RSend s)) now i) l Hwi).
  rw -/m in Hpro. apply wpg_bind. specialize (Hpro ltac:(cbn; lia)). apply wpg_bind_inv in Hpro.
  eapply wpg_mono; [exact Hpro|]. intros x1 l1 Hpro1. apply wpg_bind.
  eapply wpg_mono; [exact Hpro1|]. intros x2 l2 (Hl2 & i2 & -> & Hw2 & Hb2). cbn in Hb2.
  rw -/fee in Hb2. apply wpg_bind. cbn [ApplyBody]. apply wpg_bind. rw /ApplySendRequest.
  apply wpg_bind.
  assert (Hnew : amt_add (amt_sub (balance i2) (Send_GetLogosTotal s)) (rq_fee (s_base s))
                 = balance i - fee - sent_by o ts).
  { rw /Send_GetLogosTotal -/o -/ts -/fee Send_total_small //; [|lia].
    rw (amt_add_small (sent_by o ts)); [|lia]. rw Hb2 /amt_add /amt_sub /u128 /wrap.
    rw Zplus_mod_idemp_l Z.mod_small; lia. }
  rw Hnew. eapply wpg_mono; [apply SetBalance_money; [done|rw /in_width; lia]|].
  intros i3 l3 (Hl3 & Hb3 & Hw3). apply wpg_bind.
  assert (Hdb : account_db l3 = account_db l) by by rw Hl3 Hl2.
  eapply wpg_mono; [apply ApplySend_all_money; rw ?Hdb //|].
  { rw -/o -/ts /balance_at Hi. cbn. lia. }
  intros [] l4 (Hok4 & Hg4 & Hk4 & Ht4). rw Hdb -/o -/ts in Hg4, Hk4, Ht4.
  apply wpg_ret. cbn beta. apply wpg_ret. rw /account_put. apply wpg_bind, wpg_ret, wpg_modify.
  cbn [set_account_db account_db].
  assert (Htot : logos_total (mdb_put o (UserAccount i3) (account_db l4))
                 = logos_total (account_db l) - fee).
  { rw logos_put Ht4 /balance_at Hg4 Hi. cbn. lia. }
  split; [split; [|lia]|split_and!].
  - intros k a. rw get_put. case_decide; [by intros [= <-]|apply Hok4].
  - rw balance_at_put Z.eqb_refl. cbn. lia.
  - intros k Hk. rw balance_at_put. destruct (Z.eqb_spec o k); [congruence|]. by apply Hk4.
  - exact Htot.
Qed.

(** ** A concrete Send

    Alice (5) sends 10 to Bob (6), 20 to a new account (9) and 5 to herself. *)
Section Witness.
#[local] Existing Instance mod_blake2b.
#[local] Existing Instance gmap_lmdb.
#[local] Existing Instance gmap_lmdb_laws.

Definition alices_send : SendRequest :=
  Build_SendRequest (Build_RequestBase 5 0 min_fee_amount 0 0 0 (Build_Locator 0 0))
    [Build_Transaction 6 10; Build_Transaction 9 20; Build_Transaction 5 5].
Definition sent_ledger : Ledger :=
  state_after (ApplyRequest 100 ledger7 (RSend alices_send) 90 3) ledger7.

Lemma ledger7_logos_ok : logos_ok accounts7.
Proof.
  split; [|by vm_compute]. intros k a. rw /accounts7 !get_put.
  repeat case_decide; try by intros [= <-].
Qed.
Lemma send_conserves_logos_witness :
  logos_ok (account_db sent_ledger) /\
  balance_at 5 (account_db sent_ledger) = 2 * min_fee_amount - 30 - min_fee_amount /\
  (forall k, k <> 5 -> balance_at k (account_db sent_ledger)
     = balance_at k (account_db ledger7) + sent_to k (s_transactions alices_send)) /\
  logos_total (account_db sent_ledger) = logos_total (account_db ledger7) - min_fee_amount.
Proof.
  apply (send_conserves_logos 100 ledger7 alices_send 90 3
           (user_with (2 * min_fee_amount) [entry7 40]) ledger7 sent_ledger).
  - exact ledger7_logos_ok.
  - by vm_compute.
  - done.
  - by repeat constructor.
  - done.
  - by vm_compute.
  - by_run.
Defined.
End Witness.
