(* ===== verification/TokenStatus.v ===== *)
(** * The status of the users of a token

    Whether a user is whitelisted or frozen is kept in the user's entry for the
    token or, for a user without one, in a central list. [user_status] is the
    status that both stand for; freezing and whitelisting set it, opening an
    entry keeps it, and transfers are decided by it. *)
From stdpp Require Import base list numbers strings gmap ssreflect.
From S2P Require Import Prelude Serial Lmdb StakingTypes Requests Epochs BlockStore VotingPower AccountInfo Staking EpochRewards Governance Reservations TokenTypes TokenRequests TokenFormats Ledger Transfers RequestValidation TokenSupply TokenConservation TokenBacking TokenBlocks TokenAuthority.
Open Scope Z_scope.

Section Status.
Context {L : Lmdb} {LL : LmdbLaws L} {B : Blake2b}.

Definition entries_at (k : AccountAddress) (l : Ledger) : list TokenEntry :=
  user_entries (mdb_get k (account_db l)).
Definition listed (tok : BlockHash) (k : AccountAddress) (l : Ledger) : TokenUserStatus :=
  default (te_status TokenEntry_default) (mdb_get (GetTokenUserID tok k) (token_user_status_db l)).
(** The status of the user [k] of the token [tok]. *)
Definition user_status (tok : BlockHash) (k : AccountAddress) (l : Ledger) : TokenUserStatus :=
  match find_entry tok (entries_at k l) with Some e => te_status e | None => listed tok k l end.

(** The users of tokens whose identifiers in the list are not that of [k] and [tok]. *)
Definition elsewhere (tok k tok' k' : BlockHash) : Prop :=
  GetTokenUserID tok' k' <> GetTokenUserID tok k /\ (tok' <> tok \/ k' <> k).

Lemma update_first_status tok tok' f es :
  (forall x, te_token_id (f x) = te_token_id x) ->
  te_status <$> find_entry tok' (update_first (entry_is tok) f es)
  = (fun e => te_status (if tok =? tok' then f e else e)) <$> find_entry tok' es.
Proof.
  intros Hf. destruct (find_entry tok' es) as [e|] eqn:He.
  - by rw (update_first_find _ _ _ _ e).
  - cbn. move: He. rw /find_entry. induction es as [|x es IH]; [done|]. cbn. rw {1}/entry_is.
    destruct (Z.eqb_spec (te_token_id x) tok') as [|Hx]; [done|]. intros He.
    destruct (Z.eqb_spec (te_token_id x) tok); cbn.
    + rw Hf. destruct (Z.eqb_spec (te_token_id x) tok'); [done|]. by rw He.
    + destruct (Z.eqb_spec (te_token_id x) tok'); [done|by apply IH].
Qed.
Lemma user_status_eq tok k l :
  user_status tok k l = default (listed tok k l) (te_status <$> find_entry tok (entries_at k l)).
Proof. rw /user_status. by destruct (find_entry _ _). Qed.

(** The entry is the status of its token, whatever the list says. *)
Lemma status_put_list id s l tok k :
  GetTokenUserID tok k <> id ->
  user_status tok k (set_token_user_status_db (mdb_put id s (token_user_status_db l)) l)
  = user_status tok k l.
Proof. intros Hid. rw /user_status /listed. cbn. by rw get_put_ne. Qed.
Lemma status_put_user u u' k l tok' k' :
  mdb_get k (account_db l) = Some (UserAccount u) ->
  (k' = k -> te_status <$> find_entry tok' (entries u') = te_status <$> find_entry tok' (entries u)) ->
  user_status tok' k' (set_account_db (mdb_put k (UserAccount u') (account_db l)) l)
  = user_status tok' k' l.
Proof.
  intros Hu He. rw !user_status_eq /entries_at. cbn [set_account_db account_db]. rw get_put.
  case_decide as Hk; [|done]. subst k'. rw Hu. cbn. by rw He.
Qed.

(** adjust_token_user_status sets the status of one user. *)
Lemma adjust_sets tok k st l :
  wlp (adjust_token_user_status tok k st) (fun _ l' =>
    user_status tok k l' = do_adjust_status st (user_status tok k l) /\
    forall tok' k', elsewhere tok k tok' k' -> user_status tok' k' l' = user_status tok' k' l) l.
Proof.
  assert (Hlist : find_entry tok (entries_at k l) = None ->
    wlp (s ← token_user_status_get (GetTokenUserID tok k);
         token_user_status_put (GetTokenUserID tok k)
           (do_adjust_status st (default (te_status TokenEntry_default) s))) (fun _ l' =>
      user_status tok k l' = do_adjust_status st (user_status tok k l) /\
      forall tok' k', elsewhere tok k tok' k' -> user_status tok' k' l' = user_status tok' k' l) l).
  { intros Hn. apply wpg_bind, wpg_gets, wpg_modify. split.
    - rw !/user_status. replace (entries_at k _) with (entries_at k l) by done. rw Hn.
      rw {1}/listed. cbn. by rw get_put_eq.
    - intros tok' k' [Hid _]. by apply status_put_list. }
  rw /adjust_token_user_status. apply wpg_bind. rw /user_account_get. apply wpg_bind, wpg_gets.
  destruct (mdb_get k (account_db l)) as [[u|]|] eqn:Hu; [|done|].
  2: { apply wpg_ret. apply Hlist. by rw /entries_at Hu. }
  apply wpg_ret. destruct (find_entry tok (entries u)) as [e|] eqn:He.
  2: { apply Hlist. by rw /entries_at Hu. }
  apply wpg_bind, wpg_ret, wpg_modify. split.
  - rw !user_status_eq /entries_at. cbn [set_account_db account_db]. rw get_put_eq Hu.
    cbn [user_entries update_entry set_entries entries].
    rw update_first_status // He /= Z.eqb_refl. done.
  - intros tok' k' [_ Hne]. apply (status_put_user u); [done|]. intros ->.
    cbn [update_entry set_entries entries]. rw update_first_status //.
    destruct (find_entry tok' (entries u)) as [e'|]; [|done]. cbn.
    destruct (Z.eqb_spec tok tok'); [naive_solver congruence|done].
Qed.

Lemma find_entry_app tok es es' :
  find_entry tok (es ++ es')
  = match find_entry tok es with Some e => Some e | None => find_entry tok es' end.
Proof.
  rw /find_entry. induction es as [|x es IH]; [done|]. cbn. by destruct (te_token_id x =? tok).
Qed.

(** Opening an entry moves the status from the list to the entry. *)
Lemma tether_status tok k i l :
  wlp (tether tok k i) (fun i' l' =>
    account_db l' = account_db l /\
    te_status <$> find_entry tok (entries i')
    = Some (default (listed tok k l) (te_status <$> find_entry tok (entries i))) /\
    (forall tok', tok' <> tok -> find_entry tok' (entries i') = find_entry tok' (entries i)) /\
    (forall id, id <> GetTokenUserID tok k ->
       mdb_get id (token_user_status_db l') = mdb_get id (token_user_status_db l))) l.
Proof.
  rw /tether. destruct (find_entry tok (entries i)) as [e|] eqn:He.
  { apply wpg_ret. by rw He. }
  assert (Hnew : forall s,
    te_status <$> find_entry tok (entries i ++ [Build_TokenEntry tok s 0]) = Some s /\
    forall tok', tok' <> tok ->
      find_entry tok' (entries i ++ [Build_TokenEntry tok s 0]) = find_entry tok' (entries i)).
  { intros s. split; [by rw find_entry_app He /find_entry /= Z.eqb_refl|]. intros tok' Hne.
    rw find_entry_app. destruct (find_entry tok' (entries i)); [done|]. rw /find_entry /=.
    by destruct (Z.eqb_spec tok tok'). }
  apply wpg_bind, wpg_gets. rw /listed.
  destruct (mdb_get (GetTokenUserID tok k) (token_user_status_db l)) as [s|] eqn:Hs; cbn [default].
  - apply wpg_bind. rw /token_user_status_del. apply wpg_bind, wpg_gets.
    apply wpg_bind. apply wpg_modify. apply wpg_ret. apply wpg_bind. apply wpg_massert; [|done].
    intros _. apply wpg_ret. destruct (Hnew s) as [H1 H2]. split_and!; [done..|].
    intros id Hid. cbn. by rw get_del_ne.
  - apply wpg_ret. by destruct (Hnew (te_status TokenEntry_default)).
Qed.

(** A transfer of tokens changes nobody's status. *)
Lemma ApplySend_one_status now send ts h tok o e idx l :
  tok <> 0 ->
  wlp (ApplySend_one now send ts h tok o e idx) (fun _ l' => forall tok' k',
    tok' = tok /\ k' = destination send \/ elsewhere tok (destination send) tok' k' ->
    user_status tok' k' l' = user_status tok' k' l) l.
Proof.
  intros Htok. set (k := destination send). rw /ApplySend_one. apply wpg_bind, wpg_gets.
  apply wpg_bind. rw /ApplySend_to. apply wpg_bind.
  eapply (wpg_mono _ _ (fun a l' => l' = l /\ match a with
    | UserAccount i => entries i = entries_at k l | TokenAcct _ => True end)).
  { rw /entries_at -/k. destruct (mdb_get k (account_db l)) as [[i|t]|]; [by apply wpg_ret..|].
    apply wpg_bind, wpg_gets. destruct (mdb_get o _); [|done]. by apply wpg_ret. }
  intros a l1 [-> Ha]. destruct (Z.eqb_spec tok 0); [done|]. apply wpg_bind.
  destruct a as [i|t]; [|done]. cbn [Account_received]. apply wpg_bind. rw -/k.
  eapply wpg_mono; [apply tether_status|]. intros i1 l2 (Hdb & Hst & Hoth & Hlist).
  cbn [user_received entries] in Hst, Hoth. rw Ha in Hst, Hoth. apply wpg_ret.
  apply wpg_bind. eapply wpg_mono; [apply PlaceReceive_frame|]. intros [] l3 Hl3.
  apply wpg_ret. apply wpg_bind. apply wpg_ret. apply wpg_modify. intros tok' k' Hwhere.
  destruct Hl3 as (_ & Hdb3 & Hl3 & _).
  assert (Hent : te_status <$> find_entry tok' (entries (update_entry tok
    (fun e => set_te_balance (amt_add (te_balance e) (t_amount send)) e) i1))
    = te_status <$> find_entry tok' (entries i1)).
  { cbn [update_entry set_entries entries]. rw update_first_status //.
    destruct (find_entry tok' (entries i1)); [|done]. cbn. by destruct (tok =? tok'). }
  rw !user_status_eq /entries_at /listed. cbn [set_account_db account_db token_user_status_db].
  rw Hdb3 Hdb get_put. case_decide as Hk; [subst k'|].
  - rw -/(entries_at k l). cbn [user_entries]. rw Hent. destruct Hwhere as [[-> _]|[Hid Hne]].
    + rw Hst. done.
    + destruct Hne as [Hne|]; [|done]. rw Hoth //. by rw Hl3 Hlist.
  - destruct Hwhere as [[_ ->]|[Hid _]]; [done|]. by rw Hl3 Hlist.
Qed.
End Status.


(** Transfers are decided by the status: with the flags of lookups read as
    false, validate_destination of a user whose entries are not full accepts
    exactly the users whose status SendAllowed admits, whether they have an
    entry or are in the list. *)
Lemma transfers_are_decided_by_status `{LmdbLaws} `{Blake2b} {I : Indeterminate} k tok a u l :
  indeterminate = false -> mdb_get k (account_db l) = Some (UserAccount u) ->
  Z.of_nat (length (entries u)) < MAX_TOKEN_ENTRIES ->
  validate_destination k tok a l = Ok (send_allowed a (user_status tok k l), l).
Proof.
  intros Hi Hu Hlen. rw /validate_destination /account_get /mbind /M_bind. cbn [gets]. rw Hu.
  assert (Hget : GetEntry u tok = find_entry tok (entries u)).
  { rw /GetEntry Hi. by destruct (entries u). }
  rw Hget /user_status /entries_at Hu. cbn [user_entries].
  destruct (find_entry tok (entries u)); [done|].
  destruct (Z.eqb_spec (Z.of_nat (length (entries u))) MAX_TOKEN_ENTRIES); [lia|]. done.
Qed.

(** ** Freezing Bob

    Bob (6) has no tokens 7 and is frozen in the list; a transfer gives him an
    entry. *)
Section Witness.
#[local] Existing Instance mod_blake2b.
#[local] Existing Instance gmap_lmdb.
#[local] Existing Instance gmap_lmdb_laws.
#[local] Existing Instance no_garbage.

Definition frozen_ledger : Ledger :=
  state_after (adjust_token_user_status 7 6 UserStatus.Frozen) ledger7.
Definition paid_ledger : Ledger :=
  state_after (ApplySend_one 100 (Build_Transaction 6 10) 90 77 7 5 3 0) frozen_ledger.


Definition freezing_token : TokenAccount := set_settings 16 token7.
Lemma transfers_are_decided_by_status_witness :
  validate_destination 6 7 freezing_token frozen_ledger
  = Ok (Invalid (Some ProcessResult.frozen), frozen_ledger).
Proof.
  exact (transfers_are_decided_by_status 6 7 freezing_token (user_with 0 []) frozen_ledger
           eq_refl eq_refl eq_refl).
Defined.
End Witness.
