(* ===== verification/ConsensusBlocks.v ===== *)
(** * Blocks of the three chains

    Request blocks, microblocks and epoch blocks as the consensus confirms them
    (src/logos/consensus/messages/messages.hpp PostCommittedBlock, microblock/
    microblock.hpp, epoch/epoch.hpp): what they share is PrePrepareCommon of
    consensus/messages/common.hpp. Signatures are left out. *)
From stdpp Require Import base list numbers strings ssreflect.
From S2P Require Import Prelude Serial StakingTypes Requests Epochs TokenTypes TokenRequests Ledger.
Open Scope Z_scope.

Definition Tip_Hash_input (t : Tip) : list Z :=
  write_u32 (tip_epoch t) ++ write_u32 (tip_sqn t) ++ write_u256 (digest t).
(** Tip::n_th_block_in_epoch, in 32 bits. *)
Definition n_th_block_in_epoch (expected_epoch : Z) (t : Tip) : Z :=
  if (expected_epoch =? tip_epoch t) && negb (digest t =? 0) then u32 (tip_sqn t + 1) else 0.

(** ApprovedMB *)
Record ApprovedMB := {
  mb_primary_delegate : Z;
  mb_epoch_number : Z;
  mb_delegates_epoch_number : Z;
  mb_sequence : Z;
  mb_timestamp : Z;
  mb_previous : BlockHash;
  mb_last_micro_block : Z;
  mb_number_batch_blocks : Z;
  mb_tips : list Tip;
  mb_next : BlockHash;
}.
(** An epoch block: [ApprovedEB] has the members the ledger reads. *)
Record EpochBlock := {
  ep_primary_delegate : Z;
  ep_delegates_epoch_number : Z;
  ep_sequence : Z;
  ep_block : ApprovedEB;
}.

(** PrePrepareCommon::Hash of an archive block, which leaves out the delegate and
    the time. *)
Definition archive_Hash_input (epoch delegates_epoch sequence : Z) (previous : BlockHash)
  : list Z :=
  write_u32 epoch ++ write_u32 delegates_epoch ++ write_u32 sequence ++ write_u256 previous.
Definition ApprovedMB_Hash `{Blake2b} (b : ApprovedMB) : BlockHash :=
  blake2b (write_u8 logos_version
           ++ archive_Hash_input (mb_epoch_number b) (mb_delegates_epoch_number b)
                (mb_sequence b) (mb_previous b)
           ++ write_u8 (mb_last_micro_block b) ++ write_u32 (mb_number_batch_blocks b)
           ++ mjoin (Tip_Hash_input <$> mb_tips b)).
(** Epoch::Hash leaves out [is_extension]. *)
Definition EpochBlock_Hash `{Blake2b} (b : EpochBlock) : BlockHash :=
  let e := ep_block b in
  blake2b (write_u8 logos_version
           ++ archive_Hash_input (eb_epoch_number e) (ep_delegates_epoch_number b)
                (ep_sequence b) (eb_previous e)
           ++ Tip_Hash_input (eb_micro_block_tip e) ++ write_u128 (eb_transaction_fee_pool e)
           ++ write_u128 (eb_total_supply e) ++ mjoin (Delegate_Hash_input <$> eb_delegates e)
           ++ write_u64 (eb_total_RBs e)).

(** A block of any chain. *)
Inductive Block :=
| RB (b : ApprovedRB)
| MB (b : ApprovedMB)
| EB (b : EpochBlock).
Inductive chain_kind := Requests_chain | Microblock_chain | Epoch_chain.
#[global] Instance chain_kind_eq_dec : EqDecision chain_kind.
Proof. solve_decision. Defined.
Definition kind_of (b : Block) : chain_kind :=
  match b with RB _ => Requests_chain | MB _ => Microblock_chain | EB _ => Epoch_chain end.
Definition block_hash `{Blake2b} (b : Block) : BlockHash :=
  match b with
  | RB b => ApprovedRB_Hash b
  | MB b => ApprovedMB_Hash b
  | EB b => EpochBlock_Hash b
  end.
Definition block_epoch (b : Block) : Z :=
  match b with
  | RB b => rb_epoch_number b
  | MB b => mb_epoch_number b
  | EB b => eb_epoch_number (ep_block b)
  end.
Definition block_sequence (b : Block) : Z :=
  match b with RB b => rb_sequence b | MB b => mb_sequence b | EB b => ep_sequence b end.
Definition block_previous (b : Block) : BlockHash :=
  match b with
  | RB b => rb_previous b
  | MB b => mb_previous b
  | EB b => eb_previous (ep_block b)
  end.
Definition block_delegate (b : Block) : Z :=
  match b with
  | RB b => rb_primary_delegate b
  | MB b => mb_primary_delegate b
  | EB b => ep_primary_delegate b
  end.
(** PostCommittedBlock::CreateTip *)
Definition CreateTip `{Blake2b} (b : Block) : Tip :=
  Build_Tip (block_epoch b) (block_sequence b) (block_hash b).
