(* ===== verification/BlockContainer.v ===== *)
(** * Pending blocks (src/logos/consensus/persistence/block_container.cpp)

    PendingBlockContainer keeps the blocks that wait for validation: by epoch, and
    in an epoch the epoch block, the chain of microblocks and a chain of request
    blocks per delegate. A block that waits for another is in the table of
    dependencies under the hash it waits for. The chains, the table and the
    threads that validate share pointers to the pending blocks, whose status,
    reliances and lock they change: a pointer is a number, [heap] says what it
    points to. *)
From stdpp Require Import base list numbers strings gmap ssreflect.
From S2P Require Import Prelude StakingTypes Requests Epochs Governance TokenTypes TokenRequests Ledger ConsensusBlocks.
Open Scope Z_scope.

(** struct ValidationStatus (persistence.hpp); [reason] is not initialised. *)
Record ValidationStatus := {
  vs_requests : gmap Z ProcessResult.t;
  vs_reason : option ProcessResult.t;
  vs_progress : Z;
}.
Definition ValidationStatus_default : ValidationStatus := Build_ValidationStatus ∅ None 0.

(** PendingRB, PendingMB, PendingEB *)
Record Pending := {
  pd_block : Block;
  pd_status : ValidationStatus;
  pd_reliances : gset BlockHash;
  pd_lock : bool;
  pd_direct_write : bool;
}.
Definition new_pending (b : Block) (verified : bool) : Pending :=
  Build_Pending b ValidationStatus_default ∅ false verified.
Definition set_status (s : ValidationStatus) (p : Pending) : Pending :=
  Build_Pending (pd_block p) s (pd_reliances p) (pd_lock p) (pd_direct_write p).
Definition set_reliances (r : gset BlockHash) (p : Pending) : Pending :=
  Build_Pending (pd_block p) (pd_status p) r (pd_lock p) (pd_direct_write p).
Definition set_lock (l : bool) (p : Pending) : Pending :=
  Build_Pending (pd_block p) (pd_status p) (pd_reliances p) l (pd_direct_write p).

(** RPtr, MPtr, EPtr and ChainPtr: which of them follows from the block. *)
Definition ptr : Type := nat.

Record EpochPeriod := {
  period_num : Z;
  period_eb : option ptr;
  period_mbs : list ptr;
  period_rbs : list (list ptr);
}.
Definition no_rbs : list (list ptr) := replicate (Z.to_nat NUM_DELEGATES) [].
Definition set_eb (e : option ptr) (x : EpochPeriod) : EpochPeriod :=
  Build_EpochPeriod (period_num x) e (period_mbs x) (period_rbs x).
Definition set_mbs (l : list ptr) (x : EpochPeriod) : EpochPeriod :=
  Build_EpochPeriod (period_num x) (period_eb x) l (period_rbs x).
Definition set_rbs (i : nat) (l : list ptr) (x : EpochPeriod) : EpochPeriod :=
  Build_EpochPeriod (period_num x) (period_eb x) (period_mbs x) (<[i := l]> (period_rbs x)).
(** EpochPeriod::empty *)
Definition period_empty (x : EpochPeriod) : bool :=
  match period_eb x with
  | Some _ => false
  | None => match period_mbs x with
            | _ :: _ => false
            | [] => forallb is_empty (period_rbs x)
            end
  end.

Definition Max_Recent_DB_Writes : nat := 512.
Record Container := {
  heap : gmap ptr Pending;
  next_ptr : ptr;
  epochs : list EpochPeriod;
  cached_blocks : gset BlockHash;
  hash_dependency_table : list (BlockHash * ptr);
  recent_DB_writes : list BlockHash;
}.
Definition empty_container : Container := Build_Container ∅ 0%nat [] ∅ [] [].
Definition set_heap h (c : Container) : Container :=
  Build_Container h (next_ptr c) (epochs c) (cached_blocks c) (hash_dependency_table c)
    (recent_DB_writes c).
Definition set_epochs e (c : Container) : Container :=
  Build_Container (heap c) (next_ptr c) e (cached_blocks c) (hash_dependency_table c)
    (recent_DB_writes c).
Definition set_cached_blocks s (c : Container) : Container :=
  Build_Container (heap c) (next_ptr c) (epochs c) s (hash_dependency_table c)
    (recent_DB_writes c).
Definition set_table t (c : Container) : Container :=
  Build_Container (heap c) (next_ptr c) (epochs c) (cached_blocks c) t (recent_DB_writes c).
Definition set_recent r (c : Container) : Container :=
  Build_Container (heap c) (next_ptr c) (epochs c) (cached_blocks c) (hash_dependency_table c) r.

Definition update_ptr (f : Pending -> Pending) (p : ptr) (c : Container) : Container :=
  set_heap (alter f p (heap c)) c.
(** std::make_shared *)
Definition alloc (b : Block) (verified : bool) (c : Container) : Container :=
  Build_Container (<[next_ptr c := new_pending b verified]> (heap c)) (S (next_ptr c)) (epochs c)
    (cached_blocks c) (hash_dependency_table c) (recent_DB_writes c).

Definition block_of (c : Container) (p : ptr) : option Block := pd_block <$> heap c !! p.
Definition sequence_of (c : Container) (p : ptr) : Z :=
  match block_of c p with Some b => block_sequence b | None => 0 end.

(** ** Adding blocks

    The code walks the epochs and the chains from the back: [es] and [l] are in
    reverse order here. *)
Inductive place := AtBegin | Inside | Duplicate.
Fixpoint insert_rev (seq : ptr -> Z) (p : ptr) (s : Z) (l : list ptr) : list ptr * place :=
  match l with
  | [] => ([p], AtBegin)
  | x :: l' =>
      if seq x =? s then (l, Duplicate)
      else if seq x <? s then (p :: l, Inside)
      else let r := insert_rev seq p s l' in (x :: r.1, r.2)
  end.
Definition insert_chain (seq : ptr -> Z) (p : ptr) (s : Z) (l : list ptr) : list ptr * place :=
  let r := insert_rev seq p s (rev l) in (rev r.1, r.2).

(** Finds the epoch [n] or the place for [fresh]; [join e oldest] changes the
    period found and says whether to validate. [between] is the answer when the
    new period is not the first. *)
Fixpoint place_rev (n : Z) (fresh : EpochPeriod) (join : EpochPeriod -> bool -> EpochPeriod * bool)
    (between : bool) (es : list EpochPeriod) : list EpochPeriod * bool :=
  match es with
  | [] => ([fresh], true)
  | e :: es' =>
      if period_num e =? n then
        let r := join e (match es' with [] => true | _ => false end) in (r.1 :: es', r.2)
      else if period_num e <? n then (fresh :: es, between)
      else let r := place_rev n fresh join between es' in (e :: r.1, r.2)
  end.
Definition place_block (n : Z) (fresh : EpochPeriod)
    (join : EpochPeriod -> bool -> EpochPeriod * bool) (between : bool) : M Container bool :=
  es ← gets epochs;
  let r := place_rev n fresh join between (rev es) in
  modify (set_epochs (rev r.1));;
  mret r.2.

(** AddEpochBlock *)
Definition join_eb (p : ptr) (e : EpochPeriod) (oldest : bool) : EpochPeriod * bool :=
  match period_eb e with
  | Some _ => (e, false)
  | None => (set_eb (Some p) e, period_empty e && oldest)
  end.
Definition AddEpochBlock (b : EpochBlock) (verified : bool) : M Container bool :=
  p ← gets next_ptr;
  modify (alloc (EB b) verified);;
  let n := block_epoch (EB b) in
  place_block n (Build_EpochPeriod n (Some p) [] no_rbs) (join_eb p) false.

(** AddMicroBlock *)
Definition join_mb (seq : ptr -> Z) (p : ptr) (s : Z) (e : EpochPeriod) (oldest : bool)
  : EpochPeriod * bool :=
  let r := insert_chain seq p s (period_mbs e) in
  (set_mbs r.1 e, match r.2 with AtBegin => oldest | _ => false end).
Definition AddMicroBlock (b : ApprovedMB) (verified : bool) : M Container bool :=
  p ← gets next_ptr;
  modify (alloc (MB b) verified);;
  c ← gets id;
  let n := mb_epoch_number b in
  place_block n (Build_EpochPeriod n None [p] no_rbs)
    (join_mb (sequence_of c) p (mb_sequence b)) false.

(** AddRequestBlock *)
Definition join_rb (seq : ptr -> Z) (i : nat) (p : ptr) (s : Z) (e : EpochPeriod) (oldest : bool)
  : EpochPeriod * bool :=
  let r := insert_chain seq p s (period_rbs e !!! i) in
  (set_rbs i r.1 e, match r.2 with AtBegin => true | _ => false end).
Definition AddRequestBlock (b : ApprovedRB) (verified : bool) : M Container bool :=
  massert (rb_primary_delegate b <? NUM_DELEGATES) "PendingBlockContainer::AddRequestBlock";;
  p ← gets next_ptr;
  modify (alloc (RB b) verified);;
  c ← gets id;
  let n := rb_epoch_number b in
  let i := Z.to_nat (rb_primary_delegate b) in
  place_block n (Build_EpochPeriod n None [] (<[i := [p]]> no_rbs))
    (join_rb (sequence_of c) i p (rb_sequence b)) true.

Definition AddBlock (b : Block) (verified : bool) : M Container bool :=
  match b with
  | RB b => AddRequestBlock b verified
  | MB b => AddMicroBlock b verified
  | EB b => AddEpochBlock b verified
  end.

(** ** Dependencies *)

(** AddHashDependency, its two critical sections: the table, then the block. *)
Definition add_to_table (hash : BlockHash) (p : ptr) : M Container bool :=
  recent ← gets recent_DB_writes;
  if bool_decide (hash ∈ recent) then mret false
  else
    modify (fun c => set_table (hash_dependency_table c ++ [(hash, p)]) c);;
    mret true.
Definition add_reliance (hash : BlockHash) (p : ptr) : M Container unit :=
  modify (update_ptr (fun x => set_reliances ({[hash]} ∪ pd_reliances x) x) p).
Definition AddHashDependency (hash : BlockHash) (p : ptr) : M Container bool :=
  added ← add_to_table hash p;
  if (added : bool) then add_reliance hash p;; mret true else mret false.

(** [_recent_DB_writes.push_back], which refuses what is there already, and the
    limit on its size. *)
Definition push_recent (hash : BlockHash) (l : list BlockHash) : list BlockHash :=
  let l := if bool_decide (hash ∈ l) then l else l ++ [hash] in
  if (Max_Recent_DB_Writes <? length l)%nat then drop 1 l else l.

(** DeleteHashDependencies: the pointers that waited for [hash], if any. *)
Definition waiting (hash : BlockHash) (t : list (BlockHash * ptr)) : list ptr :=
  snd <$> base.filter (fun x => x.1 = hash) t.
Definition DeleteHashDependencies (hash : BlockHash) : M Container (list ptr) :=
  modify (fun c => set_recent (push_recent hash (recent_DB_writes c)) c);;
  chains ← gets (fun c => waiting hash (hash_dependency_table c));
  modify (fun c => set_table (base.filter (fun x => x.1 <> hash) (hash_dependency_table c)) c);;
  mret chains.

(** MarkForRevalidation *)
Definition MarkForRevalidation (hash : BlockHash) (chains : list ptr) : M Container unit :=
  modify (fun c => foldl (fun c p =>
    update_ptr (fun x => set_reliances (pd_reliances x ∖ {[hash]}) x) p c) c chains).

Definition DeleteDependenciesAndMarkForRevalidation (hash : BlockHash) : M Container bool :=
  chains ← DeleteHashDependencies hash;
  match chains with
  | [] => mret false
  | _ => MarkForRevalidation hash chains;; mret true
  end.

(** The hashes and accounts that MarkAsValidated releases, in its order. *)
Definition released_by_request `{Blake2b} (r : Request) : list BlockHash :=
  request_hash r
  :: match r with RToken t => GetSource t | _ => rq_origin (base_of r) end
  :: match r with
     | RSend s => destination <$> s_transactions s
     | RToken t =>
         match tr_body t with
         | Revoke _ x | Distribute x | WithdrawFee x | WithdrawLogos x => [destination x]
         | TokenSend ts _ => destination <$> ts
         | _ => []
         end
     | _ => []
     end.
Definition released_by `{Blake2b} (b : Block) : list BlockHash :=
  block_hash b :: match b with RB b => rb_requests b ≫= released_by_request | _ => [] end.
Fixpoint release_all (hs : list BlockHash) : M Container bool :=
  match hs with
  | [] => mret false
  | h :: hs =>
      r ← DeleteDependenciesAndMarkForRevalidation h;
      rest ← release_all hs;
      mret (r || rest)
  end.
Definition MarkAsValidated `{Blake2b} (b : Block) : M Container bool := release_all (released_by b).

(** ** The next block to validate *)

(** A chain whose first block is marked for validation and not being validated. *)
Definition ready (c : Container) (l : list ptr) : option ptr :=
  match l with
  | [] => None
  | p :: _ =>
      match heap c !! p with
      | Some x => if bool_decide (pd_reliances x = ∅) && negb (pd_lock x) then Some p else None
      | None => None
      end
  end.
(** The loop over the chains of request blocks from [i] on, [n] of which are left. *)
Fixpoint ready_rb (c : Container) (rbs : list (list ptr)) (n i : nat) : option ptr * nat :=
  match n with
  | O => (None, i)
  | S n =>
      match ready c (rbs !!! i) with
      | Some p => (Some p, i)
      | None => ready_rb c rbs n ((i + 1) mod Z.to_nat NUM_DELEGATES)
      end
  end.
Definition is_last_mb (c : Container) (p : ptr) : bool :=
  match block_of c p with Some (MB b) => negb (mb_last_micro_block b =? 0) | _ => false end.

(** What a period yields: a block, the order to go on with the next period, or
    to stop; with the period as it is left, [None] when it is erased. *)
Inductive search := Found (p : ptr) | Continue | Break.
Definition kind_at (c : Container) (p : option ptr) : option chain_kind :=
  p ≫= (fun p => kind_of <$> block_of c p).

(** The microblocks and the epoch block of the period [e] after its request
    blocks; [others] is the number of other periods, [next_mbs] the chain of
    microblocks of the next period if there is one. *)
Definition search_archive (c : Container) (p : option ptr) (success : bool) (e : EpochPeriod)
    (others : nat) (next_mbs : option (list ptr)) : result (search * option EpochPeriod) :=
  let mbs_empty := is_empty (period_mbs e) in
  let pop := bool_decide (kind_at c p = Some Microblock_chain) && success in
  let last_mb := pop && match p with Some p => is_last_mb c p | None => false end in
  let stored := bool_decide (kind_at c p = Some Epoch_chain) && success in
  if pop && mbs_empty then Halt "PendingBlockContainer::GetNextBlock"
  else
    let e := if pop then set_mbs (tail (period_mbs e)) e else e in
    if last_mb && negb (is_empty (period_mbs e)) then Halt "PendingBlockContainer::GetNextBlock"
    else
      let is_eb := bool_decide (kind_at c p = Some Epoch_chain) in
      match (if is_eb then None else ready c (period_mbs e)) with
      | Some q => Ok (Found q, Some e)
      | None =>
          if stored then Ok (Continue, None)
          else
            match (if last_mb || mbs_empty then period_eb e ≫= (fun q => ready c [q]) else None) with
            | Some q => Ok (Found q, Some e)
            | None =>
                if (others =? 1)%nat && bool_decide (period_eb e = None)
                   && is_empty (period_mbs e)
                   && match next_mbs with Some l => is_empty l | None => false end
                then Ok (Continue, Some e)
                else Ok (Break, Some e)
            end
      end.

(** The loop over the periods: [rest] from the iterator on, [before] those behind it
    in reverse order. [only] is the epoch to look for first, that of the block
    whose validation has ended; [go_on] is the next iteration. *)
Definition after_requests (c : Container)
    (go_on : nat -> list EpochPeriod -> result (option ptr * nat * list EpochPeriod))
    (p : option ptr) (i : nat) (success : bool) (before : list EpochPeriod) (e : EpochPeriod)
    (rest : list EpochPeriod) : result (option ptr * nat * list EpochPeriod) :=
  match search_archive c p success e (length before + length rest)
          (period_mbs <$> hd_error rest) with
  | Halt why => Halt why
  | Ok (Found q, e) => Ok (Some q, i, rev_append before (option_list e ++ rest))
  | Ok (Continue, e) => go_on i (option_list e ++ before)
  | Ok (Break, e) => Ok (None, i, rev_append before (option_list e ++ rest))
  end.
Fixpoint search_periods (c : Container) (p : option ptr) (i : nat) (success : bool)
    (only : option Z) (before rest : list EpochPeriod)
  : result (option ptr * nat * list EpochPeriod) :=
  match rest with
  | [] => Ok (None, i, rev before)
  | e :: rest =>
      let go_on i before := search_periods c None i success None before rest in
      if match only with Some n => negb (period_num e =? n) | None => false end
      then search_periods c p i success only (e :: before) rest
      else
        match kind_at c p with
        | Some Microblock_chain | Some Epoch_chain =>
            after_requests c go_on p i success before e rest
        | k =>
            let pop := bool_decide (k = Some Requests_chain) && success in
            if pop && is_empty (period_rbs e !!! i)
            then Halt "PendingBlockContainer::GetNextBlock"
            else
              let e := if pop then set_rbs i (tail (period_rbs e !!! i)) e else e in
              match ready_rb c (period_rbs e) (Z.to_nat NUM_DELEGATES) i with
              | (Some q, i) => Ok (Some q, i, rev_append before (e :: rest))
              | (None, i) => after_requests c go_on None i success before e rest
              end
        end
  end.

(** GetNextBlock(ptr, rb_idx, success): unlocks the block whose validation has
    ended, takes it out of its chain if it succeeded, and locks the next one. *)
Definition GetNextBlock (p : option ptr) (rb_idx : nat) (success : bool)
  : M Container (option ptr * nat) :=
  b ← gets (fun c => p ≫= block_of c);
  let i := match b with Some (RB b) => Z.to_nat (rb_primary_delegate b) | _ => rb_idx end in
  match p with Some p => modify (update_ptr (set_lock false) p) | None => mret tt end;;
  massert (i <? Z.to_nat NUM_DELEGATES)%nat "PendingBlockContainer::GetNextBlock";;
  c ← gets id;
  match search_periods c p i success (block_epoch <$> b) [] (epochs c) with
  | Halt why => halt why
  | Ok (q, i, es) =>
      modify (set_epochs es);;
      match q with Some q => modify (update_ptr (set_lock true) q) | None => mret tt end;;
      mret (q, i)
  end.

(** ** Hashes of cached blocks *)
Definition IsBlockCached (hash : BlockHash) : M Container bool :=
  gets (fun c => bool_decide (hash ∈ cached_blocks c)).
Definition BlockInsert (hash : BlockHash) : M Container unit :=
  modify (fun c => set_cached_blocks ({[hash]} ∪ cached_blocks c) c).
Definition BlockDelete (hash : BlockHash) : M Container unit :=
  modify (fun c => set_cached_blocks (cached_blocks c ∖ {[hash]}) c).
