(* ===== verification/BlockCache.v ===== *)
(** * The cache of blocks and the write queue

    BlockCache (src/logos/consensus/persistence/block_cache.cpp) takes blocks from
    bootstrap, peers and the consensus, validates them when what they depend on
    is there and gives them to BlockWriteQueue (block_write_queue.cpp), whose
    thread writes them to the database and then wakes the blocks that waited.

    Any number of threads run the operations of the cache. A step of a thread is
    what it does while it holds a mutex, or one access to the database:
    [Thread] is where a thread stands, [thread_step] what it does next. The only
    mutex that is held over several steps is _cache_blocks_mutex.

    What the persistence managers of the three kinds of blocks do is the
    interface [BlockHandlers]. *)
From stdpp Require Import base list numbers strings gmap ssreflect.
From S2P Require Import Prelude StakingTypes Requests Epochs Governance TokenTypes TokenRequests Ledger RequestValidation ConsensusBlocks BlockContainer.
Open Scope Z_scope.

(** The operations of NonDelPersistenceManager<R>, <MBCT> and <ECT>. *)
Class BlockHandlers (D : Type) := {
  handler_signature : Block -> D -> bool;
  handler_verify : Block -> ValidationStatus -> M D (bool * ValidationStatus);
  handler_exists : Block -> D -> bool;
  handler_apply : Block -> M D unit;
}.

(** A block has its predecessor in the database, or needs none. *)
Definition follows {D} `{BlockHandlers D} `{Blake2b} (b : Block) (d : D) : Prop :=
  block_previous b = 0 \/
  exists b', kind_of b' = kind_of b /\ block_hash b' = block_previous b /\ handler_exists b' d = true.

(** What the cache relies on: blocks are found by their hash, writing a block
    stores it, nothing is lost, and a block is only accepted after its
    predecessor. *)
Class BlockHandlersLaws {D} (H : BlockHandlers D) `{Blake2b} := {
  exists_by_hash b b' d :
    kind_of b = kind_of b' -> block_hash b = block_hash b' ->
    handler_exists b d = handler_exists b' d;
  apply_stores b d d' : handler_apply b d = Ok (tt, d') -> handler_exists b d' = true;
  apply_keeps b b' d d' :
    handler_apply b d = Ok (tt, d') -> handler_exists b' d = true -> handler_exists b' d' = true;
  verify_keeps b b' st d r d' :
    handler_verify b st d = Ok (r, d') -> handler_exists b' d = true ->
    handler_exists b' d' = true;
  verify_follows b st d st' d' :
    handler_verify b st d = Ok ((true, st'), d') -> follows b d';
}.

Record World {D : Type} := {
  container : Container;
  queue : list Block;
  q_cache : gset BlockHash;
  cache_mutex : bool;
  database : D;
}.
Arguments World : clear implicits.

Section Cache.
Context {D : Type} {H : BlockHandlers D} {B : Blake2b}.

Definition in_container {A} (m : M Container A) : M (World D) A := fun w =>
  match m (container w) with
  | Ok (a, c) => Ok (a, Build_World D c (queue w) (q_cache w) (cache_mutex w) (database w))
  | Halt why => Halt why
  end.
Definition in_database {A} (m : M D A) : M (World D) A := fun w =>
  match m (database w) with
  | Ok (a, d) =>
      Ok (a, Build_World D (container w) (queue w) (q_cache w) (cache_mutex w) d)
  | Halt why => Halt why
  end.
Definition set_mutex (l : bool) : M (World D) unit :=
  modify (fun w => Build_World D (container w) (queue w) (q_cache w) l (database w)).

(** ** BlockWriteQueue *)
Definition IsBlockQueued (hash : BlockHash) : M (World D) bool :=
  gets (fun w => bool_decide (hash ∈ q_cache w)).
(** StoreBlock *)
Definition StoreBlock (b : Block) : M (World D) unit :=
  modify (fun w => Build_World D (container w) (queue w ++ [b]) ({[block_hash b]} ∪ q_cache w)
                     (cache_mutex w) (database w)).
(** The end of an iteration of WriteThread. *)
Definition pop_block (b : Block) : M (World D) unit :=
  modify (fun w => Build_World D (container w) (tail (queue w)) (q_cache w ∖ {[block_hash b]})
                     (cache_mutex w) (database w)).

(** ** What a rejected block waits for

    The cases of the switch on [status.reason] in BlockCache::Validate. Reading
    [status.requests[i]] creates the element when it is missing. [None] is
    trace_and_halt, or a reason that was never set. *)
Fixpoint request_dependencies (i : Z) (rs : list Request) (m : gmap Z ProcessResult.t)
  : option (list BlockHash * gmap Z ProcessResult.t) :=
  match rs with
  | [] => Some ([], m)
  | r :: rs =>
      let code := default ProcessResult.progress (m !! i) in
      x ← request_dependencies (i + 1) rs (<[i := code]> m);
      match ProcessResultToDependency code with
      | dep_progress => Some x
      | dep_previous_block => Some (rq_previous (base_of r) :: x.1, x.2)
      | dep_sender_account => Some (GetAccount r :: x.1, x.2)
      | _ => None
      end
  end.
Fixpoint tip_dependencies (i : Z) (tips : list Tip) (m : gmap Z ProcessResult.t)
  : list BlockHash * gmap Z ProcessResult.t :=
  match tips with
  | [] => ([], m)
  | t :: tips =>
      let code := default ProcessResult.progress (m !! i) in
      let x := tip_dependencies (i + 1) tips (<[i := code]> m) in
      match ProcessResultToDependency code with
      | dep_previous_block => (digest t :: x.1, x.2)
      | _ => x
      end
  end.
Definition set_vs_requests (m : gmap Z ProcessResult.t) (st : ValidationStatus)
  : ValidationStatus := Build_ValidationStatus m (vs_reason st) (vs_progress st).
Definition dependencies (b : Block) (st : ValidationStatus)
  : option (list BlockHash * ValidationStatus) :=
  reason ← vs_reason st;
  match ProcessResultToDependency reason, b with
  | dep_previous_block, _ => Some ([block_previous b], st)
  | dep_general_error_code, RB rb =>
      x ← request_dependencies 0 (rb_requests rb) (vs_requests st);
      Some (x.1, set_vs_requests x.2 st)
  | dep_general_error_code, MB mb =>
      let x := tip_dependencies 0 (mb_tips mb) (vs_requests st) in
      Some (x.1, set_vs_requests x.2 st)
  | dep_last_microblock, EB eb => Some ([digest (eb_micro_block_tip (ep_block eb))], st)
  | _, _ => None
  end.

(** ** Threads *)
Inductive Thread :=
(** AddEpochBlock, AddMicroBlock, AddRequestBlock: VerifyAggSignature *)
| AddSignature (b : Block)
(** BlockExistsAdd: the cached blocks, the queue, the database *)
| AddCached (b : Block) (verified : bool)
| AddQueued (b : Block) (verified : bool)
| AddStored (b : Block) (verified : bool)
(** PendingBlockContainer::AddEpochBlock, ... *)
| AddPending (b : Block) (verified : bool)
(** Validate: GetNextBlock, VerifyContent, StoreBlock, BlockDelete *)
| ValidateNext (p : option ptr) (i : nat) (success : bool)
| ValidateContent (p : ptr) (i : nat)
| ValidateStore (p : ptr) (i : nat) (b : Block)
| ValidateDelete (p : ptr) (i : nat) (b : Block)
(** AddHashDependency for the hashes [hs]: the table, the block *)
| ValidateWait (p : ptr) (i : nat) (hs : list BlockHash)
| ValidateRely (p : ptr) (i : nat) (h : BlockHash) (hs : list BlockHash)
(** ProcessDependencies: DeleteHashDependencies, MarkForRevalidation *)
| Release (hs : list BlockHash) (found : bool)
| Mark (h : BlockHash) (chains : list ptr) (hs : list BlockHash)
(** WriteThread *)
| WriteFront
| WriteApply (b : Block)
| WritePost (b : Block)
| WritePop (b : Block).

(** BlockCache::Validate is called with the delegate of a request block. *)
Definition first_index (b : Block) : nat :=
  match b with RB b => Z.to_nat (rb_primary_delegate b) | _ => O end.

(** The next step of a thread: the threads it becomes, none when it ends; [None]
    when it has to wait. *)
Definition thread_step (t : Thread) : M (World D) (option (list Thread)) :=
  match t with
  | AddSignature b =>
      good ← gets (fun w => handler_signature b (database w));
      mret (Some (if (good : bool) then [AddCached b false] else []))
  | AddCached b v =>
      held ← gets cache_mutex;
      if (held : bool) then mret None
      else
        cached ← in_container (IsBlockCached (block_hash b));
        if (cached : bool) then mret (Some [])
        else set_mutex true;; mret (Some [AddQueued b v])
  | AddQueued b v =>
      queued ← IsBlockQueued (block_hash b);
      if (queued : bool) then set_mutex false;; mret (Some [])
      else mret (Some [AddStored b v])
  | AddStored b v =>
      stored ← gets (fun w => handler_exists b (database w));
      if (stored : bool) then set_mutex false;; mret (Some [])
      else
        in_container (BlockInsert (block_hash b));;
        set_mutex false;;
        mret (Some [AddPending b v])
  | AddPending b v =>
      validate ← in_container (AddBlock b v);
      mret (Some (if (validate : bool) then [ValidateNext None (first_index b) false] else []))
  | ValidateNext p i success =>
      r ← in_container (GetNextBlock p i success);
      mret (Some (match r.1 with Some q => [ValidateContent q r.2] | None => [] end))
  | ValidateContent p i =>
      x ← gets (fun w => heap (container w) !! p);
      match x with
      | None => halt "BlockCache::Validate"
      | Some x =>
          if pd_direct_write x then mret (Some [ValidateStore p i (pd_block x)])
          else
            r ← in_database (handler_verify (pd_block x) (pd_status x));
            if (r.1 : bool) then
              in_container (modify (update_ptr (set_status r.2) p));;
              mret (Some [ValidateStore p i (pd_block x)])
            else
              match dependencies (pd_block x) r.2 with
              | None => halt "BlockCache::Validate"
              | Some (hs, st) =>
                  in_container (modify (update_ptr (set_status st) p));;
                  mret (Some [ValidateWait p i hs])
              end
      end
  | ValidateStore p i b => StoreBlock b;; mret (Some [ValidateDelete p i b])
  | ValidateDelete p i b =>
      held ← gets cache_mutex;
      if (held : bool) then mret None
      else
        in_container (BlockDelete (block_hash b));;
        mret (Some [ValidateNext (Some p) i true])
  | ValidateWait p i [] => mret (Some [ValidateNext (Some p) i false])
  | ValidateWait p i (h :: hs) =>
      added ← in_container (add_to_table h p);
      mret (Some (if (added : bool) then [ValidateRely p i h hs] else [ValidateWait p i hs]))
  | ValidateRely p i h hs =>
      in_container (add_reliance h p);; mret (Some [ValidateWait p i hs])
  | Release [] found => mret (Some (if found then [ValidateNext None O false] else []))
  | Release (h :: hs) found =>
      chains ← in_container (DeleteHashDependencies h);
      mret (Some (match chains with [] => [Release hs found] | _ => [Mark h chains hs] end))
  | Mark h chains hs =>
      in_container (MarkForRevalidation h chains);; mret (Some [Release hs true])
  | WriteFront =>
      q ← gets queue;
      mret (match q with [] => None | b :: _ => Some [WriteApply b] end)
  | WriteApply b => in_database (handler_apply b);; mret (Some [WritePost b])
  | WritePost b => mret (Some [WritePop b; Release (released_by b) false])
  | WritePop b => pop_block b;; mret (Some [WriteFront])
  end.

(** ** Runs

    [received] are the blocks that arrive from bootstrap and peers, [confirmed]
    those the consensus of this node has confirmed. *)
Variables (received confirmed : Block -> Prop).
Definition Node : Type := World D * list Thread.
Inductive event := Admits (b : Block) | Writes (b : Block) (d : D) | Silent.
Definition event_of (t : Thread) (w : World D) : event :=
  match t with
  | AddStored b _ => if handler_exists b (database w) then Silent else Admits b
  | WriteApply b => Writes b (database w)
  | _ => Silent
  end.
Inductive step : Node -> event -> Node -> Prop :=
| step_thread w l1 t l2 ts w' :
    thread_step t w = Ok (Some ts, w') ->
    step (w, l1 ++ t :: l2) (event_of t w) (w', l1 ++ ts ++ l2)
| step_receive w l b : received b -> step (w, l) Silent (w, l ++ [AddSignature b])
| step_confirm w l b : confirmed b -> step (w, l) Silent (w, l ++ [AddCached b true]).
Inductive run : Node -> list event -> Node -> Prop :=
| run_nil n : run n [] n
| run_step n e n' es n'' : run n es n' -> step n' e n'' -> run n (es ++ [e]) n''.

(** The node when it starts: nothing cached or queued. *)
Definition start (d : D) : Node :=
  (Build_World D empty_container [] ∅ false d, [WriteFront]).
End Cache.
Arguments Node : clear implicits.
Arguments event : clear implicits.
