(* ===== verification/BlockSchedules.v ===== *)
(** * Schedules of the threads of the cache

    A run of BlockCache.v given by what happens in it, and handlers of blocks
    that keep a list of the blocks written. *)
From stdpp Require Import base list numbers strings gmap ssreflect.
From S2P Require Import Prelude StakingTypes Requests Epochs Governance TokenTypes TokenRequests Ledger RequestValidation ConsensusBlocks BlockContainer BlockCache.
Open Scope Z_scope.

Section Schedules.
Context {D : Type} {H : BlockHandlers D} {B : Blake2b}.

Inductive move := Go (i : nat) | Receive (b : Block) | Confirm (b : Block).
Definition exec (m : move) (n : Node D) : option (event D * Node D) :=
  match m with
  | Go i =>
      t ← n.2 !! i;
      match thread_step t n.1 with
      | Ok (Some ts, w') => Some (event_of t n.1, (w', take i n.2 ++ ts ++ drop (S i) n.2))
      | _ => None
      end
  | Receive b => Some (Silent, (n.1, n.2 ++ [AddSignature b]))
  | Confirm b => Some (Silent, (n.1, n.2 ++ [AddCached b true]))
  end.
Fixpoint execs (ms : list move) (n : Node D) : option (list (event D) * Node D) :=
  match ms with
  | [] => Some ([], n)
  | m :: ms =>
      x ← exec m n;
      y ← execs ms x.2;
      Some (x.1 :: y.1, y.2)
  end.

Variables (received confirmed : Block -> Prop).
Definition arrives (m : move) : Prop :=
  match m with Go _ => True | Receive b => received b | Confirm b => confirmed b end.
Lemma exec_step m n e n' :
  arrives m -> exec m n = Some (e, n') -> step received confirmed n e n'.
Proof.
  destruct n as [w l]. destruct m as [i|b|b]; cbn [exec arrives fst snd];
    [intros _|intros Hb [= <- <-]; by constructor..].
  intros (t & Ht & Hs)%bind_Some. destruct (thread_step t w) as [[[ts|] w']|] eqn:He; [|done..].
  injection Hs as <- <-. rw -{1}(take_drop_middle l i t Ht). by constructor.
Qed.
Lemma run_cons n e n1 es n2 :
  step received confirmed n e n1 -> run received confirmed n1 es n2 ->
  run received confirmed n (e :: es) n2.
Proof.
  intros Hs Hr. induction Hr as [n1|n1 e' n2 es n3 Hr IH Hs'].
  - apply (run_step _ _ n e n [] n1 (run_nil _ _ n) Hs).
  - by apply (run_step _ _ n e' n2 (e :: es) n3 (IH Hs)).
Qed.
Lemma execs_run ms n es n' :
  Forall arrives ms -> execs ms n = Some (es, n') -> run received confirmed n es n'.
Proof.
  intros Ha. revert n es. induction Ha as [|m ms Hm Ha IH]; intros n es; cbn [execs].
  - intros [= <- <-]. constructor.
  - intros ([e n1] & He & Hx)%bind_Some. apply bind_Some in Hx as ([es' n2] & Hes & Hx).
    injection Hx as <- <-. eapply run_cons; [by eapply exec_step|by apply IH].
Qed.
End Schedules.

(** ** Handlers that keep the blocks written *)
Section Shelf.
Context {B : Blake2b}.
Definition on_shelf (k : chain_kind) (h : BlockHash) (d : list Block) : bool :=
  existsb (fun b => bool_decide (kind_of b = k) && (block_hash b =? h)) d.
Definition shelf_handlers : BlockHandlers (list Block) := {|
  handler_signature _ _ := true;
  handler_verify b st := fun d =>
    if (block_previous b =? 0) || on_shelf (kind_of b) (block_previous b) d
    then Ok ((true, Build_ValidationStatus (vs_requests st) (Some ProcessResult.progress) 0), d)
    else Ok ((false, Build_ValidationStatus (vs_requests st) (Some ProcessResult.gap_previous) 0), d);
  handler_exists b d := on_shelf (kind_of b) (block_hash b) d;
  handler_apply b := fun d => Ok (tt, b :: d);
|}.
Lemma shelf_laws : BlockHandlersLaws shelf_handlers.
Proof.
  split; cbn.
  - by intros b b' d -> ->.
  - intros b d d' [= <-]. cbn. by rw bool_decide_true // Z.eqb_refl.
  - intros b b' d d' [= <-] Hb. apply orb_true_iff. by right.
  - intros b b' st d r d'. by case_match; intros [= <- <-].
  - intros b st d st' d'. destruct (_ || _) eqn:Hb; [|done]. intros [= <- <-].
    apply orb_true_iff in Hb as [Hb%Z.eqb_eq|Hb]; [by left|right].
    apply existsb_exists in Hb as (b' & Hin & [Hk%bool_decide_eq_true Hh%Z.eqb_eq]%andb_true_iff).
    exists b'. split_and!; [done..|]. apply existsb_exists. exists b'. split; [done|].
    by rw bool_decide_true // Z.eqb_refl.
Qed.
End Shelf.

(** Two blocks of a chain of delegate 0. *)
Definition chain_block (sequence : Z) (previous : BlockHash) : ApprovedRB :=
  Build_ApprovedRB 0 10 10 sequence 0 previous [] 0.
Definition older : Block := RB (chain_block 0 0).
Definition newer `{Blake2b} : Block := RB (chain_block 1 (block_hash older)).
