(* ===== verification/BlockCacheRuns.v ===== *)
(** * Runs of the cache of blocks

    What holds in every interleaving of the threads of BlockCache.v. *)
From stdpp Require Import base list numbers strings gmap ssreflect.
From S2P Require Import Prelude StakingTypes Requests Epochs Governance TokenTypes TokenRequests Ledger RequestValidation ConsensusBlocks BlockContainer BlockCache.
Open Scope Z_scope.

(** ** Effects of the operations of the container *)
Definition unlocked (p : option ptr) (c : Container) : Container :=
  match p with Some p => update_ptr (set_lock false) p c | None => c end.
Definition locked (p : option ptr) (c : Container) : Container :=
  match p with Some p => update_ptr (set_lock true) p c | None => c end.
Definition is_ready (c : Container) (q : ptr) : Prop :=
  exists x, heap c !! q = Some x /\ pd_reliances x = ∅ /\ pd_lock x = false.

Lemma place_block_spec n fresh join between c :
  wlp (place_block n fresh join between) (fun _ c' => exists es, c' = set_epochs es c) c.
Proof. rw /place_block. wp_steps. by eexists. Qed.
Lemma AddBlock_spec b v c :
  wlp (AddBlock b v) (fun _ c' => exists es, c' = set_epochs es (alloc b v c)) c.
Proof.
  destruct b; rw /AddBlock /AddRequestBlock /AddMicroBlock /AddEpochBlock; wp_steps.
  1: apply wpg_massert; [intros _|done]; wp_steps.
  all: eapply wpg_mono; [apply place_block_spec|]; by intros ? ? [es ->]; exists es.
Qed.

Lemma ready_spec c l q : ready c l = Some q -> is_ready c q /\ hd_error l = Some q.
Proof.
  rw /ready. destruct l as [|p l]; [done|]. destruct (heap c !! p) as [x|] eqn:Hx; [|done].
  destruct (bool_decide_reflect (pd_reliances x = ∅)); [|done].
  destruct (pd_lock x) eqn:Hl; [done|]. intros [= <-]. split; [|done]. by exists x.
Qed.
Lemma ready_rb_spec c rbs n i q j :
  ready_rb c rbs n i = (Some q, j) -> ready c (rbs !!! j) = Some q.
Proof.
  revert i. induction n as [|n IH]; intros i; cbn [ready_rb]; [done|].
  destruct (ready c (rbs !!! i)) eqn:Hr; [by intros [= -> <-]|apply IH].
Qed.
Lemma search_archive_ready c p s e n m q e' :
  search_archive c p s e n m = Ok (Found q, e') -> is_ready c q.
Proof.
  rw /search_archive. destruct (_ && is_empty _); [done|]. destruct (_ && negb _); [done|].
  destruct (if bool_decide (kind_at c p = Some Epoch_chain) then None else _) as [q'|] eqn:Hm.
  { intros [= <- _]. move: Hm. case_match; [done|]. by intros [? _]%ready_spec. }
  destruct (bool_decide (kind_at c p = Some Epoch_chain) && s); [done|].
  destruct (if _ || _ then _ else None) as [q'|] eqn:He; [|by repeat case_match].
  intros [= <- _]. move: He. destruct (_ || _); [|done].
  by intros (? & _ & [? _]%ready_spec)%bind_Some.
Qed.
Lemma search_ready c s rest : forall p i only before q j es,
  search_periods c p i s only before rest = Ok (Some q, j, es) -> is_ready c q.
Proof.
  induction rest as [|e rest IH]; intros p i only before q j es; cbn [search_periods]; [done|].
  case_match; [apply IH|].
  assert (Harch : forall p i e, after_requests c
    (fun i before => search_periods c None i s None before rest) p i s before e rest
    = Ok (Some q, j, es) -> is_ready c q).
  { intros p' i' e0. rw /after_requests.
    destruct (search_archive _ _ _ _ _ _) as [[[q'| |] e']|] eqn:Ha; try done; [|apply IH].
    intros [= <- _ _]. by eapply search_archive_ready. }
  destruct (kind_at c p) as [[]|]; try apply Harch; destruct (_ && is_empty _); try done;
    destruct (ready_rb _ _ _ _) as [[q'|] i'] eqn:Hr; try apply Harch;
    intros [= <- _ _]; by apply ready_rb_spec, ready_spec in Hr as [? _].
Qed.
Lemma GetNextBlock_spec p i s c :
  wlp (GetNextBlock p i s) (fun r c' => exists es,
    c' = set_epochs es (locked r.1 (unlocked p c)) /\
    forall q, r.1 = Some q -> is_ready (unlocked p c) q) c.
Proof.
  rw /GetNextBlock. wp_steps.
  assert (wlp (match p with Some p => modify (update_ptr (set_lock false) p) | None => mret tt end)
    (fun _ c' => c' = unlocked p c) c) as Hu by (destruct p; by wp_steps).
  eapply wpg_mono; [exact Hu|]. intros [] c' ->. wp_steps. apply wpg_massert; [intros _|done].
  wp_steps. destruct (search_periods _ _ _ _ _ _ _) as [[[q j] es]|] eqn:Hs; [|done].
  wp_steps. destruct q as [q|]; wp_steps; exists es; (split; [done|]); intros q'; [|done].
  intros [= <-]. by eapply search_ready.
Qed.

(** ** The steps as rules *)
Section Rules.
Context {D : Type} {H : BlockHandlers D} {B : Blake2b}.
Implicit Types (w : World D) (c : Container).

Definition with_container c w : World D :=
  Build_World D c (queue w) (q_cache w) (cache_mutex w) (database w).
Definition with_database (d : D) w : World D :=
  Build_World D (container w) (queue w) (q_cache w) (cache_mutex w) d.
Definition with_mutex (l : bool) w : World D :=
  Build_World D (container w) (queue w) (q_cache w) l (database w).
Definition on_container (f : Container -> Container) w : World D :=
  with_container (f (container w)) w.

Definition deleted (h : BlockHash) c : Container :=
  set_table (base.filter (fun x => x.1 <> h) (hash_dependency_table c))
    (set_recent (push_recent h (recent_DB_writes c)) c).
Definition marked (h : BlockHash) (chains : list ptr) c : Container :=
  foldl (fun c p => update_ptr (fun x => set_reliances (pd_reliances x ∖ {[h]}) x) p c) c chains.

Inductive rule : Thread -> World D -> list Thread -> World D -> Prop :=
| rule_signature b ts w : ts = [] \/ ts = [AddCached b false] -> rule (AddSignature b) w ts w
| rule_cached b v w :
    cache_mutex w = false -> block_hash b ∈ cached_blocks (container w) ->
    rule (AddCached b v) w [] w
| rule_uncached b v w :
    cache_mutex w = false -> block_hash b ∉ cached_blocks (container w) ->
    rule (AddCached b v) w [AddQueued b v] (with_mutex true w)
| rule_queued b v w :
    block_hash b ∈ q_cache w -> rule (AddQueued b v) w [] (with_mutex false w)
| rule_unqueued b v w :
    block_hash b ∉ q_cache w -> rule (AddQueued b v) w [AddStored b v] w
| rule_stored b v w :
    handler_exists b (database w) = true -> rule (AddStored b v) w [] (with_mutex false w)
| rule_admit b v w :
    handler_exists b (database w) = false ->
    rule (AddStored b v) w [AddPending b v]
      (with_mutex false (on_container
        (fun c => set_cached_blocks ({[block_hash b]} ∪ cached_blocks c) c) w))
| rule_pending b v w es ts :
    ts = [] \/ ts = [ValidateNext None (first_index b) false] ->
    rule (AddPending b v) w ts (on_container (fun c => set_epochs es (alloc b v c)) w)
| rule_next p i s w es q j :
    (forall q', q = Some q' -> is_ready (unlocked p (container w)) q') ->
    rule (ValidateNext p i s) w (match q with Some q => [ValidateContent q j] | None => [] end)
      (on_container (fun c => set_epochs es (locked q (unlocked p c))) w)
| rule_direct p i w x :
    heap (container w) !! p = Some x -> pd_direct_write x = true ->
    rule (ValidateContent p i) w [ValidateStore p i (pd_block x)] w
| rule_verified p i w x st d :
    heap (container w) !! p = Some x -> pd_direct_write x = false ->
    handler_verify (pd_block x) (pd_status x) (database w) = Ok ((true, st), d) ->
    rule (ValidateContent p i) w [ValidateStore p i (pd_block x)]
      (on_container (update_ptr (set_status st) p) (with_database d w))
| rule_rejected p i w x st d hs st' :
    heap (container w) !! p = Some x -> pd_direct_write x = false ->
    handler_verify (pd_block x) (pd_status x) (database w) = Ok ((false, st), d) ->
    rule (ValidateContent p i) w [ValidateWait p i hs]
      (on_container (update_ptr (set_status st') p) (with_database d w))
| rule_store p i b w :
    rule (ValidateStore p i b) w [ValidateDelete p i b]
      (Build_World D (container w) (queue w ++ [b]) ({[block_hash b]} ∪ q_cache w)
         (cache_mutex w) (database w))
| rule_delete p i b w :
    cache_mutex w = false ->
    rule (ValidateDelete p i b) w [ValidateNext (Some p) i true]
      (on_container (fun c => set_cached_blocks (cached_blocks c ∖ {[block_hash b]}) c) w)
| rule_waited p i w : rule (ValidateWait p i []) w [ValidateNext (Some p) i false] w
| rule_recent p i h hs w :
    h ∈ recent_DB_writes (container w) ->
    rule (ValidateWait p i (h :: hs)) w [ValidateWait p i hs] w
| rule_wait p i h hs w :
    h ∉ recent_DB_writes (container w) ->
    rule (ValidateWait p i (h :: hs)) w [ValidateRely p i h hs]
      (on_container (fun c => set_table (hash_dependency_table c ++ [(h, p)]) c) w)
| rule_rely p i h hs w :
    rule (ValidateRely p i h hs) w [ValidateWait p i hs]
      (on_container (update_ptr (fun x => set_reliances ({[h]} ∪ pd_reliances x) x) p) w)
| rule_released found ts w :
    ts = [] \/ ts = [ValidateNext None O false] -> rule (Release [] found) w ts w
| rule_nobody h hs found w :
    waiting h (hash_dependency_table (container w)) = [] ->
    rule (Release (h :: hs) found) w [Release hs found] (on_container (deleted h) w)
| rule_wake h hs found w chains :
    waiting h (hash_dependency_table (container w)) = chains ->
    rule (Release (h :: hs) found) w [Mark h chains hs] (on_container (deleted h) w)
| rule_mark h chains hs w :
    rule (Mark h chains hs) w [Release hs true] (on_container (marked h chains) w)
| rule_front b q w : queue w = b :: q -> rule WriteFront w [WriteApply b] w
| rule_apply b w d :
    handler_apply b (database w) = Ok (tt, d) ->
    rule (WriteApply b) w [WritePost b] (with_database d w)
| rule_post b w : rule (WritePost b) w [WritePop b; Release (released_by b) false] w
| rule_pop b w :
    rule (WritePop b) w [WriteFront]
      (Build_World D (container w) (tail (queue w)) (q_cache w ∖ {[block_hash b]})
         (cache_mutex w) (database w)).

Lemma thread_step_rule t w ts w' : thread_step t w = Ok (Some ts, w') -> rule t w ts w'.
Proof.
  destruct w as [c q qc mx d].
  destruct t as [b|b v|b v|b v|b v|p i s|p i|p i b|p i b|p i hs|p i h hs|hs f|h cs hs| |b|b|b];
    cbn [thread_step]; rw /mbind /M_bind /in_container /in_database /set_mutex;
    cbn [gets container queue q_cache cache_mutex database modify mret M_ret].
  - intros [= <- <-]. constructor. case_match; auto.
  - destruct mx; [done|]. cbn [IsBlockCached gets]. case_bool_decide; intros [= <- <-]; by constructor.
  - rw /IsBlockQueued. cbn [gets q_cache]. case_bool_decide; intros [= <- <-]; by constructor.
  - destruct (handler_exists b d) eqn:He; intros [= <- <-]; [by constructor|].
    by apply (rule_admit b v (Build_World D c q qc mx d)).
  - destruct (AddBlock b v c) as [[r c']|] eqn:Ha; [|done].
    destruct (wpg_ok _ _ _ _ _ _ (AddBlock_spec b v c) Ha) as [es ->]. intros [= <- <-].
    apply (rule_pending b v (Build_World D c q qc mx d)). case_match; auto.
  - destruct (GetNextBlock p i s c) as [[[r j] c']|] eqn:Ha; [|done].
    destruct (wpg_ok _ _ _ _ _ _ (GetNextBlock_spec p i s c) Ha) as (es & -> & Hr).
    intros [= <- <-]. by apply (rule_next p i s (Build_World D c q qc mx d) es r j).
  - destruct (heap c !! p) as [x|] eqn:Hx; [|done].
    destruct (pd_direct_write x) eqn:Hd; [intros [= <- <-]; by constructor|].
    cbn [database container queue q_cache cache_mutex].
    destruct (handler_verify (pd_block x) (pd_status x) d) as [[[[] st] d']|] eqn:Hv; [| |done]; cbn [fst snd].
    + intros [= <- <-]. by apply (rule_verified p i (Build_World D c q qc mx d) x st d').
    + destruct (dependencies (pd_block x) st) as [[hs st']|]; [|done].
      intros [= <- <-]. by apply (rule_rejected p i (Build_World D c q qc mx d) x st d' hs st').
  - intros [= <- <-]. apply (rule_store p i b (Build_World D c q qc mx d)).
  - destruct mx; [done|]. intros [= <- <-]. by apply (rule_delete p i b (Build_World D c q qc false d)).
  - destruct hs as [|h hs]; [intros [= <- <-]; constructor|].
    rw /add_to_table /mbind /M_bind. cbn [gets container]. case_bool_decide;
      cbn [mret M_ret modify]; intros [= <- <-]; [by constructor|].
    by apply (rule_wait p i h hs (Build_World D c q qc mx d)).
  - intros [= <- <-]. apply (rule_rely p i h hs (Build_World D c q qc mx d)).
  - destruct hs as [|h hs]; [intros [= <- <-]; constructor; case_match; auto|].
    rw /DeleteHashDependencies /mbind /M_bind. cbn [modify gets mret M_ret].
    destruct (waiting h _) as [|x xs] eqn:Hw; intros [= <- <-].
    + by apply (rule_nobody h hs f (Build_World D c q qc mx d)).
    + by apply (rule_wake h hs f (Build_World D c q qc mx d)).
  - intros [= <- <-]. apply (rule_mark h cs hs (Build_World D c q qc mx d)).
  - destruct q as [|b q]; [done|]. intros [= <- <-]. by econstructor.
  - destruct (handler_apply b d) as [[[] d']|] eqn:Ha; [|done]. intros [= <- <-].
    by apply (rule_apply b (Build_World D c q qc mx d)).
  - intros [= <- <-]. constructor.
  - intros [= <- <-]. apply (rule_pop b (Build_World D c q qc mx d)).
Qed.
End Rules.

(** ** Invariants of runs *)
Section Runs.
Context {D : Type} {H : BlockHandlers D} {B : Blake2b} {HL : BlockHandlersLaws H}.
Variables (received confirmed : Block -> Prop).
Implicit Types (w : World D) (n : Node D).

Abbreviation step := (BlockCache.step received confirmed).
Abbreviation run := (BlockCache.run received confirmed).
Definition seen (b : Block) : Prop := received b \/ confirmed b.

Lemma run_invariant (I : list (event D) -> Node D -> Prop) n0 :
  I [] n0 -> (forall es n e n', I es n -> step n e n' -> I (es ++ [e]) n') ->
  forall es n, run n0 es n -> I es n.
Proof. intros H0 Hs es n Hr. induction Hr; eauto. Qed.

(** *** Blocks come from outside *)
Definition thread_block (t : Thread) : option Block :=
  match t with
  | AddSignature b | AddCached b _ | AddQueued b _ | AddStored b _ | AddPending b _
  | ValidateStore _ _ b | ValidateDelete _ _ b | WriteApply b | WritePost b | WritePop b => Some b
  | _ => None
  end.
Definition thread_seen (t : Thread) : Prop := forall b, thread_block t = Some b -> seen b.
Record blocks_seen (n : Node D) : Prop := {
  seen_threads : Forall thread_seen n.2;
  seen_heap p x : heap (container n.1) !! p = Some x -> seen (pd_block x);
  seen_queue : Forall seen (queue n.1);
}.

(** What an update of a pointer may change. *)
Lemma heap_update f p c q y :
  heap (update_ptr f p c) !! q = Some y ->
  exists x, heap c !! q = Some x /\ (y = x \/ q = p /\ y = f x).
Proof.
  cbn [update_ptr set_heap heap]. intros Hy. destruct (decide (p = q)) as [->|Hne].
  - rw lookup_alter_eq in Hy. apply fmap_Some in Hy as (x & -> & ->). eauto.
  - rw lookup_alter_ne // in Hy. eauto.
Qed.
(** A property of the blocks, and of what else never changes in a pending block. *)
Definition static (x : Pending) : Block * bool := (pd_block x, pd_direct_write x).
Definition same_static c c' : Prop :=
  forall p y, heap c' !! p = Some y -> exists x, heap c !! p = Some x /\ static y = static x.
#[local] Instance same_static_preorder : PreOrder same_static.
Proof.
  split; [by intros c p y Hy; exists y|]. intros c1 c2 c3 H1 H2 p y Hy.
  destruct (H2 p y Hy) as (x & Hx & ->). destruct (H1 p x Hx) as (x' & Hx' & ->). eauto.
Qed.
Lemma update_static f p c : (forall x, static (f x) = static x) -> same_static c (update_ptr f p c).
Proof. intros Hf q y (x & Hx & [->|[-> ->]])%heap_update; eauto. Qed.
Lemma unlocked_static p c : same_static c (unlocked p c).
Proof. destruct p; [by apply update_static|done]. Qed.
Lemma locked_static p c : same_static c (locked p c).
Proof. destruct p; [by apply update_static|done]. Qed.
Lemma marked_static h cs c : same_static c (marked h cs c).
Proof.
  revert c. induction cs as [|p cs IH]; intros c; [done|]. cbn [marked foldl].
  etransitivity; [by apply (update_static (fun x => set_reliances (pd_reliances x ∖ {[h]}) x) p)|].
  apply IH.
Qed.
Lemma set_epochs_static es c c' : same_static c c' -> same_static c (set_epochs es c').
Proof. done. Qed.

(** The pending blocks after a step are those before, but for one added. *)
Lemma rule_heap t w ts w' :
  rule t w ts w' ->
  same_static (container w) (container w') \/
  exists b v, t = AddPending b v /\ forall p y, heap (container w') !! p = Some y ->
    static y = (b, v) \/ exists x, heap (container w) !! p = Some x /\ static y = static x.
Proof.
  destruct 1; try (left; intros p' y Hy; by exists y); try (left; by apply update_static);
    try (left; by apply marked_static).
  - right. exists b, v. split; [done|]. intros p y Hy.
    cbn [on_container with_container container set_epochs alloc heap] in Hy.
    destruct (decide (p = next_ptr (container w))) as [->|Hne].
    + rw lookup_insert_eq in Hy. injection Hy as <-. by left.
    + rw lookup_insert_ne // in Hy. right. eauto.
  - left. cbn [on_container with_container container]. apply set_epochs_static.
    etransitivity; [apply unlocked_static|apply locked_static].
Qed.

Lemma rule_seen t w ts w' :
  rule t w ts w' -> thread_seen t -> Forall seen (queue w) ->
  (forall p x, heap (container w) !! p = Some x -> seen (pd_block x)) ->
  Forall thread_seen ts /\ Forall seen (queue w').
Proof.
  intros Hr Ht Hq Hh. destruct Hr; cbn [on_container with_container with_database with_mutex queue];
    repeat match goal with
    | H : _ \/ _ |- _ => destruct H as [-> | ->]
    | |- context [match ?q with Some _ => _ | None => _ end] => destruct q
    end; split; rw ?Forall_cons ?Forall_nil; try (done || by split; [|done]);
    try (split; [|done]; intros b' [= <-]; first [by apply Ht | by eapply Hh]).
  - apply Forall_app. split; [done|]. apply Forall_singleton. by apply Ht.
  - split; [|done]. intros b' [= <-]. rw H0 in Hq. by apply Forall_cons in Hq as [? _].
  - by destruct (queue w); [|apply Forall_cons in Hq as [_ ?]].
Qed.

Lemma step_blocks_seen n e n' : blocks_seen n -> step n e n' -> blocks_seen n'.
Proof.
  intros [Ht Hh Hq] Hs. destruct Hs as [w l1 t l2 ts w' Hs|w l b Hb|w l b Hb]; cbn [fst snd] in *.
  - apply thread_step_rule in Hs. apply Forall_app in Ht as [H1 [Ht H2]%Forall_cons].
    destruct (rule_seen _ _ _ _ Hs Ht Hq Hh) as [Hts Hq']. split; cbn [fst snd]; [|idtac|done].
    + apply Forall_app. split; [done|]. by apply Forall_app.
    + intros p y Hy. destruct (rule_heap _ _ _ _ Hs) as [Hst|(b & v & -> & Hst)].
      * destruct (Hst p y Hy) as (x & Hx & [= -> _]). by eapply Hh.
      * destruct (Hst p y Hy) as [[= -> _]|(x & Hx & [= -> _])]; [by apply Ht|by eapply Hh].
  - split; cbn [fst snd]; [|done|done]. apply Forall_app. split; [done|].
    apply Forall_singleton. intros ? [= <-]. by left.
  - split; cbn [fst snd]; [|done|done]. apply Forall_app. split; [done|].
    apply Forall_singleton. intros ? [= <-]. by right.
Qed.

(** *** A block is admitted once *)
Definition holds (t : Thread) : bool :=
  match t with AddQueued _ _ | AddStored _ _ => true | _ => false end.
Definition holders (l : list Thread) : nat := length (List.filter holds l).
Lemma holders_app l1 l2 : holders (l1 ++ l2) = (holders l1 + holders l2)%nat.
Proof. by rw /holders List.filter_app length_app. Qed.

Definition stored (w : World D) (b : Block) : Prop := handler_exists b (database w) = true.
(** Where an admitted block is found by BlockExistsAdd. *)
Definition present (w : World D) (b : Block) : Prop :=
  block_hash b ∈ cached_blocks (container w) \/ block_hash b ∈ q_cache w \/ stored w b.
Definition thread_ok (w : World D) (adm : list Block) (t : Thread) : Prop :=
  match t with
  | AddQueued b _ => block_hash b ∉ cached_blocks (container w)
  | AddStored b _ =>
      (block_hash b ∉ cached_blocks (container w)) /\
      Forall (fun b' => block_hash b' = block_hash b -> stored w b') adm
  | ValidateDelete _ _ b => block_hash b ∈ q_cache w \/ stored w b
  | WritePost b | WritePop b => stored w b
  | _ => True
  end.
Record admission (adm : list Block) (n : Node D) : Prop := {
  ad_seen : Forall seen adm;
  ad_mutex : holders n.2 = if cache_mutex n.1 then 1%nat else 0%nat;
  ad_threads : Forall (thread_ok n.1 adm) n.2;
  ad_present : Forall (present n.1) adm;
  ad_nodup : NoDup (block_hash <$> adm);
}.

(** Steps that only add to the queue and the database. *)
Definition grows (w w' : World D) : Prop :=
  cached_blocks (container w') = cached_blocks (container w) /\ q_cache w ⊆ q_cache w' /\
  forall b, stored w b -> stored w' b.
Lemma grows_present w w' b : grows w w' -> present w b -> present w' b.
Proof. intros (Hc & Hq & Hs) [Hb|[Hb|Hb]]; [left; by rw Hc|right; left|right; right]; auto. Qed.
Lemma grows_thread w w' adm t : grows w w' -> thread_ok w adm t -> thread_ok w' adm t.
Proof.
  intros (Hc & Hq & Hs). destruct t; cbn [thread_ok]; rw ?Hc; try done; auto.
  - intros [? Hadm]. split; [done|]. eapply Forall_impl; [exact Hadm|]. auto.
  - intros [?|?]; auto.
Qed.

Lemma unlocked_cached p c : cached_blocks (unlocked p c) = cached_blocks c.
Proof. by destruct p. Qed.
Lemma locked_cached p c : cached_blocks (locked p c) = cached_blocks c.
Proof. by destruct p. Qed.
Lemma marked_cached h cs c : cached_blocks (marked h cs c) = cached_blocks c.
Proof. revert c. induction cs as [|p cs IH]; intros c; [done|]. apply (IH (update_ptr _ p c)). Qed.

Definition silent (t : Thread) : bool :=
  match t with ValidateDelete _ _ _ | WritePop _ => false | _ => true end.
Definition b2n (b : bool) : nat := if b then 1%nat else 0%nat.

Lemma rule_grows t w ts w' :
  rule t w ts w' -> silent t = true -> (forall b, event_of t w <> Admits b) -> grows w w'.
Proof.
  destruct 1; cbn [silent event_of]; try done;
    try (intros _ _; split_and!; done); intros _ Hn.
  - rw H0 in Hn. by destruct (Hn b).
  - split_and!; [by rw /= locked_cached unlocked_cached|done..].
  - split_and!; [done..|]. intros b'. by apply (verify_keeps _ _ _ _ _ _ H2).
  - split_and!; [done..|]. intros b'. by apply (verify_keeps _ _ _ _ _ _ H2).
  - split_and!; [done|cbn [q_cache]; set_solver|done].
  - split_and!; [by rw /= marked_cached|done..].
  - split_and!; [done..|]. intros b'. by apply (apply_keeps _ _ _ _ H0).
Qed.

Lemma rule_mutex t w ts w' :
  rule t w ts w' -> (holds t = true -> cache_mutex w = true) ->
  (holders ts + b2n (cache_mutex w) = b2n (holds t) + b2n (cache_mutex w'))%nat.
Proof.
  destruct 1; cbn [holds]; intros Hm;
    repeat match goal with
    | H : _ \/ _ |- _ => destruct H as [-> | ->]
    | |- context [match ?q with Some _ => _ | None => _ end] => destruct q
    | H : cache_mutex _ = _ |- _ => rw H
    end; try done; cbn [with_mutex on_container with_container cache_mutex];
    try (rw (Hm eq_refl) //); by destruct (cache_mutex w).
Qed.

(** What the threads that follow know. *)
Lemma rule_threads t w ts w' adm :
  rule t w ts w' -> (forall b, event_of t w <> Admits b) -> thread_ok w adm t ->
  Forall (present w) adm -> Forall (thread_ok w' adm) ts.
Proof.
  destruct 1; cbn [event_of thread_ok]; intros Hn Ht Hp;
    repeat match goal with
    | H : _ \/ _ |- Forall _ _ => destruct H as [-> | ->]
    | |- context [match ?q with Some _ => _ | None => _ end] => destruct q
    end; try (by repeat constructor).
  - apply Forall_singleton. split; [done|]. eapply Forall_impl; [exact Hp|].
    intros b' [Hc|[Hq|Hs]] Heq; [by rw Heq in Hc|by rw Heq in Hq|done].
  - apply Forall_singleton. left. cbn [q_cache]. set_solver.
  - apply Forall_singleton. by eapply apply_stores.
Qed.

Hypothesis apart : forall b b', seen b -> seen b' -> block_hash b = block_hash b' ->
  kind_of b = kind_of b'.
Lemma stored_same b b' w :
  seen b -> seen b' -> block_hash b = block_hash b' -> stored w b -> stored w b'.
Proof. intros Hb Hb' Hh. by rw /stored (exists_by_hash b b' _ (apart _ _ Hb Hb' Hh) Hh). Qed.

(** Erasing a hash that is found elsewhere. *)
Lemma delete_keeps w b b' :
  seen b -> seen b' -> block_hash b ∈ q_cache w \/ stored w b -> present w b' ->
  present (on_container
    (fun c => set_cached_blocks (cached_blocks c ∖ {[block_hash b]}) c) w) b'.
Proof.
  intros Hb Hb' Hx [Hc|[Hq|Hs]]; [|by right; left|by right; right].
  destruct (decide (block_hash b' = block_hash b)) as [Heq|Hne].
  - right. destruct Hx as [Hx|Hx]; [left; by rw Heq|right]. by apply (stored_same b).
  - left. cbn [on_container with_container container set_cached_blocks cached_blocks]. set_solver.
Qed.
Lemma pop_keeps w b b' q :
  seen b -> seen b' -> stored w b ->
  block_hash b' ∈ q_cache w \/ stored w b' ->
  block_hash b' ∈ q_cache w ∖ {[block_hash b]} \/
  stored (Build_World D (container w) q (q_cache w ∖ {[block_hash b]}) (cache_mutex w)
            (database w)) b'.
Proof.
  intros Hb Hb' Hs [Hx|Hx]; [|by right].
  destruct (decide (block_hash b' = block_hash b)) as [Heq|Hne]; [|left; set_solver].
  right. by apply (stored_same b b' w).
Qed.

Lemma holders_split l1 t l2 :
  holders (l1 ++ t :: l2) = (b2n (holds t) + holders (l1 ++ l2))%nat.
Proof. rw (holders_app l1 (t :: l2)) (holders_app l1 l2). rw {2}/holders /=. destruct (holds t); cbn; rw /holders; lia. Qed.
Lemma no_holder_ok w w' adm adm' l :
  holders l = 0%nat -> q_cache w' = q_cache w -> (forall b, stored w b -> stored w' b) ->
  Forall (thread_ok w adm) l -> Forall (thread_ok w' adm') l.
Proof.
  intros Hh Hq Hs Hl. induction Hl as [|t l Ht Hl IH]; [constructor|].
  assert (holds t = false /\ holders l = 0%nat) as [Ht0 Hl0].
  { move: Hh. rw /holders /=. by destruct (holds t). }
  constructor; [|auto]. destruct t; cbn [thread_ok] in *; try done; auto.
  rw Hq. destruct Ht; auto.
Qed.

Lemma admit_ok w b v l1 l2 adm :
  seen b -> handler_exists b (database w) = false ->
  admission adm (w, l1 ++ AddStored b v :: l2) ->
  admission (adm ++ [b]) (with_mutex false (on_container
    (fun c => set_cached_blocks ({[block_hash b]} ∪ cached_blocks c) c) w),
    l1 ++ [AddPending b v] ++ l2).
Proof.
  intros Hb He [Hse Hm Ht Hp Hn]. cbn [fst snd] in *.
  rw holders_split /= in Hm. assert (Hh : holders (l1 ++ l2) = 0%nat) by (destruct (cache_mutex w); lia).
  apply Forall_app in Ht as [H1 [[Hc Hsame] H2]%Forall_cons].
  assert (Hnew : forall b', b' ∈ adm -> block_hash b' <> block_hash b).
  { intros b' Hin Heq. eapply Forall_forall in Hsame; [|done]. specialize (Hsame Heq).
    apply (stored_same b' b) in Hsame; [by rw /stored He in Hsame| |done|done].
    by eapply Forall_forall in Hse. }
  split; cbn [fst snd].
  - apply Forall_app. split; [done|]. by apply Forall_singleton.
  - by rw /= (holders_split l1 (AddPending b v) l2).
  - assert (Hl : Forall (thread_ok w adm) (l1 ++ l2)) by by apply Forall_app.
    apply (no_holder_ok w (with_mutex false (on_container
      (fun c => set_cached_blocks ({[block_hash b]} ∪ cached_blocks c) c) w)) adm (adm ++ [b]))
      in Hl; [|done..].
    apply Forall_app in Hl as [Hl1 Hl2]. apply Forall_app. split; [exact Hl1|].
    constructor; [done|exact Hl2].
  - apply Forall_app. split.
    + eapply Forall_impl; [exact Hp|]. intros b' [Hx|[Hx|Hx]]; [left|by right; left|by right; right].
      cbn. set_solver.
    + apply Forall_singleton. left. cbn. set_solver.
  - rw fmap_app. apply NoDup_app. split_and!; [done| |by apply NoDup_singleton].
    intros h (b' & -> & Hin)%list_elem_of_fmap Heq%list_elem_of_singleton. by destruct (Hnew b').
Qed.

Lemma delete_ok w p i b l1 l2 adm :
  seen b -> cache_mutex w = false -> admission adm (w, l1 ++ ValidateDelete p i b :: l2) ->
  admission adm (on_container
    (fun c => set_cached_blocks (cached_blocks c ∖ {[block_hash b]}) c) w,
    l1 ++ [ValidateNext (Some p) i true] ++ l2).
Proof.
  intros Hb Hfree [Hse Hm Ht Hp Hn]. cbn [fst snd] in *. rw Hfree holders_split /= in Hm.
  apply Forall_app in Ht as [H1 [Hx H2]%Forall_cons]. split; cbn [fst snd]; [done| | | |done].
  - by rw /= Hfree (holders_split l1 (ValidateNext (Some p) i true) l2).
  - assert (Hl : Forall (thread_ok w adm) (l1 ++ l2)) by by apply Forall_app.
    apply (no_holder_ok w (on_container
      (fun c => set_cached_blocks (cached_blocks c ∖ {[block_hash b]}) c) w) adm adm)
      in Hl; [|done..].
    apply Forall_app in Hl as [Hl1 Hl2]. apply Forall_app. split; [exact Hl1|].
    constructor; [done|exact Hl2].
  - apply Forall_forall. intros b' Hin. eapply Forall_forall in Hp; [|done].
    apply delete_keeps; [done| |done|done]. by eapply Forall_forall in Hse.
Qed.
Lemma pop_ok w b l1 l2 adm :
  Forall thread_seen (l1 ++ WritePop b :: l2) -> admission adm (w, l1 ++ WritePop b :: l2) ->
  admission adm (Build_World D (container w) (tail (queue w)) (q_cache w ∖ {[block_hash b]})
    (cache_mutex w) (database w), l1 ++ [WriteFront] ++ l2).
Proof.
  intros Hts [Hse Hm Ht Hp Hn]. cbn [fst snd] in *. rw holders_split /= in Hm.
  apply Forall_app in Hts as [S1 [Sb S2]%Forall_cons]. specialize (Sb b eq_refl).
  apply Forall_app in Ht as [H1 [Hx H2]%Forall_cons].
  assert (Hok : forall l, Forall thread_seen l -> Forall (thread_ok w adm) l ->
    Forall (thread_ok (Build_World D (container w) (tail (queue w)) (q_cache w ∖ {[block_hash b]})
      (cache_mutex w) (database w)) adm) l).
  { intros l HS HT. induction HT as [|t l Ht HT IH]; [constructor|].
    apply Forall_cons in HS as [Hs HS]. constructor; [|auto].
    destruct t; try exact Ht. cbn [thread_ok] in *. eapply pop_keeps; [done|by apply Hs|done..]. }
  split; cbn [fst snd]; [done| | | |done].
  - by rw /= (holders_split l1 WriteFront l2).
  - apply Forall_app. split; [auto|]. constructor; [done|auto].
  - apply Forall_forall. intros b' Hin. eapply Forall_forall in Hp; [|done].
    eapply Forall_forall in Hse; [|done].
    destruct Hp as [Hc|Hq]; [by left|right]. by eapply pop_keeps.
Qed.
Lemma quiet_ok t w ts w' l1 l2 adm :
  rule t w ts w' -> silent t = true -> (forall b, event_of t w <> Admits b) ->
  admission adm (w, l1 ++ t :: l2) -> admission adm (w', l1 ++ ts ++ l2).
Proof.
  intros Hr Hsil He [Hse Hm Ht Hp Hn]. cbn [fst snd] in *.
  pose proof (rule_grows _ _ _ _ Hr Hsil He) as Hg. apply Forall_app in Ht as [H1 [Hx H2]%Forall_cons].
  split; cbn [fst snd]; [done| | | |done].
  - rw holders_split in Hm. rw (holders_app l1) (holders_app ts). rw (holders_app l1) in Hm.
    assert (Hmt : holds t = true -> cache_mutex w = true).
    { intros Hh. rw Hh in Hm. by destruct (cache_mutex w). }
    pose proof (rule_mutex _ _ _ _ Hr Hmt) as Heq. rw /b2n in Heq, Hm.
    destruct (cache_mutex w), (cache_mutex w'), (holds t); lia.
  - apply Forall_app. split; [by eapply Forall_impl; [exact H1|]; intros; eapply grows_thread|].
    apply Forall_app. split; [by eapply rule_threads|].
    by eapply Forall_impl; [exact H2|]; intros; eapply grows_thread.
  - by eapply Forall_impl; [exact Hp|]; intros; eapply grows_present.
Qed.

Definition admissions (es : list (event D)) : list Block :=
  omap (fun e => match e with Admits b => Some b | _ => None end) es.
Lemma step_admission n e n' adm :
  blocks_seen n -> admission adm n -> step n e n' ->
  admission (adm ++ admissions [e]) n'.
Proof.
  intros Hseen Had Hs. destruct Hs as [w l1 t l2 ts w' Hs|w l b Hb|w l b Hb].
  - apply thread_step_rule in Hs. pose proof (seen_threads _ Hseen) as Hts. cbn [snd] in Hts.
    pose proof (proj1 (Forall_app _ _ _) Hts) as [_ [Ht _]%Forall_cons].
    destruct (silent t) eqn:Hsil.
    + destruct (event_of t w) as [b|b d|] eqn:He;
        try (cbn [admissions omap list_omap]; rw app_nil_r; eapply quiet_ok; try done; by rw He).
      destruct t; cbn in He; try done. destruct (handler_exists b0 (database w)) eqn:Hx; [done|].
      injection He as ->. inversion Hs; subst; [congruence|].
      apply admit_ok; [by apply Ht|done|done].
    + assert (admissions [event_of t w] = []) as -> by by destruct t. rw app_nil_r.
      destruct t; try done; inversion Hs; subst; [apply delete_ok; [by apply Ht|done..]|].
      by apply pop_ok.
  - rw app_nil_r. destruct Had as [? Hm ? ? ?]. split; cbn [fst snd] in *; try done.
    + by rw holders_app Hm Nat.add_0_r.
    + apply Forall_app. split; [done|]. by repeat constructor.
  - rw app_nil_r. destruct Had as [? Hm ? ? ?]. split; cbn [fst snd] in *; try done.
    + by rw holders_app Hm Nat.add_0_r.
    + apply Forall_app. split; [done|]. by repeat constructor.
Qed.

Lemma start_seen d : blocks_seen (start d).
Proof. split; cbn; [by repeat constructor|done|constructor]. Qed.
Lemma start_admission d : admission [] (start d).
Proof. split; cbn; by repeat constructor. Qed.
Lemma run_admission d es n : run (start d) es n -> blocks_seen n /\ admission (admissions es) n.
Proof.
  apply (run_invariant (fun es n => blocks_seen n /\ admission (admissions es) n)).
  - split; [apply start_seen|apply start_admission].
  - intros es' n1 e n2 [Hs Ha] Hst. split; [by eapply step_blocks_seen|].
    rw /admissions omap_app. by eapply step_admission.
Qed.

(** C9 Every block is admitted once. Whatever the threads of the cache and the
    writer do in between, BlockExistsAdd never admits a block that was admitted
    before: an admitted block is at all times among the cached blocks, in the
    write queue or in the database, and the three are looked up in that order
    while a block moves through them in that order. *)
Theorem block_admitted_once d es n :
  run (start d) es n ->
  NoDup (block_hash <$> admissions es) /\ Forall (present n.1) (admissions es).
Proof. intros [_ [_ _ _ Hp Hn]]%run_admission. done. Qed.
End Runs.

(** ** The writer follows the chains *)
Section Order.
Context {D : Type} {H : BlockHandlers D} {B : Blake2b} {HL : BlockHandlersLaws H}.
Variables (received confirmed : Block -> Prop).
Implicit Types (w : World D) (n : Node D).
Abbreviation step := (BlockCache.step received confirmed).
Abbreviation run := (BlockCache.run received confirmed).

(** A block that may be written. *)
Definition vetted (d : D) (b : Block) : Prop := confirmed b \/ follows b d.
Definition thread_vetted (d : D) (t : Thread) : Prop :=
  match t with
  | AddCached b true | AddQueued b true | AddStored b true | AddPending b true => confirmed b
  | ValidateStore _ _ b | WriteApply b => vetted d b
  | _ => True
  end.
Record vetting (n : Node D) : Prop := {
  vt_heap p x : heap (container n.1) !! p = Some x -> pd_direct_write x = true ->
    confirmed (pd_block x);
  vt_threads : Forall (thread_vetted (database n.1)) n.2;
  vt_queue : Forall (vetted (database n.1)) (queue n.1);
}.
Definition keeps_stored (d d' : D) : Prop :=
  forall b, handler_exists b d = true -> handler_exists b d' = true.
Lemma follows_mono d d' b : keeps_stored d d' -> follows b d -> follows b d'.
Proof. intros Hk [?|(b' & ? & ? & ?)]; [by left|right]. exists b'. auto. Qed.
Lemma vetted_mono d d' b : keeps_stored d d' -> vetted d b -> vetted d' b.
Proof. intros Hk [?|?]; [by left|right]. by eapply follows_mono. Qed.
Lemma thread_vetted_mono d d' t : keeps_stored d d' -> thread_vetted d t -> thread_vetted d' t.
Proof.
  intros Hk. destruct t as [|b []|b []|b []|b []| | | | | | | | | | | |]; cbn; try done;
    by apply vetted_mono.
Qed.

Lemma rule_keeps_stored t w ts w' : rule t w ts w' -> keeps_stored (database w) (database w').
Proof.
  destruct 1; intros b'; first [done|by eapply verify_keeps|by eapply apply_keeps].
Qed.
Lemma rule_vetted t w ts w' :
  rule t w ts w' -> thread_vetted (database w) t -> Forall (vetted (database w)) (queue w) ->
  (forall p x, heap (container w) !! p = Some x -> pd_direct_write x = true ->
     confirmed (pd_block x)) ->
  Forall (thread_vetted (database w')) ts /\ Forall (vetted (database w')) (queue w').
Proof.
  intros Hr Ht Hq Hh. pose proof (rule_keeps_stored _ _ _ _ Hr) as Hk.
  assert (Hq' : Forall (vetted (database w')) (queue w))
    by (eapply Forall_impl; [exact Hq|]; intros b; by apply vetted_mono).
  destruct Hr; cbn [on_container with_container with_database with_mutex queue database] in *;
    repeat match goal with
    | H : _ \/ _ |- _ => destruct H as [-> | ->]
    | |- context [match ?q with Some _ => _ | None => _ end] => destruct q
    | v : bool |- _ => destruct v
    end; (split; [|first [done|idtac]]); try (by repeat constructor);
    try (apply Forall_singleton; done).
  - apply Forall_singleton. left. by eapply Hh.
  - apply Forall_singleton. right. by eapply verify_follows.
  - apply Forall_app. split; [done|]. by apply Forall_singleton.
  - match goal with Hw : queue _ = _ :: _ |- _ => rw Hw in Hq end.
    apply Forall_singleton. by apply Forall_cons in Hq as [? _].
  - by destruct (queue w); [|apply Forall_cons in Hq' as [_ ?]].
Qed.
Lemma step_vetting n e n' : vetting n -> step n e n' -> vetting n'.
Proof.
  intros [Hh Ht Hq] Hs. destruct Hs as [w l1 t l2 ts w' Hs|w l b Hb|w l b Hb]; cbn [fst snd] in *.
  - apply thread_step_rule in Hs. apply Forall_app in Ht as [H1 [Ht H2]%Forall_cons].
    destruct (rule_vetted _ _ _ _ Hs Ht Hq Hh) as [Hts Hq'].
    pose proof (rule_keeps_stored _ _ _ _ Hs) as Hk. split; cbn [fst snd]; [| |done].
    + intros p y Hy Hd. destruct (rule_heap _ _ _ _ Hs) as [Hst|(b & v & -> & Hst)].
      * destruct (Hst p y Hy) as (x & Hx & [= -> Hdx]). eapply Hh; [done|congruence].
      * destruct (Hst p y Hy) as [[= -> Hv]|(x & Hx & [= -> Hdx])];
          [|eapply Hh; [done|congruence]]. rw Hv in Hd. by rw Hd in Ht.
    + apply Forall_app. split; [|apply Forall_app; split; [done|]];
        (eapply Forall_impl; [eassumption|]); intros; by eapply thread_vetted_mono.
  - split; cbn [fst snd]; [done| |done]. apply Forall_app. split; [done|]. by repeat constructor.
  - split; cbn [fst snd]; [done| |done]. apply Forall_app. split; [done|].
    by apply Forall_singleton.
Qed.
Lemma run_vetting d es n :
  run (start d) es n -> vetting n /\ forall b d', Writes b d' ∈ es -> vetted d' b.
Proof.
  apply (run_invariant received confirmed
    (fun es n => vetting n /\ forall b d', Writes b d' ∈ es -> vetted d' b)).
  - split; [|by intros b d' ?%not_elem_of_nil].
    split; cbn; [done|by repeat constructor|constructor].
  - intros es' n1 e n2 [Hv Hw] Hs. split; [by eapply step_vetting|].
    intros b d' [Hin|Hin]%elem_of_app; [by apply Hw|]. apply list_elem_of_singleton in Hin.
    destruct Hs as [w l1 t l2 ts w' Hs|w l b' Hb|w l b' Hb]; [|done..].
    pose proof (vt_threads _ Hv) as [_ [Ht _]%Forall_cons]%Forall_app.
    destruct t; cbn in Hin; try done; [by case_match|]. by injection Hin as -> ->.
Qed.

End Order.
