(* ===== verification/BlockWakeups.v ===== *)
(** * Blocks that are validated and blocks that wait

    The lock of a pending block and the dependencies it waits for, in every run of
    the threads of BlockCache.v. *)
From stdpp Require Import base list numbers strings gmap ssreflect.
From S2P Require Import Prelude StakingTypes Requests Epochs Governance TokenTypes TokenRequests Ledger RequestValidation ConsensusBlocks BlockContainer BlockCache BlockSchedules BlockCacheRuns.
Open Scope Z_scope.

(** The block a thread validates. *)
Definition holding (t : Thread) : option ptr :=
  match t with
  | ValidateContent p _ | ValidateStore p _ _ | ValidateDelete p _ _
  | ValidateWait p _ _ | ValidateRely p _ _ _ => Some p
  | ValidateNext p _ _ => p
  | _ => None
  end.
Definition lock_of (c : Container) (p : ptr) : option bool := pd_lock <$> heap c !! p.
Definition reliances_of (c : Container) (p : ptr) : gset BlockHash :=
  match heap c !! p with Some x => pd_reliances x | None => ∅ end.

(** ** Updates of pending blocks *)
Lemma lock_update f p c q :
  (forall x, pd_lock (f x) = pd_lock x) -> lock_of (update_ptr f p c) q = lock_of c q.
Proof.
  intros Hf. rw /lock_of /=. destruct (decide (p = q)) as [->|Hne].
  - rw lookup_alter_eq. destruct (heap c !! q); cbn; [by rw Hf|done].
  - by rw lookup_alter_ne.
Qed.
Lemma lock_set l p c q :
  lock_of (update_ptr (set_lock l) p c) q = Some true <->
  if decide (q = p) then l = true /\ is_Some (heap c !! p) else lock_of c q = Some true.
Proof.
  rw /lock_of /=. destruct (decide (q = p)) as [->|Hne]; [|by rw lookup_alter_ne].
  rw lookup_alter_eq. destruct (heap c !! p); cbn; split; [intros [= ->]|by intros [-> _]|done|].
  - eauto.
  - by intros [_ [? ?]].
Qed.
Lemma marked_lock h cs c q : lock_of (marked h cs c) q = lock_of c q.
Proof.
  revert c. induction cs as [|p cs IH]; intros c; [done|]. cbn [marked foldl].
  etransitivity; [apply IH|]. by apply lock_update.
Qed.
Lemma reliances_update f p c q :
  (forall x, pd_reliances (f x) = pd_reliances x) ->
  reliances_of (update_ptr f p c) q = reliances_of c q.
Proof.
  intros Hf. rw /reliances_of /=. destruct (decide (p = q)) as [->|Hne].
  - rw lookup_alter_eq. destruct (heap c !! q); cbn; [by rw Hf|done].
  - by rw lookup_alter_ne.
Qed.
Lemma reliances_marked h cs c q g :
  g ∈ reliances_of (marked h cs c) q <-> g ∈ reliances_of c q /\ (g <> h \/ q ∉ cs).
Proof.
  revert c. induction cs as [|p cs IH]; intros c; cbn [marked foldl].
  { split; [intros Hg; split; [done|right; apply not_elem_of_nil]|by intros [? _]]. }
  etransitivity; [apply IH|]. rw not_elem_of_cons.
  assert (g ∈ reliances_of (update_ptr (fun x => set_reliances (pd_reliances x ∖ {[h]}) x) p c) q
    <-> g ∈ reliances_of c q /\ (g <> h \/ q <> p)) as ->; [|naive_solver].
  rw /reliances_of /=. destruct (decide (q = p)) as [->|Hne]; [|rw lookup_alter_ne //; naive_solver].
  rw lookup_alter_eq. destruct (heap c !! p); cbn; set_solver.
Qed.
Lemma is_ready_spec c q : is_ready c q -> lock_of c q = Some false /\ reliances_of c q = ∅.
Proof. intros (x & Hx & Hr & Hl). by rw /lock_of /reliances_of Hx /= Hl Hr. Qed.

(** ** One validator per block *)
Section Locks.
Context {D : Type} {H : BlockHandlers D} {B : Blake2b}.
Implicit Types (w : World D) (n : Node D).

Definition bounded (c : Container) : Prop := forall p, is_Some (heap c !! p) -> (p < next_ptr c)%nat.
Record locking (n : Node D) : Prop := {
  lk_bounded : bounded (container n.1);
  lk_held p : lock_of (container n.1) p = Some true <-> p ∈ omap holding n.2;
  lk_nodup : NoDup (omap holding n.2);
}.

Lemma bounded_update f p c : bounded c -> bounded (update_ptr f p c).
Proof. intros Hb q. cbn. rw lookup_alter_is_Some. apply Hb. Qed.
Lemma bounded_marked h cs c : bounded c -> bounded (marked h cs c).
Proof.
  revert c. induction cs as [|p cs IH]; intros c; [done|]. intros Hb. by apply IH, bounded_update.
Qed.
Lemma bounded_alloc b v c : bounded c -> bounded (alloc b v c).
Proof. intros Hb q. cbn. rw lookup_insert_is_Some. intros [<-|[_ ?%Hb]]; lia. Qed.
Lemma rule_bounded t w ts w' : rule t w ts w' -> bounded (container w) -> bounded (container w').
Proof.
  destruct 1; intros Hb; try exact Hb; try (by apply bounded_update); try (by apply bounded_marked).
  - by apply (bounded_alloc b v).
  - assert (bounded (locked q (unlocked p (container w)))) as Hl; [|exact Hl].
    destruct p, q; cbn [locked unlocked]; by repeat apply bounded_update.
Qed.
(** A step that does not choose a block keeps the locks. *)
Lemma rule_locks t w ts w' :
  rule t w ts w' -> bounded (container w) ->
  (exists p i s, t = ValidateNext p i s) \/
  omap holding ts = option_list (holding t) /\
  forall q, lock_of (container w') q = Some true <-> lock_of (container w) q = Some true.
Proof.
  destruct 1; intros Hb; try (left; eauto; fail); right;
    repeat match goal with H : _ \/ _ |- _ => destruct H as [-> | ->] end;
    (split; [done|]); intros r; try done;
    try (rw lock_update //; fail); try (rw marked_lock //; fail);
    (rw /lock_of /=; destruct (decide (r = next_ptr (container w))) as [->|Hne];
     [|by rw lookup_insert_ne]);
    rw lookup_insert_eq /=; (split; [done|]);
    (destruct (heap (container w) !! next_ptr (container w)) eqn:He; [|done]);
    assert (next_ptr (container w) < next_ptr (container w))%nat by (by apply Hb); lia.
Qed.
Lemma next_locks p q c x :
  (forall q', q = Some q' -> is_ready (unlocked p c) q') ->
  lock_of (locked q (unlocked p c)) x = Some true <->
  q = Some x \/ p <> Some x /\ lock_of c x = Some true.
Proof.
  intros Hq.
  assert (Hu : lock_of (unlocked p c) x = Some true <-> p <> Some x /\ lock_of c x = Some true).
  { destruct p as [p|]; cbn [unlocked]; [|naive_solver].
    etransitivity; [apply lock_set|]. case_decide; naive_solver. }
  destruct q as [q|]; cbn [locked]; [|naive_solver].
  etransitivity; [apply lock_set|].
  destruct (Hq q eq_refl) as (y & Hy & _). case_decide; naive_solver.
Qed.
Lemma step_locking received confirmed n e n' :
  locking n -> step received confirmed n e n' -> locking n'.
Proof.
  intros [Hb Hl Hn] Hs. destruct Hs as [w l1 t l2 ts w' Hs|w l b Hx|w l b Hx]; cbn [fst snd] in *;
    [|split; cbn [fst snd]; rw ?omap_app ?app_nil_r //..].
  apply thread_step_rule in Hs. pose proof (rule_bounded _ _ _ _ Hs Hb) as Hb'.
  assert (Hsplit : omap holding (l1 ++ t :: l2) = omap holding l1 ++ option_list (holding t) ++ omap holding l2)
    by (rw omap_app /=; by destruct (holding t)).
  rw Hsplit in Hl Hn. destruct (rule_locks _ _ _ _ Hs Hb) as [(p & i & s & ->)|[Ho Hk]].
  - inversion Hs as [| | | | | | | |p' i' s' w0 es q j Hq| | | | | | | | | | | | | | | | |]; subst.
    split; cbn [fst snd]; [done| |]; rw ?omap_app.
    + intros x. etransitivity; [by apply next_locks|]. rw Hl !elem_of_app.
      apply NoDup_app in Hn as (Hn1 & Hd1 & Hn2). apply NoDup_app in Hn2 as (Hnp & Hd2 & Hn2).
      destruct p as [p|], q as [q|]; cbn in *; set_solver.
    + apply NoDup_app in Hn as (Hn1 & Hd1 & Hn2). apply NoDup_app in Hn2 as (Hnp & Hd2 & Hn2).
      assert (Hno : NoDup (omap holding l1 ++ omap holding l2)).
      { apply NoDup_app. split_and!; [done| |done]. intros x Hx Hx2. apply (Hd1 x Hx).
        apply elem_of_app. by right. }
      destruct q as [q|]; [|exact Hno].
      assert (Hfresh : q ∉ omap holding l1 ++ omap holding l2).
      { intros Hin. destruct (is_ready_spec _ _ (Hq q eq_refl)) as [Hf _].
        assert (lock_of (unlocked p (container w)) q = Some true) as Ht; [|congruence].
        apply (next_locks p None); [done|]. right. rw Hl !elem_of_app. cbn [holding] in *.
        destruct p as [p|]; cbn in *; set_solver. }
      cbn [omap list_omap holding app]. rw -Permutation_middle. by constructor.
  - split; cbn [fst snd]; [done| |]; rw ?omap_app Ho //. intros x. by rw Hk.
Qed.

(** C19 One thread validates a block. In every run, a pending block is locked
    exactly while a thread validates it, and no two threads validate the same
    block. *)
Theorem one_validator_per_block received confirmed d es n :
  run received confirmed (start d) es n ->
  NoDup (omap holding n.2) /\
  forall p, lock_of (container n.1) p = Some true <-> p ∈ omap holding n.2.
Proof.
  intros Hr. assert (locking n) as [? ? ?]; [|done]. revert es n Hr.
  apply (run_invariant received confirmed (fun _ n => locking n)).
  - split; cbn; [|rw /lock_of /=; set_solver|constructor].
    intros p. rw lookup_empty. by intros [? ?].
  - intros _ n e n' Hl. by apply step_locking.
Qed.
End Locks.

(** ** Waiting blocks *)
Section Waiting.
Context {D : Type} {H : BlockHandlers D} {B : Blake2b}.
Variables (received confirmed : Block -> Prop).
Implicit Types (w : World D) (n : Node D).

(** [p] is about to be told that [h] is there. *)
Definition tells (h : BlockHash) (p : ptr) (t : Thread) : Prop :=
  match t with Mark h' cs _ => h' = h /\ p ∈ cs | _ => False end.
(** A thread is between the two critical sections of AddHashDependency. *)
Definition between (h : BlockHash) (p : ptr) (t : Thread) : Prop :=
  match t with ValidateRely p' _ h' _ => h' = h /\ p' = p | _ => False end.
Definition table_of (c : Container) : list (BlockHash * ptr) := hash_dependency_table c.

Lemma unlocked_table p c : table_of (unlocked p c) = table_of c.
Proof. by destruct p. Qed.
Lemma locked_table p c : table_of (locked p c) = table_of c.
Proof. by destruct p. Qed.
Lemma marked_table h cs c : table_of (marked h cs c) = table_of c.
Proof. revert c. induction cs as [|p cs IH]; intros c; [done|]. apply (IH (update_ptr _ p c)). Qed.
Lemma unlocked_reliances p c q : reliances_of (unlocked p c) q = reliances_of c q.
Proof. destruct p; [by apply reliances_update|done]. Qed.
Lemma locked_reliances p c q : reliances_of (locked p c) q = reliances_of c q.
Proof. destruct p; [by apply reliances_update|done]. Qed.
Lemma elem_of_waiting h t p : p ∈ waiting h t <-> (h, p) ∈ t.
Proof.
  rw /waiting list_elem_of_fmap. split.
  - intros ([h' p'] & -> & [Heq Hin]%list_elem_of_filter). cbn in Heq. by subst h'.
  - intros Hin. exists (h, p). split; [done|]. by apply list_elem_of_filter.
Qed.

(** Where reliances come from. *)
Lemma rule_reliances t w ts w' h p :
  rule t w ts w' -> h ∈ reliances_of (container w') p ->
  between h p t \/ h ∈ reliances_of (container w) p /\ ~ tells h p t.
Proof.
  destruct 1; try (intros Hin; right; split; [exact Hin|intros []]).
  - intros Hin. right. split; [|intros []]. move: Hin. rw /reliances_of /=.
    destruct (decide (p = next_ptr (container w))) as [->|Hne]; [|by rw lookup_insert_ne].
    rw lookup_insert_eq /=. set_solver.
  - intros Hin. right. split; [|intros []]. by rw -(unlocked_reliances p0) -(locked_reliances q).
  - intros Hin. right. split; [|intros []]. by rw reliances_update in Hin.
  - intros Hin. right. split; [|intros []]. by rw reliances_update in Hin.
  - rw /reliances_of /=. destruct (decide (p = p0)) as [->|Hne];
      [rw lookup_alter_eq|rw lookup_alter_ne //; intros Hin; right; split; [done|intros []]].
    destruct (heap (container w) !! p0) as [x|]; cbn; [|set_solver].
    intros [Hin%elem_of_singleton|Hin]%elem_of_union; [by left|right; split; [done|intros []]].
  - intros [Hin Hno]%reliances_marked. right. split; [done|]. intros [-> Hp]. by destruct Hno.
Qed.
(** What leaves the table is told. *)
Lemma rule_table t w ts w' h p :
  rule t w ts w' -> (h, p) ∈ table_of (container w) ->
  (h, p) ∈ table_of (container w') \/
  (exists hs f, t = Release (h :: hs) f) /\ Exists (tells h p) ts.
Proof.
  destruct 1; try (intros Hin; left; exact Hin); rw /table_of; cbn; intros Hin.
  - left. by rw /= -/(table_of _) locked_table unlocked_table.
  - left. apply elem_of_app. by left.
  - destruct (decide (h = h0)) as [->|Hne].
    + apply elem_of_waiting in Hin. rw H0 in Hin. by apply not_elem_of_nil in Hin.
    + left. by apply list_elem_of_filter.
  - destruct (decide (h = h0)) as [->|Hne].
    + right. split; [eauto|]. constructor. cbn. split; [done|]. rw -H0. by apply elem_of_waiting.
    + left. by apply list_elem_of_filter.
  - left. by rw /= -/(table_of _) marked_table.
Qed.
Lemma rule_between t w ts w' h p :
  rule t w ts w' -> Exists (between h p) ts -> (h, p) ∈ table_of (container w').
Proof.
  destruct 1;
    repeat match goal with
    | H : _ \/ _ |- _ => destruct H as [-> | ->]
    | |- context [match ?q with Some _ => _ | None => _ end] => destruct q
    end; rw ?Exists_cons ?Exists_nil; cbn [between]; try tauto.
  intros [[-> ->]|[]]. rw /table_of /=. apply elem_of_app. right. by apply list_elem_of_singleton.
Qed.

(** Runs in which no hash is released while a thread is between the two critical
    sections of AddHashDependency for it. *)
Inductive quiet_run : Node D -> Node D -> Prop :=
| quiet_nil n : quiet_run n n
| quiet_thread n w l1 t l2 ts w' :
    quiet_run n (w, l1 ++ t :: l2) -> thread_step t w = Ok (Some ts, w') ->
    (forall h hs f p, t = Release (h :: hs) f -> ~ Exists (between h p) (l1 ++ l2)) ->
    quiet_run n (w', l1 ++ ts ++ l2)
| quiet_receive n w l b :
    quiet_run n (w, l) -> received b -> quiet_run n (w, l ++ [AddSignature b])
| quiet_confirm n w l b :
    quiet_run n (w, l) -> confirmed b -> quiet_run n (w, l ++ [AddCached b true]).

Record waits_well n : Prop := {
  ww_told h p : h ∈ reliances_of (container n.1) p ->
    (h, p) ∈ table_of (container n.1) \/ Exists (tells h p) n.2;
  ww_between h p : Exists (between h p) n.2 -> (h, p) ∈ table_of (container n.1);
}.
Lemma quiet_waits n n' : waits_well n -> quiet_run n n' -> waits_well n'.
Proof.
  intros Hn Hr. induction Hr as [n|n w l1 t l2 ts w' Hr IH Hs Hq|n w l b Hr IH Hb|n w l b Hr IH Hb];
    [done| |destruct (IH Hn) as [H1 H2]; split; cbn [fst snd] in *; intros h p;
     specialize (H1 h p); specialize (H2 h p); rw Exists_app Exists_cons Exists_nil;
     cbn [tells between]; tauto..].
  specialize (IH Hn). destruct IH as [Ht Hb]. cbn [fst snd] in *. apply thread_step_rule in Hs.
  assert (Hkeep : forall h p, (h, p) ∈ table_of (container w) ->
    (h, p) ∈ table_of (container w') \/
    (exists hs f, t = Release (h :: hs) f) /\ Exists (tells h p) ts).
  { intros h p. by apply rule_table. }
  split; cbn [fst snd]; intros h p; rw !Exists_app.
  - intros Hin. destruct (rule_reliances _ _ _ _ h p Hs Hin) as [Hbt|[Hin0 Hno]].
    + destruct (Hkeep h p) as [?|[_ ?]]; [|tauto..]. apply Hb. rw Exists_app Exists_cons. tauto.
    + destruct (Ht h p Hin0) as [Htab|He]; [destruct (Hkeep h p Htab) as [?|[_ ?]]; tauto|].
      move: He. rw Exists_app Exists_cons. tauto.
  - intros Hex. assert (Exists (between h p) ts \/ Exists (between h p) (l1 ++ l2)) as [Hts|Hl]
      by (rw Exists_app; tauto); [by eapply rule_between|].
    destruct (Hkeep h p) as [?|[(hs & f & ->) _]]; [|done|by destruct (Hq h hs f p eq_refl)].
    apply Hb. move: Hl. rw !Exists_app Exists_cons. tauto.
Qed.

(** A hash that was released lately is not waited for. *)
Definition table_is_new (c : Container) : Prop :=
  forall h p, (h, p) ∈ table_of c -> h ∉ recent_DB_writes c.
Lemma push_recent_sub h l g : g ∈ push_recent h l -> g = h \/ g ∈ l.
Proof.
  rw /push_recent. set (l' := if bool_decide (h ∈ l) then l else l ++ [h]).
  assert (forall g, g ∈ l' -> g = h \/ g ∈ l) as Hl'.
  { intros g'. rw /l'. case_bool_decide; [by right|].
    intros [?|?%list_elem_of_singleton]%elem_of_app; auto. }
  case_match; [|apply Hl']. destruct l' as [|x l']; cbn [drop]; [apply Hl'|].
  rw drop_0. intros Hg. apply Hl'. by right.
Qed.
Lemma marked_recent h cs c : recent_DB_writes (marked h cs c) = recent_DB_writes c.
Proof. revert c. induction cs as [|p cs IH]; intros c; [done|]. apply (IH (update_ptr _ p c)). Qed.
Lemma deleted_is_new h c : table_is_new c -> table_is_new (deleted h c).
Proof.
  intros Hc h' p. rw /table_of /=. intros [Hne Hin]%list_elem_of_filter Hr.
  apply push_recent_sub in Hr as [->|Hr]; [done|]. by apply (Hc h' p).
Qed.
Lemma rule_is_new t w ts w' :
  rule t w ts w' -> table_is_new (container w) -> table_is_new (container w').
Proof.
  destruct 1; intros Hc; try exact Hc; try (by apply deleted_is_new).
  - intros h r. cbn. rw /table_of /=. destruct p, q; apply Hc.
  - intros h' p'. rw /table_of /=. intros [Hin|Hin%list_elem_of_singleton]%elem_of_app;
      [by apply (Hc h' p')|]. by injection Hin as -> ->.
  - intros h' p'. rw /= marked_table marked_recent. apply Hc.
Qed.
Lemma quiet_is_new n n' :
  table_is_new (container n.1) -> quiet_run n n' -> table_is_new (container n'.1).
Proof.
  intros Hn Hr. induction Hr; auto. cbn [fst]. eapply rule_is_new; [by apply thread_step_rule|].
  by apply IHHr.
Qed.

(** C32 A block that waits is woken. In every run in which no hash is released
    while a thread is between the two critical sections of AddHashDependency for
    it, a hash that a pending block waits for either is being told to the block,
    or was not released lately and, when it is released, is told to the block. *)
Theorem waiting_blocks_are_woken d n h p :
  quiet_run (start d) n -> h ∈ reliances_of (container n.1) p ->
  Exists (tells h p) n.2 \/
  (h ∉ recent_DB_writes (container n.1)) /\
  forall hs found, exists cs w', p ∈ cs /\
    thread_step (Release (h :: hs) found) n.1 = Ok (Some [Mark h cs hs], w').
Proof.
  intros Hr Hin.
  assert (waits_well n) as [Ht _].
  { eapply quiet_waits; [|exact Hr]. split; cbn; [set_solver|].
    intros h' p'. rw Exists_cons Exists_nil. by intros [[]|[]]. }
  destruct (Ht h p Hin) as [Htab|]; [right|by left].
  split. { eapply quiet_is_new; [|exact Hr|exact Htab]. intros h' p'. cbn. set_solver. }
  intros hs found. apply elem_of_waiting in Htab.
  exists (waiting h (table_of (container n.1))). eexists. split; [done|].
  cbn. rw /in_container /DeleteHashDependencies /mbind /M_bind /=.
  destruct (waiting h (hash_dependency_table (container n.1))) eqn:Hw;
    [rw /table_of Hw in Htab; by apply not_elem_of_nil in Htab|]. by rw /table_of Hw.
Qed.

(** ** Blocks that are forgotten *)
Record forgotten (b : Block) (h : BlockHash) (p : ptr) (n : Node D) : Prop := {
  fg_bounded : bounded (container n.1);
  fg_block : block_of (container n.1) p = Some b;
  fg_relies : h ∈ reliances_of (container n.1) p;
  fg_table : (h, p) ∉ table_of (container n.1);
  fg_told : ~ Exists (tells h p) n.2;
  fg_idle : p ∉ omap holding n.2;
}.
Lemma block_update f p c q :
  (forall x, pd_block (f x) = pd_block x) -> block_of (update_ptr f p c) q = block_of c q.
Proof.
  intros Hf. rw /block_of /=. destruct (decide (p = q)) as [->|Hne].
  - rw lookup_alter_eq. destruct (heap c !! q); cbn; [by rw Hf|done].
  - by rw lookup_alter_ne.
Qed.
Lemma marked_block h cs c q : block_of (marked h cs c) q = block_of c q.
Proof.
  revert c. induction cs as [|p cs IH]; intros c; [done|]. cbn [marked foldl].
  etransitivity; [apply IH|]. by apply block_update.
Qed.
Lemma rule_block t w ts w' b p :
  rule t w ts w' -> bounded (container w) -> block_of (container w) p = Some b ->
  block_of (container w') p = Some b.
Proof.
  destruct 1; intros Hb Hp; try exact Hp; try (by rw block_update); try (by rw marked_block).
  - move: Hp. rw /block_of /=.
    destruct (decide (p = next_ptr (container w))) as [->|Hne]; [|by rw lookup_insert_ne].
    destruct (heap (container w) !! next_ptr (container w)) eqn:He; [|done].
    assert (next_ptr (container w) < next_ptr (container w))%nat by (by apply Hb); lia.
  - assert (block_of (locked q (unlocked p0 (container w))) p = Some b) as Hq; [|exact Hq].
    destruct p0, q; cbn [locked unlocked]; by rw ?block_update.
Qed.
Lemma rule_relies t w ts w' h p :
  rule t w ts w' -> bounded (container w) -> h ∈ reliances_of (container w) p ->
  tells h p t \/ h ∈ reliances_of (container w') p.
Proof.
  destruct 1; intros Hb Hin; try (right; exact Hin); try (right; by rw reliances_update).
  - right. move: Hin. rw /reliances_of /=.
    destruct (decide (p = next_ptr (container w))) as [->|Hne]; [|by rw lookup_insert_ne].
    destruct (heap (container w) !! next_ptr (container w)) eqn:He; [|set_solver].
    assert (next_ptr (container w) < next_ptr (container w))%nat by (by apply Hb); lia.
  - right. by rw -(unlocked_reliances p0) -(locked_reliances q) in Hin.
  - right. move: Hin. rw /reliances_of /=. destruct (decide (p = p0)) as [->|Hne];
      [rw lookup_alter_eq|by rw lookup_alter_ne].
    destruct (heap (container w) !! p0); cbn; set_solver.
  - destruct (decide (h = h0 /\ p ∈ chains)) as [[-> Hp]|Hno]; [by left|right].
    apply reliances_marked. split; [done|]. destruct (decide (h = h0)); [right|by left].
    intros Hp. by destruct Hno.
Qed.
Lemma rule_forgotten t w ts w' h p :
  rule t w ts w' -> holding t <> Some p -> h ∈ reliances_of (container w) p ->
  (h, p) ∉ table_of (container w) ->
  ((h, p) ∉ table_of (container w')) /\ ~ Exists (tells h p) ts /\ p ∉ omap holding ts.
Proof.
  intros Hr Hh Hin Ht. destruct Hr; cbn [holding] in Hh;
    repeat match goal with H : _ \/ _ |- _ => destruct H as [-> | ->] end;
    rw ?Exists_cons ?Exists_nil; cbn [tells];
    try (split_and!; [exact Ht|tauto|cbn; set_solver]).
  - assert (Hq : q <> Some p).
    { intros ->. destruct (is_ready_spec _ _ (H0 p eq_refl)) as [_ He].
      rw unlocked_reliances in He. set_solver. }
    split_and!; [by destruct p0, q| |]; (destruct q as [q|]; [|by rw ?Exists_nil; cbn; set_solver]);
      [rw Exists_cons Exists_nil; cbn; tauto|cbn; set_solver].
  - split_and!; [|tauto|cbn; set_solver]. rw /table_of /=.
    intros [?|Heq%list_elem_of_singleton]%elem_of_app; [done|]. by injection Heq as -> ->.
  - split_and!; [|tauto|cbn; set_solver]. by intros [_ ?]%list_elem_of_filter.
  - split_and!; [by intros [_ ?]%list_elem_of_filter| |cbn; set_solver].
    intros [[-> Hp]|[]]. rw -H0 in Hp. by apply Ht, elem_of_waiting.
  - split_and!; [by rw /= marked_table|tauto|cbn; set_solver].
Qed.
Lemma step_forgotten b h p n e n' :
  forgotten b h p n -> step received confirmed n e n' -> forgotten b h p n'.
Proof.
  intros [Hb Hbl Hr Ht Hm Hi] Hs. destruct Hs as [w l1 t l2 ts w' Hs|w l b' Hx|w l b' Hx];
    cbn [fst snd] in *;
    [|split; cbn [fst snd]; rw ?omap_app ?Exists_app ?Exists_cons ?Exists_nil //; cbn; set_solver..].
  apply thread_step_rule in Hs. move: Hm Hi. rw omap_app elem_of_app Exists_app Exists_cons.
  intros Hm Hi.
  assert (Hh : holding t <> Some p) by (intros Heq; apply Hi; right; cbn; rw Heq; by left).
  assert (Hi2 : p ∉ omap holding l2) by (intros ?; apply Hi; right; cbn; case_match; [by right|done]).
  destruct (rule_forgotten _ _ _ _ h p Hs Hh Hr Ht) as (Ht' & Hm' & Hi').
  split; cbn [fst snd]; rw ?omap_app ?elem_of_app ?Exists_app; [by eapply rule_bounded|by eapply rule_block| |done|tauto|tauto].
  destruct (rule_relies _ _ _ _ h p Hs Hb Hr); [tauto|done].
Qed.
Lemma run_forgotten b h p n es n' :
  forgotten b h p n -> run received confirmed n es n' -> forgotten b h p n'.
Proof. intros Hn Hr. induction Hr; [done|]. eapply step_forgotten; [by apply IHHr|done]. Qed.
End Waiting.

(** Schedules in which nothing is released are quiet. *)
Section QuietSchedules.
Context {D : Type} {H : BlockHandlers D} {B : Blake2b}.
Variables (received confirmed : Block -> Prop).
Definition releases (m : move) (n : Node D) : bool :=
  match m with
  | Go i => match n.2 !! i with Some (Release (_ :: _) _) => true | _ => false end
  | _ => false
  end.
Fixpoint no_release (ms : list move) (n : Node D) : bool :=
  match ms with
  | [] => true
  | m :: ms =>
      negb (releases m n) && match exec m n with Some x => no_release ms x.2 | None => false end
  end.
Lemma exec_quiet m n0 n e n' :
  arrives received confirmed m -> releases m n = false -> exec m n = Some (e, n') ->
  quiet_run received confirmed n0 n -> quiet_run received confirmed n0 n'.
Proof.
  destruct n as [w l]. destruct m as [i|b|b]; cbn [exec arrives fst snd releases];
    [intros _ Hr|intros Hb _ [= <- <-] ?; by constructor..].
  intros (t & Ht & Hs)%bind_Some Hq. rw Ht in Hr.
  destruct (thread_step t w) as [[[ts|] w']|] eqn:He; [|done..]. injection Hs as _ <-.
  rw -{1}(take_drop_middle l i t Ht) in Hq. eapply quiet_thread; [exact Hq|done|].
  intros h hs f p ->. done.
Qed.
Lemma execs_quiet ms n0 n es n' :
  Forall (arrives received confirmed) ms -> no_release ms n = true ->
  execs ms n = Some (es, n') ->
  quiet_run received confirmed n0 n -> quiet_run received confirmed n0 n'.
Proof.
  intros Ha. revert n es. induction Ha as [|m ms Hm Ha IH]; intros n es; cbn [execs no_release].
  - by intros _ [= _ <-].
  - intros [Hr%negb_true_iff Hn]%andb_true_iff ([e n1] & He & Hx)%bind_Some Hq. rw He in Hn.
    apply bind_Some in Hx as ([es' n2] & Hes & Hx). injection Hx as _ <-.
    eapply IH; [exact Hn|exact Hes|]. by eapply exec_quiet.
Qed.
End QuietSchedules.

(** ** A wake-up that is lost *)
#[local] Existing Instance mod_blake2b.
#[local] Existing Instance shelf_handlers.
Definition both (b : Block) : Prop := b = older \/ b = newer.
Definition nobody (b : Block) : Prop := False.

(** The block [newer] arrives first and is found to wait for [older]; before the
    reliance is noted, [older] arrives, is validated and written, and its hash is
    released. *)
Definition race : list move :=
  [Receive newer; Receive older] ++ replicate 8 (Go 1) ++ replicate 9 (Go 2)
  ++ replicate 3 (Go 0) ++ replicate 4 (Go 1) ++ [Go 0; Go 2; Go 1; Go 1; Go 1].
Definition after (ms : list move) : list (event (list Block)) * Node (list Block) :=
  default ([], start []) (execs ms (start [])).
Definition after_race : Node (list Block) := (after race).2.
Lemma race_arrives : Forall (arrives both nobody) race.
Proof.
  repeat (apply Forall_cons_2; [first [exact I|by left|by right]|]). apply Forall_nil_2.
Qed.
Lemma race_run : run both nobody (start []) (after race).1 after_race.
Proof. apply (execs_run both nobody race); [apply race_arrives|vm_compute; reflexivity]. Qed.

Lemma after_race_bounded : bounded (container after_race.1).
Proof.
  assert (next_ptr (container after_race.1) = 2%nat) as Hn by (vm_compute; reflexivity).
  assert (forallb (fun x => Nat.ltb x.1 2) (map_to_list (heap (container after_race.1))) = true)
    as Hd by (vm_compute; reflexivity).
  intros p [x Hx]. apply elem_of_map_to_list, list_elem_of_In in Hx. rw Hn.
  by apply (proj1 (forallb_forall _ _) Hd), Nat.ltb_lt in Hx.
Qed.
Lemma after_race_waits :
  after_race.2 = [WriteFront] /\ table_of (container after_race.1) = [] /\
  bool_decide (block_hash older ∈ reliances_of (container after_race.1) 0%nat) = true.
Proof. split_and!; vm_compute; reflexivity. Qed.
Lemma after_race_forgotten : forgotten newer (block_hash older) 0%nat after_race.
Proof.
  destruct after_race_waits as (Hth & Htb & Hin%bool_decide_eq_true).
  split; [apply after_race_bounded|vm_compute; reflexivity|done|..].
  - rw Htb. apply not_elem_of_nil.
  - rw Hth Exists_cons Exists_nil. cbn. tauto.
  - rw Hth. apply not_elem_of_nil.
Qed.

(** A wake-up can be lost. AddHashDependency enters the block in the table of
    dependencies and notes the reliance in two critical sections. When the hash
    is released in between, the block waits for a block that is in the database
    and it waits in every continuation. *)
Lemma lost_wakeup : exists es,
  run both nobody (start []) es after_race /\
  handler_exists older (database after_race.1) = true /\
  forall received confirmed es' n', run received confirmed after_race es' n' ->
    block_of (container n'.1) 0%nat = Some newer /\
    block_hash older ∈ reliances_of (container n'.1) 0%nat.
Proof.
  exists (after race).1. split_and!; [apply race_run|vm_compute; reflexivity|].
  intros received confirmed es' n' Hr.
  by destruct (run_forgotten _ _ _ _ _ _ _ _ after_race_forgotten Hr).
Qed.

(** ** The theorems at this run *)
Lemma both_apart b b' :
  seen both nobody b -> seen both nobody b' -> block_hash b = block_hash b' ->
  kind_of b = kind_of b'.
Proof. by intros [[-> | ->]|[]] [[-> | ->]|[]]. Qed.
#[local] Existing Instance shelf_laws.
Lemma block_admitted_once_witness :
  NoDup (block_hash <$> admissions (after race).1) /\
  Forall (present after_race.1) (admissions (after race).1).
Proof. exact (block_admitted_once both nobody both_apart [] _ _ race_run). Defined.
Lemma one_validator_per_block_witness : NoDup (omap holding after_race.2).
Proof. exact (proj1 (one_validator_per_block both nobody [] _ _ race_run)). Defined.
(** [newer] alone, until it waits. *)
Definition wait_moves : list move := Receive newer :: replicate 9 (Go 1).
Lemma waiting_blocks_are_woken_witness : exists cs w', 0%nat ∈ cs /\
  thread_step (Release [block_hash older] false) (after wait_moves).2.1
  = Ok (Some [Mark (block_hash older) cs []], w').
Proof.
  destruct (waiting_blocks_are_woken both nobody [] (after wait_moves).2 (block_hash older) 0%nat)
    as [Hex|[_ Hw]]; [..|exact (Hw [] false)].
  - apply (execs_quiet both nobody wait_moves _ (start []) (after wait_moves).1);
      [|vm_compute; reflexivity|vm_compute; reflexivity|constructor].
    apply Forall_cons_2; [by right|]. by apply Forall_replicate.
  - apply (bool_decide_eq_true _). vm_compute. reflexivity.
  - assert ((after wait_moves).2.2 = [WriteFront; ValidateWait 0%nat 0 []]) as Hth
      by (vm_compute; reflexivity).
    rw Hth !Exists_cons Exists_nil in Hex. cbn in Hex. tauto.
Defined.
