(* ===== verification/ConsensusMessages.v ===== *)
(** * Messages of the consensus (src/logos/consensus/messages)

    The five phases of a round and the rejection, with the digests that are
    signed and the formats on the wire: common.hpp, common.cpp, messages.hpp and
    rejection.hpp, and the blocks of microblock.hpp and epoch.hpp. The template
    parameter ConsensusType is a type of blocks with the class [ConsensusBlock]. *)
From stdpp Require Import base list numbers strings gmap ssreflect.
From S2P Require Import Prelude Serial StakingTypes Requests Epochs TokenTypes TokenRequests Ledger ConsensusBlocks.
Open Scope Z_scope.

(** What PrePrepareCommon gives every kind of block. *)
Class ConsensusBlock (P : Type) := {
  cb_Hash : P -> BlockHash;
  cb_primary_delegate : P -> Z;
  cb_epoch_number : P -> Z;
  cb_delegates_epoch_number : P -> Z;
  cb_sequence : P -> Z;
  cb_timestamp : P -> Z;
  cb_previous : P -> BlockHash;
}.
#[global] Instance ConsensusBlock_RB `{Blake2b} : ConsensusBlock ApprovedRB := {|
  cb_Hash := ApprovedRB_Hash;
  cb_primary_delegate := rb_primary_delegate;
  cb_epoch_number := rb_epoch_number;
  cb_delegates_epoch_number := rb_delegates_epoch_number;
  cb_sequence := rb_sequence;
  cb_timestamp := rb_timestamp;
  cb_previous := rb_previous;
|}.
#[global] Instance ConsensusBlock_MB `{Blake2b} : ConsensusBlock ApprovedMB := {|
  cb_Hash := ApprovedMB_Hash;
  cb_primary_delegate := mb_primary_delegate;
  cb_epoch_number := mb_epoch_number;
  cb_delegates_epoch_number := mb_delegates_epoch_number;
  cb_sequence := mb_sequence;
  cb_timestamp := mb_timestamp;
  cb_previous := mb_previous;
|}.
#[global] Instance ConsensusBlock_EB `{Blake2b} : ConsensusBlock EpochBlock := {|
  cb_Hash := EpochBlock_Hash;
  cb_primary_delegate := ep_primary_delegate;
  cb_epoch_number b := eb_epoch_number (ep_block b);
  cb_delegates_epoch_number := ep_delegates_epoch_number;
  cb_sequence := ep_sequence;
  cb_timestamp b := eb_timestamp (ep_block b);
  cb_previous b := eb_previous (ep_block b);
|}.

(** ByteArray<CONSENSUS_SIG_SIZE> *)
Definition CONSENSUS_SIG_SIZE : nat := 32.
Definition DelegateSig : Type := list Z.
(** AggSignature: a std::bitset<NUM_DELEGATES> of the signers and a signature. *)
Record AggSignature := { agg_map : Z; agg_sig : DelegateSig }.
#[global] Instance AggSignature_eq_dec : EqDecision AggSignature.
Proof. solve_decision. Defined.
Definition no_sig : DelegateSig := replicate CONSENSUS_SIG_SIZE 0.
Definition AggSignature_clear : AggSignature := Build_AggSignature 0 no_sig.
Definition AggSignature_Serialize (s : AggSignature) : list Z :=
  write_u64 (agg_map s) ++ write_array (agg_sig s).
(** The map is read as 64 bits and cut to its 32. *)
Definition AggSignature_Deserialize (bs : list Z) : option (AggSignature * list Z) :=
  m ← read_u64 bs; s ← read_array CONSENSUS_SIG_SIZE m.2;
  Some (Build_AggSignature (wrap 32 m.1) s.1, s.2).
Definition AggSignature_Hash_input (s : AggSignature) : list Z :=
  write_u64 (agg_map s) ++ agg_sig s.

(** StandardPhaseMessage: Prepare and Commit *)
Record StandardPhaseMessage := {
  sp_preprepare_hash : BlockHash;
  sp_signature : DelegateSig;
}.
(** PostPhaseMessage: PostPrepare and PostCommit *)
Record PostPhaseMessage := {
  pm_preprepare_hash : BlockHash;
  pm_signature : AggSignature;
}.
Definition ComputeHash `{Blake2b} (m : PostPhaseMessage) : BlockHash :=
  blake2b (write_u256 (pm_preprepare_hash m) ++ AggSignature_Hash_input (pm_signature m)).

(** The number is not checked when it is read: [Other] is one without a name, on
    which every switch of the code does nothing. *)
Module RejectionReason.
Inductive t :=
| Clock_Drift | Contains_Invalid_Request | Bad_Signature | Invalid_Previous_Hash
| Wrong_Sequence_Number | Invalid_Epoch | New_Epoch | Invalid_Primary_Index | Void
| Other (z : Z).
#[global] Instance eq_dec : EqDecision t.
Proof. solve_decision. Defined.
Definition code (r : t) : Z :=
  match r with
  | Clock_Drift => 0 | Contains_Invalid_Request => 1 | Bad_Signature => 2
  | Invalid_Previous_Hash => 3 | Wrong_Sequence_Number => 4 | Invalid_Epoch => 5
  | New_Epoch => 6 | Invalid_Primary_Index => 7 | Void => 8 | Other z => z
  end.
Definition of_code (z : Z) : t :=
  match z with
  | 0 => Clock_Drift | 1 => Contains_Invalid_Request | 2 => Bad_Signature
  | 3 => Invalid_Previous_Hash | 4 => Wrong_Sequence_Number | 5 => Invalid_Epoch
  | 6 => New_Epoch | 7 => Invalid_Primary_Index | 8 => Void
  | _ => Other z
  end.
Definition wf (x : t) : Prop := of_code (code x) = x /\ in_width 8 (code x).
End RejectionReason.

(** ** Vectors of bits (lib/utility.cpp)

    A length of 16 bits, then the bits eight to a byte, the first in the lowest. *)
Fixpoint byte_of_bits (bits : list bool) : Z :=
  match bits with
  | [] => 0
  | b :: bits => Z.b2z b + 2 * byte_of_bits bits
  end.
Fixpoint bits_of_byte (n : nat) (z : Z) : list bool :=
  match n with
  | O => []
  | S n => Z.odd z :: bits_of_byte n (z / 2)
  end.
Fixpoint pack_bits (fuel : nat) (bits : list bool) : list Z :=
  match fuel, bits with
  | S fuel, _ :: _ => byte_of_bits (take 8 bits) :: pack_bits fuel (drop 8 bits)
  | _, _ => []
  end.
Definition write_bits (bits : list bool) : list Z :=
  write_u16 (Z.of_nat (length bits)) ++ pack_bits (length bits) bits.
Definition bits_to_bytes_ceiling (n : nat) : nat := ((n + 7) / 8)%nat.
Definition read_bits (bs : list Z) : option (list bool * list Z) :=
  n ← read_u16 bs;
  bytes ← read_bytes (bits_to_bytes_ceiling (Z.to_nat n.1)) n.2;
  Some (take (Z.to_nat n.1) (bytes.1 ≫= bits_of_byte 8), bytes.2).

Definition CONSENSUS_BATCH_SIZE : nat := 1500.
Record RejectionMessage := {
  rj_preprepare_hash : BlockHash;
  rj_reason : RejectionReason.t;
  rj_rejection_map : list bool;
  rj_signature : DelegateSig;
}.
Definition Rejection_Hash_input (m : RejectionMessage) : list Z :=
  write_u8 logos_version ++ write_u256 (rj_preprepare_hash m)
  ++ write_u8 (RejectionReason.code (rj_reason m)) ++ write_bits (rj_rejection_map m).
Definition Rejection_Hash `{Blake2b} (m : RejectionMessage) : BlockHash :=
  blake2b (Rejection_Hash_input m).

(** PrePrepareMessage and PostCommittedBlock *)
Record PrePrepareMessage (P : Type) := { pp_block : P; pp_preprepare_sig : DelegateSig }.
Arguments Build_PrePrepareMessage {P}.
Arguments pp_block {P}.
Arguments pp_preprepare_sig {P}.
Record PostCommittedBlock (P : Type) := {
  pc_block : P;
  pc_preprepare_sig : DelegateSig;
  pc_post_prepare_sig : AggSignature;
  pc_post_commit_sig : AggSignature;
}.
Arguments Build_PostCommittedBlock {P}.
Arguments pc_block {P}.
Arguments pc_preprepare_sig {P}.
Arguments pc_post_prepare_sig {P}.
Arguments pc_post_commit_sig {P}.
(** Their constructors from each other. *)
Definition PrePrepare_of_block {P} (b : PostCommittedBlock P) : PrePrepareMessage P :=
  Build_PrePrepareMessage (pc_block b) (pc_preprepare_sig b).
Definition Block_of_PrePrepare {P} (m : PrePrepareMessage P) (post_prepare post_commit : AggSignature)
  : PostCommittedBlock P :=
  Build_PostCommittedBlock (pp_block m) (pp_preprepare_sig m) post_prepare post_commit.

(** ** Formats on the wire *)

(** MessagePrequel: the types are numbers, which are not checked when they are
    read; a message of another version is refused. *)
Record Prequel := {
  pq_type : Z;
  pq_consensus_type : Z;
  pq_mpf : Z;
  pq_payload_size : Z;
}.
Definition MessagePrequelSize : Z := 8.
Definition Prequel_Serialize (p : Prequel) : list Z :=
  write_u8 logos_version ++ write_u8 (pq_type p) ++ write_u8 (pq_consensus_type p)
  ++ write_u8 (pq_mpf p) ++ write_u32 (pq_payload_size p).
Definition Prequel_Deserialize (bs : list Z) : option (Prequel * list Z) :=
  v ← read_u8 bs;
  if negb (v.1 =? logos_version) then None
  else
    t ← read_u8 v.2; c ← read_u8 t.2; m ← read_u8 c.2; s ← read_u32 m.2;
    Some (Build_Prequel t.1 c.1 m.1 s.1, s.2).
(** Every message is written with its size in the header. *)
Definition with_prequel (type consensus : Z) (payload : list Z) : list Z :=
  Prequel_Serialize (Build_Prequel type consensus 0 (Z.of_nat (length payload))) ++ payload.

Definition Prepare_type : Z := 1.
Definition Post_Prepare_type : Z := 2.
Definition Commit_type : Z := 3.
Definition Post_Commit_type : Z := 4.
Definition Rejection_type : Z := 5.

Definition StandardPhase_Serialize (type consensus : Z) (m : StandardPhaseMessage) : list Z :=
  with_prequel type consensus (write_u256 (sp_preprepare_hash m) ++ write_array (sp_signature m)).
Definition StandardPhase_Deserialize (bs : list Z) : option (StandardPhaseMessage * list Z) :=
  h ← read_u256 bs; s ← read_array CONSENSUS_SIG_SIZE h.2;
  Some (Build_StandardPhaseMessage h.1 s.1, s.2).
Definition PostPhase_Serialize (type consensus : Z) (m : PostPhaseMessage) : list Z :=
  with_prequel type consensus
    (write_u256 (pm_preprepare_hash m) ++ AggSignature_Serialize (pm_signature m)).
Definition PostPhase_Deserialize (bs : list Z) : option (PostPhaseMessage * list Z) :=
  h ← read_u256 bs; s ← AggSignature_Deserialize h.2;
  Some (Build_PostPhaseMessage h.1 s.1, s.2).
Definition Rejection_Serialize (consensus : Z) (m : RejectionMessage) : list Z :=
  with_prequel Rejection_type consensus
    (write_u256 (rj_preprepare_hash m) ++ write_u8 (RejectionReason.code (rj_reason m))
     ++ write_bits (rj_rejection_map m) ++ write_array (rj_signature m)).
Definition Rejection_Deserialize (bs : list Z) : option (RejectionMessage * list Z) :=
  h ← read_u256 bs; r ← read_u8 h.2; m ← read_bits r.2;
  s ← read_array CONSENSUS_SIG_SIZE m.2;
  Some (Build_RejectionMessage h.1 (RejectionReason.of_code r.1) m.1 s.1, s.2).

(** PrePrepareCommon; 0xff stands for no delegate. *)
Record PrePrepareCommon := {
  common_primary_delegate : Z;
  common_epoch_number : Z;
  common_delegates_epoch_number : Z;
  common_sequence : Z;
  common_timestamp : Z;
  common_previous : BlockHash;
  common_preprepare_sig : DelegateSig;
}.
Definition PrePrepareCommon_Serialize (c : PrePrepareCommon) : list Z :=
  write_u8 (common_primary_delegate c) ++ write_u32 (common_epoch_number c)
  ++ write_u32 (common_delegates_epoch_number c) ++ write_u32 (common_sequence c)
  ++ write_u64 (common_timestamp c) ++ write_u256 (common_previous c)
  ++ write_array (common_preprepare_sig c).
Definition PrePrepareCommon_Deserialize (bs : list Z) : option (PrePrepareCommon * list Z) :=
  p ← read_u8 bs;
  if (NUM_DELEGATES <=? p.1) && negb (p.1 =? 255) then None
  else
    e ← read_u32 p.2; d ← read_u32 e.2; q ← read_u32 d.2; t ← read_u64 q.2;
    v ← read_u256 t.2; s ← read_array CONSENSUS_SIG_SIZE v.2;
    Some (Build_PrePrepareCommon p.1 e.1 d.1 q.1 t.1 v.1 s.1, s.2).

(** An array of [n] records. *)
Fixpoint read_n {A} (read : list Z -> option (A * list Z)) (n : nat) (bs : list Z)
  : option (list A * list Z) :=
  match n with
  | O => Some ([], bs)
  | S n =>
      x ← read bs;
      xs ← read_n read n x.2;
      Some (x.1 :: xs.1, xs.2)
  end.
Definition common_of_mb (b : ApprovedMB) (sig : DelegateSig) : PrePrepareCommon :=
  Build_PrePrepareCommon (mb_primary_delegate b) (mb_epoch_number b)
    (mb_delegates_epoch_number b) (mb_sequence b) (mb_timestamp b) (mb_previous b) sig.
Definition MicroBlock_Serialize (b : ApprovedMB) (sig : DelegateSig) : list Z :=
  PrePrepareCommon_Serialize (common_of_mb b sig)
  ++ write_u8 (mb_last_micro_block b) ++ write_u32 (mb_number_batch_blocks b)
  ++ mjoin (Tip_Serialize <$> mb_tips b).
Definition MicroBlock_Deserialize (bs : list Z)
  : option ((ApprovedMB * DelegateSig) * list Z) :=
  c ← PrePrepareCommon_Deserialize bs; l ← read_u8 c.2; n ← read_u32 l.2;
  t ← read_n Tip_Deserialize (Z.to_nat NUM_DELEGATES) n.2;
  Some ((Build_ApprovedMB (common_primary_delegate c.1) (common_epoch_number c.1)
           (common_delegates_epoch_number c.1) (common_sequence c.1) (common_timestamp c.1)
           (common_previous c.1) l.1 n.1 t.1 0, common_preprepare_sig c.1), t.2).
Definition common_of_eb (b : EpochBlock) (sig : DelegateSig) : PrePrepareCommon :=
  let e := ep_block b in
  Build_PrePrepareCommon (ep_primary_delegate b) (eb_epoch_number e)
    (ep_delegates_epoch_number b) (ep_sequence b) (eb_timestamp e) (eb_previous e) sig.
Definition Epoch_Serialize (b : EpochBlock) (sig : DelegateSig) : list Z :=
  let e := ep_block b in
  PrePrepareCommon_Serialize (common_of_eb b sig)
  ++ Tip_Serialize (eb_micro_block_tip e) ++ write_u128 (eb_transaction_fee_pool e)
  ++ write_u128 (eb_total_supply e) ++ mjoin (Delegate_Serialize <$> eb_delegates e)
  ++ write_u64 (eb_total_RBs e) ++ write_bool (eb_is_extension e).
Definition Epoch_Deserialize (bs : list Z) : option ((EpochBlock * DelegateSig) * list Z) :=
  c ← PrePrepareCommon_Deserialize bs; t ← Tip_Deserialize c.2; f ← read_u128 t.2;
  s ← read_u128 f.2; d ← read_n Delegate_Deserialize (Z.to_nat NUM_DELEGATES) s.2;
  n ← read_u64 d.2; x ← read_bool n.2;
  Some ((Build_EpochBlock (common_primary_delegate c.1) (common_delegates_epoch_number c.1)
           (common_sequence c.1)
           (Build_ApprovedEB (common_previous c.1) (common_epoch_number c.1) t.1 f.1 s.1 d.1 n.1
              x.1 (common_timestamp c.1)), common_preprepare_sig c.1), x.2).

(** ** Round trips *)
Definition sig_wf (s : DelegateSig) : Prop := length s = CONSENSUS_SIG_SIZE.
Definition AggSignature_wf (s : AggSignature) : Prop := in_width 32 (agg_map s) /\ sig_wf (agg_sig s).
Definition StandardPhase_wf (m : StandardPhaseMessage) : Prop :=
  in_width 256 (sp_preprepare_hash m) /\ sig_wf (sp_signature m).
Definition PostPhase_wf (m : PostPhaseMessage) : Prop :=
  in_width 256 (pm_preprepare_hash m) /\ AggSignature_wf (pm_signature m).
Definition Rejection_wf (m : RejectionMessage) : Prop :=
  in_width 256 (rj_preprepare_hash m) /\ RejectionReason.wf (rj_reason m) /\
  (length (rj_rejection_map m) <= CONSENSUS_BATCH_SIZE)%nat /\ sig_wf (rj_signature m).
Definition PrePrepareCommon_wf (c : PrePrepareCommon) : Prop :=
  in_width 8 (common_primary_delegate c) /\
  (common_primary_delegate c < NUM_DELEGATES \/ common_primary_delegate c = 255) /\
  in_width 32 (common_epoch_number c) /\ in_width 32 (common_delegates_epoch_number c) /\
  in_width 32 (common_sequence c) /\ in_width 64 (common_timestamp c) /\
  in_width 256 (common_previous c) /\ sig_wf (common_preprepare_sig c).
Definition MicroBlock_wf (b : ApprovedMB) (sig : DelegateSig) : Prop :=
  PrePrepareCommon_wf (common_of_mb b sig) /\ in_width 8 (mb_last_micro_block b) /\
  in_width 32 (mb_number_batch_blocks b) /\
  length (mb_tips b) = Z.to_nat NUM_DELEGATES /\ Forall Tip_wf (mb_tips b) /\ mb_next b = 0.
Definition Epoch_wf (b : EpochBlock) (sig : DelegateSig) : Prop :=
  let e := ep_block b in
  PrePrepareCommon_wf (common_of_eb b sig) /\ Tip_wf (eb_micro_block_tip e) /\
  in_width 128 (eb_transaction_fee_pool e) /\ in_width 128 (eb_total_supply e) /\
  length (eb_delegates e) = Z.to_nat NUM_DELEGATES /\ Forall Delegate_wf (eb_delegates e) /\
  in_width 64 (eb_total_RBs e).

Lemma AggSignature_roundtrip s rest :
  AggSignature_wf s -> AggSignature_Deserialize (AggSignature_Serialize s ++ rest) = Some (s, rest).
Proof.
  intros [Hm Hs]. rw /AggSignature_Deserialize /AggSignature_Serialize -app_assoc read_write_u64;
    [|rw /in_width in Hm *; lia].
  cbn [mbind option_bind fst snd]. rw read_write_array //. cbn [mbind option_bind fst snd].
  rw wrap_id //. by destruct s.
Qed.
Lemma Prequel_roundtrip p rest :
  in_width 8 (pq_type p) -> in_width 8 (pq_consensus_type p) -> in_width 8 (pq_mpf p) ->
  in_width 32 (pq_payload_size p) ->
  Prequel_Deserialize (Prequel_Serialize p ++ rest) = Some (p, rest).
Proof.
  intros ????. rw /Prequel_Deserialize /Prequel_Serialize. read_back. by destruct p.
Qed.
(** The header a receiver reads tells the size of what follows. *)
Lemma with_prequel_roundtrip type consensus payload rest :
  in_width 8 type -> in_width 8 consensus -> Z.of_nat (length payload) < 2 ^ 32 ->
  Prequel_Deserialize (with_prequel type consensus payload ++ rest)
  = Some (Build_Prequel type consensus 0 (Z.of_nat (length payload)), payload ++ rest).
Proof. intros ???. rw /with_prequel -app_assoc. apply Prequel_roundtrip; cbn; [done..|]. rw /in_width. lia. Qed.

Lemma half_bit b x : (Z.b2z b + 2 * x) / 2 = x.
Proof. symmetry. apply (Z.div_unique _ 2 x (Z.b2z b)); destruct b; cbn; lia. Qed.
Lemma bits_of_byte_of_bits bits : bits_of_byte (length bits) (byte_of_bits bits) = bits.
Proof.
  induction bits as [|b bits IH]; [done|]. cbn [length bits_of_byte byte_of_bits]. f_equal.
  - rw Z.odd_add_mul_2. by destruct b.
  - by rw half_bit.
Qed.
Lemma bits_of_short bits n :
  (length bits <= n)%nat -> take (length bits) (bits_of_byte n (byte_of_bits bits)) = bits.
Proof.
  revert n. induction bits as [|b bits IH]; intros [|n] Hn; cbn in Hn; [done|done|lia|].
  cbn [length bits_of_byte byte_of_bits take]. f_equal.
  - rw Z.odd_add_mul_2. by destruct b.
  - rw half_bit. apply IH. lia.
Qed.
Lemma length_bits_of_byte n z : length (bits_of_byte n z) = n.
Proof. revert z. induction n; intros z; cbn; auto. Qed.
Lemma ceiling_step n :
  (1 <= n)%nat -> bits_to_bytes_ceiling n = S (bits_to_bytes_ceiling (n - 8)).
Proof.
  intros Hn. rw /bits_to_bytes_ceiling.
  do 8 (destruct n as [|n]; [first [lia|reflexivity]|]).
  replace (S (S (S (S (S (S (S (S n))))))) + 7)%nat with (n + 7 + 1 * 8)%nat by lia.
  rw Nat.div_add //. replace (S (S (S (S (S (S (S (S n))))))) - 8)%nat with n by lia. lia.
Qed.
Lemma pack_bits_spec fuel bits :
  (length bits <= fuel)%nat ->
  length (pack_bits fuel bits) = bits_to_bytes_ceiling (length bits) /\
  take (length bits) (pack_bits fuel bits ≫= bits_of_byte 8) = bits.
Proof.
  revert bits. induction fuel as [|fuel IH]; intros bits Hf.
  { by destruct bits; [|cbn in Hf; lia]. }
  destruct bits as [|b bits]; [done|]. cbn [pack_bits]. set l := b :: bits in Hf *.
  destruct (IH (drop 8 l)) as [Hlen Hbits]; [rw length_drop; cbn in *; lia|].
  cbn [length mbind list_bind]. rw length_drop in Hlen. split.
  - rw Hlen (ceiling_step (length l)) //. cbn. lia.
  - rw take_app length_bits_of_byte. destruct (decide (8 <= length l)%nat) as [H8|H8].
    + assert (length (take 8 l) = 8%nat) as H8' by (rw length_take; lia).
      assert (bits_of_byte 8 (byte_of_bits (take 8 l)) = take 8 l) as ->
        by (rw -{1}H8'; apply bits_of_byte_of_bits).
      rw (take_ge (take 8 l)); [|lia].
      rw length_drop in Hbits. by rw Hbits take_drop.
    + rw (take_ge l 8); [|lia]. rw bits_of_short; [|lia].
      replace (length l - 8)%nat with 0%nat by lia. by rw take_0 app_nil_r.
Qed.
Lemma bits_roundtrip bits rest :
  (length bits <= CONSENSUS_BATCH_SIZE)%nat -> read_bits (write_bits bits ++ rest) = Some (bits, rest).
Proof.
  intros Hl. rw /read_bits /write_bits -app_assoc read_write_u16;
    [|rw /in_width; rw /CONSENSUS_BATCH_SIZE in Hl; lia].
  cbn [mbind option_bind fst snd]. rw Nat2Z.id.
  destruct (pack_bits_spec (length bits) bits) as [Hlen Hbits]; [lia|].
  rw read_bytes_app //. cbn [mbind option_bind fst snd]. by rw Hbits.
Qed.
Lemma read_n_roundtrip {A} (read : list Z -> option (A * list Z)) (write : A -> list Z)
    (wf : A -> Prop) xs rest :
  (forall x rest, wf x -> read (write x ++ rest) = Some (x, rest)) -> Forall wf xs ->
  read_n read (length xs) (mjoin (write <$> xs) ++ rest) = Some (xs, rest).
Proof.
  intros Hr Hx. induction Hx as [|x xs Hx _ IH]; [done|].
  cbn [length read_n fmap list_fmap mjoin list_join]. rw -app_assoc Hr //.
  cbn [mbind option_bind fst snd]. by rw IH.
Qed.
Lemma PrePrepareCommon_roundtrip c rest :
  PrePrepareCommon_wf c ->
  PrePrepareCommon_Deserialize (PrePrepareCommon_Serialize c ++ rest) = Some (c, rest).
Proof.
  intros (? & Hp & ? & ? & ? & ? & ? & ?).
  rw /PrePrepareCommon_Deserialize /PrePrepareCommon_Serialize. read_back.
  assert ((NUM_DELEGATES <=? common_primary_delegate c) && negb (common_primary_delegate c =? 255)
          = false) as ->.
  { destruct Hp as [Hp| ->]; [|by rw andb_false_r]. by rw (proj2 (Z.leb_gt _ _)). }
  read_back. by destruct c.
Qed.

(** A message as a receiver reads it: the header, then the body. *)
Definition read_message {A} (read : list Z -> option (A * list Z)) (bs : list Z)
  : option (Prequel * A * list Z) :=
  h ← Prequel_Deserialize bs; x ← read h.2; Some (h.1, x.1, x.2).
Lemma read_message_roundtrip {A} (read : list Z -> option (A * list Z)) type consensus payload x rest :
  in_width 8 type -> in_width 8 consensus -> Z.of_nat (length payload) < 2 ^ 32 ->
  read (payload ++ rest) = Some (x, rest) ->
  read_message read (with_prequel type consensus payload ++ rest)
  = Some (Build_Prequel type consensus 0 (Z.of_nat (length payload)), x, rest).
Proof.
  intros Ht Hc Hl Hr. rw /read_message with_prequel_roundtrip //.
  cbn [mbind option_bind fst snd]. by rw Hr.
Qed.
Lemma StandardPhase_roundtrip m rest :
  StandardPhase_wf m ->
  StandardPhase_Deserialize
    ((write_u256 (sp_preprepare_hash m) ++ write_array (sp_signature m)) ++ rest) = Some (m, rest).
Proof. intros [Hh Hs]. rw /StandardPhase_Deserialize. read_back. by destruct m. Qed.
Lemma PostPhase_roundtrip m rest :
  PostPhase_wf m ->
  PostPhase_Deserialize
    ((write_u256 (pm_preprepare_hash m) ++ AggSignature_Serialize (pm_signature m)) ++ rest)
  = Some (m, rest).
Proof.
  intros [Hh Hs]. rw /PostPhase_Deserialize. read_back. rw AggSignature_roundtrip //.
  cbn [mbind option_bind fst snd]. by destruct m.
Qed.
Lemma Rejection_roundtrip m rest :
  Rejection_wf m ->
  Rejection_Deserialize
    ((write_u256 (rj_preprepare_hash m) ++ write_u8 (RejectionReason.code (rj_reason m))
      ++ write_bits (rj_rejection_map m) ++ write_array (rj_signature m)) ++ rest) = Some (m, rest).
Proof.
  intros (Hh & [Hc Hr] & Hm & Hs). rw /Rejection_Deserialize. read_back.
  rw bits_roundtrip //. cbn [mbind option_bind fst snd]. rw read_write_array //.
  cbn [mbind option_bind fst snd]. rw Hc. by destruct m.
Qed.

