(* ===== verification/Committee.v ===== *)
(** * The committee of an epoch and its signatures

    The weights of the delegates and the quorum (src/logos/consensus/
    primary_delegate.cpp OnCurrentEpochSet, SetQuorum, ReachedQuorum,
    backup_delegate.cpp ValidateQuorum), their keys (delegate_key_store.cpp),
    single and aggregate signatures (message_validator.hpp), and how a node that
    is not a delegate checks a block (persistence/validator_builder.cpp,
    persistence/nondel_persistence.hpp). The BLS library is the class [Bls]. *)
From stdpp Require Import base list numbers strings gmap ssreflect.
From S2P Require Import Prelude Serial StakingTypes Requests Epochs Lmdb BlockStore TokenTypes TokenRequests Ledger ConsensusBlocks ConsensusMessages.
Open Scope Z_scope.

(** ** Weights and quorum *)
Record Weight := { vote_weight : Z; stake_weight : Z }.
Definition no_weight : Weight := Build_Weight 0 0.
Record Committee := {
  cm_delegate_id : Z;
  cm_weights : gmap Z Weight;
  cm_vote_total : Z;
  cm_stake_total : Z;
  cm_vote_max_fault : Z;
  cm_stake_max_fault : Z;
  cm_vote_quorum : Z;
  cm_stake_quorum : Z;
  cm_my_vote : Z;
  cm_my_stake : Z;
}.
(** The members of a new PrimaryDelegate. *)
Definition new_committee (id : Z) : Committee := Build_Committee id ∅ 0 0 0 0 0 0 0 0.
(** [_weights[i]]; a key that is missing is inserted with no weight. *)
Definition weight_of (c : Committee) (i : Z) : Weight := default no_weight (cm_weights c !! i).

(** The maximum of faulty weight and the quorum, without
    STRICT_CONSENSUS_THRESHOLD. *)
Definition SetQuorum (total : Z) : Z * Z :=
  let max_fault := u128 (total - 1) / 3 in (max_fault, u128 (max_fault * 2 + 1)).
Definition set_weight (c : Committee) (p : Z * Delegate) : Committee :=
  let '(pos, d) := p in
  let mine := pos =? cm_delegate_id c in
  Build_Committee (cm_delegate_id c) (<[pos := Build_Weight (d_vote d) (d_stake d)]> (cm_weights c))
    (amt_add (cm_vote_total c) (d_vote d)) (amt_add (cm_stake_total c) (d_stake d))
    (cm_vote_max_fault c) (cm_stake_max_fault c) (cm_vote_quorum c) (cm_stake_quorum c)
    (if mine then d_vote d else cm_my_vote c) (if mine then d_stake d else cm_my_stake c).
Definition positions : list Z := seqZ 0 NUM_DELEGATES.
Definition OnCurrentEpochSet (delegates : list Delegate) (c : Committee) : Committee :=
  let c := foldl set_weight c (zip positions delegates) in
  let vote := SetQuorum (cm_vote_total c) in
  let stake := SetQuorum (cm_stake_total c) in
  Build_Committee (cm_delegate_id c) (cm_weights c) (cm_vote_total c) (cm_stake_total c)
    vote.1 stake.1 vote.2 stake.2 (cm_my_vote c) (cm_my_stake c).
Definition ReachedQuorum (c : Committee) (vote stake : Z) : bool :=
  (cm_vote_quorum c <=? vote) && (cm_stake_quorum c <=? stake).

(** The vote and the stake of the delegates in a map of participants. *)
Definition add_weight (c : Committee) (m : Z) (acc : Z * Z) (i : Z) : Z * Z :=
  if Z.testbit m i then
    (amt_add acc.1 (vote_weight (weight_of c i)), amt_add acc.2 (stake_weight (weight_of c i)))
  else acc.
Definition map_weight (c : Committee) (m : Z) : Z * Z := foldl (add_weight c m) (0, 0) positions.
Definition ValidateQuorum (c : Committee) (s : AggSignature) : bool :=
  let w := map_weight c (agg_map s) in ReachedQuorum c w.1 w.2.

(** ** Keys and signatures *)
Class Bls := {
  PublicKeyReal : Type;
  SignatureReal : Type;
  key_deserialize : list Z -> option PublicKeyReal;
  key_default : PublicKeyReal;
  key_aggregate : list PublicKeyReal -> PublicKeyReal;
  sig_deserialize : DelegateSig -> option SignatureReal;
  sig_serialize : SignatureReal -> DelegateSig;
  sig_verify : SignatureReal -> PublicKeyReal -> BlockHash -> bool;
  sig_aggregate : list SignatureReal -> list PublicKeyReal -> SignatureReal;
}.
(** A signature reads back; signatures of one message aggregate to one that the
    aggregate of the keys, in any order, verifies. *)
Class BlsLaws (B : Bls) : Prop := {
  sig_roundtrip s : sig_deserialize (sig_serialize s) = Some s;
  aggregate_verifies (h : BlockHash) (sks : list (SignatureReal * PublicKeyReal)) keys :
    sks <> [] -> Forall (fun x => sig_verify x.1 x.2 h = true) sks -> keys ≡ₚ sks.*2 ->
    sig_verify (sig_aggregate sks.*1 sks.*2) (key_aggregate keys) h = true;
}.

Abbreviation KeyStore := (gmap Z PublicKeyReal).

Section Validator.
Context {B : Bls}.

(** DelegateKeyStore *)
Definition OnPublicKey (id : Z) (key : list Z) (ks : KeyStore) : bool * KeyStore :=
  match key_deserialize key with
  | None => (false, ks)
  | Some k =>
      match ks !! id with
      | Some _ => (false, ks)
      | None => (true, <[id := k]> ks)
      end
  end.
Definition GetPublicKey (id : Z) (ks : KeyStore) : PublicKeyReal := default key_default (ks !! id).
(** The keys of the participants; [None] when one is missing. *)
Fixpoint participant_keys (m : Z) (ids : list Z) (ks : KeyStore) : option (list PublicKeyReal) :=
  match ids with
  | [] => Some []
  | i :: ids =>
      if Z.testbit m i then k ← ks !! i; rest ← participant_keys m ids ks; Some (k :: rest)
      else participant_keys m ids ks
  end.
Definition GetAggregatedPublicKey (m : Z) (ks : KeyStore) : PublicKeyReal :=
  match participant_keys m positions ks with
  | None => key_default
  | Some keys => key_aggregate keys
  end.

(** MessageValidator::Validate, of one signature and of an aggregate. *)
Definition verify_bytes (h : BlockHash) (s : DelegateSig) (k : PublicKeyReal) : bool :=
  match sig_deserialize s with
  | None => false
  | Some s => sig_verify s k h
  end.
Definition Validate_single (ks : KeyStore) (h : BlockHash) (s : DelegateSig) (id : Z) : bool :=
  verify_bytes h s (GetPublicKey id ks).
Definition Validate_aggregate (ks : KeyStore) (h : BlockHash) (s : AggSignature) : bool :=
  verify_bytes h (agg_sig s) (GetAggregatedPublicKey (agg_map s) ks).

(** MessageValidator::AggregateSignature over the signatures in the order in
    which the map is iterated. *)
Record DelegateSignature := { ds_delegate_id : Z; ds_signature : DelegateSig }.
Fixpoint collect (ks : KeyStore) (sigs : list DelegateSignature) (seen : list Z) (m : Z)
  : option (Z * list (SignatureReal * PublicKeyReal)) :=
  match sigs with
  | [] => Some (m, [])
  | s :: sigs =>
      let did := ds_delegate_id s in
      if decide (did ∈ seen) then collect ks sigs seen m
      else
        r ← sig_deserialize (ds_signature s);
        rest ← collect ks sigs (did :: seen) (Z.setbit m did);
        Some (rest.1, (r, GetPublicKey did ks) :: rest.2)
  end.
Definition AggregateSignature (ks : KeyStore) (sigs : list DelegateSignature) (agg : AggSignature)
  : option AggSignature :=
  r ← collect ks sigs [] (agg_map agg);
  Some (Build_AggSignature r.1 (sig_serialize (sig_aggregate r.2.*1 r.2.*2))).

(** ** Validators of other epochs (ValidatorBuilder)

    The caches are static members; a validator is its key store. *)
Record Builder := {
  epoch_pki : gmap Z KeyStore;
  cached_epoch : Z;
  cached_validator : option KeyStore;
}.
Definition MAX_CACHED : nat := 3.
Definition new_builder : Builder := Build_Builder ∅ 0 None.
(** The keys of the delegates of an epoch block. *)
Definition add_key (ks : KeyStore) (p : Z * Delegate) : KeyStore :=
  (OnPublicKey p.1 (bls_pub p.2) ks).2.
Definition epoch_keys (e : ApprovedEB) : KeyStore :=
  foldl add_key ∅ (zip (seqZ 0 (Z.of_nat (length (eb_delegates e)))) (eb_delegates e)).
(** The lowest epoch, kept in 16 bits. *)
Definition lowest_epoch (m : gmap Z KeyStore) : Z :=
  foldr (fun p low => if p.1 <? low then p.1 else low) 65535 (map_to_list m).
Definition remember (e : Z) (ks : KeyStore) (m : gmap Z KeyStore) : gmap Z KeyStore :=
  let m := <[e := ks]> m in
  if decide (MAX_CACHED < size m)%nat then delete (lowest_epoch m) m else m.

Context `{L : Lmdb}.
(** The walk back from the tip, with the number of stored blocks plus one as fuel. *)
Fixpoint epoch_find (fuel : nat) (e : Z) (hash : BlockHash) : M Store ApprovedEB :=
  match fuel with
  | O => halt "ValidatorBuilder::GetValidator"
  | S fuel =>
      b ← epoch_get hash;
      match b with
      | None => halt "ValidatorBuilder::GetValidator"
      | Some b => if e <? eb_epoch_number b then epoch_find fuel e (eb_previous b) else mret b
      end
  end.
Definition with_store {A} (s : Store) (m : M Store A) : M Builder A :=
  fun b => match m s with Ok (a, _) => Ok (a, b) | Halt why => Halt why end.
Definition set_cached (e : Z) (v : option KeyStore) : M Builder unit :=
  modify (fun b => Build_Builder (epoch_pki b) e v).
(** The part of GetValidator behind the first cache, [e] being the number of the
    epoch block. *)
Definition load_validator (s : Store) (e : Z) : M Builder (option KeyStore) :=
  t ← with_store s epoch_tip_get;
  match t with
  | None => halt "ValidatorBuilder::GetValidator"
  | Some tip =>
      if tip_epoch tip <? e then mret None
      else
        fuel ← with_store s (get_elections (fun e => length (mdb_items (epoch_db e))));
        block ← with_store s (epoch_find (S fuel) e (digest tip));
        if e =? eb_epoch_number block then
          let v := epoch_keys block in
          modify (fun b => Build_Builder (remember e v (epoch_pki b)) (cached_epoch b)
                             (cached_validator b));;
          set_cached e (Some v);;
          mret (Some v)
        else halt "ValidatorBuilder::GetValidator"
  end.
Definition GetValidator (s : Store) (epoch_number : Z) : M Builder (option KeyStore) :=
  let e := u32 (epoch_number - 2) in
  b ← gets id;
  if bool_decide (is_Some (cached_validator b)) && (cached_epoch b =? e)
  then mret (cached_validator b)
  else
    match epoch_pki b !! e with
    | Some v => set_cached e (Some v);; mret (Some v)
    | None => load_validator s e
    end.

(** NonDelegatePersistence::VerifyAggSignature *)
Definition VerifyAggSignature `{Blake2b} {P} `{ConsensusBlock P} (s : Store)
    (b : PostCommittedBlock P) : M Builder bool :=
  let pre_prepare_hash := cb_Hash (pc_block b) in
  v ← GetValidator s (cb_delegates_epoch_number (pc_block b));
  match v with
  | None => mret false
  | Some ks =>
      if negb (Validate_aggregate ks pre_prepare_hash (pc_post_prepare_sig b)) then mret false
      else
        let post_prepare_hash :=
          ComputeHash (Build_PostPhaseMessage pre_prepare_hash (pc_post_prepare_sig b)) in
        mret (Validate_aggregate ks post_prepare_hash (pc_post_commit_sig b))
  end.
End Validator.

(** ** The arithmetic of the quorum *)
Lemma SetQuorum_spec total : 0 < total < 2 ^ 128 ->
  let (f, q) := SetQuorum total in
  3 * f < total <= 3 * f + 3 /\ q = 2 * f + 1 /\ 0 < q <= total.
Proof.
  intros Ht. rw /SetQuorum /u128 /wrap (Z.mod_small (total - 1)); [|lia].
  pose proof (Z.div_mod (total - 1) 3 ltac:(lia)). pose proof (Z.mod_pos_bound (total - 1) 3 ltac:(lia)).
  rw (Z.mod_small (_ * 2 + 1)); lia.
Qed.
(** Two quorums share more than the faulty weight for one total in three. *)
Lemma SetQuorum_overlap total : 0 < total < 2 ^ 128 ->
  let (f, q) := SetQuorum total in f < 2 * q - total <-> total mod 3 = 1.
Proof.
  intros Ht. pose proof (SetQuorum_spec total Ht) as Hs. destruct (SetQuorum total) as [f q].
  destruct Hs as (Hf & -> & _).
  pose proof (Z.div_mod total 3 ltac:(lia)). pose proof (Z.mod_pos_bound total 3 ltac:(lia)). lia.
Qed.

(** The weight of the delegates that [P] holds of. *)
Definition weight_share (f : Weight -> Z) (c : Committee) (P : Z -> bool) : Z :=
  sumZ (fun i => if P i then f (weight_of c i) else 0) positions.
Definition signed_by (s : AggSignature) (i : Z) : bool := Z.testbit (agg_map s) i.
Definition weights_ok (c : Committee) : Prop :=
  forall i, 0 <= vote_weight (weight_of c i) /\ 0 <= stake_weight (weight_of c i).

Section Shares.
Variables (f : Weight -> Z) (c : Committee).
Hypothesis Hf : forall i, 0 <= f (weight_of c i).

Lemma share_nonneg P : 0 <= weight_share f c P.
Proof. apply sumZ_nonneg, Forall_forall. intros i _. pose proof (Hf i). case_match; lia. Qed.
Lemma share_mono P Q : (forall i, P i = true -> Q i = true) -> weight_share f c P <= weight_share f c Q.
Proof.
  intros HPQ. apply sumZ_le. intros i _. pose proof (Hf i). pose proof (HPQ i).
  destruct (P i), (Q i); try lia; naive_solver.
Qed.
(** What two sets have in common outweighs what they exceed the whole by. *)
Lemma share_overlap P Q :
  weight_share f c P + weight_share f c Q - weight_share f c (fun _ => true) <= weight_share f c (fun i => P i && Q i).
Proof.
  rw /weight_share. induction positions as [|i l IH]; [done|]. rw !sumZ_cons.
  pose proof (Hf i). destruct (P i), (Q i); cbn; lia.
Qed.
Lemma share_witness P Q :
  weight_share f c Q < weight_share f c P -> exists i, i ∈ positions /\ P i = true /\ Q i = false.
Proof.
  rw /weight_share. induction positions as [|i l IH]; [cbn; lia|]. rw !sumZ_cons. intros Hlt.
  pose proof (Hf i). destruct (decide (P i = true /\ Q i = false)) as [[HP HQ]|Hn].
  - exists i. split; [by left|done].
  - destruct IH as (j & ? & ? & ?); [|exists j; split; [by right|done]].
    destruct (P i), (Q i); lia.
Qed.
Lemma share_insert Q i :
  i ∈ positions -> Q i = false ->
  weight_share f c (fun j => bool_decide (j = i) || Q j) = weight_share f c Q + f (weight_of c i).
Proof using Type.
  clear Hf.
  rw /weight_share. intros Hi HQ. assert (NoDup positions) as Hn by apply NoDup_seqZ.
  induction positions as [|j l IH]; [by apply not_elem_of_nil in Hi|].
  apply NoDup_cons in Hn as [Hj Hn]. rw !sumZ_cons.
  apply elem_of_cons in Hi as [->|Hi].
  - rw bool_decide_eq_true_2 // HQ. cbn [orb].
    rw (sumZ_ext (fun k => if bool_decide (k = j) || Q k then f (weight_of c k) else 0)
                 (fun k => if Q k then f (weight_of c k) else 0)); [lia|].
    intros k Hk. rw bool_decide_eq_false_2 //. by intros ->.
  - rw bool_decide_eq_false_2; [|by intros ->]. cbn [orb]. rw IH; [lia|done|done].
Qed.
Lemma share_ext P Q : (forall i, i ∈ positions -> P i = Q i) -> weight_share f c P = weight_share f c Q.
Proof using Type. intros E. apply sumZ_ext. intros i Hi. by rw E. Qed.
Lemma share_none : weight_share f c (fun _ => false) = 0.
Proof using Type. rw /weight_share. by induction positions as [|i l IH]; [|rw sumZ_cons IH]. Qed.
End Shares.

(** A committee as the constructor of the consensus manager sets it up, whose
    totals do not overflow. *)
Record seated (id : Z) (ds : list Delegate) (c : Committee) : Prop := {
  st_eq : c = OnCurrentEpochSet ds (new_committee id);
  st_length : length ds = Z.to_nat NUM_DELEGATES;
  st_widths : Forall (fun d => 0 <= d_vote d /\ 0 <= d_stake d) ds;
  st_vote : 0 < sumZ d_vote ds < 2 ^ 128;
  st_stake : 0 < sumZ d_stake ds < 2 ^ 128;
}.

Definition entry_weight (p : Z * Delegate) : Weight := Build_Weight (d_vote p.2) (d_stake p.2).
Lemma set_weights_lookup l c i :
  NoDup l.*1 ->
  cm_weights (foldl set_weight c l) !! i
  = match list_find (fun p => p.1 = i) l with
    | Some (_, p) => Some (entry_weight p)
    | None => cm_weights c !! i
    end.
Proof.
  revert c. induction l as [|[j d] l IH]; intros c Hn; [done|]. cbn in Hn.
  apply NoDup_cons in Hn as [Hj Hn]. cbn [foldl list_find fst]. rw IH //. cbn.
  destruct (decide (j = i)) as [->|Hji].
  - destruct (list_find _ l) as [[k [j' d']]|] eqn:E.
    + apply list_find_Some in E as (Hl & Hk & _). cbn in Hk. subst.
      destruct Hj. apply list_elem_of_fmap. exists (i, d'). split; [done|]. by eapply list_elem_of_lookup_2.
    + by rw lookup_insert_eq.
  - destruct (list_find _ l) as [[k p]|]; [done|]. by rw lookup_insert_ne.
Qed.
Lemma set_weights_totals l c :
  cm_vote_total (foldl set_weight c l)
  = (if decide (l = []) then cm_vote_total c else u128 (cm_vote_total c + sumZ (fun p => d_vote p.2) l)) /\
  cm_stake_total (foldl set_weight c l)
  = (if decide (l = []) then cm_stake_total c else u128 (cm_stake_total c + sumZ (fun p => d_stake p.2) l)).
Proof.
  revert c. induction l as [|[j d] l IH]; intros c; [done|]. cbn [foldl].
  destruct (IH (set_weight c (j, d))) as [-> ->].
  destruct (decide ((j, d) :: l = [])) as [?|_]; [done|]. rw !sumZ_cons. cbn.
  destruct (decide (l = [])) as [->|Hl].
  - rw /amt_add /= !Z.add_0_r. done.
  - by rw /amt_add /u128 /wrap !Zplus_mod_idemp_l !Z.add_assoc.
Qed.
(** The own weight. *)
Lemma set_weights_mine l c i w :
  NoDup l.*1 -> cm_delegate_id c = i -> cm_weights (foldl set_weight c l) !! i = Some w -> i ∈ l.*1 ->
  cm_my_vote (foldl set_weight c l) = vote_weight w /\ cm_my_stake (foldl set_weight c l) = stake_weight w.
Proof.
  assert (forall l c, cm_delegate_id c ∉ l.*1 -> cm_my_vote (foldl set_weight c l) = cm_my_vote c /\
            cm_my_stake (foldl set_weight c l) = cm_my_stake c) as Hout.
  { clear. induction l as [|[j d] l IH]; intros c Hi; [done|]. cbn in Hi.
    apply not_elem_of_cons in Hi as [Hj Hi]. cbn [foldl].
    destruct (IH (set_weight c (j, d))) as [-> ->]; [done|]. cbn.
    by rw (proj2 (Z.eqb_neq j _)); [|apply not_eq_sym]. }
  revert c. induction l as [|[j d] l IH]; intros c Hn Hid Hw Hi; [by apply not_elem_of_nil in Hi|].
  cbn in Hn, Hi. apply NoDup_cons in Hn as [Hj Hn]. cbn [foldl] in Hw |- *.
  destruct (decide (i ∈ l.*1)) as [Hl|Hl]; [by apply IH|].
  apply elem_of_cons in Hi as [->|?]; [|done].
  destruct (Hout l (set_weight c (j, d))) as [-> ->]; [by cbn; rw Hid|].
  rw set_weights_lookup // in Hw. destruct (list_find _ l) as [[k q]|] eqn:E.
  - apply list_find_Some in E as (Hk & Hq & _). destruct Hl. apply list_elem_of_fmap.
    exists q. split; [done|]. by eapply list_elem_of_lookup_2.
  - cbn in Hw |- *. rw lookup_insert_eq in Hw. injection Hw as <-. by rw Hid Z.eqb_refl.
Qed.

Section Seated.
Context {id : Z} {ds : list Delegate} {c : Committee} (Hc : seated id ds c).

Lemma seated_entries : (zip positions ds).*1 = positions /\ (zip positions ds).*2 = ds.
Proof.
  assert (length positions = length ds) as Hl by (rw (st_length _ _ _ Hc); done).
  split; [apply fst_zip|apply snd_zip]; lia.
Qed.
Lemma seated_weight_of p : p ∈ zip positions ds -> weight_of c p.1 = entry_weight p.
Proof.
  intros Hp. rw /weight_of (st_eq _ _ _ Hc). cbn [cm_weights OnCurrentEpochSet].
  destruct seated_entries as [H1 _].
  assert (NoDup (zip positions ds).*1) as Hn by (rw H1; apply NoDup_seqZ).
  rw set_weights_lookup //. destruct (list_find _ _) as [[k q]|] eqn:E.
  - apply list_find_Some in E as (Hl & Hq & _). cbn. f_equal.
    apply list_elem_of_lookup_1 in Hp as [j Hj].
    assert (k = j) as ->; [|by rw Hl in Hj; injection Hj].
    apply (NoDup_lookup _ _ _ q.1 Hn); rw list_lookup_fmap ?Hl ?Hj //=. by rw Hq.
  - apply list_find_None in E. rw Forall_forall in E. by destruct (E p Hp).
Qed.
Lemma seated_sum (f : Weight -> Z) :
  weight_share f c (fun _ => true) = sumZ (fun d => f (Build_Weight (d_vote d) (d_stake d))) ds.
Proof.
  destruct seated_entries as [H1 H2]. rw /weight_share -{1}H1 -{2}H2 !sumZ_fmap.
  apply sumZ_ext. intros p Hp. by rw seated_weight_of.
Qed.
Lemma seated_weights_ok : weights_ok c.
Proof.
  intros i. destruct (decide (i ∈ positions)) as [Hi|Hi].
  - destruct seated_entries as [H1 H2]. rw -H1 in Hi.
    apply list_elem_of_fmap in Hi as (p & -> & Hp). rw seated_weight_of //.
    apply (proj1 (Forall_forall _ _) (st_widths _ _ _ Hc)). rw -H2. by apply list_elem_of_fmap_2.
  - rw /weight_of (st_eq _ _ _ Hc). cbn [cm_weights OnCurrentEpochSet].
    destruct seated_entries as [H1 _].
    rw set_weights_lookup; [|rw H1; apply NoDup_seqZ].
    destruct (list_find _ _) as [[k q]|] eqn:E; [|by cbn].
    apply list_find_Some in E as (Hl & Hq & _). destruct Hi. rw -H1 -Hq.
    apply list_elem_of_fmap_2. by eapply list_elem_of_lookup_2.
Qed.
Lemma seated_totals :
  cm_vote_total c = weight_share vote_weight c (fun _ => true) /\
  cm_stake_total c = weight_share stake_weight c (fun _ => true).
Proof.
  rw !seated_sum /=. destruct seated_entries as [_ H2]. rw (st_eq _ _ _ Hc).
  cbn [cm_vote_total cm_stake_total OnCurrentEpochSet].
  destruct (set_weights_totals (zip positions ds) (new_committee id)) as [-> ->].
  destruct (decide (zip positions ds = [])) as [E|_].
  { pose proof (st_vote _ _ _ Hc) as Hv. rw E in H2. cbn in H2. rw -H2 in Hv. cbn in Hv. lia. }
  cbn [cm_vote_total cm_stake_total new_committee]. rw -!(sumZ_fmap snd) H2 !Z.add_0_l.
  pose proof (st_vote _ _ _ Hc). pose proof (st_stake _ _ _ Hc).
  rw /u128 /wrap !Z.mod_small; [done|lia..].
Qed.
Lemma seated_id : cm_delegate_id c = id.
Proof.
  rw (st_eq _ _ _ Hc). cbn [cm_delegate_id OnCurrentEpochSet].
  assert (forall l c, cm_delegate_id (foldl set_weight c l) = cm_delegate_id c) as ->; [|done].
  induction l as [|[j d] l IH]; intros c'; [done|]. cbn [foldl]. by rw IH.
Qed.
Lemma seated_mine : id ∈ positions ->
  cm_my_vote c = vote_weight (weight_of c id) /\ cm_my_stake c = stake_weight (weight_of c id).
Proof.
  intros Hi. destruct seated_entries as [H1 _]. rw -H1 in Hi.
  pose proof Hi as (p & Hp & Hin)%list_elem_of_fmap.
  rw /weight_of (st_eq _ _ _ Hc). cbn [cm_weights cm_my_vote cm_my_stake OnCurrentEpochSet].
  destruct (cm_weights (foldl set_weight (new_committee id) (zip positions ds)) !! id) as [w|] eqn:E.
  - apply (set_weights_mine _ _ id); [rw H1; apply NoDup_seqZ|done..].
  - rw set_weights_lookup in E; [|rw H1; apply NoDup_seqZ].
    destruct (list_find _ _) as [[]|] eqn:F; [done|]. apply list_find_None in F.
    rw Forall_forall in F. by destruct (F p Hin).
Qed.
End Seated.

Lemma add_weights_sum c m l acc :
  0 <= acc.1 < 2 ^ 128 -> 0 <= acc.2 < 2 ^ 128 ->
  foldl (add_weight c m) acc l
  = (u128 (acc.1 + sumZ (fun i => if Z.testbit m i then vote_weight (weight_of c i) else 0) l),
     u128 (acc.2 + sumZ (fun i => if Z.testbit m i then stake_weight (weight_of c i) else 0) l)).
Proof.
  revert acc. induction l as [|i l IH]; intros acc H1 H2.
  - cbn. rw !Z.add_0_r /u128 /wrap !Z.mod_small //. by destruct acc.
  - cbn [foldl]. rw !sumZ_cons /add_weight. destruct (Z.testbit m i); [|by apply IH].
    rw IH; [|cbn; apply Z.mod_pos_bound; lia..]. cbn [fst snd].
    by rw /amt_add /u128 /wrap !Zplus_mod_idemp_l !Z.add_assoc.
Qed.

Section Quorums.
Context {id : Z} {ds : list Delegate} {c : Committee} (Hc : seated id ds c).

Lemma vote_nonneg i : 0 <= vote_weight (weight_of c i).
Proof. apply (seated_weights_ok Hc). Qed.
Lemma stake_nonneg i : 0 <= stake_weight (weight_of c i).
Proof. apply (seated_weights_ok Hc). Qed.
Hint Resolve vote_nonneg stake_nonneg : core.
Lemma total_bounds : 0 < cm_vote_total c < 2 ^ 128 /\ 0 < cm_stake_total c < 2 ^ 128.
Proof.
  destruct (seated_totals Hc) as [-> ->]. rw !(seated_sum Hc) /=.
  split; [apply (st_vote _ _ _ Hc)|apply (st_stake _ _ _ Hc)].
Qed.
Lemma share_bounds P :
  0 <= weight_share vote_weight c P <= cm_vote_total c /\ 0 <= weight_share stake_weight c P <= cm_stake_total c.
Proof.
  destruct (seated_totals Hc) as [-> ->].
  split; (split; [by apply share_nonneg|by apply share_mono]).
Qed.
(** The loop of ValidateQuorum adds up without overflow. *)
Lemma map_weight_share m :
  map_weight c m = (weight_share vote_weight c (Z.testbit m), weight_share stake_weight c (Z.testbit m)).
Proof.
  destruct total_bounds, (share_bounds (Z.testbit m)).
  rw /map_weight add_weights_sum; [|cbn; lia..]. cbn [fst snd]. rw !Z.add_0_l.
  by rw /u128 /wrap !Z.mod_small; [|rw -/(weight_share stake_weight c _); lia
                                   |rw -/(weight_share vote_weight c _); lia].
Qed.
Lemma ValidateQuorum_share s :
  ValidateQuorum c s = true <->
  cm_vote_quorum c <= weight_share vote_weight c (signed_by s) /\
  cm_stake_quorum c <= weight_share stake_weight c (signed_by s).
Proof. rw /ValidateQuorum map_weight_share /ReachedQuorum andb_true_iff !Z.leb_le. done. Qed.
Lemma quorums_overlap s1 s2 :
  ValidateQuorum c s1 = true -> ValidateQuorum c s2 = true ->
  2 * cm_vote_quorum c - cm_vote_total c
    <= weight_share vote_weight c (fun i => signed_by s1 i && signed_by s2 i) /\
  2 * cm_stake_quorum c - cm_stake_total c
    <= weight_share stake_weight c (fun i => signed_by s1 i && signed_by s2 i).
Proof.
  intros [Hv1 Hs1]%ValidateQuorum_share [Hv2 Hs2]%ValidateQuorum_share.
  destruct (seated_totals Hc) as [-> ->].
  pose proof (share_overlap vote_weight c vote_nonneg (signed_by s1) (signed_by s2)).
  pose proof (share_overlap stake_weight c stake_nonneg (signed_by s1) (signed_by s2)). lia.
Qed.
(** A delegate that is not faulty is in both quorums. *)
Lemma honest_in_both s1 s2 (faulty : Z -> bool) :
  ValidateQuorum c s1 = true -> ValidateQuorum c s2 = true ->
  weight_share vote_weight c faulty < 2 * cm_vote_quorum c - cm_vote_total c ->
  exists i, i ∈ positions /\ signed_by s1 i = true /\ signed_by s2 i = true /\ faulty i = false.
Proof.
  intros H1 H2 Hf. destruct (quorums_overlap s1 s2 H1 H2) as [Ho _].
  destruct (share_witness vote_weight c vote_nonneg
              (fun i => signed_by s1 i && signed_by s2 i) faulty) as (i & Hi & Hb & ?); [lia|].
  apply andb_true_iff in Hb as [? ?]. eauto.
Qed.
Lemma quorum_numbers :
  (cm_vote_max_fault c, cm_vote_quorum c) = SetQuorum (cm_vote_total c) /\
  (cm_stake_max_fault c, cm_stake_quorum c) = SetQuorum (cm_stake_total c).
Proof. by rw (st_eq _ _ _ Hc). Qed.
End Quorums.

(** C20 Two quorums of a committee share at least twice the quorum less the
    total, of the votes and of the stake. This is more than the weight the
    protocol means to tolerate as faulty exactly when the total leaves the
    remainder 1 on division by 3; a quorum itself is never more than the total. *)
Theorem quorums_intersect id ds c s1 s2 :
  seated id ds c -> ValidateQuorum c s1 = true -> ValidateQuorum c s2 = true ->
  let both i := signed_by s1 i && signed_by s2 i in
  2 * cm_vote_quorum c - cm_vote_total c <= weight_share vote_weight c both /\
  2 * cm_stake_quorum c - cm_stake_total c <= weight_share stake_weight c both /\
  (cm_vote_max_fault c < 2 * cm_vote_quorum c - cm_vote_total c <-> cm_vote_total c mod 3 = 1) /\
  (cm_stake_max_fault c < 2 * cm_stake_quorum c - cm_stake_total c <-> cm_stake_total c mod 3 = 1) /\
  0 < cm_vote_quorum c <= cm_vote_total c /\ 0 < cm_stake_quorum c <= cm_stake_total c.
Proof.
  intros Hc H1 H2 both. destruct (quorums_overlap Hc _ _ H1 H2) as [Hv Hs].
  destruct (quorum_numbers Hc) as [Ev Es], (total_bounds Hc) as [Tv Ts].
  pose proof (SetQuorum_overlap _ Tv) as Ov. pose proof (SetQuorum_spec _ Tv) as Sv.
  pose proof (SetQuorum_overlap _ Ts) as Os. pose proof (SetQuorum_spec _ Ts) as Ss.
  rw -Ev in Ov Sv. rw -Es in Os Ss. split_and!; try done; lia.
Qed.

(** ** Aggregates *)
Section Aggregates.
Context {B : Bls} {HB : BlsLaws B}.
Variables (ks : KeyStore) (h : BlockHash).
Abbreviation key_of := (fun i => GetPublicKey i ks).

Lemma participant_keys_filter m ids :
  (forall i, i ∈ ids -> Z.testbit m i = true -> is_Some (ks !! i)) ->
  participant_keys m ids ks = Some (key_of <$> filter (fun i => Z.testbit m i = true) ids).
Proof.
  induction ids as [|i ids IH]; intros Hk; [done|]. cbn [participant_keys].
  rw filter_cons IH; [|by intros j Hj; apply Hk; right].
  destruct (Z.testbit m i) eqn:E; [|done]. cbn.
  destruct (Hk i (list_elem_of_here _ _) E) as [k Ek].
  by rw Ek /= /GetPublicKey Ek.
Qed.
Lemma collect_spec sigs seen m :
  NoDup (ds_delegate_id <$> sigs) ->
  (forall i, i ∈ ds_delegate_id <$> sigs -> i ∉ seen) ->
  Forall (fun s => 0 <= ds_delegate_id s /\
                   Validate_single ks h (ds_signature s) (ds_delegate_id s) = true) sigs ->
  exists m' sks, collect ks sigs seen m = Some (m', sks) /\
    sks.*2 = key_of <$> (ds_delegate_id <$> sigs) /\
    Forall (fun x => sig_verify x.1 x.2 h = true) sks /\
    forall i, 0 <= i -> Z.testbit m' i = Z.testbit m i || bool_decide (i ∈ ds_delegate_id <$> sigs).
Proof using Type.
  revert seen m. induction sigs as [|s sigs IH]; intros seen m Hn Hs Hv.
  { exists m, []. split_and!; [done..|]. intros i _. by rw orb_false_r. }
  cbn in Hn. apply NoDup_cons in Hn as [Hi Hn]. apply Forall_cons in Hv as [[H0 Hv] Hvs].
  rw /Validate_single /verify_bytes in Hv. cbn [collect].
  rw decide_False; [|by apply Hs; left].
  destruct (sig_deserialize (ds_signature s)) as [r|] eqn:Er; [|done]. cbn [mbind option_bind].
  destruct (IH (ds_delegate_id s :: seen) (Z.setbit m (ds_delegate_id s))) as (m' & sks & -> & Hk & Hf & Hm);
    [done| |done|].
  { intros j Hj. rw not_elem_of_cons. split; [by intros ->|]. apply Hs. by right. }
  exists m', ((r, key_of (ds_delegate_id s)) :: sks). split_and!; [done|by cbn; rw Hk|by constructor|].
  intros i Hi0. rw Hm // Z.setbit_eqb //.
  destruct (Z.eqb_spec (ds_delegate_id s) i) as [E|E]; cbn.
  - symmetry. apply orb_true_intro. right. apply bool_decide_eq_true. subst. by left.
  - f_equal. apply bool_decide_ext. rw elem_of_cons. naive_solver.
Qed.
(** A valid signature of a delegate whose key is known. *)
Record countable_sig (s : DelegateSignature) : Prop := {
  cs_position : ds_delegate_id s ∈ positions;
  cs_key : is_Some (ks !! ds_delegate_id s);
  cs_valid : Validate_single ks h (ds_signature s) (ds_delegate_id s) = true;
}.
(** AggregateSignature over valid signatures of distinct delegates whose keys are
    known: it succeeds, the aggregate is valid, and its map holds the signers. *)
Lemma AggregateSignature_valid sigs agg :
  agg_map agg = 0 -> sigs <> [] -> NoDup (ds_delegate_id <$> sigs) ->
  Forall countable_sig sigs ->
  exists agg', AggregateSignature ks sigs agg = Some agg' /\ Validate_aggregate ks h agg' = true /\
    forall i, 0 <= i -> signed_by agg' i = bool_decide (i ∈ ds_delegate_id <$> sigs).
Proof.
  intros Hm0 Hne Hn Hv.
  destruct (collect_spec sigs [] (agg_map agg)) as (m & sks & Hc & Hk & Hf & Hm);
    [done|by intros ?? ?%not_elem_of_nil| |].
  { eapply Forall_impl; [exact Hv|]. intros s [Hs _ ?]. apply elem_of_seqZ in Hs. split; [lia|done]. }
  rw Hm0 in Hm. setoid_rewrite Z.testbit_0_l in Hm. cbn in Hm.
  rw /AggregateSignature Hc. cbn [mbind option_bind fst snd].
  eexists. split; [done|]. split; [|exact Hm].
  rw /Validate_aggregate /verify_bytes /GetAggregatedPublicKey. cbn [agg_sig agg_map].
  assert (forall i, i ∈ positions -> Z.testbit m i = true <-> i ∈ ds_delegate_id <$> sigs) as Hbit.
  { intros i Hi. apply elem_of_seqZ in Hi. rw Hm; [|lia]. apply bool_decide_eq_true. }
  rw participant_keys_filter.
  2:{ intros i Hi Hb. apply Hbit in Hb; [|done]. apply list_elem_of_fmap in Hb as (s & -> & Hs).
      rw Forall_forall in Hv. by destruct (Hv s Hs). }
  rw sig_roundtrip. apply aggregate_verifies; [|done|].
  - intros ->. destruct sigs; [done|]. by rw fmap_cons in Hk.
  - rw Hk. apply fmap_Permutation, NoDup_Permutation; [|done|].
    + apply NoDup_filter, NoDup_seqZ.
    + intros i. rw list_elem_of_filter. split; [by intros [Hb Hi]; apply Hbit|].
      intros Hi. assert (i ∈ positions) as Hp; [|by split; [apply Hbit|]].
      apply list_elem_of_fmap in Hi as (s & -> & Hs). rw Forall_forall in Hv. apply (Hv s Hs).
Qed.
End Aggregates.

(** ** Validators of past epochs *)
Section Builders.
Context {B : Bls} `{HL : LmdbLaws}.
Implicit Types (s : Store) (bld : Builder).

(** The epoch blocks from one with the hash [h] back. *)
Inductive linked s : BlockHash -> list ApprovedEB -> Prop :=
| linked_nil h : linked s h []
| linked_cons h b bs :
    mdb_get h (epoch_db (elections s)) = Some b -> linked s (eb_previous b) bs ->
    linked s h (b :: bs).
(** The chain of epoch blocks, one for each number from the tip's down to 0. *)
Record archive s (tip : Tip) (bs : list ApprovedEB) : Prop := {
  ar_tip : mdb_get 0 (epoch_tip_db (elections s)) = Some tip;
  ar_linked : linked s (digest tip) bs;
  ar_numbers : eb_epoch_number <$> bs = reverse (seqZ 0 (tip_epoch tip + 1));
}.
Definition keys_of (bs : list ApprovedEB) (e : Z) (ks : KeyStore) : Prop :=
  exists b, b ∈ bs /\ eb_epoch_number b = e /\ ks = epoch_keys b.
(** What the caches hold are keys of blocks of the chain. *)
Record builder_ok (bs : list ApprovedEB) bld : Prop := {
  bo_pki e ks : epoch_pki bld !! e = Some ks -> keys_of bs e ks;
  bo_cached ks : cached_validator bld = Some ks -> keys_of bs (cached_epoch bld) ks;
}.
Lemma keys_of_mono bs bs' e ks : bs ⊆ bs' -> keys_of bs e ks -> keys_of bs' e ks.
Proof. intros Hs (b & Hb & ? & ?). exists b. split; [by apply Hs|done]. Qed.
(** The caches stay right when the chain grows. *)
Lemma builder_ok_mono bs bs' bld : bs ⊆ bs' -> builder_ok bs bld -> builder_ok bs' bld.
Proof. intros Hs [Hp Hc]. split; intros; eapply keys_of_mono; eauto. Qed.

Lemma reverse_seqZ_cons n : 0 <= n -> reverse (seqZ 0 (n + 1)) = n :: reverse (seqZ 0 n).
Proof.
  intros Hn. rw seqZ_app; [|lia..]. rw reverse_app /=. by rw Z.add_0_l.
Qed.
(** The walk finds the block with the number it looks for. *)
Lemma epoch_find_spec s e n bs h fuel :
  linked s h bs -> eb_epoch_number <$> bs = reverse (seqZ 0 (n + 1)) -> 0 <= e <= n ->
  (length bs <= fuel)%nat ->
  exists b, epoch_find fuel e h s = Ok (b, s) /\ b ∈ bs /\ eb_epoch_number b = e.
Proof.
  intros Hl. revert n fuel. induction Hl as [h|h b bs Hb Hl IH]; intros n fuel Hn He Hf.
  { rw reverse_seqZ_cons in Hn; [done|lia]. }
  rw reverse_seqZ_cons in Hn; [|lia]. rw fmap_cons in Hn. injection Hn as Hbn Hn.
  destruct fuel as [|fuel]; [cbn in Hf; lia|].
  cbn [epoch_find]. rw /mbind /M_bind /epoch_get /get_elections /gets Hb.
  destruct (Z.ltb_spec e (eb_epoch_number b)) as [Hlt|Hge].
  - destruct (IH (n - 1) fuel) as (b' & E & Hin & Hn'); [|lia|cbn in Hf; lia|].
    { by replace (n - 1 + 1) with n by lia. }
    exists b'. split; [exact E|]. split; [by right|done].
  - exists b. split; [done|]. split; [by left|lia].
Qed.

Lemma remember_lookup e ks m e' ks' :
  remember e ks m !! e' = Some ks' -> (e' = e /\ ks' = ks) \/ m !! e' = Some ks'.
Proof.
  rw /remember. intros H.
  assert (<[e := ks]> m !! e' = Some ks') as [[-> ->]|[_ ?]]%lookup_insert_Some; [|tauto..].
  case_decide; [|done]. by apply lookup_delete_Some in H as [_ ?].
Qed.
Lemma linked_stored s h bs b :
  linked s h bs -> b ∈ bs -> b ∈ (mdb_items (epoch_db (elections s))).*2.
Proof.
  induction 1 as [h|h b' bs Hb Hl IH]; [by intros ?%not_elem_of_nil|].
  intros [->|Hin]%elem_of_cons; [|by apply IH].
  apply list_elem_of_fmap. exists (h, b'). split; [done|]. by apply items_get.
Qed.
Lemma archive_length s tip bs :
  archive s tip bs -> (length bs <= length (mdb_items (epoch_db (elections s))))%nat.
Proof.
  intros [_ Hl Hn]. rw -(length_fmap snd (mdb_items _)). apply submseteq_length, NoDup_submseteq.
  - apply (NoDup_fmap_1 eb_epoch_number). rw Hn reverse_Permutation. apply NoDup_seqZ.
  - intros b Hb. by eapply linked_stored.
Qed.

(** A node that checks blocks of any epoch gets the keys of the right
    delegates. On a complete chain of epoch blocks, GetValidator for an epoch
    never halts: it returns the keys of the epoch block two epochs earlier, from
    its caches or from the chain, and nothing only while the chain is too short;
    what it leaves in the caches are keys of the epochs they are filed under. *)
Lemma validator_is_of_its_epoch s tip bs bld n :
  archive s tip bs -> builder_ok bs bld ->
  exists v bld', GetValidator s n bld = Ok (v, bld') /\ builder_ok bs bld' /\
    match v with
    | Some ks => keys_of bs (u32 (n - 2)) ks
    | None => tip_epoch tip < u32 (n - 2)
    end.
Proof.
  intros Ha Hb. rw /GetValidator. set e := u32 (n - 2).
  assert (0 <= e) as He by (apply Z.mod_pos_bound; lia).
  rw {1}/mbind {1}/M_bind /gets. cbv beta iota delta [id].
  destruct (bool_decide (is_Some (cached_validator bld)) && (cached_epoch bld =? e)) eqn:Ec.
  { apply andb_true_iff in Ec as [[ks Hks]%bool_decide_eq_true <-%Z.eqb_eq].
    exists (cached_validator bld), bld. split; [done|]. split; [done|]. rw Hks.
    by apply (bo_cached _ _ Hb). }
  destruct (epoch_pki bld !! e) as [ks|] eqn:Ep.
  { pose proof (bo_pki _ _ Hb _ _ Ep) as Hk.
    exists (Some ks), (Build_Builder (epoch_pki bld) e (Some ks)). split; [done|]. split; [|done].
    split; [apply (bo_pki _ _ Hb)|by intros ? [= <-]]. }
  rw /load_validator /with_store /mbind /M_bind /epoch_tip_get /get_elections /gets
     (ar_tip _ _ _ Ha).
  destruct (Z.ltb_spec (tip_epoch tip) e) as [Hlt|Hle]; [by exists None, bld|].
  destruct (epoch_find_spec s e (tip_epoch tip) bs (digest tip)
              (S (length (mdb_items (epoch_db (elections s)))))) as (b & -> & Hin & Hn);
    [apply Ha|apply Ha|lia|pose proof (archive_length _ _ _ Ha); lia|].
  rw Hn Z.eqb_refl. eexists (Some (epoch_keys b)), _. split; [done|].
  assert (keys_of bs e (epoch_keys b)) as Hk by by exists b.
  split; [|done]. split; cbn [epoch_pki cached_validator cached_epoch].
  - by intros e' ks' [[-> ->]|?]%remember_lookup; [|apply (bo_pki _ _ Hb)].
  - by intros ? [= <-].
Qed.
End Builders.

(** ** What a node that is not a delegate checks *)
Section Certificates.
Context {B : Bls} {HB : BlsLaws B} `{L : Lmdb} `{Blake2b} {P : Type} `{ConsensusBlock P}.

(** A signature of one delegate, as an aggregate. *)
Definition lone_signature (i : Z) (k : PublicKeyReal) (s : SignatureReal) : AggSignature :=
  Build_AggSignature (Z.setbit 0 i) (sig_serialize (sig_aggregate [s] [k])).
Lemma lone_signature_valid (ks : KeyStore) i k s h :
  i ∈ positions -> ks !! i = Some k -> sig_verify s k h = true ->
  Validate_aggregate ks h (lone_signature i k s) = true.
Proof using HB.
  intros Hi Hk Hs. pose proof (proj1 (elem_of_seqZ _ _ _) Hi) as Hi0.
  destruct (AggregateSignature_valid ks h [Build_DelegateSignature i (sig_serialize s)] AggSignature_clear)
    as (agg & E & Hv & _); [done|done|apply NoDup_singleton| |].
  { apply Forall_singleton. split; [done|by rw Hk|].
    by rw /Validate_single /verify_bytes /GetPublicKey Hk sig_roundtrip. }
  move: E. rw /AggregateSignature. cbn [collect ds_delegate_id ds_signature].
  rw sig_roundtrip /GetPublicKey Hk. by intros [= <-].
Qed.

(** The check of a confirmed block asks for no quorum. Any one delegate of the
    epoch can sign any block alone, twice, and the block with these two signatures
    passes VerifyAggSignature: the aggregates are verified against the keys of the
    delegates they name, whose weight is never compared with the quorum, as a
    backup delegate does. *)
Lemma one_delegate_certifies_a_block st bld bld' (ks : KeyStore) i k sign (b : P) :
  GetValidator st (cb_delegates_epoch_number b) bld = Ok (Some ks, bld') ->
  i ∈ positions -> ks !! i = Some k -> (forall h, sig_verify (sign h) k h = true) ->
  exists block : PostCommittedBlock P,
    pc_block block = b /\ VerifyAggSignature st block bld = Ok (true, bld') /\
    (forall j, 0 <= j -> signed_by (pc_post_prepare_sig block) j = (j =? i)) /\
    (forall j, 0 <= j -> signed_by (pc_post_commit_sig block) j = (j =? i)).
Proof using HB.
  intros Hg Hi Hk Hs. set s1 := lone_signature i k (sign (cb_Hash b)).
  set h2 := ComputeHash (Build_PostPhaseMessage (cb_Hash b) s1).
  exists (Build_PostCommittedBlock b no_sig s1 (lone_signature i k (sign h2))).
  split; [done|]. split.
  - rw /VerifyAggSignature /mbind /M_bind. cbn [pc_block pc_post_prepare_sig pc_post_commit_sig].
    rw Hg (lone_signature_valid ks i k) // -/h2. by rw (lone_signature_valid ks i k).
  - pose proof (proj1 (elem_of_seqZ _ _ _) Hi). split; intros j Hj;
      rw /signed_by (Z.eqb_sym j i); cbn [pc_post_prepare_sig pc_post_commit_sig agg_map lone_signature];
      (rw Z.setbit_eqb; [rw Z.bits_0; apply orb_false_r|lia]).
Qed.
End Certificates.

(** ** A concrete committee

    Keys are numbers and add up; a signature is the sum of the keys and the
    message, and 30 more bytes. *)
Definition sum_bls : Bls := {|
  PublicKeyReal := Z;
  SignatureReal := Z * Z;
  key_deserialize bs := hd_error bs;
  key_default := 0;
  key_aggregate := sumZ id;
  sig_deserialize bs := match bs with k :: h :: _ => Some (k, h) | _ => None end;
  sig_serialize s := s.1 :: s.2 :: replicate 30 0;
  sig_verify s k h := (s.1 =? k) && (s.2 =? h);
  sig_aggregate sigs keys := (sumZ id keys, match sigs with s :: _ => s.2 | [] => 0 end);
|}.
#[global] Instance sum_bls_laws : BlsLaws sum_bls.
Proof.
  split; [by intros []|]. intros h sks keys Hne Hv Hp. cbn. rw Hp Z.eqb_refl.
  destruct sks as [|[[k h'] k'] sks]; [done|].
  by apply Forall_cons in Hv as [[_ ?]%andb_true_iff _].
Qed.
(** [n] delegates with one vote and one stake each, the rest with none. *)
Definition unit_delegate (weight key : Z) : Delegate :=
  Build_Delegate 0 [key] [] weight weight weight weight false.
Definition unit_delegates (n : nat) : list Delegate :=
  (fun i : nat => unit_delegate (if decide (i < n)%nat then 1 else 0) (Z.of_nat i + 1))
    <$> seq 0 (Z.to_nat NUM_DELEGATES).
Definition unit_committee (id : Z) (n : nat) : Committee :=
  OnCurrentEpochSet (unit_delegates n) (new_committee id).
Lemma unit_delegates_nonneg n : Forall (fun d => 0 <= d_vote d /\ 0 <= d_stake d) (unit_delegates n).
Proof. apply Forall_fmap, Forall_forall. intros i _. cbn. case_decide; lia. Qed.
Lemma unit_committee_seated id : seated id (unit_delegates 32) (unit_committee id 32).
Proof. by split; [|vm_compute|apply unit_delegates_nonneg|vm_compute; split|vm_compute; split]. Qed.
Definition first_21 : AggSignature := Build_AggSignature (2 ^ 21 - 1) no_sig.
Definition last_21 : AggSignature := Build_AggSignature (Z.shiftl (2 ^ 21 - 1) 11) no_sig.

(** With 32 equal weights the protocol tolerates 10 faulty delegates, and two
    quorums of 21 may have only these 10 in common. *)
Example quorums_intersect_witness :
  cm_vote_max_fault (unit_committee 0 32) = 10 /\
  weight_share vote_weight (unit_committee 0 32) (fun i => signed_by first_21 i && signed_by last_21 i) = 10 /\
  2 * cm_vote_quorum (unit_committee 0 32) - cm_vote_total (unit_committee 0 32) <= 10.
Proof.
  split; [vm_compute; reflexivity|]. split; [vm_compute; reflexivity|].
  destruct (quorums_intersect 0 _ _ first_21 last_21 (unit_committee_seated 0))
    as [Hv _]; [vm_compute; reflexivity|vm_compute; reflexivity|].
  assert (weight_share vote_weight (unit_committee 0 32)
            (fun i => signed_by first_21 i && signed_by last_21 i) = 10) as <-
    by (vm_compute; reflexivity).
  exact Hv.
Defined.

Module CommitteeExamples.
#[local] Instance L : Lmdb := gmap_lmdb.
#[local] Instance LL : LmdbLaws L := gmap_lmdb_laws.
#[local] Instance SB : Bls := sum_bls.
#[local] Instance BB : Blake2b := encode_blake2b.

(** The blocks of the epochs 0 and 1. *)
Definition first_block : ApprovedEB :=
  Build_ApprovedEB 0 0 (Build_Tip 0 0 0) 0 0 (unit_delegates 32) 0 false 0.
Definition second_block : ApprovedEB :=
  Build_ApprovedEB 7 1 (Build_Tip 1 0 0) 0 0 (unit_delegates 31) 0 false 0.
Definition two_epochs : Store :=
  set_elections
    (set_epoch_tip_db (mdb_put 0 (Build_Tip 1 0 8) mdb_empty)
       (set_epoch_db (mdb_put 7 first_block (mdb_put 8 second_block mdb_empty)) no_elections))
    empty_store.
Lemma two_epochs_archive : archive two_epochs (Build_Tip 1 0 8) [second_block; first_block].
Proof.
  split; [vm_compute; reflexivity| |done].
  repeat (eapply linked_cons; [vm_compute; reflexivity|]). constructor.
Qed.
Lemma new_builder_ok bs : builder_ok bs new_builder.
Proof. split; [by intros e ks; rw lookup_empty|done]. Qed.
Example validator_is_of_its_epoch_witness :
  exists v bld', GetValidator two_epochs 3 new_builder = Ok (v, bld') /\
    builder_ok [second_block; first_block] bld' /\
    match v with
    | Some ks => keys_of [second_block; first_block] 1 ks
    | None => False
    end.
Proof.
  destruct (validator_is_of_its_epoch two_epochs (Build_Tip 1 0 8) [second_block; first_block]
              new_builder 3 two_epochs_archive (new_builder_ok _)) as (v & bld' & E & Hb & Hv).
  exists v, bld'. split; [exact E|]. split; [exact Hb|].
  destruct v; [exact Hv|]. vm_compute in Hv. discriminate Hv.
Defined.

(** A block of requests of the epoch 3, whose delegates are those of block 1. *)
Definition any_block : ApprovedRB := Build_ApprovedRB 5 3 3 0 0 0 [] 0.
Definition delegate_4_signs (h : BlockHash) : Z * Z := (5, h).
Example one_delegate_certifies_a_block_witness :
  exists block : PostCommittedBlock ApprovedRB,
    pc_block block = any_block /\
    (VerifyAggSignature two_epochs block new_builder
     = Ok (true, state_after (GetValidator two_epochs 3) new_builder)) /\
    (forall j, 0 <= j -> signed_by (pc_post_prepare_sig block) j = (j =? 4)) /\
    (forall j, 0 <= j -> signed_by (pc_post_commit_sig block) j = (j =? 4)).
Proof.
  apply (one_delegate_certifies_a_block (B := SB) two_epochs new_builder
           (state_after (GetValidator two_epochs 3) new_builder) (epoch_keys second_block) 4 5
           delegate_4_signs any_block).
  - apply run_value. vm_compute. reflexivity.
  - apply (bool_decide_eq_true _). vm_compute. reflexivity.
  - vm_compute. reflexivity.
  - intros h. cbn. apply Z.eqb_refl.
Defined.
End CommitteeExamples.
