(* ===== verification/BackupDelegate.v ===== *)
(** * The backup delegate

    BackupDelegate of src/logos/consensus/backup_delegate.{hpp,cpp}: what a
    delegate does with the messages of another delegate that proposes blocks.
    Each handler is one step: the sink of consensus_msg_sink.cpp runs the handlers
    of a backup one at a time. What they do to other components (messages sent,
    blocks stored, requests queued) is recorded in [bd_out], the last first. The
    virtual methods are the class [Derived]. *)
From stdpp Require Import base list numbers strings gmap ssreflect.
From S2P Require Import Prelude Serial StakingTypes Requests Epochs TokenTypes TokenRequests Ledger ConsensusBlocks ConsensusMessages Committee.
Open Scope Z_scope.

(** consensus_state.hpp *)
Module ConsensusState.
Inductive t :=
| PRE_PREPARE | PREPARE | POST_PREPARE | COMMIT | POST_COMMIT | VOID | RECALL | INITIALIZING.
#[global] Instance eq_dec : EqDecision t.
Proof. solve_decision. Defined.
End ConsensusState.

(** epoch_transition.hpp, and what an EpochEventsNotifier tells. *)
Module EpochTransitionState.
Inductive t := Connecting | EpochTransitionStart | EpochStart | None.
#[global] Instance eq_dec : EqDecision t.
Proof. solve_decision. Defined.
End EpochTransitionState.
Module EpochTransitionDelegate.
Inductive t := New | Persistent | Retiring | None.
#[global] Instance eq_dec : EqDecision t.
Proof. solve_decision. Defined.
End EpochTransitionDelegate.
Module EpochConnection.
Inductive t := Transitioning | WaitingDisconnect | Current.
#[global] Instance eq_dec : EqDecision t.
Proof. solve_decision. Defined.
End EpochConnection.
Record Notifier := {
  nt_state : EpochTransitionState.t;
  nt_delegate : EpochTransitionDelegate.t;
  nt_connection : EpochConnection.t;
}.

(** What a handler reads of its surroundings: the clocks (milliseconds and
    seconds), std::rand, whether peer-to-peer is on, and the two objects it holds
    by weak pointers. *)
Record Env := {
  env_stamp : Z;
  env_clock : Z;
  env_rand : Z;
  env_p2p_enabled : bool;
  env_notifier : option Notifier;
  env_primary : option Committee;
}.

(** What a handler does to the rest of the node. *)
Inductive action (P : Type) :=
| Signs (h : BlockHash)
| SendPrepare (m : StandardPhaseMessage)
| SendCommit (m : StandardPhaseMessage)
| SendRejection (m : RejectionMessage)
| Stores (b : PostCommittedBlock P)
| Queues (r : Request) (expiration : Z)
| Dequeues (m : option (PrePrepareMessage P))
| Schedules (expiration : Z)
| Callbacks (b : PostCommittedBlock P)
| Notifies (epoch_number : Z)
| Broadcasts (b : PostCommittedBlock P)
| Bootstraps.
Arguments Signs {P}.
Arguments SendPrepare {P}.
Arguments SendCommit {P}.
Arguments SendRejection {P}.
Arguments Stores {P}.
Arguments Queues {P}.
Arguments Dequeues {P}.
Arguments Schedules {P}.
Arguments Callbacks {P}.
Arguments Notifies {P}.
Arguments Broadcasts {P}.
Arguments Bootstraps {P}.

(** The members of BackupDelegate; [bd_ext] are those of the derived class. *)
Record Backup (P E : Type) := {
  bd_pre_prepare : option (PrePrepareMessage P);
  bd_pre_prepare_timestamp : Z;
  bd_prev_pre_prepare_hash : BlockHash;
  bd_post_prepare_sig : AggSignature;
  bd_post_commit_sig : AggSignature;
  bd_pre_prepare_hash : BlockHash;
  bd_post_prepare_hash : BlockHash;
  bd_local : Z;
  bd_remote : Z;
  bd_reason : RejectionReason.t;
  bd_state : ConsensusState.t;
  bd_sequence_number : Z;
  bd_expected_epoch_number : Z;
  bd_ext : E;
  bd_out : list (action P);
}.
Arguments Build_Backup {P E}.
Arguments bd_pre_prepare {P E}.
Arguments bd_pre_prepare_timestamp {P E}.
Arguments bd_prev_pre_prepare_hash {P E}.
Arguments bd_post_prepare_sig {P E}.
Arguments bd_post_commit_sig {P E}.
Arguments bd_pre_prepare_hash {P E}.
Arguments bd_post_prepare_hash {P E}.
Arguments bd_local {P E}.
Arguments bd_remote {P E}.
Arguments bd_reason {P E}.
Arguments bd_state {P E}.
Arguments bd_sequence_number {P E}.
Arguments bd_expected_epoch_number {P E}.
Arguments bd_ext {P E}.
Arguments bd_out {P E}.

Section Setters.
Context {P E : Type}.
Definition set_pre_prepare (m : option (PrePrepareMessage P)) (b : Backup P E) : Backup P E :=
  Build_Backup m (bd_pre_prepare_timestamp b) (bd_prev_pre_prepare_hash b)
    (bd_post_prepare_sig b) (bd_post_commit_sig b) (bd_pre_prepare_hash b) (bd_post_prepare_hash b) (bd_local b)
    (bd_remote b) (bd_reason b) (bd_state b) (bd_sequence_number b) (bd_expected_epoch_number b)
    (bd_ext b) (bd_out b).
Definition set_pre_prepare_hash (h : BlockHash) (b : Backup P E) : Backup P E :=
  Build_Backup (bd_pre_prepare b) (bd_pre_prepare_timestamp b) (bd_prev_pre_prepare_hash b)
    (bd_post_prepare_sig b) (bd_post_commit_sig b) h (bd_post_prepare_hash b) (bd_local b)
    (bd_remote b) (bd_reason b) (bd_state b) (bd_sequence_number b) (bd_expected_epoch_number b)
    (bd_ext b) (bd_out b).
Definition set_pre_prepare_timestamp (t : Z) (b : Backup P E) : Backup P E :=
  Build_Backup (bd_pre_prepare b) t (bd_prev_pre_prepare_hash b) (bd_post_prepare_sig b)
    (bd_post_commit_sig b) (bd_pre_prepare_hash b) (bd_post_prepare_hash b) (bd_local b)
    (bd_remote b) (bd_reason b) (bd_state b) (bd_sequence_number b) (bd_expected_epoch_number b)
    (bd_ext b) (bd_out b).
Definition set_prev_pre_prepare_hash (h : BlockHash) (b : Backup P E) : Backup P E :=
  Build_Backup (bd_pre_prepare b) (bd_pre_prepare_timestamp b) h (bd_post_prepare_sig b)
    (bd_post_commit_sig b) (bd_pre_prepare_hash b) (bd_post_prepare_hash b) (bd_local b)
    (bd_remote b) (bd_reason b) (bd_state b) (bd_sequence_number b) (bd_expected_epoch_number b)
    (bd_ext b) (bd_out b).
Definition set_post_prepare (h : BlockHash) (s : AggSignature) (b : Backup P E) : Backup P E :=
  Build_Backup (bd_pre_prepare b) (bd_pre_prepare_timestamp b) (bd_prev_pre_prepare_hash b) s
    (bd_post_commit_sig b) (bd_pre_prepare_hash b) h (bd_local b) (bd_remote b) (bd_reason b)
    (bd_state b) (bd_sequence_number b) (bd_expected_epoch_number b) (bd_ext b) (bd_out b).
Definition set_post_commit_sig (s : AggSignature) (b : Backup P E) : Backup P E :=
  Build_Backup (bd_pre_prepare b) (bd_pre_prepare_timestamp b) (bd_prev_pre_prepare_hash b)
    (bd_post_prepare_sig b) s (bd_pre_prepare_hash b) (bd_post_prepare_hash b) (bd_local b)
    (bd_remote b) (bd_reason b) (bd_state b) (bd_sequence_number b) (bd_expected_epoch_number b)
    (bd_ext b) (bd_out b).
Definition set_reason (r : RejectionReason.t) (b : Backup P E) : Backup P E :=
  Build_Backup (bd_pre_prepare b) (bd_pre_prepare_timestamp b) (bd_prev_pre_prepare_hash b)
    (bd_post_prepare_sig b) (bd_post_commit_sig b) (bd_pre_prepare_hash b)
    (bd_post_prepare_hash b) (bd_local b) (bd_remote b) r (bd_state b) (bd_sequence_number b)
    (bd_expected_epoch_number b) (bd_ext b) (bd_out b).
Definition set_state (st : ConsensusState.t) (b : Backup P E) : Backup P E :=
  Build_Backup (bd_pre_prepare b) (bd_pre_prepare_timestamp b) (bd_prev_pre_prepare_hash b)
    (bd_post_prepare_sig b) (bd_post_commit_sig b) (bd_pre_prepare_hash b)
    (bd_post_prepare_hash b) (bd_local b) (bd_remote b) (bd_reason b) st (bd_sequence_number b)
    (bd_expected_epoch_number b) (bd_ext b) (bd_out b).
Definition set_sequence_number (n : Z) (b : Backup P E) : Backup P E :=
  Build_Backup (bd_pre_prepare b) (bd_pre_prepare_timestamp b) (bd_prev_pre_prepare_hash b)
    (bd_post_prepare_sig b) (bd_post_commit_sig b) (bd_pre_prepare_hash b)
    (bd_post_prepare_hash b) (bd_local b) (bd_remote b) (bd_reason b) (bd_state b) n (bd_expected_epoch_number b)
    (bd_ext b) (bd_out b).
Definition set_ext (x : E) (b : Backup P E) : Backup P E :=
  Build_Backup (bd_pre_prepare b) (bd_pre_prepare_timestamp b) (bd_prev_pre_prepare_hash b)
    (bd_post_prepare_sig b) (bd_post_commit_sig b) (bd_pre_prepare_hash b)
    (bd_post_prepare_hash b) (bd_local b) (bd_remote b) (bd_reason b) (bd_state b) (bd_sequence_number b)
    (bd_expected_epoch_number b) x (bd_out b).
Definition set_out (o : list (action P)) (b : Backup P E) : Backup P E :=
  Build_Backup (bd_pre_prepare b) (bd_pre_prepare_timestamp b) (bd_prev_pre_prepare_hash b)
    (bd_post_prepare_sig b) (bd_post_commit_sig b) (bd_pre_prepare_hash b)
    (bd_post_prepare_hash b) (bd_local b) (bd_remote b) (bd_reason b) (bd_state b) (bd_sequence_number b)
    (bd_expected_epoch_number b) (bd_ext b) o.
End Setters.

(** The virtual methods of BackupDelegate. ValidateEpoch is a template that has a
    specialization for request blocks. *)
Class Derived (P E : Type) := {
  DoValidate : Env -> PrePrepareMessage P -> M (Backup P E) bool;
  ValidateTimestamp : Env -> PrePrepareMessage P -> bool;
  ValidateEpoch : Env -> PrePrepareMessage P -> M (Backup P E) bool;
  ValidateReProposal : PrePrepareMessage P -> M (Backup P E) bool;
  HandlePrePrepare : Env -> PrePrepareMessage P -> M (Backup P E) unit;
  AdvanceCounter : M (Backup P E) unit;
  HandleReject : Env -> PrePrepareMessage P -> M (Backup P E) unit;
  Reject : BlockHash -> M (Backup P E) unit;
  ResetRejectionStatus : M (Backup P E) unit;
}.

Section Backup.
Context {P E : Type} `{Blake2b} `{ConsensusBlock P} {D : Derived P E} {B : Bls}.
(** The validator of the node: the keys of the delegates and its own signature. *)
Variables (ks : KeyStore) (sign : BlockHash -> DelegateSig).
Abbreviation MB := (M (Backup P E)).

Definition emit (a : action P) : MB unit := modify (fun b => set_out (a :: bd_out b) b).
Definition Sign (h : BlockHash) : MB DelegateSig := emit (Signs h);; mret (sign h).
Definition SetPrePrepare (m : PrePrepareMessage P) : MB unit := modify (set_pre_prepare (Some m)).
(** The base methods. *)
Definition SetPreviousPrePrepareHash (h : BlockHash) : MB unit := modify (set_prev_pre_prepare_hash h).
Definition MAX_CLOCK_DRIFT_MS : Z := 20000.
Definition drift (env : Env) (m : PrePrepareMessage P) : Z :=
  let ts := cb_timestamp (pp_block m) in
  if ts <? env_stamp env then env_stamp env - ts else ts - env_stamp env.
Definition IsOldBlock (m : PrePrepareMessage P) (b : Backup P E) : bool :=
  (cb_epoch_number (pp_block m) <? bd_expected_epoch_number b)
  || (cb_epoch_number (pp_block m) =? bd_expected_epoch_number b)
     && (cb_sequence (pp_block m) <? bd_sequence_number b).

Definition Validate_PrePrepare (env : Env) (m : PrePrepareMessage P) : MB bool :=
  b ← gets id;
  if negb (cb_primary_delegate (pp_block m) =? bd_remote b) then
    modify (set_reason RejectionReason.Invalid_Primary_Index);; mret false
  else if negb (Validate_single ks (cb_Hash (pp_block m)) (pp_preprepare_sig m) (bd_remote b)) then
    modify (set_reason RejectionReason.Bad_Signature);; mret false
  else if negb (cb_previous (pp_block m) =? bd_prev_pre_prepare_hash b) then
    modify (set_reason RejectionReason.Invalid_Previous_Hash);; emit Bootstraps;; mret false
  else
    ok ← (if decide (bd_state b = ConsensusState.PREPARE) then ValidateReProposal m else mret true);
    if (ok : bool) then DoValidate env m else mret false.

(** ValidateQuorum with the weights of the primary, which must be there. *)
Definition check_quorum (env : Env) (s : AggSignature) : MB bool :=
  match env_primary env with
  | None => halt "BackupDelegate::ValidateQuorum"
  | Some c => mret (ValidateQuorum c s)
  end.
Definition Validate_PostPrepare (env : Env) (m : PostPhaseMessage) : MB bool :=
  b ← gets id;
  if negb (bd_pre_prepare_hash b =? pm_preprepare_hash m) then emit Bootstraps;; mret false
  else if Validate_aggregate ks (bd_pre_prepare_hash b) (pm_signature m)
       then check_quorum env (pm_signature m) else mret false.
Definition Validate_PostCommit (env : Env) (m : PostPhaseMessage) : MB bool :=
  b ← gets id;
  massert (bool_decide (bd_state b = ConsensusState.COMMIT)) "BackupDelegate::Validate";;
  if negb (bd_pre_prepare_hash b =? pm_preprepare_hash m) then emit Bootstraps;; mret false
  else if Validate_aggregate ks (bd_post_prepare_hash b) (pm_signature m)
       then check_quorum env (pm_signature m) else mret false.

(** ProceedWithMessage, for the three messages. *)
Definition Proceed_PrePrepare (env : Env) (m : PrePrepareMessage P) : MB bool :=
  b ← gets id;
  if decide (bd_state b = ConsensusState.VOID) then
    ok ← Validate_PrePrepare env m;
    if (ok : bool) then ValidateEpoch env m else mret false
  else emit Bootstraps;; mret false.
Definition Proceed_PostPrepare (env : Env) (m : PostPhaseMessage) : MB bool :=
  b ← gets id;
  if decide (bd_state b = ConsensusState.PREPARE) then Validate_PostPrepare env m
  else emit Bootstraps;; mret false.
Definition Proceed_PostCommit (env : Env) (m : PostPhaseMessage) : MB bool :=
  b ← gets id;
  if decide (bd_state b = ConsensusState.COMMIT) then Validate_PostCommit env m
  else emit Bootstraps;; mret false.

Definition send_prepare (h : BlockHash) : MB unit :=
  s ← Sign h; emit (SendPrepare (Build_StandardPhaseMessage h s)).
(** The message names the proposal, the signature is of the PostPrepare. *)
Definition send_commit : MB unit :=
  b ← gets id;
  s ← Sign (bd_post_prepare_hash b);
  emit (SendCommit (Build_StandardPhaseMessage (bd_pre_prepare_hash b) s)).

Definition OnPrePrepare (env : Env) (m : PrePrepareMessage P) : MB unit :=
  let hash := cb_Hash (pp_block m) in
  b ← gets id;
  let same := hash =? bd_pre_prepare_hash b in
  if same && (bool_decide (bd_state b = ConsensusState.PREPARE)
              || bool_decide (bd_state b = ConsensusState.COMMIT)) then send_prepare hash
  else if negb same && IsOldBlock m b then mret tt
  else if negb (ValidateTimestamp env m) && negb (env_p2p_enabled env) then mret tt
  else
    ok ← Proceed_PrePrepare env m;
    if (ok : bool) then
      modify (set_pre_prepare_timestamp (cb_timestamp (pp_block m)));;
      modify (set_pre_prepare_hash hash);;
      modify (set_state ConsensusState.PREPARE);;
      SetPrePrepare m;;
      HandlePrePrepare env m;;
      send_prepare hash
    else
      HandleReject env m;; Reject hash;; ResetRejectionStatus.

Definition OnPostPrepare (env : Env) (m : PostPhaseMessage) : MB unit :=
  let hash := ComputeHash m in
  b ← gets id;
  if hash =? bd_post_prepare_hash b then
    if bool_decide (bd_state b = ConsensusState.VOID) || bool_decide (bd_state b = ConsensusState.PREPARE)
    then halt "BackupDelegate::OnConsensusMessage"
    else send_commit
  else
    ok ← Proceed_PostPrepare env m;
    if (ok : bool) then
      modify (set_post_prepare hash (pm_signature m));;
      modify (set_state ConsensusState.COMMIT);;
      send_commit
    else mret tt.

(** The end of a session, on a PostCommit and on a confirmed block. *)
Definition finish_session (block : PostCommittedBlock P) : MB unit :=
  b ← gets id;
  emit (Dequeues (bd_pre_prepare b));;
  emit (Callbacks block);;
  modify (set_state ConsensusState.VOID);;
  SetPreviousPrePrepareHash (bd_pre_prepare_hash b);;
  AdvanceCounter;;
  modify (set_pre_prepare_hash 0);;
  modify (set_post_commit_sig AggSignature_clear);;
  modify (set_post_prepare 0 AggSignature_clear);;
  emit (Notifies (match bd_pre_prepare b with
                  | Some m => cb_epoch_number (pp_block m)
                  | None => 0
                  end));;
  emit (Broadcasts block).

Definition OnPostCommit (env : Env) (m : PostPhaseMessage) : MB unit :=
  match env_notifier env with
  | None => mret tt
  | Some _ =>
      ok ← Proceed_PostCommit env m;
      b ← gets id;
      match bd_pre_prepare b with
      | Some pp =>
          if (ok : bool) && (pm_preprepare_hash m =? bd_pre_prepare_hash b) then
            modify (set_post_commit_sig (pm_signature m));;
            let block := Block_of_PrePrepare pp (bd_post_prepare_sig b) (pm_signature m) in
            emit (Stores block);;
            finish_session block
          else mret tt
      | None => mret tt
      end
  end.

Definition OnPostCommittedBlock (env : Env) (block : PostCommittedBlock P) : MB unit :=
  match env_notifier env with
  | None => mret tt
  | Some _ =>
      let hash := cb_Hash (pc_block block) in
      b ← gets id;
      let current := bool_decide (is_Some (bd_pre_prepare b)) && (bd_pre_prepare_hash b =? hash) in
      if current || (bd_prev_pre_prepare_hash b =? cb_previous (pc_block block)) then
        (if current then mret tt
         else SetPrePrepare (PrePrepare_of_block block);; modify (set_pre_prepare_hash hash));;
        modify (set_post_commit_sig (pc_post_commit_sig block));;
        finish_session block
      else mret tt
  end.
End Backup.
