(* ===== verification/RequestBackup.v ===== *)
(** * The backup delegate of request blocks

    RequestBackupDelegate of src/logos/consensus/request/
    request_backup_delegate.cpp: the virtual methods of [BackupDelegate] for
    blocks of requests. The requests are judged by the class [RequestValidator],
    which PersistenceManager<R>::ValidateBatch of RequestValidation.v implements. *)
From stdpp Require Import base list numbers strings gmap ssreflect.
From S2P Require Import Prelude Serial Lmdb StakingTypes Requests Epochs BlockStore AccountInfo Staking EpochRewards Governance Reservations TokenTypes TokenRequests Ledger Transfers RequestValidation ConsensusBlocks ConsensusMessages Committee BackupDelegate.
Open Scope Z_scope.

(** For every request whether it is rejected, and whether to bootstrap. *)
Class RequestValidator (S : Type) :=
  rv_ValidateBatch : list Request -> Z -> M S (list bool * bool).
Definition manager_validator `{Lmdb, Indeterminate, Blake2b} (ENABLE_ELECTIONS : bool)
    (bad_signature : Request -> bool) (current_epoch : Z) : RequestValidator Manager :=
  fun rs epoch_number => ValidateBatch ENABLE_ELECTIONS bad_signature rs epoch_number current_epoch.

(** The members of RequestBackupDelegate, and the state that requests are judged
    in, which other components change too. *)
Record RequestExt (S : Type) := {
  rx_pre_prepare_hashes : gset BlockHash;
  rx_rejection_map : list bool;
  rx_judge : S;
}.
Arguments Build_RequestExt {S}.
Arguments rx_pre_prepare_hashes {S}.
Arguments rx_rejection_map {S}.
Arguments rx_judge {S}.

Section RequestBackup.
Context {S : Type} {V : RequestValidator S} {Bk : Blake2b}.
Variable sign : BlockHash -> DelegateSig.
Abbreviation MR := (M (Backup ApprovedRB (RequestExt S))).
Abbreviation PrePrepare := (PrePrepareMessage ApprovedRB).

Definition set_hashes (hs : gset BlockHash) (x : RequestExt S) : RequestExt S :=
  Build_RequestExt hs (rx_rejection_map x) (rx_judge x).
Definition set_rejection_map (m : list bool) (x : RequestExt S) : RequestExt S :=
  Build_RequestExt (rx_pre_prepare_hashes x) m (rx_judge x).
Definition modify_ext (f : RequestExt S -> RequestExt S) : MR unit :=
  modify (fun b => set_ext (f (bd_ext b)) b).
Definition in_judge {A} (m : M S A) : MR A := fun b =>
  match m (rx_judge (bd_ext b)) with
  | Ok (a, s) =>
      Ok (a, set_ext (Build_RequestExt (rx_pre_prepare_hashes (bd_ext b))
                        (rx_rejection_map (bd_ext b)) s) b)
  | Halt why => Halt why
  end.

Definition ValidateSequence (m : PrePrepare) : MR bool :=
  b ← gets id;
  if negb (bd_sequence_number b =? rb_sequence (pp_block m)) then
    modify (set_reason RejectionReason.Wrong_Sequence_Number);; mret false
  else mret true.
Definition ValidateRequests (m : PrePrepare) : MR bool :=
  let rs := rb_requests (pp_block m) in
  modify_ext (fun x => set_rejection_map (resize (length rs) false (rx_rejection_map x)) x);;
  r ← in_judge (rv_ValidateBatch rs (rb_epoch_number (pp_block m)));
  modify_ext (fun x => set_rejection_map (zip_with orb (rx_rejection_map x) r.1) x);;
  (if (r.2 : bool) then emit Bootstraps else mret tt);;
  if existsb id r.1 then
    modify (set_reason RejectionReason.Contains_Invalid_Request);; mret false
  else mret true.
Definition DoValidate_RB (env : Env) (m : PrePrepare) : MR bool :=
  ok ← ValidateSequence m;
  if (ok : bool) then ValidateRequests m else mret false.

Definition ValidateTimestamp_RB (env : Env) (m : PrePrepare) : bool :=
  drift env m <=? MAX_CLOCK_DRIFT_MS.
Definition ValidateEpoch_RB (env : Env) (m : PrePrepare) : MR bool :=
  match env_notifier env with
  | None => mret false
  | Some n =>
      if decide (nt_connection n = EpochConnection.WaitingDisconnect) then
        modify (set_reason RejectionReason.New_Epoch);; mret false
      else if decide (nt_state n = EpochTransitionState.Connecting /\
                      ((nt_delegate n = EpochTransitionDelegate.Persistent /\
                        nt_connection n = EpochConnection.Transitioning) \/
                       nt_delegate n = EpochTransitionDelegate.New)) then
        modify (set_reason RejectionReason.Invalid_Epoch);; mret false
      else mret true
  end.

(** GetTimeout, in seconds. *)
Definition TIMEOUT_MIN : Z := 20.
Definition TIMEOUT_RANGE : Z := 40.
Definition GetTimeout (min range rand : Z) : Z :=
  let x := rand mod NUM_DELEGATES in
  min + (if (2 <=? x) && (x <? 4) then range / 2 else range).
Definition expiration (env : Env) : Z :=
  env_clock env + GetTimeout TIMEOUT_MIN TIMEOUT_RANGE (env_rand env).
Fixpoint queue_all (rs : list Request) (timeout : Z) : MR unit :=
  match rs with
  | [] => mret tt
  | r :: rs => emit (Queues r timeout);; queue_all rs timeout
  end.
(** The requests that are not marked as rejected. *)
Definition agreed (m : list bool) (rs : list Request) : list Request :=
  omap (fun p : bool * Request => if p.1 then None else Some p.2) (zip m rs).

Definition HandlePrePrepare_RB (env : Env) (m : PrePrepare) : MR unit :=
  let rs := rb_requests (pp_block m) in
  modify_ext (set_hashes (list_to_set (request_hash <$> rs)));;
  queue_all rs (expiration env);;
  emit (Schedules (expiration env)).
Definition HandleReject_RB (env : Env) (m : PrePrepare) : MR unit :=
  b ← gets id;
  let rs := rb_requests (pp_block m) in
  match bd_reason b with
  | RejectionReason.Contains_Invalid_Request =>
      modify_ext (set_hashes ∅);;
      queue_all (agreed (rx_rejection_map (bd_ext b)) rs) (expiration env);;
      emit (Schedules (expiration env))
  | RejectionReason.New_Epoch =>
      match env_notifier env with
      | Some n =>
          if decide (nt_connection n = EpochConnection.WaitingDisconnect /\
                     nt_delegate n = EpochTransitionDelegate.Persistent) then
            SetPrePrepare m;;
            queue_all rs (expiration env);;
            emit (Schedules (expiration env))
          else mret tt
      | None => mret tt
      end
  | _ => mret tt
  end.
Definition Reject_RB (h : BlockHash) : MR unit :=
  b ← gets id;
  match bd_reason b with
  | RejectionReason.Void | RejectionReason.Other _ => mret tt
  | r =>
      let msg := Build_RejectionMessage h r (rx_rejection_map (bd_ext b)) no_sig in
      s ← Sign sign (Rejection_Hash msg);
      emit (SendRejection (Build_RejectionMessage h r (rx_rejection_map (bd_ext b)) s))
  end.
Definition ResetRejectionStatus_RB : MR unit :=
  modify (set_reason RejectionReason.Void);; modify_ext (set_rejection_map []).
Definition AdvanceCounter_RB : MR unit :=
  modify (fun b => match bd_pre_prepare b with
                   | Some m => set_sequence_number (u32 (rb_sequence (pp_block m) + 1)) b
                   | None => b
                   end).
(** ValidateReProposal is IsSubset. *)
Definition IsSubset (m : PrePrepare) : MR bool :=
  b ← gets id;
  mret (forallb (fun r => bool_decide (request_hash r ∈ rx_pre_prepare_hashes (bd_ext b)))
          (rb_requests (pp_block m))).

#[global] Instance Derived_RB : Derived ApprovedRB (RequestExt S) := {|
  DoValidate := DoValidate_RB;
  ValidateTimestamp := ValidateTimestamp_RB;
  ValidateEpoch := ValidateEpoch_RB;
  ValidateReProposal := IsSubset;
  HandlePrePrepare := HandlePrePrepare_RB;
  AdvanceCounter := AdvanceCounter_RB;
  HandleReject := HandleReject_RB;
  Reject := Reject_RB;
  ResetRejectionStatus := ResetRejectionStatus_RB;
|}.
End RequestBackup.

(** The constructor: the chain continues from the tip of the remote delegate. *)
Definition RequestBackupDelegate `{Lmdb} {S} (local remote epoch : Z) (judge : S)
  : M Ledger (Backup ApprovedRB (RequestExt S)) :=
  t ← request_tip_get remote epoch;
  let prev := match t with Some tip => digest tip | None => 0 end in
  block ← (if prev =? 0 then mret None else request_block_get prev);
  mret (Build_Backup None 0 prev AggSignature_clear AggSignature_clear 0 0 local remote
          RejectionReason.Void ConsensusState.VOID
          (match block with Some b => u32 (rb_sequence b + 1) | None => 0 end) epoch
          (Build_RequestExt ∅ [] judge) []).
