(* ===== verification/BackupSessions.v ===== *)
(** * Sessions of a backup delegate

    What the handlers of RequestBackup.v do to the state of a backup of request
    blocks, as relations between the states before and after: a proposal is
    refused, accepted or answered again, a PostPrepare moves the session to
    COMMIT, a PostCommit or a confirmed block ends it. *)
From stdpp Require Import base list numbers strings gmap ssreflect.
From S2P Require Import Prelude Serial Lmdb StakingTypes Requests Epochs BlockStore TokenTypes TokenRequests Ledger RequestValidation ConsensusBlocks ConsensusMessages Committee BackupDelegate RequestBackup.
Open Scope Z_scope.

Section Sessions.
Context {S : Type} {V : RequestValidator S} {Bk : Blake2b} {B : Bls}.
Variables (ks : KeyStore) (sign : BlockHash -> DelegateSig).
Abbreviation RBackup := (Backup ApprovedRB (RequestExt S)).
Abbreviation PrePrepare := (PrePrepareMessage ApprovedRB).
Implicit Types (b : RBackup) (m : PrePrepare).
#[local] Instance derived : Derived ApprovedRB (RequestExt S) := Derived_RB sign.

(** The part of the state that the refusal of a proposal leaves alone. *)
Definition core b : BlockHash * BlockHash * BlockHash * AggSignature * ConsensusState.t * Z * Z :=
  (bd_prev_pre_prepare_hash b, bd_pre_prepare_hash b, bd_post_prepare_hash b, bd_post_prepare_sig b,
   bd_state b, bd_sequence_number b, bd_remote b).
(** Actions that are no vote on the proposal with the hash [h]. *)
Definition minor_action (h : BlockHash) (a : action ApprovedRB) : Prop :=
  match a with
  | Signs d => exists msg, rj_preprepare_hash msg = h /\ d = Rejection_Hash msg
  | SendPrepare _ | SendCommit _ | Stores _ => False
  | _ => True
  end.
Record minor (h : BlockHash) b b' : Prop := {
  mn_core : core b' = core b;
  mn_out : exists new, bd_out b' = new ++ bd_out b /\ Forall (minor_action h) new;
}.
#[global] Instance minor_preorder h : PreOrder (minor h).
Proof.
  split.
  - intros b. split; [done|]. by exists [].
  - intros b1 b2 b3 [H1 (n1 & E1 & F1)] [H2 (n2 & E2 & F2)]. split; [by rw H2|].
    exists (n2 ++ n1). rw E2 E1 app_assoc. split; [done|]. by apply Forall_app.
Qed.
(** Nor is the stored proposal or the reason touched. *)
Record silent (h : BlockHash) b b' : Prop := {
  sl_minor : minor h b b';
  sl_pre_prepare : bd_pre_prepare b' = bd_pre_prepare b;
}.
#[global] Instance silent_preorder h : PreOrder (silent h).
Proof.
  split; [by split|]. intros b1 b2 b3 [H1 E1] [H2 E2]. split; [by transitivity b2|by rw E2].
Qed.
Lemma silent_emit h a : minor_action h a -> preserves (silent h) (emit (E := RequestExt S) a).
Proof.
  intros Ha b. apply wpg_modify. split; [|done]. split; [done|]. exists [a]. by split; [|apply Forall_singleton].
Qed.
Lemma silent_modify h (f : RBackup -> RBackup) :
  (forall b, core (f b) = core b /\ bd_pre_prepare (f b) = bd_pre_prepare b /\ bd_out (f b) = bd_out b) ->
  preserves (silent h) (modify f).
Proof.
  intros Hf b. apply wpg_modify. destruct (Hf b) as (H1 & H2 & H3).
  split; [|done]. split; [done|]. by exists [].
Qed.
Lemma silent_in_judge h {A} (j : M S A) : preserves (silent h) (in_judge j).
Proof.
  intros b. rw /wpg /in_judge. destruct (j _) as [[]|]; [|done]. split; [|done]. split; [done|]. by exists [].
Qed.
Ltac silent_step :=
  first [apply silent_emit; done | apply silent_modify; done | apply silent_in_judge | frame_step].
Ltac solve_silent := repeat silent_step.

Lemma DoValidate_silent h env m : preserves (silent h) (DoValidate_RB env m).
Proof. rw /DoValidate_RB /ValidateSequence /ValidateRequests /modify_ext. solve_silent. Qed.
Lemma ValidateEpoch_silent h env m : preserves (silent h) (ValidateEpoch_RB env m).
Proof. rw /ValidateEpoch_RB. solve_silent. Qed.
Lemma queue_all_silent h rs t : preserves (silent h) (queue_all (S := S) rs t).
Proof. induction rs; cbn [queue_all]; solve_silent. Qed.
Lemma IsSubset_silent h m : preserves (silent h) (IsSubset m).
Proof. rw /IsSubset. solve_silent. Qed.
Abbreviation hash_of m := (ApprovedRB_Hash (pp_block m)).
Lemma DoValidate_sequence env m b :
  wlp (DoValidate_RB env m)
    (fun ok b' => ok = true -> rb_sequence (pp_block m) = bd_sequence_number b /\
                               bd_reason b' = bd_reason b) b.
Proof.
  rw /DoValidate_RB /ValidateSequence. wp_steps. cbv [id].
  destruct (Z.eqb_spec (bd_sequence_number b) (rb_sequence (pp_block m))) as [E|]; cbn [negb];
    [|by wp_steps].
  wp_steps. rw /ValidateRequests /modify_ext /in_judge. wp_steps. rw {1}/wpg.
  destruct (rv_ValidateBatch _ _ _) as [[[rej []] s']|]; [| |done];
    rw /emit; wp_steps; cbn [fst snd]; wp_steps; cbn [fst snd];
    (destruct (existsb id rej); wp_steps; [done|by rw E]).
Qed.
Lemma ValidateEpoch_reason env m b :
  wlp (ValidateEpoch_RB env m) (fun ok b' => ok = true -> bd_reason b' = bd_reason b) b.
Proof. rw /ValidateEpoch_RB. repeat case_match; by wp_steps. Qed.
Lemma Validate_PrePrepare_spec env m b :
  wlp (Validate_PrePrepare ks env m)
    (fun ok b' => silent (hash_of m) b b' /\
       (ok = true -> rb_previous (pp_block m) = bd_prev_pre_prepare_hash b /\
                     rb_sequence (pp_block m) = bd_sequence_number b /\
                     bd_reason b' = bd_reason b)) b.
Proof.
  apply (wpg_mono _ _ (fun ok b' =>
    (ok = true -> rb_previous (pp_block m) = bd_prev_pre_prepare_hash b /\
                  rb_sequence (pp_block m) = bd_sequence_number b /\
                  bd_reason b' = bd_reason b) /\ silent (hash_of m) b b'));
    [|tauto].
  apply wpg_frame.
  { rw /Validate_PrePrepare. cbn [ValidateReProposal DoValidate derived Derived_RB].
    repeat first [apply DoValidate_silent|apply IsSubset_silent|silent_step]. }
  rw /Validate_PrePrepare. wp_steps. cbv [id].
  destruct (_ =? bd_remote b); cbn [negb]; [|by wp_steps].
  destruct (Validate_single _ _ _ _); cbn [negb]; [|by wp_steps].
  cbn [cb_previous ConsensusBlock_RB].
  destruct (Z.eqb_spec (rb_previous (pp_block m)) (bd_prev_pre_prepare_hash b)) as [Hp|];
    cbn [negb]; [|by rw /emit; wp_steps].
  wp_steps.
  apply (wpg_mono _ _ (fun _ b' => b' = b)).
  { case_decide; [|by wp_steps]. cbn [ValidateReProposal derived Derived_RB].
    rw /IsSubset. by wp_steps. }
  intros [|] b' ->; [|by wp_steps]. cbn [DoValidate derived Derived_RB].
  eapply wpg_mono; [apply DoValidate_sequence|]. intros ok b'' Hok E. by specialize (Hok E).
Qed.
Lemma Proceed_PrePrepare_spec env m b :
  wlp (Proceed_PrePrepare ks env m)
    (fun ok b' => silent (hash_of m) b b' /\
       (ok = true -> bd_state b = ConsensusState.VOID /\
                     rb_previous (pp_block m) = bd_prev_pre_prepare_hash b /\
                     rb_sequence (pp_block m) = bd_sequence_number b /\
                     bd_reason b' = bd_reason b) /\
       (bd_state b <> ConsensusState.VOID -> bd_reason b' = bd_reason b)) b.
Proof.
  rw /Proceed_PrePrepare. wp_steps. cbv [id].
  destruct (decide (bd_state b = ConsensusState.VOID)) as [Hst|Hst].
  - wp_steps. eapply wpg_mono; [apply Validate_PrePrepare_spec|]. intros [|] b' [Hs Hok].
    + eapply wpg_mono; [apply wpg_frame; [apply (ValidateEpoch_silent (hash_of m))|apply ValidateEpoch_reason]|].
      intros ok b'' [Hr Hs']. split; [by transitivity b'|]. split; [|by intros []].
      intros E. destruct (Hok eq_refl) as (? & ? & <-). auto.
    + wp_steps. split; [done|]. split; [done|]. by intros [].
  - rw /emit. wp_steps. split_and!; [|done..]. split; [|done]. split; [done|].
    exists [Bootstraps]. split; [done|]. by apply Forall_singleton.
Qed.

Lemma HandlePrePrepare_silent h env m : preserves (silent h) (HandlePrePrepare_RB env m).
Proof. rw /HandlePrePrepare_RB /modify_ext. repeat first [apply queue_all_silent|silent_step]. Qed.
Definition same_reason b b' : Prop := bd_reason b' = bd_reason b.
#[local] Instance same_reason_preorder : PreOrder same_reason.
Proof. split; [done|]. intros b1 b2 b3 H1 H2. by rw /same_reason H2. Qed.
Lemma HandlePrePrepare_reason env m : preserves same_reason (HandlePrePrepare_RB env m).
Proof.
  assert (forall rs t, preserves same_reason (queue_all (S := S) rs t)) as Hq.
  { intros rs t. induction rs as [|r rs IH]; cbn [queue_all]; rw /emit; repeat first [apply IH|frame_step]. }
  rw /HandlePrePrepare_RB /modify_ext /emit. repeat first [apply Hq|frame_step].
Qed.
Lemma HandleReject_minor h env m : preserves (minor h) (HandleReject_RB env m).
Proof.
  assert (forall A (c : M RBackup A), preserves (silent h) c -> preserves (minor h) c) as Hsm.
  { intros A c Hc b. eapply wpg_mono; [apply Hc|]. by intros ? ? []. }
  rw /HandleReject_RB /modify_ext /SetPrePrepare.
  repeat first [apply Hsm, queue_all_silent | apply Hsm, silent_emit; done
               | apply Hsm, silent_modify; done
               | apply preserves_modify; intros b; split; [done|by exists []] | frame_step].
Qed.
(** Without a reason, or without one that queues requests, nothing happens. *)
Lemma HandleReject_void env m b :
  bd_reason b = RejectionReason.Void -> HandleReject_RB env m b = Ok (tt, b).
Proof. intros Hr. by rw /HandleReject_RB /mbind /M_bind /gets Hr. Qed.
Lemma Reject_silent h : preserves (silent h) (Reject_RB sign h).
Proof.
  rw /Reject_RB /Sign. intros b. wp_steps. cbv [id].
  case_match; try (wp_steps; reflexivity);
    (rw /emit; wp_steps; split; [|done]; split; [done|];
     eexists [_; _]; split; [done|]; apply Forall_cons_2; [done|]; apply Forall_singleton; eexists;
     split; [|reflexivity]; done).
Qed.

(** What becomes of a proposal. *)
Definition vote (h : BlockHash) : list (action ApprovedRB) :=
  [SendPrepare (Build_StandardPhaseMessage h (sign h)); Signs h].
Inductive proposal_outcome m b b' : Prop :=
| Answered_again :
    bd_state b = ConsensusState.PREPARE \/ bd_state b = ConsensusState.COMMIT ->
    bd_pre_prepare_hash b = hash_of m -> core b' = core b -> bd_pre_prepare b' = bd_pre_prepare b ->
    bd_out b' = vote (hash_of m) ++ bd_out b -> proposal_outcome m b b'
| Accepted new :
    bd_state b = ConsensusState.VOID -> rb_previous (pp_block m) = bd_prev_pre_prepare_hash b ->
    rb_sequence (pp_block m) = bd_sequence_number b -> bd_pre_prepare b' = Some m ->
    core b' = (bd_prev_pre_prepare_hash b, hash_of m, bd_post_prepare_hash b, bd_post_prepare_sig b,
               ConsensusState.PREPARE, bd_sequence_number b, bd_remote b) ->
    Forall (minor_action (hash_of m)) new -> bd_out b' = vote (hash_of m) ++ new ++ bd_out b ->
    proposal_outcome m b b'
| Refused :
    minor (hash_of m) b b' ->
    (bd_state b <> ConsensusState.VOID -> bd_pre_prepare b' = bd_pre_prepare b) ->
    proposal_outcome m b b'.

Lemma OnPrePrepare_refused env m b b1 :
  silent (hash_of m) b b1 -> (bd_state b <> ConsensusState.VOID -> bd_reason b1 = RejectionReason.Void) ->
  wlp (HandleReject_RB env m;; Reject_RB sign (hash_of m);; ResetRejectionStatus_RB)
    (fun _ b' => proposal_outcome m b b' /\ bd_reason b' = RejectionReason.Void) b1.
Proof.
  intros Hs Hr. wp_steps.
  apply (wpg_mono _ _ (fun _ b2 => minor (hash_of m) b b2 /\
           (bd_state b <> ConsensusState.VOID -> bd_pre_prepare b2 = bd_pre_prepare b))).
  { destruct (decide (bd_state b = ConsensusState.VOID)) as [Hv|Hv].
    - eapply wpg_mono; [apply (HandleReject_minor (hash_of m))|]. intros [] b2 Hm.
      split; [|done]. transitivity b1; [apply Hs|done].
    - rw /wpg HandleReject_void; [|by apply Hr]. split; [apply Hs|]. intros _. apply Hs. }
  intros [] b2 [Hm Hp]. wp_steps. eapply wpg_mono; [apply Reject_silent|]. intros [] b3 [Hm3 Hp3].
  rw /ResetRejectionStatus_RB /modify_ext. wp_steps. split; [|done]. apply Refused.
  - transitivity b2; [done|]. destruct Hm3 as [Hc Ho]. by split.
  - intros Hv. cbn. rw Hp3. by apply Hp.
Qed.
Lemma OnPrePrepare_spec env m b :
  bd_reason b = RejectionReason.Void ->
  wlp (OnPrePrepare ks sign env m)
    (fun _ b' => proposal_outcome m b b' /\ bd_reason b' = RejectionReason.Void) b.
Proof.
  intros Hr. rw /OnPrePrepare. wp_steps. cbv [id]. cbn [cb_Hash ConsensusBlock_RB].
  destruct (Z.eqb_spec (hash_of m) (bd_pre_prepare_hash b)) as [Hh|Hh]; cbn [andb negb].
  1: destruct (bool_decide (bd_state b = ConsensusState.PREPARE)
               || bool_decide (bd_state b = ConsensusState.COMMIT)) eqn:Hst.
  { rw /send_prepare /Sign /emit. wp_steps. split; [|done]. apply Answered_again; [|done..].
    apply orb_true_iff in Hst as [Hst%bool_decide_eq_true|Hst%bool_decide_eq_true]; tauto. }
  2: destruct (IsOldBlock m b); [wp_steps; split; [|done]; by apply Refused|].
  all: destruct (ValidateTimestamp env m), (env_p2p_enabled env); cbn [andb negb];
    try (wp_steps; split; [|done]; by apply Refused).
  all: wp_steps; (eapply wpg_mono; [apply Proceed_PrePrepare_spec|]); intros [|] b1 (Hs & Hok & Hrv);
    [|eapply OnPrePrepare_refused; [done|by intros ?; rw Hrv]].
  all: destruct (Hok eq_refl) as (Hv & Hp & Hq & Hr1); wp_steps; rw /SetPrePrepare; wp_steps.
  all: (eapply wpg_mono;
         [apply wpg_frame; [apply (HandlePrePrepare_silent (hash_of m))|apply HandlePrePrepare_reason]|]).
  all: intros [] b2 [Hr2 [[Hc2 (n2 & E2 & F2)] Hp2]]; rw /send_prepare /Sign /emit; wp_steps;
    (split; [|by rw /= Hr2 /= Hr1]); destruct Hs as [[Hc1 (n1 & E1 & F1)] Hp1];
    injection Hc1 as Hc1; injection Hc2 as Hc2; cbn in *.
  all: apply (Accepted _ _ _ (n2 ++ n1)); [done..|by rw /core /=; congruence|by apply Forall_app|].
  all: by rw /= E2 E1 app_assoc.
Qed.

(** Messages that change nothing. *)
Record ignored b b' : Prop := {
  ig_core : core b' = core b;
  ig_pre_prepare : bd_pre_prepare b' = bd_pre_prepare b;
  ig_out : bd_out b' = bd_out b \/ bd_out b' = Bootstraps :: bd_out b;
}.
(** What becomes of a PostPrepare. *)
Definition commit_vote (pre post : BlockHash) : list (action ApprovedRB) :=
  [SendCommit (Build_StandardPhaseMessage pre (sign post)); Signs post].
Inductive post_prepare_outcome (env : Env) (pm : PostPhaseMessage) b b' : Prop :=
| Committed_again :
    bd_post_prepare_hash b = ComputeHash pm -> core b' = core b ->
    bd_pre_prepare b' = bd_pre_prepare b ->
    bd_out b' = commit_vote (bd_pre_prepare_hash b) (ComputeHash pm) ++ bd_out b ->
    post_prepare_outcome env pm b b'
| Committed c :
    bd_state b = ConsensusState.PREPARE -> bd_pre_prepare_hash b = pm_preprepare_hash pm ->
    Validate_aggregate ks (bd_pre_prepare_hash b) (pm_signature pm) = true ->
    env_primary env = Some c -> ValidateQuorum c (pm_signature pm) = true ->
    core b' = (bd_prev_pre_prepare_hash b, bd_pre_prepare_hash b, ComputeHash pm, pm_signature pm,
               ConsensusState.COMMIT, bd_sequence_number b, bd_remote b) ->
    bd_pre_prepare b' = bd_pre_prepare b ->
    bd_out b' = commit_vote (bd_pre_prepare_hash b) (ComputeHash pm) ++ bd_out b ->
    post_prepare_outcome env pm b b'
| Post_prepare_ignored : ignored b b' -> post_prepare_outcome env pm b b'.
Lemma OnPostPrepare_spec env pm b :
  wlp (OnPostPrepare ks sign env pm)
    (fun _ b' => post_prepare_outcome env pm b b' /\ bd_reason b' = bd_reason b) b.
Proof.
  rw /OnPostPrepare. wp_steps. cbv [id].
  destruct (Z.eqb_spec (ComputeHash pm) (bd_post_prepare_hash b)) as [Hh|Hh].
  { case_match; [done|]. rw /send_commit /Sign /emit. wp_steps. cbv [id]. split; [|done].
    by apply Committed_again; rw ?Hh. }
  rw /Proceed_PostPrepare /Validate_PostPrepare /check_quorum /emit. wp_steps. cbv [id].
  destruct (decide (bd_state b = ConsensusState.PREPARE)) as [Hst|Hst].
  2:{ wp_steps. split; [|done]. apply Post_prepare_ignored. by split; [..|right]. }
  wp_steps. cbv [id].
  destruct (Z.eqb_spec (bd_pre_prepare_hash b) (pm_preprepare_hash pm)) as [Hp|Hp]; cbn [negb].
  2:{ wp_steps. split; [|done]. apply Post_prepare_ignored. by split; [..|right]. }
  destruct (Validate_aggregate _ _ _) eqn:Hv.
  2:{ wp_steps. split; [|done]. apply Post_prepare_ignored. by split; [..|left]. }
  destruct (env_primary env) as [c|] eqn:Hc; [|done]. wp_steps.
  destruct (ValidateQuorum c (pm_signature pm)) eqn:Hq.
  - rw /send_commit /Sign /emit. wp_steps. cbv [id]. split; [|done]. by apply (Committed _ _ _ _ c).
  - wp_steps. split; [|done]. apply Post_prepare_ignored. by split; [..|left].
Qed.

(** The end of a session with the proposal [pp] in it. *)
Definition farewell (block : PostCommittedBlock ApprovedRB) m : list (action ApprovedRB) :=
  [Broadcasts block; Notifies (rb_epoch_number (pp_block m)); Callbacks block; Dequeues (Some m)].
Definition next_session m b b' : Prop :=
  bd_pre_prepare b' = Some m /\
  core b' = (bd_pre_prepare_hash b, 0, 0, AggSignature_clear, ConsensusState.VOID,
             u32 (rb_sequence (pp_block m) + 1), bd_remote b).
Lemma finish_session_spec block m b :
  bd_pre_prepare b = Some m ->
  wp (finish_session block)
    (fun _ b' => next_session m b b' /\ bd_out b' = farewell block m ++ bd_out b /\
                 bd_reason b' = bd_reason b) b.
Proof.
  intros Hm. rw /finish_session /emit /SetPreviousPrePrepareHash. wp_steps. cbv [id].
  rw Hm. cbn [AdvanceCounter derived Derived_RB]. rw /AdvanceCounter_RB. wp_steps.
  rw /next_session /=. rw Hm /=. by rw Hm.
Qed.
Inductive post_commit_outcome (env : Env) (pm : PostPhaseMessage) b b' : Prop :=
| Confirmed m c :
    bd_state b = ConsensusState.COMMIT -> bd_pre_prepare b = Some m ->
    bd_pre_prepare_hash b = pm_preprepare_hash pm ->
    Validate_aggregate ks (bd_post_prepare_hash b) (pm_signature pm) = true ->
    env_primary env = Some c -> ValidateQuorum c (pm_signature pm) = true ->
    next_session m b b' ->
    (let block := Block_of_PrePrepare m (bd_post_prepare_sig b) (pm_signature pm) in
     bd_out b' = farewell block m ++ Stores block :: bd_out b) ->
    post_commit_outcome env pm b b'
| Post_commit_ignored : ignored b b' -> post_commit_outcome env pm b b'.
Lemma OnPostCommit_spec env pm b :
  wlp (OnPostCommit ks env pm)
    (fun _ b' => post_commit_outcome env pm b b' /\ bd_reason b' = bd_reason b) b.
Proof.
  rw /OnPostCommit /Proceed_PostCommit /Validate_PostCommit /check_quorum.
  destruct (env_notifier env); [|wp_steps; split; [|done]; apply Post_commit_ignored; by split; [..|left]].
  wp_steps. cbv [id]. destruct (decide (bd_state b = ConsensusState.COMMIT)) as [Hst|Hst].
  2:{ rw /emit. wp_steps. cbv [id]. cbn [bd_pre_prepare set_out]. case_match; wp_steps;
      (split; [|done]); apply Post_commit_ignored; by split; [..|right]. }
  wp_steps. cbv [id]. rw bool_decide_eq_true_2 //. cbn [massert]. wp_steps.
  destruct (Z.eqb_spec (bd_pre_prepare_hash b) (pm_preprepare_hash pm)) as [Hp|Hp]; cbn [negb].
  2:{ rw /emit. wp_steps. cbv [id]. cbn [bd_pre_prepare set_out]. case_match; wp_steps;
      (split; [|done]); apply Post_commit_ignored; by split; [..|right]. }
  destruct (Validate_aggregate _ _ _) eqn:Hv.
  2:{ wp_steps. cbv [id]. case_match; wp_steps; (split; [|done]); apply Post_commit_ignored;
      by split; [..|left]. }
  destruct (env_primary env) as [c|] eqn:Hc; [|done]. wp_steps. cbv [id].
  destruct (bd_pre_prepare b) as [m|] eqn:Hm.
  2:{ wp_steps. split; [|done]. apply Post_commit_ignored. by split; [..|left]. }
  destruct (ValidateQuorum c (pm_signature pm)) eqn:Hq; cbn [andb].
  2:{ wp_steps. split; [|done]. apply Post_commit_ignored. by split; [..|left]. }
  rw Hp Z.eqb_refl /emit. wp_steps.
  match goal with |- wlp _ _ ?b1 => pose proof (finish_session_spec
    (Block_of_PrePrepare m (bd_post_prepare_sig b) (pm_signature pm)) m b1) as Hf end.
  cbn [bd_pre_prepare set_out set_post_commit_sig] in Hf. apply wp_ok in Hf as ([] & b' & E & Hn & Ho & Hr); [|done].
  rw /wpg E. split; [|done]. by apply (Confirmed _ _ _ _ m c).
Qed.

(** A confirmed block: the proposal it ends is the current one or, when the
    block follows the last, itself. *)
Inductive block_outcome (block : PostCommittedBlock ApprovedRB) b b' : Prop :=
| Moved m :
    (bd_pre_prepare b = Some m /\ bd_pre_prepare_hash b = ApprovedRB_Hash (pc_block block) \/
     bd_prev_pre_prepare_hash b = rb_previous (pc_block block) /\ m = PrePrepare_of_block block) ->
    bd_pre_prepare b' = Some m ->
    core b' = (ApprovedRB_Hash (pc_block block), 0, 0, AggSignature_clear, ConsensusState.VOID,
               u32 (rb_sequence (pp_block m) + 1), bd_remote b) ->
    bd_out b' = farewell block m ++ bd_out b -> block_outcome block b b'
| Block_ignored : b' = b -> block_outcome block b b'.
Lemma OnPostCommittedBlock_spec env block b :
  wp (OnPostCommittedBlock env block)
    (fun _ b' => block_outcome block b b' /\ bd_reason b' = bd_reason b) b.
Proof.
  rw /OnPostCommittedBlock. destruct (env_notifier env); [|by wp_steps; split; [apply Block_ignored|]].
  wp_steps. cbv [id]. cbn [cb_Hash cb_previous ConsensusBlock_RB].
  destruct (bool_decide (is_Some (bd_pre_prepare b))
            && (bd_pre_prepare_hash b =? ApprovedRB_Hash (pc_block block))) eqn:Hcur; cbn [orb].
  - apply andb_true_iff in Hcur as [[m Hm]%bool_decide_eq_true Hh%Z.eqb_eq]. wp_steps.
    eapply wpg_mono; [apply (finish_session_spec block m); done|].
    intros [] b' ([Hp Hc] & Ho & Hr). split; [|done]. apply (Moved _ _ _ m); [by left|done|by rw Hc /= Hh|done].
  - destruct (Z.eqb_spec (bd_prev_pre_prepare_hash b) (rb_previous (pc_block block))) as [Hp|Hp].
    2:{ wp_steps. by split; [apply Block_ignored|]. }
    rw /SetPrePrepare. wp_steps.
    eapply wpg_mono; [apply (finish_session_spec block (PrePrepare_of_block block)); done|].
    intros [] b' ([Hp' Hc] & Ho & Hr). split; [|done].
    apply (Moved _ _ _ (PrePrepare_of_block block)); [by right|done..].
Qed.

(** ** A session that succeeds *)
Lemma queue_all_total h rs t b :
  wp (queue_all (S := S) rs t) (fun _ b' => silent h b b') b.
Proof.
  revert b. induction rs as [|r rs IH]; intros b; cbn [queue_all].
  - wp_steps. reflexivity.
  - rw /emit. wp_steps. eapply wpg_mono; [apply IH|]. intros [] b' Hs. etransitivity; [|exact Hs].
    split; [|done]. split; [done|]. exists [Queues r t]. by split; [|apply Forall_singleton].
Qed.
(** A proposal that the backup has every reason to accept. *)
Record acceptable (env : Env) m b : Prop := {
  ac_state : bd_state b = ConsensusState.VOID;
  ac_new : bd_pre_prepare_hash b <> hash_of m;
  ac_epoch : rb_epoch_number (pp_block m) = bd_expected_epoch_number b;
  ac_time : drift env m <= MAX_CLOCK_DRIFT_MS;
  ac_primary : rb_primary_delegate (pp_block m) = bd_remote b;
  ac_signature : Validate_single ks (hash_of m) (pp_preprepare_sig m) (bd_remote b) = true;
  ac_previous : rb_previous (pp_block m) = bd_prev_pre_prepare_hash b;
  ac_sequence : rb_sequence (pp_block m) = bd_sequence_number b;
  ac_requests : exists verdicts boot s, rv_ValidateBatch (rb_requests (pp_block m))
    (rb_epoch_number (pp_block m)) (rx_judge (bd_ext b)) = Ok ((verdicts, boot), s) /\
    Forall (eq false) verdicts;
  ac_no_transition : exists n, env_notifier env = Some n /\
    nt_connection n <> EpochConnection.WaitingDisconnect /\
    nt_state n <> EpochTransitionState.Connecting;
}.
Lemma acceptable_verdicts verdicts : Forall (eq false) verdicts -> existsb id verdicts = false.
Proof. by induction 1 as [|? ? <-]. Qed.
Lemma Proceed_acceptable env m b :
  acceptable env m b ->
  wp (Proceed_PrePrepare ks env m) (fun ok b' => ok = true /\ silent (hash_of m) b b') b.
Proof.
  intros Ha. apply wpg_conj; [|eapply wpg_mono; [apply Proceed_PrePrepare_spec|]; by intros ? ? []].
  rw /Proceed_PrePrepare /Validate_PrePrepare. wp_steps. cbv [id].
  rw decide_True; [|apply Ha]. wp_steps. cbv [id].
  cbn [cb_primary_delegate cb_Hash cb_previous ConsensusBlock_RB].
  rw (ac_primary _ _ _ Ha) Z.eqb_refl (ac_signature _ _ _ Ha) (ac_previous _ _ _ Ha) Z.eqb_refl.
  cbn [negb]. wp_steps. rw decide_False; [|by rw (ac_state _ _ _ Ha)]. wp_steps.
  cbn [DoValidate derived Derived_RB]. rw /DoValidate_RB /ValidateSequence. wp_steps. cbv [id].
  rw (ac_sequence _ _ _ Ha) Z.eqb_refl. cbn [negb]. wp_steps.
  rw /ValidateRequests /modify_ext. wp_steps.
  destruct (ac_requests _ _ _ Ha) as (vs & boot & s & Ej & Hvs).
  rw {1}/wpg /in_judge. cbn [bd_ext set_ext rx_judge set_rejection_map]. rw Ej. cbn [fst snd].
  wp_steps. cbn [fst snd]. rw acceptable_verdicts //.
  destruct (ac_no_transition _ _ _ Ha) as (n & En & Hn1 & Hn2).
  destruct boot; rw /emit; wp_steps; cbn [ValidateEpoch derived Derived_RB]; rw /ValidateEpoch_RB En;
    (rw decide_False; [|done]); (rw decide_False; [|tauto]); by wp_steps.
Qed.
Lemma OnPrePrepare_acceptable env m b :
  acceptable env m b ->
  wp (OnPrePrepare ks sign env m)
    (fun _ b' => bd_pre_prepare b' = Some m /\
       core b' = (bd_prev_pre_prepare_hash b, hash_of m, bd_post_prepare_hash b, bd_post_prepare_sig b,
                  ConsensusState.PREPARE, bd_sequence_number b, bd_remote b)) b.
Proof.
  intros Ha. rw /OnPrePrepare. wp_steps. cbv [id]. cbn [cb_Hash cb_timestamp ConsensusBlock_RB].
  rw (proj2 (Z.eqb_neq (hash_of m) _)); [|apply not_eq_sym, Ha]. cbn [andb negb].
  assert (IsOldBlock m b = false) as ->.
  { rw /IsOldBlock. cbn [cb_epoch_number cb_sequence ConsensusBlock_RB].
    rw (ac_epoch _ _ _ Ha) (ac_sequence _ _ _ Ha) !Z.ltb_irrefl. by rw andb_false_r. }
  assert (ValidateTimestamp env m = true) as -> by (apply Z.leb_le, Ha). cbn [andb negb]. wp_steps.
  eapply wpg_mono; [by apply Proceed_acceptable|]. intros ok b1 [-> [[Hc _] _]]. wp_steps.
  rw /SetPrePrepare. wp_steps. cbn [HandlePrePrepare derived Derived_RB].
  rw /HandlePrePrepare_RB /modify_ext. wp_steps.
  eapply wpg_mono; [apply (queue_all_total (hash_of m))|]. intros [] b2 [[Hc2 _] Hp2].
  rw /send_prepare /Sign /emit. wp_steps. injection Hc as Hc. injection Hc2 as Hc2. cbn in *.
  split; [done|]. rw /core /=. congruence.
Qed.
(** A message that a quorum of the committee [c] has signed. *)
Record endorsed (c : Committee) (h digest : BlockHash) (pm : PostPhaseMessage) : Prop := {
  en_hash : pm_preprepare_hash pm = h;
  en_signature : Validate_aggregate ks digest (pm_signature pm) = true;
  en_quorum : ValidateQuorum c (pm_signature pm) = true;
}.
Lemma OnPostPrepare_endorsed env c pm b :
  env_primary env = Some c -> bd_state b = ConsensusState.PREPARE ->
  endorsed c (bd_pre_prepare_hash b) (bd_pre_prepare_hash b) pm -> ComputeHash pm <> bd_post_prepare_hash b ->
  wp (OnPostPrepare ks sign env pm)
    (fun _ b' => bd_pre_prepare b' = bd_pre_prepare b /\
       core b' = (bd_prev_pre_prepare_hash b, bd_pre_prepare_hash b, ComputeHash pm, pm_signature pm,
                  ConsensusState.COMMIT, bd_sequence_number b, bd_remote b)) b.
Proof.
  intros Hc Hst [Hh Hv Hq] Hne.
  rw /OnPostPrepare /Proceed_PostPrepare /Validate_PostPrepare /check_quorum Hc. wp_steps. cbv [id].
  rw (proj2 (Z.eqb_neq _ _) Hne). wp_steps. cbv [id]. rw decide_True //. wp_steps. cbv [id].
  rw Hh Z.eqb_refl Hv. cbn [negb]. wp_steps. rw Hq /send_commit /Sign /emit. by wp_steps.
Qed.
Lemma OnPostCommit_endorsed env c pm m b :
  env_primary env = Some c -> is_Some (env_notifier env) -> bd_state b = ConsensusState.COMMIT ->
  bd_pre_prepare b = Some m -> endorsed c (bd_pre_prepare_hash b) (bd_post_prepare_hash b) pm ->
  wp (OnPostCommit ks env pm)
    (fun _ b' => next_session m b b' /\
       Stores (Block_of_PrePrepare m (bd_post_prepare_sig b) (pm_signature pm)) ∈ bd_out b') b.
Proof.
  intros Hc [n Hn] Hst Hm [Hh Hv Hq].
  rw /OnPostCommit /Proceed_PostCommit /Validate_PostCommit /check_quorum Hc Hn. wp_steps. cbv [id].
  rw decide_True //. wp_steps. cbv [id]. rw bool_decide_eq_true_2 //. cbn [massert]. wp_steps.
  rw Hh Z.eqb_refl Hv. cbn [negb]. wp_steps. cbv [id]. rw Hm Hq Z.eqb_refl. cbn [andb].
  rw /emit. wp_steps.
  eapply wpg_mono; [apply (finish_session_spec _ m); done|]. intros [] b' (Hs & Ho & _).
  split; [done|]. rw Ho elem_of_app. right. by left.
Qed.

(** C3 A session in which everybody does their part succeeds. A backup that is
    free, and gets a proposal it has no reason to refuse, then a PostPrepare and a
    PostCommit that a quorum signed, does not halt: it stores the block with both
    signatures, and is free for the next proposal, which must follow the block. *)
Theorem session_confirms_the_block env c m pm cm b :
  acceptable env m b -> env_primary env = Some c -> ComputeHash pm <> bd_post_prepare_hash b ->
  endorsed c (hash_of m) (hash_of m) pm -> endorsed c (hash_of m) (ComputeHash pm) cm ->
  exists b', (OnPrePrepare ks sign env m;; OnPostPrepare ks sign env pm;; OnPostCommit ks env cm) b
             = Ok (tt, b') /\
    Stores (Block_of_PrePrepare m (pm_signature pm) (pm_signature cm)) ∈ bd_out b' /\
    bd_state b' = ConsensusState.VOID /\ bd_prev_pre_prepare_hash b' = hash_of m /\
    bd_sequence_number b' = u32 (rb_sequence (pp_block m) + 1).
Proof.
  intros Ha Hc Hne Hp Hq.
  enough (wp (OnPrePrepare ks sign env m;; OnPostPrepare ks sign env pm;; OnPostCommit ks env cm)
    (fun _ b' => Stores (Block_of_PrePrepare m (pm_signature pm) (pm_signature cm)) ∈ bd_out b' /\
       bd_state b' = ConsensusState.VOID /\ bd_prev_pre_prepare_hash b' = hash_of m /\
       bd_sequence_number b' = u32 (rb_sequence (pp_block m) + 1)) b) as Hw.
  { apply wp_ok in Hw as ([] & b' & E & Hw). by exists b'. }
  wp_steps. eapply wpg_mono; [by apply OnPrePrepare_acceptable|]. intros [] b1 [Hm1 Hc1].
  injection Hc1 as E1 E2 E3 E4 E5 E6 E7. wp_steps.
  eapply wpg_mono; [apply (OnPostPrepare_endorsed env c); [done|done|by rw E2|by rw E3]|].
  intros [] b2 [Hm2 Hc2]. injection Hc2 as F1 F2 F3 F4 F5 F6 F7.
  destruct (ac_no_transition _ _ _ Ha) as (n & En & _).
  eapply wpg_mono; [apply (OnPostCommit_endorsed env c cm m); [done|by eexists|done|by rw Hm2|]|].
  { by rw F2 F3 E2. }
  intros [] b3 [[_ Hc3] Hs]. injection Hc3 as G1 G2 G3 G4 G5 G6 G7.
  rw F4 in Hs. split; [done|]. by rw G5 G1 G6 F2 E2.
Qed.
End Sessions.
