(* ===== verification/Agreement.v ===== *)
(** * Agreement of the delegates on the blocks of a proposer

    The backups of the delegates of one epoch for one proposer, with the handlers
    of BackupDelegate.v and RequestBackup.v, exchange messages over a network that
    loses, delays, repeats and invents them. Some delegates are faulty: they, and
    the proposer, sign whatever they like. Signatures are not forged: a valid
    aggregate that names a correct delegate was signed by it. The theorem is that
    no two correct delegates store different blocks with the same sequence number,
    as long as two quorums share a correct delegate. *)
From stdpp Require Import base list numbers strings gmap functions relations ssreflect.
From S2P Require Import Prelude Serial Lmdb StakingTypes Requests Epochs BlockStore TokenTypes TokenRequests Ledger RequestValidation ConsensusBlocks ConsensusMessages Committee BackupDelegate RequestBackup BackupSessions.
Open Scope Z_scope.

(** A message for a backup. *)
Inductive input :=
| PrePrepareIn (m : PrePrepareMessage ApprovedRB)
| PostPrepareIn (pm : PostPhaseMessage)
| PostCommitIn (pm : PostPhaseMessage)
| BlockIn (block : PostCommittedBlock ApprovedRB).

Section System.
Context {S : Type} {V : RequestValidator S} {Bk : Blake2b} {B : Bls}.
Variables (ks : KeyStore) (sign : Z -> BlockHash -> DelegateSig).
(** The delegates of the epoch, which of them are faulty, and the blocks that
    are ever proposed. *)
Variables (ds : list Delegate) (faulty : Z -> bool) (known : ApprovedRB -> Prop).
Abbreviation RBackup := (Backup ApprovedRB (RequestExt S)).

Definition handle (i : Z) (env : Env) (x : input) : M RBackup unit :=
  let D := Derived_RB (sign i) in
  match x with
  | PrePrepareIn m => OnPrePrepare ks (sign i) env m
  | PostPrepareIn pm => OnPostPrepare ks (sign i) env pm
  | PostCommitIn pm => OnPostCommit ks env pm
  | BlockIn block => OnPostCommittedBlock env block
  end.
(** The backup of every delegate. *)
Definition System : Type := Z -> RBackup.
Definition committee (i : Z) : Committee := OnCurrentEpochSet ds (new_committee i).
Definition honest (i : Z) : Prop := i ∈ positions /\ faulty i = false.
Definition signed (b : RBackup) (h : BlockHash) : Prop := Signs h ∈ bd_out b.
Definition unforged (σ : System) (h : BlockHash) (s : AggSignature) : Prop :=
  Validate_aggregate ks h s = true ->
  forall j, honest j -> signed_by s j = true -> signed (σ j) h.
(** A block that a quorum has prepared. *)
Definition certified (σ : System) (h : BlockHash) : Prop :=
  exists s, ValidateQuorum (committee 0) s = true /\
    forall j, honest j -> signed_by s j = true -> signed (σ j) h.
(** What the network may deliver to [i]. A confirmed block must carry a prepare
    certificate with a quorum, which the handler does not check. *)
Definition admissible (σ : System) (i : Z) (x : input) : Prop :=
  match x with
  | PrePrepareIn m => known (pp_block m)
  | PostPrepareIn pm =>
      sig_wf (agg_sig (pm_signature pm)) /\ unforged σ (pm_preprepare_hash pm) (pm_signature pm)
  | PostCommitIn pm => unforged σ (bd_post_prepare_hash (σ i)) (pm_signature pm)
  | BlockIn block => known (pc_block block) /\ certified σ (ApprovedRB_Hash (pc_block block))
  end.
Inductive step (σ : System) : System -> Prop :=
| step_message i env x b' :
    honest i -> (forall c, env_primary env = Some c -> c = committee i) -> admissible σ i x ->
    handle i env x (σ i) = Ok (tt, b') -> step σ (<[i := b']> σ)
| step_judge i (j : S) :
    honest i ->
    step σ (<[i := set_ext (Build_RequestExt (rx_pre_prepare_hashes (bd_ext (σ i)))
                              (rx_rejection_map (bd_ext (σ i))) j) (σ i)]> σ).
(** A backup at the beginning of an epoch, as the constructor makes it. *)
Definition fresh (i proposer epoch : Z) (j : S) : RBackup :=
  Build_Backup None 0 0 AggSignature_clear AggSignature_clear 0 0 i proposer RejectionReason.Void
    ConsensusState.VOID 0 epoch (Build_RequestExt ∅ [] j) [].
(** The proposer, who signs every proposal it makes, counts as faulty. *)
Definition started (σ : System) : Prop :=
  exists proposer, faulty proposer = true /\
    forall i, honest i -> exists epoch j, σ i = fresh i proposer epoch j.

(** What is assumed of the blocks that are proposed: their fields have their
    widths and the counter does not overflow, the first block of the epoch has no
    predecessor, and the digest of a rejection of a block is no block's. *)
Record in_play : Prop := {
  ip_epoch b : known b -> in_width 32 (rb_epoch_number b) /\ in_width 32 (rb_delegates_epoch_number b);
  ip_sequence b : known b -> 0 <= rb_sequence b < 2 ^ 32 - 1;
  ip_timestamp b : known b -> in_width 64 (rb_timestamp b);
  ip_previous b : known b -> in_width 256 (rb_previous b);
  ip_first b : known b -> rb_sequence b = 0 -> rb_previous b = 0;
  ip_hash b : known b -> ApprovedRB_Hash b <> 0;
  ip_rejections b b' msg : known b -> known b' -> rj_preprepare_hash msg = ApprovedRB_Hash b' ->
    Rejection_Hash msg <> ApprovedRB_Hash b;
}.
End System.
(** The constructor makes a fresh backup where the epoch has no block yet. *)
Lemma RequestBackupDelegate_fresh `{Lmdb} {S} local remote epoch (j : S) l :
  request_tip_get remote epoch l = Ok (None, l) ->
  RequestBackupDelegate local remote epoch j l = Ok (fresh local remote epoch j, l).
Proof. intros Ht. by rw /RequestBackupDelegate /mbind /M_bind Ht. Qed.

(** ** Digests *)
Section Digests.
Context {Bk : Blake2b} {HBk : Blake2bCollisionFree Bk}.
Lemma rb_hash_length b :
  exists bs, ApprovedRB_Hash b = blake2b bs /\ (length bs = 56 + 32 * length (rb_requests b))%nat.
Proof.
  eexists. split; [done|]. rw !length_app !length_le_bytes !length_be_bytes.
  assert (forall rs, length (mjoin ((fun r => write_u256 (request_hash r)) <$> rs)) = 32 * length rs)%nat as ->.
  { induction rs as [|r rs IH]; [done|]. cbn [fmap list_fmap mjoin list_join length].
    rw length_app IH length_be_bytes. lia. }
  cbn. lia.
Qed.
Lemma app_parts {A} (x y xs ys : list A) :
  x ++ xs = y ++ ys -> length x = length y -> x = y /\ xs = ys.
Proof. intros E Hl. by apply app_inj_1. Qed.

Context (known : ApprovedRB -> Prop) (Hk : in_play known).
(** A hash determines the sequence number and the predecessor. *)
Lemma hash_binds b1 b2 :
  known b1 -> known b2 -> ApprovedRB_Hash b1 = ApprovedRB_Hash b2 ->
  rb_sequence b1 = rb_sequence b2 /\ rb_previous b1 = rb_previous b2.
Proof.
  intros H1 H2 E. rw /ApprovedRB_Hash in E. apply blake2b_inj in E.
  repeat (apply app_parts in E as [?E E]; [|by rw ?length_le_bytes ?length_be_bytes]).
  pose proof (ip_sequence _ Hk _ H1). pose proof (ip_sequence _ Hk _ H2).
  assert (rb_sequence b1 = rb_sequence b2) as Hs
    by (apply write_u32_inj; [rw /in_width; lia..|done]).
  split; [done|]. destruct (Z.eqb_spec (rb_sequence b2) 0) as [Hz|Hz].
  - rw !(ip_first _ Hk) //. by rw Hs.
  - apply write_u256_inj; [by apply (ip_previous _ Hk)..|].
    by rw Hs (proj2 (Z.eqb_neq _ _) Hz) in E6.
Qed.
(** A PostPrepare is never signed for a block. *)
Lemma post_prepare_apart pm b :
  sig_wf (agg_sig (pm_signature pm)) -> ComputeHash pm <> ApprovedRB_Hash b.
Proof.
  intros Hs. destruct (rb_hash_length b) as (bs & -> & Hl). intros E. rw /ComputeHash in E. apply blake2b_inj in E.
  apply (f_equal length) in E.
  rw Hl /AggSignature_Hash_input !length_app length_be_bytes length_le_bytes Hs in E.
  rw /CONSENSUS_SIG_SIZE in E. lia.
Qed.
(** The position in the chain that a predecessor stands for. *)
Definition linked_at (p : BlockHash) (n : Z) : Prop :=
  (p = 0 /\ n = 0) \/ exists b, known b /\ p = ApprovedRB_Hash b /\ n = rb_sequence b + 1.
Lemma linked_at_inj p n n' : linked_at p n -> linked_at p n' -> n = n'.
Proof.
  intros [[Hp Hn]|(b & Kb & Hp & Hn)] [[Hp' Hn']|(b' & Kb' & Hp' & Hn')]; subst; [done|..].
  - by destruct (ip_hash _ Hk _ Kb').
  - by destruct (ip_hash _ Hk _ Kb).
  - by destruct (hash_binds _ _ Kb Kb' Hp') as [-> _].
Qed.
End Digests.

(** ** The invariant of a backup *)
Section Invariant.
Context {S : Type} {Bk : Blake2b} {HBk : Blake2bCollisionFree Bk}.
Context (known : ApprovedRB -> Prop) (Hk : in_play known).
Abbreviation RBackup := (Backup ApprovedRB (RequestExt S)).
Implicit Types (b : RBackup).

(** A Prepare was sent for the hash [h]. *)
Definition voted b (h : BlockHash) : Prop :=
  exists v, SendPrepare v ∈ bd_out b /\ sp_preprepare_hash v = h.
(** The proposal of the current session. *)
Record proposal b (m : PrePrepareMessage ApprovedRB) : Prop := {
  pr_message : bd_pre_prepare b = Some m;
  pr_known : known (pp_block m);
  pr_hash : bd_pre_prepare_hash b = ApprovedRB_Hash (pp_block m);
  pr_sequence : rb_sequence (pp_block m) = bd_sequence_number b;
  pr_previous : rb_previous (pp_block m) = bd_prev_pre_prepare_hash b;
  pr_voted : voted b (bd_pre_prepare_hash b);
}.
Definition session b : Prop :=
  match bd_state b with
  | ConsensusState.VOID => bd_pre_prepare_hash b = 0
  | ConsensusState.PREPARE | ConsensusState.COMMIT => exists m, proposal b m
  | _ => False
  end.
Record backup_inv b : Prop := {
  bi_reason : bd_reason b = RejectionReason.Void;
  bi_linked : linked_at known (bd_prev_pre_prepare_hash b) (bd_sequence_number b);
  bi_session : session b;
  bi_votes h : voted b h -> exists x, known x /\ h = ApprovedRB_Hash x /\
    linked_at known (rb_previous x) (rb_sequence x) /\
    (rb_sequence x < bd_sequence_number b \/
     bd_state b <> ConsensusState.VOID /\ bd_pre_prepare_hash b = h);
  bi_once x y : known x -> known y -> voted b (ApprovedRB_Hash x) -> voted b (ApprovedRB_Hash y) ->
    rb_sequence x = rb_sequence y -> ApprovedRB_Hash x = ApprovedRB_Hash y;
  bi_signs x : known x -> signed b (ApprovedRB_Hash x) -> voted b (ApprovedRB_Hash x);
}.

Lemma proposal_of b :
  session b -> bd_state b <> ConsensusState.VOID -> exists m, proposal b m.
Proof. rw /session. by destruct (bd_state b). Qed.
(** A vote in the current session is for its proposal or an older block. *)
Lemma vote_sequence b x : backup_inv b -> known x -> voted b (ApprovedRB_Hash x) ->
  rb_sequence x < bd_sequence_number b \/
  bd_state b <> ConsensusState.VOID /\ bd_pre_prepare_hash b = ApprovedRB_Hash x.
Proof.
  intros Hi Hx Hv. destruct (bi_votes _ Hi _ Hv) as (y & Hy & E & _ & Hs).
  by destruct (hash_binds known Hk x y Hx Hy E) as [-> _].
Qed.
Lemma vote_sequence_le b x : backup_inv b -> known x -> voted b (ApprovedRB_Hash x) ->
  rb_sequence x <= bd_sequence_number b.
Proof.
  intros Hi Hx Hv. destruct (vote_sequence b x Hi Hx Hv) as [?|[Hst Hh]]; [lia|].
  destruct (proposal_of b (bi_session _ Hi) Hst) as [m Hm].
  destruct (hash_binds known Hk x (pp_block m) Hx (pr_known _ _ Hm)) as [-> _].
  - by rw -Hh (pr_hash _ _ Hm).
  - by rw (pr_sequence _ _ Hm).
Qed.

(** The session goes on, or nothing happens. *)
Lemma inv_same b b' :
  backup_inv b -> bd_reason b' = RejectionReason.Void ->
  bd_prev_pre_prepare_hash b' = bd_prev_pre_prepare_hash b ->
  bd_pre_prepare_hash b' = bd_pre_prepare_hash b ->
  bd_sequence_number b' = bd_sequence_number b ->
  (bd_state b' = bd_state b \/
   bd_state b = ConsensusState.PREPARE /\ bd_state b' = ConsensusState.COMMIT) ->
  (bd_state b <> ConsensusState.VOID -> bd_pre_prepare b' = bd_pre_prepare b) ->
  (forall h, voted b' h <-> voted b h) ->
  (forall x, known x -> signed b' (ApprovedRB_Hash x) ->
     signed b (ApprovedRB_Hash x) \/ voted b (ApprovedRB_Hash x)) ->
  backup_inv b'.
Proof.
  intros Hi Hr Hp Hh Hq Hst Hm Hv Hs.
  assert (bd_state b <> ConsensusState.VOID <-> bd_state b' <> ConsensusState.VOID) as Hvoid
    by (destruct Hst as [->|[-> ->]]; done).
  split; [done|rw Hp Hq; apply Hi| | | |].
  - pose proof (bi_session _ Hi) as Hse.
    assert (bd_state b <> ConsensusState.VOID -> exists m, proposal b' m) as Hpr.
    { intros Hn. destruct (proposal_of b Hse Hn) as [m [? ? ? ? ? ?]]. exists m.
      split; rw ?Hh ?Hq ?Hp ?Hv //. by rw Hm. }
    rw /session in Hse *. destruct Hst as [E|[E E']]; [|rw E'; apply Hpr; by rw E].
    rw E. move: Hse Hpr. destruct (bd_state b); intros Hse Hpr; try done; [by apply Hpr..|]. by rw Hh.
  - intros h Hb. apply Hv in Hb. destruct (bi_votes _ Hi _ Hb) as (x & ? & ? & ? & Hx).
    exists x. rw Hq Hh -Hvoid. done.
  - intros x y Hx Hy ?%Hv ?%Hv. by apply (bi_once _ Hi).
  - intros x Hx Hsx. apply Hv. destruct (Hs x Hx Hsx) as [?|?]; [by apply (bi_signs _ Hi)|done].
Qed.
(** A proposal is accepted. *)
Lemma inv_accept b b' m :
  backup_inv b -> known (pp_block m) -> bd_state b = ConsensusState.VOID ->
  rb_previous (pp_block m) = bd_prev_pre_prepare_hash b ->
  rb_sequence (pp_block m) = bd_sequence_number b ->
  bd_reason b' = RejectionReason.Void ->
  bd_prev_pre_prepare_hash b' = bd_prev_pre_prepare_hash b ->
  bd_pre_prepare_hash b' = ApprovedRB_Hash (pp_block m) ->
  bd_sequence_number b' = bd_sequence_number b ->
  bd_state b' = ConsensusState.PREPARE -> bd_pre_prepare b' = Some m ->
  (forall h, voted b' h <-> h = ApprovedRB_Hash (pp_block m) \/ voted b h) ->
  (forall x, known x -> signed b' (ApprovedRB_Hash x) ->
     signed b (ApprovedRB_Hash x) \/ ApprovedRB_Hash x = ApprovedRB_Hash (pp_block m)) ->
  backup_inv b'.
Proof.
  intros Hi Hkm Hst Hpm Hqm Hr Hp Hh Hq Hst' Hm Hv Hs.
  assert (forall x, known x -> voted b (ApprovedRB_Hash x) -> rb_sequence x < bd_sequence_number b) as Hold.
  { intros x Hx Hvx. by destruct (vote_sequence b x Hi Hx Hvx) as [?|[? _]]. }
  assert (forall x, known x -> ApprovedRB_Hash x = ApprovedRB_Hash (pp_block m) ->
            rb_sequence x = bd_sequence_number b) as Hnew.
  { intros x Hx E. destruct (hash_binds known Hk _ _ Hx Hkm E) as [-> _]. done. }
  split; [done|rw Hp Hq; apply Hi| | | |].
  - rw /session Hst'. exists m. split; rw ?Hh ?Hp ?Hq //. apply Hv. by left.
  - intros h [->|Hvh]%Hv.
    + exists (pp_block m). split; [done|]. split; [done|]. rw Hpm Hqm. split; [apply Hi|].
      right. by rw Hst' Hh.
    + destruct (bi_votes _ Hi _ Hvh) as (x & Hx & -> & Hl & _). exists x. rw Hq.
      split; [done|]. split; [done|]. split; [done|]. left. by apply Hold.
  - intros x y Hx Hy [E|Hvx]%Hv [E'|Hvy]%Hv Hxy; [by rw E E'| | |by apply (bi_once _ Hi)].
    + pose proof (Hnew x Hx E). pose proof (Hold y Hy Hvy). lia.
    + pose proof (Hnew y Hy E'). pose proof (Hold x Hx Hvx). lia.
  - intros x Hx [Hsx|E]%(Hs x Hx); apply Hv; [right; by apply (bi_signs _ Hi)|by left].
Qed.
(** The session ends with a block [x] that follows the last. *)
Lemma inv_finish b b' x :
  backup_inv b -> known x -> rb_sequence x = bd_sequence_number b ->
  bd_reason b' = RejectionReason.Void ->
  bd_prev_pre_prepare_hash b' = ApprovedRB_Hash x -> bd_pre_prepare_hash b' = 0 ->
  bd_sequence_number b' = u32 (rb_sequence x + 1) -> bd_state b' = ConsensusState.VOID ->
  (forall h, voted b' h <-> voted b h) ->
  (forall h, signed b' h -> signed b h) ->
  backup_inv b'.
Proof.
  intros Hi Hx Hxq Hr Hp Hh Hq Hst Hv Hs.
  assert (bd_sequence_number b' = rb_sequence x + 1) as Hq'.
  { rw Hq. pose proof (ip_sequence _ Hk _ Hx). apply Z.mod_small. lia. }
  split; [done| |by rw /session Hst| | |].
  - right. exists x. by rw Hp Hq'.
  - intros h Hvh%Hv. destruct (bi_votes _ Hi _ Hvh) as (y & Hy & -> & Hl & _). exists y.
    pose proof (vote_sequence_le b y Hi Hy Hvh). split_and!; [done..|]. left. lia.
  - intros y z Hy Hz ?%Hv ?%Hv. by apply (bi_once _ Hi).
  - intros y Hy Hsy. apply Hv, (bi_signs _ Hi); [done|]. by apply Hs.
Qed.
Lemma inv_fresh i p e (j : S) : backup_inv (fresh i p e j).
Proof.
  assert (forall h, ~ voted (fresh i p e j) h) as Hv by by intros h (v & []%not_elem_of_nil & _).
  split; [done|by left|done|by intros h []%Hv|by intros x y _ _ []%Hv|by intros x _ []%not_elem_of_nil].
Qed.
End Invariant.

(** ** The invariant of the system *)
Section Safety.
Context {S : Type} {V : RequestValidator S} {Bk : Blake2b} {HBk : Blake2bCollisionFree Bk} {B : Bls}.
Variables (ks : KeyStore) (sign : Z -> BlockHash -> DelegateSig).
Variables (ds : list Delegate) (faulty : Z -> bool) (known : ApprovedRB -> Prop).
Hypothesis (Hk : in_play known) (Hseat : seated 0 ds (committee ds 0)).
(** The faulty delegates weigh less than what two quorums share. *)
Hypothesis Hf : weight_share vote_weight (committee ds 0) faulty
                < 2 * cm_vote_quorum (committee ds 0) - cm_vote_total (committee ds 0).
Abbreviation RBackup := (Backup ApprovedRB (RequestExt S)).
Abbreviation step := (Agreement.step ks sign ds faulty known).
Abbreviation certified := (certified (S := S) ds faulty).
Abbreviation honest := (honest faulty).
Implicit Types (σ : System (S := S)) (b : RBackup).

Lemma set_weight_id l c c' :
  cm_weights c = cm_weights c' -> cm_vote_total c = cm_vote_total c' ->
  cm_stake_total c = cm_stake_total c' ->
  let f := foldl set_weight c l in let f' := foldl set_weight c' l in
  cm_weights f = cm_weights f' /\ cm_vote_total f = cm_vote_total f' /\
  cm_stake_total f = cm_stake_total f'.
Proof.
  revert c c'. induction l as [|[p d] l IH]; intros c c' H1 H2 H3; [done|]. cbn [foldl].
  apply IH; cbn; by rw ?H1 ?H2 ?H3.
Qed.
(** The delegates judge a quorum alike. *)
Lemma ValidateQuorum_id i s :
  ValidateQuorum (committee ds i) s = ValidateQuorum (committee ds 0) s.
Proof.
  destruct (set_weight_id (zip positions ds) (new_committee i) (new_committee 0)) as (Hw & Hv & Hs); [done..|].
  assert (forall j, weight_of (committee ds i) j = weight_of (committee ds 0) j) as Hj.
  { intros j. rw /weight_of /committee /=. by rw Hw. }
  assert (forall m, map_weight (committee ds i) m = map_weight (committee ds 0) m) as Hm.
  { intros m. rw /map_weight. generalize (0, 0). clear Hw Hv Hs.
    induction positions as [|p l IH]; [done|]. intros acc. cbn [foldl]. by rw IH /add_weight Hj. }
  rw /ValidateQuorum Hm /ReachedQuorum /committee /=. by rw Hv Hs.
Qed.
Lemma certified_pair σ h1 h2 :
  certified σ h1 -> certified σ h2 -> exists j, honest j /\ signed (σ j) h1 /\ signed (σ j) h2.
Proof.
  intros (s1 & Q1 & C1) (s2 & Q2 & C2).
  destruct (honest_in_both Hseat s1 s2 faulty Q1 Q2 Hf) as (j & Hj & ? & ? & ?).
  exists j. assert (honest j) by done. auto.
Qed.

(** The lists of actions of the outcomes. *)
Lemma minor_no_vote h new v : Forall (minor_action h) new -> SendPrepare v ∉ new.
Proof. intros Hn Hin. by apply (proj1 (Forall_forall _ _) Hn) in Hin. Qed.
Lemma minor_no_store h new block : Forall (minor_action h) new -> Stores block ∉ new.
Proof. intros Hn Hin. by apply (proj1 (Forall_forall _ _) Hn) in Hin. Qed.
Lemma minor_signs x y new :
  known x -> known y -> Forall (minor_action (ApprovedRB_Hash x)) new -> Signs (ApprovedRB_Hash y) ∉ new.
Proof.
  intros Hx Hy Hn Hin. apply (proj1 (Forall_forall _ _) Hn) in Hin as (msg & E1 & E2).
  by destruct (ip_rejections _ Hk y x msg Hy Hx E1).
Qed.
Ltac members Ho :=
  rw /voted /signed /vote /commit_vote /farewell ?Ho ?elem_of_app ?elem_of_cons ?elem_of_nil.

(** What a step of the backup [b] of a correct delegate does. *)
Record lawful σ b b' : Prop := {
  lw_inv : backup_inv known b';
  lw_out : exists new, bd_out b' = new ++ bd_out b;
  lw_commit : bd_state b' = ConsensusState.COMMIT ->
    bd_state b = ConsensusState.COMMIT /\ bd_pre_prepare_hash b' = bd_pre_prepare_hash b \/
    certified σ (bd_pre_prepare_hash b');
  lw_stores block : Stores block ∈ bd_out b' -> Stores block ∈ bd_out b \/
    bd_state b = ConsensusState.COMMIT /\ known (pc_block block) /\
    ApprovedRB_Hash (pc_block block) = bd_pre_prepare_hash b;
}.
Lemma proposal_lawful σ i env m b b' :
  backup_inv known b -> known (pp_block m) ->
  OnPrePrepare (D := Derived_RB (sign i)) ks (sign i) env m b = Ok (tt, b') -> lawful σ b b'.
Proof.
  intros Hi Hm E. destruct (wlp_ok _ _ _ _ _ (OnPrePrepare_spec ks (sign i) env m b (bi_reason _ _ Hi)) E)
    as [[Hst Hh Hc Hp Ho|new Hst Hpm Hqm Hp Hc Hn Ho|[Hc (new & Ho & Hn)] Hp] Hr].
  - injection Hc as E1 E2 E3 E4 E5 E6 E7.
    assert (voted b (ApprovedRB_Hash (pp_block m))) as Hv.
    { destruct (proposal_of known b (bi_session _ _ Hi)) as [m' Hm']; [by destruct Hst as [->| ->]|].
      rw -Hh. apply Hm'. }
    split.
    + apply (inv_same known b b' Hi); try done; [by left| |].
      * intros h. split; [|by intros (v & ? & <-); exists v; members Ho; split; [right|]].
        intros (v & Hin & <-). move: Hin. members Ho.
        intros [[[= ->]|[?|[]]]|?]; [done|done|]. by exists v.
      * intros x Hx. members Ho. intros [[?|[[= ->]|[]]]|?]; [done|by right|by left].
    + by eexists.
    + intros Hc. left. by rw -E5.
    + intros block. members Ho. intros [[?|[?|[]]]|?]; [done..|by left].
  - injection Hc as E1 E2 E3 E4 E5 E6 E7. split.
    + apply (inv_accept known Hk b b' m Hi); try done.
      * intros h. split.
        -- intros (v & Hin & <-). move: Hin. members Ho.
           intros [[[= ->]|[?|[]]]|[?|?]]; [by left|done|by eapply minor_no_vote in Hn|]. right. by exists v.
        -- intros [->|(v & Hin & <-)]; [eexists; members Ho; split; [by left; left|done]|].
           exists v. members Ho. split; [by right; right|done].
      * intros x Hx. members Ho. intros [[?|[[= ->]|[]]]|[?|?]]; [done|by right| |by left].
        by destruct (minor_signs (pp_block m) x new Hm Hx Hn).
    + eexists. by rw Ho app_assoc.
    + by rw E5.
    + intros block. members Ho. intros [[?|[?|[]]]|[?|?]]; [done..| |by left].
      by destruct (minor_no_store _ _ block Hn).
  - injection Hc as E1 E2 E3 E4 E5 E6 E7. split.
    + apply (inv_same known b b' Hi); try done; [by left| |].
      * intros h. split; intros (v & Hin & <-); exists v; (split; [|done]); move: Hin; members Ho; [|by right].
        intros [?|?]; [|done]. by destruct (minor_no_vote _ _ v Hn).
      * intros x Hx. members Ho. intros [?|?]; [|by left]. by destruct (minor_signs (pp_block m) x new Hm Hx Hn).
    + by eexists.
    + intros Hc. left. by rw -E5.
    + intros block. members Ho. intros [?|?]; [|by left]. by destruct (minor_no_store _ _ block Hn).
Qed.
Lemma ignored_lawful σ b b' :
  backup_inv known b -> bd_reason b' = bd_reason b -> ignored b b' -> lawful σ b b'.
Proof.
  intros Hi Hr [Hc Hp Ho]. injection Hc as E1 E2 E3 E4 E5 E6 E7.
  assert (exists new, bd_out b' = new ++ bd_out b /\ Forall (eq Bootstraps) new) as (new & Ho' & Hn).
  { destruct Ho as [->| ->]; [by exists []|exists [Bootstraps]; split; [done|by apply Forall_singleton]]. }
  assert (forall a, a ∈ bd_out b' -> a = Bootstraps \/ a ∈ bd_out b) as Hin.
  { intros a. rw Ho' elem_of_app. intros [Ha|?]; [|by right].
    left. symmetry. by apply (proj1 (Forall_forall _ _) Hn). }
  assert (forall a, a ∈ bd_out b -> a ∈ bd_out b') as Hout by (intros a ?; rw Ho' elem_of_app; by right).
  split.
  - apply (inv_same known b b' Hi); try done; [by rw Hr; apply Hi|by left| |].
    + intros h. split; intros (v & Hv & <-); exists v; (split; [|done]); [|by apply Hout].
      by destruct (Hin _ Hv).
    + intros x Hx Hsx. by destruct (Hin _ Hsx); [|left].
  - by exists new.
  - intros Hc. left. by rw -E5.
  - intros block Hb. by destruct (Hin _ Hb); [|left].
Qed.
Lemma post_prepare_lawful σ i env pm b b' :
  backup_inv known b -> b = σ i -> (forall c, env_primary env = Some c -> c = committee ds i) ->
  sig_wf (agg_sig (pm_signature pm)) -> unforged ks faulty σ (pm_preprepare_hash pm) (pm_signature pm) ->
  OnPostPrepare ks (sign i) env pm b = Ok (tt, b') -> lawful σ b b'.
Proof.
  intros Hi Hb Henv Hwf Hu E.
  destruct (wlp_ok _ _ _ _ _ (OnPostPrepare_spec ks (sign i) env pm b) E) as [Hout Hr].
  assert (bd_out b' = commit_vote (sign i) (bd_pre_prepare_hash b) (ComputeHash pm) ++ bd_out b ->
    (forall h, voted b' h <-> voted b h) /\
    (forall x, known x -> signed b' (ApprovedRB_Hash x) ->
       signed b (ApprovedRB_Hash x) \/ voted b (ApprovedRB_Hash x)) /\
    (forall block, Stores block ∈ bd_out b' -> Stores block ∈ bd_out b)) as Hacts.
  { intros Ho. split_and!.
    - intros h. split; intros (v & Hv & <-); exists v; (split; [|done]); move: Hv; members Ho; [|by right].
      by intros [[?|[?|[]]]|?].
    - intros x Hx. members Ho. intros [[?|[[= E']|[]]]|?]; [done| |by left].
      by destruct (post_prepare_apart pm x Hwf).
    - intros block. members Ho. by intros [[?|[?|[]]]|?]. }
  destruct Hout as [Hh Hc Hp Ho|c Hst Hh Hv Hc Hq Hcore Hp Ho|Hig]; [| |by apply ignored_lawful].
  - destruct (Hacts Ho) as (Hvo & Hsi & Hsto). injection Hc as E1 E2 E3 E4 E5 E6 E7. split.
    + apply (inv_same known b b' Hi); try done; [by rw Hr; apply Hi|by left].
    + by eexists.
    + intros Hc. left. by rw -E5.
    + intros block Hbl. left. by apply Hsto.
  - destruct (Hacts Ho) as (Hvo & Hsi & Hsto). injection Hcore as E1 E2 E3 E4 E5 E6 E7. split.
    + apply (inv_same known b b' Hi); try done; [by rw Hr; apply Hi|by right].
    + by eexists.
    + intros _. right. exists (pm_signature pm). rw -(ValidateQuorum_id i) -(Henv c Hc). split; [done|].
      rw E2 Hh. apply Hu. by rw -Hh.
    + intros block Hbl. left. by apply Hsto.
Qed.
Lemma farewell_acts block m (b b' : RBackup) more :
  bd_out b' = farewell block m ++ more ++ bd_out b -> Forall (fun a => exists x, a = Stores x) more ->
  (forall h, voted b' h <-> voted b h) /\ (forall h, signed b' h -> signed b h) /\
  (forall x, Stores x ∈ bd_out b' -> Stores x ∈ more \/ Stores x ∈ bd_out b).
Proof.
  intros Ho Hm.
  assert (forall a, a ∈ more -> exists x, a = Stores x) as Hmore by by apply Forall_forall.
  split_and!.
  - intros h. split; intros (v & Hv & <-); exists v; (split; [|done]); move: Hv; members Ho; [|tauto].
    intros [[?|[?|[?|[?|[]]]]]|[Hv|?]]; try done. by destruct (Hmore _ Hv).
  - intros h. members Ho. intros [[?|[?|[?|[?|[]]]]]|[Hv|?]]; try done. by destruct (Hmore _ Hv).
  - intros x. members Ho. intros [[?|[?|[?|[?|[]]]]]|[?|?]]; by auto.
Qed.
Lemma post_commit_lawful σ i env pm b b' :
  backup_inv known b -> OnPostCommit (D := Derived_RB (sign i)) ks env pm b = Ok (tt, b') -> lawful σ b b'.
Proof.
  intros Hi E. destruct (wlp_ok _ _ _ _ _ (OnPostCommit_spec ks (sign i) env pm b) E) as [Hout Hr].
  destruct Hout as [m c Hst Hm Hh Hv Hc Hq [Hp Hcore] Ho|Hig]; [|by apply ignored_lawful].
  set block := Block_of_PrePrepare m (bd_post_prepare_sig b) (pm_signature pm) in Ho.
  destruct (proposal_of known b (bi_session _ _ Hi)) as [m' Hpr]; [by rw Hst|].
  assert (m' = m) as -> by (pose proof (pr_message _ _ _ Hpr); congruence).
  destruct (farewell_acts block m b b' [Stores block]) as (Hvo & Hsi & Hsto);
    [done|apply Forall_singleton; by exists block|].
  injection Hcore as E1 E2 E3 E4 E5 E6 E7. split.
  - apply (inv_finish known Hk b b' (pp_block m) Hi); try done; try apply Hpr; [by rw Hr; apply Hi|].
    by rw E1 (pr_hash _ _ _ Hpr).
  - eexists. rw Ho. exact (app_assoc (farewell block m) [Stores block] (bd_out b)).
  - by rw E5.
  - intros x Hx. destruct (Hsto x Hx) as [[= ->]%list_elem_of_singleton|?]; [right|by left].
    split; [done|]. split; [apply Hpr|]. by rw (pr_hash _ _ _ Hpr).
Qed.
Lemma block_lawful σ i env block b b' :
  (forall j, honest j -> backup_inv known (σ j)) -> backup_inv known b -> known (pc_block block) ->
  certified σ (ApprovedRB_Hash (pc_block block)) ->
  OnPostCommittedBlock (D := Derived_RB (sign i)) env block b = Ok (tt, b') -> lawful σ b b'.
Proof.
  intros Hall Hi Hb Hcert E.
  destruct (wpg_ok _ _ _ _ _ _ (OnPostCommittedBlock_spec (sign i) env block b) E) as [Hout Hr].
  destruct Hout as [m Hm Hp Hcore Ho|E']; [|by subst b'; apply ignored_lawful; [..|split; [..|left]]].
  destruct (farewell_acts block m b b' []) as (Hvo & Hsi & Hsto); [done|constructor|].
  injection Hcore as E1 E2 E3 E4 E5 E6 E7.
  assert (known (pp_block m) /\ rb_sequence (pp_block m) = bd_sequence_number b /\
          ApprovedRB_Hash (pp_block m) = ApprovedRB_Hash (pc_block block)) as (Hkm & Hqm & Hhm).
  { destruct Hm as [[Hm Hh]|[Hprev ->]].
    - destruct (proposal_of known b (bi_session _ _ Hi)) as [m' Hpr].
      { intros Hst. pose proof (bi_session _ _ Hi) as Hse. rw /session Hst Hh in Hse.
        by destruct (ip_hash _ Hk _ Hb). }
      assert (m' = m) as -> by (pose proof (pr_message _ _ _ Hpr); congruence).
      split; [apply Hpr|]. split; [apply Hpr|]. by rw -Hh (pr_hash _ _ _ Hpr).
    - split; [done|]. split; [|done]. cbn [pp_block PrePrepare_of_block].
      destruct (certified_pair σ _ _ Hcert Hcert) as (j & Hj & Hs & _).
      pose proof (Hall j Hj) as Hij.
      destruct (bi_votes _ _ Hij _ (bi_signs _ _ Hij _ Hb Hs)) as (x & Hx & Hxh & Hl & _).
      destruct (hash_binds known Hk _ _ Hb Hx Hxh) as [Eq Ep].
      apply (linked_at_inj known Hk (bd_prev_pre_prepare_hash b)); [by rw Hprev Eq Ep|apply Hi]. }
  split.
  - apply (inv_finish known Hk b b' (pp_block m) Hi); try done; [by rw Hr; apply Hi|by rw E1 Hhm].
  - by eexists.
  - by rw E5.
  - intros x Hx. by destruct (Hsto x Hx) as [[]%not_elem_of_nil|?]; left.
Qed.

Record sys_inv σ : Prop := {
  si_backup i : honest i -> backup_inv known (σ i);
  si_commit i : honest i -> bd_state (σ i) = ConsensusState.COMMIT ->
    certified σ (bd_pre_prepare_hash (σ i));
  si_stores i block : honest i -> Stores block ∈ bd_out (σ i) ->
    known (pc_block block) /\ certified σ (ApprovedRB_Hash (pc_block block));
}.
Lemma certified_mono σ i b' h :
  (exists new, bd_out b' = new ++ bd_out (σ i)) -> certified σ h -> certified (<[i := b']> σ) h.
Proof.
  intros (new & Ho) (s & Hq & Hs). exists s. split; [done|]. intros j Hj Hb.
  pose proof (Hs j Hj Hb) as Hin. rw /signed. destruct (decide (j = i)) as [->|Hne].
  - rw fn_lookup_insert Ho elem_of_app. by right.
  - by rw fn_lookup_insert_ne.
Qed.
Lemma lawful_step σ i b' : sys_inv σ -> honest i -> lawful σ (σ i) b' -> sys_inv (<[i := b']> σ).
Proof.
  intros [Hb Hc Hs] Hi [Hinv Hout Hcom Hsto].
  pose proof (fun h => certified_mono σ i b' h Hout) as Hmono. split.
  - intros j Hj. destruct (decide (j = i)) as [->|Hne];
      [by rw fn_lookup_insert|rw fn_lookup_insert_ne //; by apply Hb].
  - intros j Hj. destruct (decide (j = i)) as [->|Hne];
      [rw fn_lookup_insert|rw fn_lookup_insert_ne //; intros; apply Hmono; by apply Hc].
    intros Hst. apply Hmono. destruct (Hcom Hst) as [[Hst' ->]|?]; [by apply Hc|done].
  - intros j block Hj. destruct (decide (j = i)) as [->|Hne];
      [rw fn_lookup_insert
      |rw fn_lookup_insert_ne // => Hin; destruct (Hs j block Hj Hin); by auto].
    intros Hin. destruct (Hsto block Hin) as [Hin'|(Hst & Hkb & E)].
    + destruct (Hs i block Hi Hin'); by auto.
    + split; [done|]. apply Hmono. rw E. by apply Hc.
Qed.
Lemma step_inv σ σ' : sys_inv σ -> step σ σ' -> sys_inv σ'.
Proof.
  intros Hσ [i env x b' Hi Henv Hadm E|i j Hi];
    (apply lawful_step; [done..|]); pose proof (si_backup _ Hσ i Hi) as Hb.
  - destruct x as [m|pm|pm|block]; cbn [admissible handle] in Hadm, E.
    + by eapply proposal_lawful.
    + destruct Hadm. by eapply post_prepare_lawful.
    + by eapply post_commit_lawful.
    + destruct Hadm. eapply block_lawful; [|done..]. apply Hσ.
  - apply ignored_lawful; [done..|]. by split; [..|left].
Qed.
Lemma run_inv σ σ' : started faulty σ -> rtc step σ σ' -> sys_inv σ'.
Proof.
  intros (p & _ & H0) Hr. assert (sys_inv σ) as Hσ.
  { split.
    - intros i Hi. destruct (H0 i Hi) as (e & j & ->). by apply inv_fresh.
    - intros i Hi. by destruct (H0 i Hi) as (e & j & ->).
    - intros i block Hi. destruct (H0 i Hi) as (e & j & ->). by intros ?%not_elem_of_nil. }
  clear H0. induction Hr as [|σ1 σ2 σ3 Hs _ IH]; [done|]. by eapply IH, step_inv.
Qed.
Lemma certified_unique σ x y :
  sys_inv σ -> known x -> known y -> certified σ (ApprovedRB_Hash x) ->
  certified σ (ApprovedRB_Hash y) -> rb_sequence x = rb_sequence y ->
  ApprovedRB_Hash x = ApprovedRB_Hash y.
Proof.
  intros Hσ Hx Hy C1 C2 E. destruct (certified_pair σ _ _ C1 C2) as (j & Hj & S1 & S2).
  pose proof (si_backup _ Hσ j Hj) as Hb.
  by apply (bi_once _ _ Hb); [..|apply (bi_signs _ _ Hb)|apply (bi_signs _ _ Hb)|].
Qed.

End Safety.
