(* ===== verification/AgreementRuns.v ===== *)
(** * Runs of the agreement

    Scripts of messages are played by the handlers themselves: a run in which a
    quorum confirms a block, and one in which as many faulty delegates as the
    protocol means to tolerate make two correct delegates store different blocks.
    The keys are those of [sum_bls], every request is valid. *)
From stdpp Require Import base list numbers strings gmap functions relations ssreflect.
From S2P Require Import Prelude Serial Lmdb StakingTypes Requests Epochs BlockStore TokenTypes TokenRequests Ledger RequestValidation ConsensusBlocks ConsensusMessages Committee BackupDelegate RequestBackup BackupSessions Agreement.
Open Scope Z_scope.

#[local] Instance SB : Bls := sum_bls.
#[local] Instance BB : Blake2b := encode_blake2b.
#[local] Instance BC : Blake2bCollisionFree BB := encode_blake2b_inj.
#[local] Instance accept_all : RequestValidator unit :=
  fun rs _ => mret (replicate (length rs) false, false).

(** The keys, and two blocks the proposer 31 signs. *)
Definition keys : KeyStore := list_to_map ((fun i => (i, i + 1)) <$> positions).
Definition key_sign (i : Z) (h : BlockHash) : DelegateSig := sig_serialize (i + 1, h).
Definition proposer : Z := 31.
Definition rival (first : bool) : ApprovedRB :=
  Build_ApprovedRB proposer 3 3 0 (if first then 1 else 2) 0 [] 0.
Definition rivals (b : ApprovedRB) : Prop := exists first, b = rival first.
Definition rival_hash (first : bool) : BlockHash := ApprovedRB_Hash (rival first).
Definition rival_proposal (first : bool) : PrePrepareMessage ApprovedRB :=
  Build_PrePrepareMessage (rival first) (key_sign proposer (rival_hash first)).
(** The aggregate signature of the delegates in [m]. *)
Definition aggregate_of (m : Z) (h : BlockHash) : AggSignature :=
  Build_AggSignature m (sig_serialize
    (sumZ (fun i => if Z.testbit m i then i + 1 else 0) positions, h)).

Section Script.
(** The delegates, the faulty ones, and who signs each block. *)
Variables (ds : list Delegate) (faulty : Z -> bool) (signers : bool -> Z).
Definition post_prepare_of (first : bool) : PostPhaseMessage :=
  Build_PostPhaseMessage (rival_hash first) (aggregate_of (signers first) (rival_hash first)).
Definition post_commit_of (first : bool) : PostPhaseMessage :=
  Build_PostPhaseMessage (rival_hash first)
    (aggregate_of (signers first) (ComputeHash (post_prepare_of first))).
Inductive cue := Propose (first : bool) | Prepare (first : bool) | Commit (first : bool).
Definition input_of (c : cue) : input :=
  match c with
  | Propose first => PrePrepareIn (rival_proposal first)
  | Prepare first => PostPrepareIn (post_prepare_of first)
  | Commit first => PostCommitIn (post_commit_of first)
  end.
Definition calm (i : Z) : Env :=
  Build_Env 1 0 0 false
    (Some (Build_Notifier EpochTransitionState.None EpochTransitionDelegate.None EpochConnection.Current))
    (Some (committee ds i)).
Definition has_signed (b : Backup ApprovedRB (RequestExt unit)) (h : BlockHash) : bool :=
  existsb (fun a => match a with Signs d => d =? h | _ => false end) (bd_out b).
Definition genuine (σ : System (S := unit)) (h : BlockHash) (s : AggSignature) : bool :=
  forallb (fun j => faulty j || negb (signed_by s j) || has_signed (σ j) h) positions.
Definition allowed (σ : System (S := unit)) (i : Z) (c : cue) : bool :=
  match c with
  | Propose _ => true
  | Prepare first =>
      genuine σ (rival_hash first) (aggregate_of (signers first) (rival_hash first))
  | Commit first =>
      genuine σ (bd_post_prepare_hash (σ i))
        (aggregate_of (signers first) (ComputeHash (post_prepare_of first)))
  end.
Fixpoint play (σ : System (S := unit)) (script : list (Z * cue)) : option (System (S := unit)) :=
  match script with
  | [] => Some σ
  | (i, c) :: script =>
      if bool_decide (i ∈ positions) && negb (faulty i) && allowed σ i c then
        match handle keys key_sign i (calm i) (input_of c) (σ i) with
        | Ok (_, b) => play (<[i := b]> σ) script
        | Halt _ => None
        end
      else None
  end.

Lemma genuine_unforged σ h s : genuine σ h s = true -> unforged keys faulty σ h s.
Proof.
  rw /genuine forallb_forall => Hg _ j [Hj Hf] Hs.
  specialize (Hg j (proj1 (list_elem_of_In _ _) Hj)). rw Hf Hs in Hg. cbn in Hg.
  apply existsb_exists in Hg as ([] & Hin%list_elem_of_In & E); try done.
  apply Z.eqb_eq in E as ->. exact Hin.
Qed.
Lemma play_run script σ σ' :
  play σ script = Some σ' -> rtc (step keys key_sign ds faulty rivals) σ σ'.
Proof.
  revert σ. induction script as [|[i c] script IH]; intros σ; cbn [play]; [by intros [= ->]|].
  destruct (_ && _) eqn:Eg; [|done].
  apply andb_true_iff in Eg as [[Hi Hf%negb_true_iff]%andb_true_iff Ha].
  destruct (handle _ _ _ _ _ _) as [[[] b]|] eqn:E; [|done]. intros Hp.
  eapply rtc_l; [|by apply IH]. eapply step_message; [| | |exact E].
  - split; [by apply bool_decide_eq_true in Hi|done].
  - by intros ? [= <-].
  - destruct c as [first|first|first]; cbn [input_of admissible allowed] in Ha |- *.
    + by exists first.
    + split; [done|]. by apply genuine_unforged.
    + by apply genuine_unforged.
Qed.
Definition beginning : System (S := unit) := fun i => fresh i proposer 3 tt.
Lemma beginning_started : faulty proposer = true -> started faulty beginning.
Proof. intros Hp. exists proposer. split; [done|]. intros i _. by exists 3, tt. Qed.
Definition played (script : list (Z * cue)) : System (S := unit) := default beginning (play beginning script).
Lemma played_run script :
  bool_decide (is_Some (play beginning script)) = true ->
  rtc (step keys key_sign ds faulty rivals) beginning (played script).
Proof.
  intros [σ E]%bool_decide_eq_true. rw /played E. by apply play_run in E.
Qed.
End Script.

(** The delegates [n ... n + k - 1] get the cue [c]. *)
Definition each (n k : Z) (c : cue) : list (Z * cue) := (fun i => (i, c)) <$> seqZ n k.
Lemma rivals_in_play : in_play rivals.
Proof.
  split.
  1-5: by intros b [[] ->].
  - by intros b [[] ->].
  - intros b b' msg [first ->] [first' ->] Hm E. rw /Rejection_Hash /ApprovedRB_Hash in E.
    apply blake2b_inj in E.
    apply (f_equal (take 33)) in E. rw /Rejection_Hash_input Hm in E.
    by destruct first, first'; vm_compute in E.
Qed.

(** ** A block is confirmed

    31 delegates with one vote each, of which only the proposer counts as faulty:
    the first 21 prepare and commit, two of them store the block. *)
Definition only_proposer (i : Z) : bool := i =? proposer.
Definition first_21_sign (_ : bool) : Z := 2 ^ 21 - 1.
Definition confirmation : list (Z * cue) :=
  each 0 21 (Propose true) ++ each 0 21 (Prepare true) ++ [(0, Commit true); (1, Commit true)].
Definition after_confirmation : System (S := unit) :=
  played (unit_delegates 31) only_proposer first_21_sign confirmation.
Definition confirmed_block (signers : bool -> Z) (first : bool) : PostCommittedBlock ApprovedRB :=
  Block_of_PrePrepare (rival_proposal first) (pm_signature (post_prepare_of signers first))
    (pm_signature (post_commit_of signers first)).
Lemma confirmation_stores i :
  i = 0 \/ i = 1 -> Stores (confirmed_block first_21_sign true) ∈ bd_out (after_confirmation i).
Proof. intros [->| ->]; apply (list_elem_of_lookup_2 _ 4%nat); vm_compute; reflexivity. Qed.
Lemma odd_committee_seated : seated 0 (unit_delegates 31) (committee (unit_delegates 31) 0).
Proof. by split; [|vm_compute|apply unit_delegates_nonneg|vm_compute; split|vm_compute; split]. Qed.

(** The same session at one delegate. *)
Example session_confirms_the_block_witness :
  exists b', (OnPrePrepare (D := Derived_RB (key_sign 0)) keys (key_sign 0) (calm (unit_delegates 31) 0)
                (rival_proposal true);;
              OnPostPrepare keys (key_sign 0) (calm (unit_delegates 31) 0) (post_prepare_of first_21_sign true);;
              OnPostCommit (D := Derived_RB (key_sign 0)) keys (calm (unit_delegates 31) 0)
                (post_commit_of first_21_sign true)) (fresh 0 proposer 3 tt) = Ok (tt, b') /\
    Stores (confirmed_block first_21_sign true) ∈ bd_out b' /\
    bd_state b' = ConsensusState.VOID /\ bd_prev_pre_prepare_hash b' = rival_hash true /\
    bd_sequence_number b' = 1.
Proof.
  apply (session_confirms_the_block keys (key_sign 0) (calm (unit_delegates 31) 0)
           (committee (unit_delegates 31) 0) (rival_proposal true) (post_prepare_of first_21_sign true)
           (post_commit_of first_21_sign true) (fresh 0 proposer 3 tt)).
  - split; try reflexivity.
    + intros E. vm_compute in E. discriminate E.
    + vm_compute. discriminate.
    + by exists [], false, tt.
    + eexists. by split.
  - reflexivity.
  - intros E. vm_compute in E. discriminate E.
  - split; vm_compute; reflexivity.
  - split; vm_compute; reflexivity.
Defined.

(** ** A fork

    32 delegates with one vote each, of which the last 10 are faulty, as many as
    max_fault. They sign both blocks; 11 correct delegates prepare one, 11 the
    other. *)
Definition last_10 (i : Z) : bool := 22 <=? i.
Definition halves_sign (first : bool) : Z :=
  Z.lor (Z.shiftl (2 ^ 10 - 1) 22) (if first then 2 ^ 11 - 1 else Z.shiftl (2 ^ 11 - 1) 11).
Definition fork : list (Z * cue) :=
  each 0 11 (Propose true) ++ each 11 11 (Propose false) ++ each 0 11 (Prepare true)
  ++ each 11 11 (Prepare false) ++ [(0, Commit true); (11, Commit false)].
Definition after_fork : System (S := unit) := played (unit_delegates 32) last_10 halves_sign fork.

(** C38 The quorum does not tolerate the faults it is meant to. SetQuorum takes a
    third of the total, less one, as the weight of the faulty delegates. With 32
    delegates of equal weight this is 10; 10 faulty delegates, the proposer among
    them, can make two correct delegates store different blocks with the same
    sequence number, without forging a signature. *)
Theorem tolerated_faults_fork :
  weight_share vote_weight (committee (unit_delegates 32) 0) last_10
    = cm_vote_max_fault (committee (unit_delegates 32) 0) /\
  started last_10 beginning /\
  rtc (step keys key_sign (unit_delegates 32) last_10 rivals) beginning after_fork /\
  honest last_10 0 /\ honest last_10 11 /\
  Stores (confirmed_block halves_sign true) ∈ bd_out (after_fork 0) /\
  Stores (confirmed_block halves_sign false) ∈ bd_out (after_fork 11) /\
  rb_sequence (rival true) = rb_sequence (rival false) /\ rival_hash true <> rival_hash false.
Proof.
  split; [vm_compute; reflexivity|]. split; [by apply beginning_started|].
  split; [apply played_run; vm_compute; reflexivity|].
  split; [split; [apply (bool_decide_eq_true _); vm_compute; reflexivity|reflexivity]|].
  split; [split; [apply (bool_decide_eq_true _); vm_compute; reflexivity|reflexivity]|].
  split; [apply (list_elem_of_lookup_2 _ 4%nat); vm_compute; reflexivity|].
  split; [apply (list_elem_of_lookup_2 _ 4%nat); vm_compute; reflexivity|].
  split; [reflexivity|]. intros E. vm_compute in E. discriminate E.
Qed.

(** ** Confirmed blocks that are not verified *)
Section Unverified.
Context {S : Type} {V : RequestValidator S} {Bk : Blake2b} {HBk : Blake2bCollisionFree Bk}.
Variable sign : BlockHash -> DelegateSig.
#[local] Instance RB : Derived ApprovedRB (RequestExt S) := Derived_RB sign.
Implicit Types (b : Backup ApprovedRB (RequestExt S)).

(** A block without requests or signatures that follows the last of a backup. *)
Definition made_up b (n timestamp : Z) : PostCommittedBlock ApprovedRB :=
  Build_PostCommittedBlock
    (Build_ApprovedRB (bd_remote b) 0 0 n timestamp (bd_prev_pre_prepare_hash b) [] 0) no_sig
    AggSignature_clear AggSignature_clear.
Lemma made_up_apart b n :
  ApprovedRB_Hash (pc_block (made_up b n 0)) <> ApprovedRB_Hash (pc_block (made_up b n 1)).
Proof.
  intros E. rw /ApprovedRB_Hash in E. apply blake2b_inj in E.
  repeat (apply app_parts in E as [?E E]; [|by rw ?length_le_bytes ?length_be_bytes]). done.
Qed.
Lemma made_up_moves env b n t :
  is_Some (env_notifier env) -> 0 <= n < 2 ^ 32 - 1 ->
  bd_pre_prepare_hash b <> ApprovedRB_Hash (pc_block (made_up b n t)) ->
  exists b', OnPostCommittedBlock env (made_up b n t) b = Ok (tt, b') /\
    bd_state b' = ConsensusState.VOID /\ bd_sequence_number b' = n + 1 /\
    bd_prev_pre_prepare_hash b' = ApprovedRB_Hash (pc_block (made_up b n t)) /\
    bd_pre_prepare_hash b' = 0.
Proof.
  intros [nt Hnt] Hn Hne.
  assert (u32 (n + 1) = n + 1) as Hw by (apply Z.mod_small; lia).
  eexists. split.
  - rw /OnPostCommittedBlock Hnt /mbind /M_bind /gets. cbv [id].
    cbn [cb_Hash cb_previous ConsensusBlock_RB].
    rw (proj2 (Z.eqb_neq _ _) Hne) andb_false_r Z.eqb_refl. cbn [orb]. reflexivity.
  - cbn. by rw Hw.
Qed.

(** A backup believes any confirmed block. A block that names the last block of
    the backup as its predecessor ends the session of the backup, whatever is in
    it and without any signature, and sets the number of the next block to the
    successor of the one it carries: OnPostCommittedBlock verifies nothing, and
    blocks from the peer-to-peer network reach it before their signatures are
    checked. *)
Lemma unsigned_block_moves_a_backup env b n :
  is_Some (env_notifier env) -> 0 <= n < 2 ^ 32 - 1 ->
  exists block b', OnPostCommittedBlock env block b = Ok (tt, b') /\
    agg_map (pc_post_prepare_sig block) = 0 /\ agg_map (pc_post_commit_sig block) = 0 /\
    bd_state b' = ConsensusState.VOID /\ bd_sequence_number b' = n + 1 /\
    bd_prev_pre_prepare_hash b' = ApprovedRB_Hash (pc_block block) /\ bd_pre_prepare_hash b' = 0.
Proof.
  intros Hnt Hn.
  assert (exists t, bd_pre_prepare_hash b <> ApprovedRB_Hash (pc_block (made_up b n t))) as [t Ht].
  { destruct (decide (bd_pre_prepare_hash b = ApprovedRB_Hash (pc_block (made_up b n 0)))) as [E|];
      [exists 1; rw E; apply made_up_apart|by exists 0]. }
  destruct (made_up_moves env b n t Hnt Hn Ht) as (b' & E & ?). by exists (made_up b n t), b'.
Qed.
End Unverified.
Example unsigned_block_moves_a_backup_witness :
  exists block b',
    OnPostCommittedBlock (D := Derived_RB (key_sign 2)) (calm (unit_delegates 31) 2) block (after_confirmation 2)
    = Ok (tt, b') /\
    agg_map (pc_post_prepare_sig block) = 0 /\ agg_map (pc_post_commit_sig block) = 0 /\
    bd_state b' = ConsensusState.VOID /\ bd_sequence_number b' = 5 + 1 /\
    bd_prev_pre_prepare_hash b' = ApprovedRB_Hash (pc_block block) /\ bd_pre_prepare_hash b' = 0.
Proof.
  apply (unsigned_block_moves_a_backup (key_sign 2) (calm (unit_delegates 31) 2) (after_confirmation 2) 5).
  - by eexists.
  - lia.
Defined.
