(* ===== verification/PrimaryDelegate.v ===== *)
(** * The primary delegate

    PrimaryDelegate of src/logos/consensus/primary_delegate.{hpp,cpp}: how a
    delegate that proposes a block collects the answers of the others. Each
    handler is one step. ProceedWithMessage runs under _state_mutex; once it has
    approved or rejected a proposal, _state_changing makes it ignore every message
    until AdvanceState, so that what follows is not disturbed. What the handlers do
    to other components is recorded in [pl_out], the last first. The virtual
    methods are the classes [PrimaryHooks] and [PrimaryRounds]. *)
From stdpp Require Import base list numbers strings gmap ssreflect.
From S2P Require Import Prelude Serial StakingTypes Requests Epochs TokenTypes TokenRequests Ledger ConsensusBlocks ConsensusMessages Committee BackupDelegate RequestBackup BackupSessions.
Open Scope Z_scope.

Inductive paction (P : Type) :=
| PSigns (h : BlockHash)
| SendPrePrepare (m : PrePrepareMessage P)
| SendPostPrepare (m : PostPhaseMessage)
| SendPostCommit (m : PostPhaseMessage)
| PStores (b : PostCommittedBlock P)
| PCallbacks (b : PostCommittedBlock P)
| PBroadcasts (b : PostCommittedBlock P)
| PCancelsTimer
| PSchedules (expiration : Z)
| EnablesP2p
| ForwardsToNewEpoch
| PBootstraps.
Arguments PSigns {P}.
Arguments SendPrePrepare {P}.
Arguments SendPostPrepare {P}.
Arguments SendPostCommit {P}.
Arguments PStores {P}.
Arguments PCallbacks {P}.
Arguments PBroadcasts {P}.
Arguments PCancelsTimer {P}.
Arguments PSchedules {P}.
Arguments EnablesP2p {P}.
Arguments ForwardsToNewEpoch {P}.
Arguments PBootstraps {P}.

(** The members of PrimaryDelegate. [pl_timer] is the state that the timer which is
    running expects; [pl_ext] are the members of the derived classes. *)
Record Primary (P E : Type) := {
  pl_committee : Committee;
  pl_prev_pre_prepare_hash : BlockHash;
  pl_pre_prepare_hash : BlockHash;
  pl_post_prepare_hash : BlockHash;
  pl_pre_prepare_sig : DelegateSig;
  pl_post_prepare_sig : AggSignature;
  pl_post_commit_sig : AggSignature;
  pl_ongoing : bool;
  pl_state_changing : bool;
  pl_state : ConsensusState.t;
  pl_prepare_vote : Z;
  pl_prepare_stake : Z;
  pl_signatures : gmap Z DelegateSignature;
  pl_delegates_responded : Z;
  pl_num_proposals : Z;
  pl_timer : option ConsensusState.t;
  pl_timer_cancelled : bool;
  pl_ext : E;
  pl_out : list (paction P);
}.
Arguments Build_Primary {P E}.
Arguments pl_committee {P E}.
Arguments pl_prev_pre_prepare_hash {P E}.
Arguments pl_pre_prepare_hash {P E}.
Arguments pl_post_prepare_hash {P E}.
Arguments pl_pre_prepare_sig {P E}.
Arguments pl_post_prepare_sig {P E}.
Arguments pl_post_commit_sig {P E}.
Arguments pl_ongoing {P E}.
Arguments pl_state_changing {P E}.
Arguments pl_state {P E}.
Arguments pl_prepare_vote {P E}.
Arguments pl_prepare_stake {P E}.
Arguments pl_signatures {P E}.
Arguments pl_delegates_responded {P E}.
Arguments pl_num_proposals {P E}.
Arguments pl_timer {P E}.
Arguments pl_timer_cancelled {P E}.
Arguments pl_ext {P E}.
Arguments pl_out {P E}.

Section Setters.
Context {P E : Type}.
Definition set_prev_hash (h : BlockHash) (p : Primary P E) : Primary P E :=
  Build_Primary (pl_committee p) h (pl_pre_prepare_hash p) (pl_post_prepare_hash p)
    (pl_pre_prepare_sig p) (pl_post_prepare_sig p) (pl_post_commit_sig p) (pl_ongoing p)
    (pl_state_changing p) (pl_state p) (pl_prepare_vote p) (pl_prepare_stake p)
    (pl_signatures p) (pl_delegates_responded p) (pl_num_proposals p) (pl_timer p)
    (pl_timer_cancelled p) (pl_ext p) (pl_out p).
Definition set_proposal (h : BlockHash) (s : DelegateSig) (p : Primary P E) : Primary P E :=
  Build_Primary (pl_committee p) (pl_prev_pre_prepare_hash p) h (pl_post_prepare_hash p) s
    (pl_post_prepare_sig p) (pl_post_commit_sig p) (pl_ongoing p) (pl_state_changing p)
    (pl_state p) (pl_prepare_vote p) (pl_prepare_stake p) (pl_signatures p)
    (pl_delegates_responded p) (pl_num_proposals p) (pl_timer p) (pl_timer_cancelled p)
    (pl_ext p) (pl_out p).
Definition set_post_prepare_hash (h : BlockHash) (p : Primary P E) : Primary P E :=
  Build_Primary (pl_committee p) (pl_prev_pre_prepare_hash p) (pl_pre_prepare_hash p) h
    (pl_pre_prepare_sig p) (pl_post_prepare_sig p) (pl_post_commit_sig p) (pl_ongoing p)
    (pl_state_changing p) (pl_state p) (pl_prepare_vote p) (pl_prepare_stake p)
    (pl_signatures p) (pl_delegates_responded p) (pl_num_proposals p) (pl_timer p)
    (pl_timer_cancelled p) (pl_ext p) (pl_out p).
Definition set_post_prepare_sig (s : AggSignature) (p : Primary P E) : Primary P E :=
  Build_Primary (pl_committee p) (pl_prev_pre_prepare_hash p) (pl_pre_prepare_hash p)
    (pl_post_prepare_hash p) (pl_pre_prepare_sig p) s (pl_post_commit_sig p) (pl_ongoing p)
    (pl_state_changing p) (pl_state p) (pl_prepare_vote p) (pl_prepare_stake p)
    (pl_signatures p) (pl_delegates_responded p) (pl_num_proposals p) (pl_timer p)
    (pl_timer_cancelled p) (pl_ext p) (pl_out p).
Definition set_commit_sig (s : AggSignature) (p : Primary P E) : Primary P E :=
  Build_Primary (pl_committee p) (pl_prev_pre_prepare_hash p) (pl_pre_prepare_hash p)
    (pl_post_prepare_hash p) (pl_pre_prepare_sig p) (pl_post_prepare_sig p) s (pl_ongoing p)
    (pl_state_changing p) (pl_state p) (pl_prepare_vote p) (pl_prepare_stake p)
    (pl_signatures p) (pl_delegates_responded p) (pl_num_proposals p) (pl_timer p)
    (pl_timer_cancelled p) (pl_ext p) (pl_out p).
Definition set_ongoing (b : bool) (p : Primary P E) : Primary P E :=
  Build_Primary (pl_committee p) (pl_prev_pre_prepare_hash p) (pl_pre_prepare_hash p)
    (pl_post_prepare_hash p) (pl_pre_prepare_sig p) (pl_post_prepare_sig p)
    (pl_post_commit_sig p) b (pl_state_changing p) (pl_state p) (pl_prepare_vote p)
    (pl_prepare_stake p) (pl_signatures p) (pl_delegates_responded p) (pl_num_proposals p)
    (pl_timer p) (pl_timer_cancelled p) (pl_ext p) (pl_out p).
Definition set_state_changing (b : bool) (p : Primary P E) : Primary P E :=
  Build_Primary (pl_committee p) (pl_prev_pre_prepare_hash p) (pl_pre_prepare_hash p)
    (pl_post_prepare_hash p) (pl_pre_prepare_sig p) (pl_post_prepare_sig p)
    (pl_post_commit_sig p) (pl_ongoing p) b (pl_state p) (pl_prepare_vote p)
    (pl_prepare_stake p) (pl_signatures p) (pl_delegates_responded p) (pl_num_proposals p)
    (pl_timer p) (pl_timer_cancelled p) (pl_ext p) (pl_out p).
Definition set_pl_state (st : ConsensusState.t) (p : Primary P E) : Primary P E :=
  Build_Primary (pl_committee p) (pl_prev_pre_prepare_hash p) (pl_pre_prepare_hash p)
    (pl_post_prepare_hash p) (pl_pre_prepare_sig p) (pl_post_prepare_sig p)
    (pl_post_commit_sig p) (pl_ongoing p) (pl_state_changing p) st (pl_prepare_vote p)
    (pl_prepare_stake p) (pl_signatures p) (pl_delegates_responded p) (pl_num_proposals p)
    (pl_timer p) (pl_timer_cancelled p) (pl_ext p) (pl_out p).
Definition set_tally (vote stake : Z) (sigs : gmap Z DelegateSignature) (p : Primary P E) : Primary P E :=
  Build_Primary (pl_committee p) (pl_prev_pre_prepare_hash p) (pl_pre_prepare_hash p)
    (pl_post_prepare_hash p) (pl_pre_prepare_sig p) (pl_post_prepare_sig p)
    (pl_post_commit_sig p) (pl_ongoing p) (pl_state_changing p) (pl_state p) vote stake sigs
    (pl_delegates_responded p) (pl_num_proposals p) (pl_timer p) (pl_timer_cancelled p)
    (pl_ext p) (pl_out p).
Definition set_delegates_responded (n : Z) (p : Primary P E) : Primary P E :=
  Build_Primary (pl_committee p) (pl_prev_pre_prepare_hash p) (pl_pre_prepare_hash p)
    (pl_post_prepare_hash p) (pl_pre_prepare_sig p) (pl_post_prepare_sig p)
    (pl_post_commit_sig p) (pl_ongoing p) (pl_state_changing p) (pl_state p) (pl_prepare_vote p)
    (pl_prepare_stake p) (pl_signatures p) n (pl_num_proposals p) (pl_timer p)
    (pl_timer_cancelled p) (pl_ext p) (pl_out p).
Definition set_num_proposals (n : Z) (p : Primary P E) : Primary P E :=
  Build_Primary (pl_committee p) (pl_prev_pre_prepare_hash p) (pl_pre_prepare_hash p)
    (pl_post_prepare_hash p) (pl_pre_prepare_sig p) (pl_post_prepare_sig p)
    (pl_post_commit_sig p) (pl_ongoing p) (pl_state_changing p) (pl_state p) (pl_prepare_vote p)
    (pl_prepare_stake p) (pl_signatures p) (pl_delegates_responded p) n (pl_timer p)
    (pl_timer_cancelled p) (pl_ext p) (pl_out p).
Definition set_timer (t : option ConsensusState.t) (p : Primary P E) : Primary P E :=
  Build_Primary (pl_committee p) (pl_prev_pre_prepare_hash p) (pl_pre_prepare_hash p)
    (pl_post_prepare_hash p) (pl_pre_prepare_sig p) (pl_post_prepare_sig p)
    (pl_post_commit_sig p) (pl_ongoing p) (pl_state_changing p) (pl_state p) (pl_prepare_vote p)
    (pl_prepare_stake p) (pl_signatures p) (pl_delegates_responded p) (pl_num_proposals p) t
    (pl_timer_cancelled p) (pl_ext p) (pl_out p).
Definition set_timer_cancelled (b : bool) (p : Primary P E) : Primary P E :=
  Build_Primary (pl_committee p) (pl_prev_pre_prepare_hash p) (pl_pre_prepare_hash p)
    (pl_post_prepare_hash p) (pl_pre_prepare_sig p) (pl_post_prepare_sig p)
    (pl_post_commit_sig p) (pl_ongoing p) (pl_state_changing p) (pl_state p) (pl_prepare_vote p)
    (pl_prepare_stake p) (pl_signatures p) (pl_delegates_responded p) (pl_num_proposals p)
    (pl_timer p) b (pl_ext p) (pl_out p).
Definition set_pl_ext (x : E) (p : Primary P E) : Primary P E :=
  Build_Primary (pl_committee p) (pl_prev_pre_prepare_hash p) (pl_pre_prepare_hash p)
    (pl_post_prepare_hash p) (pl_pre_prepare_sig p) (pl_post_prepare_sig p)
    (pl_post_commit_sig p) (pl_ongoing p) (pl_state_changing p) (pl_state p) (pl_prepare_vote p)
    (pl_prepare_stake p) (pl_signatures p) (pl_delegates_responded p) (pl_num_proposals p)
    (pl_timer p) (pl_timer_cancelled p) x (pl_out p).
Definition set_pl_out (o : list (paction P)) (p : Primary P E) : Primary P E :=
  Build_Primary (pl_committee p) (pl_prev_pre_prepare_hash p) (pl_pre_prepare_hash p)
    (pl_post_prepare_hash p) (pl_pre_prepare_sig p) (pl_post_prepare_sig p)
    (pl_post_commit_sig p) (pl_ongoing p) (pl_state_changing p) (pl_state p) (pl_prepare_vote p)
    (pl_prepare_stake p) (pl_signatures p) (pl_delegates_responded p) (pl_num_proposals p)
    (pl_timer p) (pl_timer_cancelled p) (pl_ext p) o.
End Setters.

(** The answers of the other delegates. *)
Inductive answer :=
| Prepares (m : StandardPhaseMessage)
| Commits (m : StandardPhaseMessage)
| Rejects (m : RejectionMessage).
Definition answered_hash (a : answer) : BlockHash :=
  match a with
  | Prepares m | Commits m => sp_preprepare_hash m
  | Rejects m => rj_preprepare_hash m
  end.
Definition answer_signature (a : answer) : DelegateSig :=
  match a with Prepares m | Commits m => sp_signature m | Rejects m => rj_signature m end.
Inductive ProceedAction := APPROVED | REJECTED | DO_NOTHING.

Class PrimaryHooks (P E : Type) := {
  TallyPrepareMessage : Z -> M (Primary P E) unit;
  OnRejection : RejectionMessage -> Z -> M (Primary P E) unit;
  IsPrePrepareRejected : Primary P E -> bool;
  OnStateAdvanced : M (Primary P E) unit;
}.
Class PrimaryRounds (P E : Type) := {
  OnPrePrepareRejected : M (Primary P E) unit;
  OnConsensusReached : M (Primary P E) unit;
  OnQuorumFailed : M (Primary P E) unit;
}.

Section Primary.
Context {P E : Type} `{Blake2b} `{ConsensusBlock P} {B : Bls} {Hooks : PrimaryHooks P E}.
(** The validator, and the order in which the map of signatures is iterated. *)
Variables (ks : KeyStore) (sign : BlockHash -> DelegateSig).
Variable order : gmap Z DelegateSignature -> list DelegateSignature.
Abbreviation MP := (M (Primary P E)).

Definition pemit (a : paction P) : MP unit := modify (fun p => set_pl_out (a :: pl_out p) p).
Definition PSign (h : BlockHash) : MP DelegateSig := pemit (PSigns h);; mret (sign h).
Definition my_id (p : Primary P E) : Z := cm_delegate_id (pl_committee p).

(** CancelTimer: when nothing waits for the timer, its handler has been queued
    and is told not to run. *)
Definition CancelTimer : MP unit :=
  modify (fun p => match pl_timer p with
                   | Some _ => set_timer None p
                   | None => set_timer_cancelled true p
                   end).
Definition StateReadyForConsensus (p : Primary P E) : bool :=
  bool_decide (pl_state p = ConsensusState.VOID) || bool_decide (pl_state p = ConsensusState.POST_COMMIT).
(** CycleTimers, without the length of the timeout. *)
Definition CycleTimers (cancel : bool) : MP unit :=
  (if cancel then CancelTimer else mret tt);;
  modify (fun p => set_timer (Some (if StateReadyForConsensus p then ConsensusState.PRE_PREPARE
                                    else ConsensusState.POST_PREPARE)) p).

Definition TallyStandardPhaseMessage (s : DelegateSig) (remote : Z) : MP unit :=
  modify (fun p =>
    match pl_signatures p !! remote with
    | Some _ => p
    | None =>
        let w := weight_of (pl_committee p) remote in
        set_tally (amt_add (pl_prepare_vote p) (vote_weight w)) (amt_add (pl_prepare_stake p) (stake_weight w))
          (<[remote := Build_DelegateSignature remote s]> (pl_signatures p)) p
    end).
Definition Tally (a : answer) (remote : Z) : MP unit :=
  match a with
  | Rejects m => OnRejection m remote
  | Prepares m => TallyStandardPhaseMessage (sp_signature m) remote;; TallyPrepareMessage remote
  | Commits m => TallyStandardPhaseMessage (sp_signature m) remote
  end.
Definition GetHashSigned (a : answer) (p : Primary P E) : BlockHash :=
  match a with
  | Rejects m => Rejection_Hash m
  | Prepares _ => pl_pre_prepare_hash p
  | Commits _ => pl_post_prepare_hash p
  end.
Definition expected_state (a : answer) : ConsensusState.t :=
  match a with Commits _ => ConsensusState.POST_PREPARE | _ => ConsensusState.PRE_PREPARE end.

(** The delegate adds its own signature and aggregates. *)
Definition add_signature (s : DelegateSig) : MP unit :=
  modify (fun p => set_tally (pl_prepare_vote p) (pl_prepare_stake p)
                     (<[my_id p := Build_DelegateSignature (my_id p) s]> (pl_signatures p)) p).
Definition aggregate (old : AggSignature) : MP AggSignature :=
  p ← gets id;
  match AggregateSignature ks (order (pl_signatures p)) (Build_AggSignature 0 (agg_sig old)) with
  | Some agg => mret agg
  | None => halt "PrimaryDelegate::ProceedWithMessage"
  end.
Definition approve (a : answer) : MP unit :=
  p ← gets id;
  match a with
  | Commits _ =>
      s ← PSign (pl_post_prepare_hash p);
      add_signature s;;
      agg ← aggregate (pl_post_commit_sig p);
      modify (set_commit_sig agg)
  | _ =>
      add_signature (pl_pre_prepare_sig p);;
      agg ← aggregate (pl_post_prepare_sig p);
      modify (set_post_prepare_sig agg)
  end.
Definition may_approve (a : answer) (p : Primary P E) : bool :=
  match a with
  | Rejects _ => false
  | _ => ReachedQuorum (pl_committee p) (pl_prepare_vote p) (pl_prepare_stake p)
  end.
Definition may_reject (a : answer) (p : Primary P E) : bool :=
  match a with Commits _ => false | _ => IsPrePrepareRejected p end.
Definition ProceedWithMessage (a : answer) (remote : Z) : MP ProceedAction :=
  p ← gets id;
  if pl_state_changing p then mret DO_NOTHING
  else if negb (bool_decide (pl_state p = expected_state a)
                && (answered_hash a =? pl_pre_prepare_hash p)) then mret DO_NOTHING
  else if negb (Validate_single ks (GetHashSigned a p) (answer_signature a) remote) then mret DO_NOTHING
  else
    modify (fun p => set_delegates_responded (wrap 8 (pl_delegates_responded p + 1)) p);;
    Tally a remote;;
    p ← gets id;
    if may_approve a p then
      approve a;; modify (set_state_changing true);; mret APPROVED
    else if may_reject a p then modify (set_state_changing true);; mret REJECTED
    else mret DO_NOTHING.

Definition AdvanceState (st : ConsensusState.t) : MP unit :=
  modify (set_pl_state st);;
  modify (fun p => set_tally (cm_my_vote (pl_committee p)) (cm_my_stake (pl_committee p)) ∅ p);;
  modify (set_delegates_responded 0);;
  OnStateAdvanced;;
  modify (set_state_changing false).

Definition OnConsensusInitiated (block : P) (reproposing : bool) : MP unit :=
  modify (fun p => set_tally (cm_my_vote (pl_committee p)) (cm_my_stake (pl_committee p)) (pl_signatures p) p);;
  s ← PSign (cb_Hash block);
  modify (set_proposal (cb_Hash block) s);;
  modify (fun p => set_num_proposals (if reproposing then wrap 8 (pl_num_proposals p + 1) else 1) p);;
  CycleTimers false.

Context {Rounds : PrimaryRounds P E}.
(** ProcessMessage, for the three kinds of answers. *)
Definition ProcessMessage (a : answer) (remote : Z) : MP unit :=
  act ← ProceedWithMessage a remote;
  match act, a with
  | APPROVED, Prepares _ =>
      CycleTimers true;;
      p ← gets id;
      let response := Build_PostPhaseMessage (pl_pre_prepare_hash p) (pl_post_prepare_sig p) in
      modify (set_post_prepare_hash (ComputeHash response));;
      AdvanceState ConsensusState.POST_PREPARE;;
      pemit (SendPostPrepare response)
  | APPROVED, Commits _ =>
      CancelTimer;;
      p ← gets id;
      pemit (SendPostCommit (Build_PostPhaseMessage (pl_pre_prepare_hash p) (pl_post_commit_sig p)));;
      AdvanceState ConsensusState.POST_COMMIT;;
      OnConsensusReached
  | REJECTED, (Prepares _ | Rejects _) => CancelTimer;; OnPrePrepareRejected
  | _, _ => mret tt
  end.
(** OnTimeout of the timer that expects [st]; [aborted] when it was cancelled. *)
Definition OnTimeout (st : ConsensusState.t) (aborted : bool) : MP unit :=
  p ← gets id;
  if pl_timer_cancelled p then modify (set_timer_cancelled false)
  else if aborted then mret tt
  else if negb (bool_decide (pl_state p = st)) then mret tt
  else OnQuorumFailed.
End Primary.

(** ** What the proposer collects *)
Section Collecting.
Context {P E : Type} `{Blake2b} {B : Bls} {HB : BlsLaws B}.
Context {Hooks : PrimaryHooks P E}.
Variables (ks : KeyStore) (sign : BlockHash -> DelegateSig).
Variable order : gmap Z DelegateSignature -> list DelegateSignature.
Hypothesis order_perm : forall m, order m ≡ₚ (map_to_list m).*2.
Implicit Types (p : Primary P E).

(** The hooks keep to the members of their own class. *)
Definition only_ext p p' : Prop := p' = set_pl_ext (pl_ext p') p.
Class HooksLaws : Prop := {
  TallyPrepareMessage_ext remote p : wp (TallyPrepareMessage remote) (fun _ p' => only_ext p p') p;
  OnRejection_ext m remote : preserves only_ext (OnRejection m remote);
  OnStateAdvanced_ext p : wp OnStateAdvanced (fun _ p' => only_ext p p') p;
}.
Context {HL : HooksLaws}.

(** The committee, with keys for all delegates, of which the own one signs. *)
Variables (me : Z) (ds : list Delegate) (c : Committee).
Hypothesis (Hc : seated me ds c) (Hid : me ∈ positions).
Hypothesis Hkeys : forall i, i ∈ positions -> is_Some (ks !! i).
Hypothesis Hsign : forall h, Validate_single ks h (sign h) me = true.

Definition counted (sigs : gmap Z DelegateSignature) (i : Z) : bool :=
  bool_decide (i = me) || bool_decide (is_Some (sigs !! i)).
(** While a phase lasts in which the other delegates sign [h]: every signature
    that was collected is valid and from another delegate, and the tally is the
    weight of those who signed and the own. *)
Record collecting (h : BlockHash) p : Prop := {
  co_committee : pl_committee p = c;
  co_signatures i s : pl_signatures p !! i = Some s ->
    i <> me /\ ds_delegate_id s = i /\ countable_sig ks h s;
  co_vote : pl_prepare_vote p = weight_share vote_weight c (counted (pl_signatures p));
  co_stake : pl_prepare_stake p = weight_share stake_weight c (counted (pl_signatures p));
}.

Lemma share_own (f : Weight -> Z) : weight_share f c (counted ∅) = f (weight_of c me).
Proof using Hid.
  rw (share_ext _ _ _ (fun j => bool_decide (j = me) || false)).
  - by rw share_insert // share_none.
  - intros i _. by rw /counted lookup_empty.
Qed.
Lemma share_counted (f : Weight -> Z) sigs i s :
  i ∈ positions -> i <> me -> sigs !! i = None ->
  weight_share f c (counted (<[i := s]> sigs)) = weight_share f c (counted sigs) + f (weight_of c i).
Proof using Type.
  intros Hi Hne Hn. rw -(share_insert f c (counted sigs) i Hi).
  - apply share_ext. intros j _. rw /counted. destruct (decide (j = i)) as [->|Hj].
    + rw lookup_insert_eq (bool_decide_eq_true_2 (i = i)) // (bool_decide_eq_true_2 (is_Some _)) //.
      by rw orb_true_r.
    + by rw lookup_insert_ne // (bool_decide_eq_false_2 (j = i)).
  - by rw /counted Hn (bool_decide_eq_false_2 (i = me)).
Qed.
Lemma co_ext h p p' : only_ext p p' -> collecting h p -> collecting h p'.
Proof using Type. intros -> [H1 H2 H3 H4]. by split. Qed.
(** An answer is counted, once for every delegate. *)
Lemma Tally_collecting h s remote p :
  collecting h p -> remote ∈ positions -> remote <> me -> Validate_single ks h s remote = true ->
  wp (TallyStandardPhaseMessage s remote) (fun _ p' => collecting h p') p.
Proof.
  intros Hp Hr Hne Hv. rw /TallyStandardPhaseMessage. wp_steps.
  destruct (pl_signatures p !! remote) as [s'|] eqn:Es; [done|].
  destruct (share_bounds Hc (counted (<[remote := Build_DelegateSignature remote s]> (pl_signatures p)))) as [Bv Bs].
  destruct (total_bounds Hc). rw !(share_counted _ (pl_signatures p)) // in Bv, Bs.
  split; cbn; [apply Hp| | |].
  - intros i s' [[<- <-]|[_ Hs]]%lookup_insert_Some; [|by apply (co_signatures _ _ Hp)].
    split; [done|]. split; [done|]. split; [done| |done]. by apply Hkeys.
  - rw share_counted // (co_vote _ _ Hp) (co_committee _ _ Hp) /amt_add /u128 /wrap Z.mod_small //; lia.
  - rw share_counted // (co_stake _ _ Hp) (co_committee _ _ Hp) /amt_add /u128 /wrap Z.mod_small //; lia.
Qed.
(** With the own signature the collected ones aggregate, to a message that any
    backup with the same keys and weights accepts. *)
Lemma collected_aggregate h p own old :
  collecting h p -> Validate_single ks h own me = true ->
  ReachedQuorum c (pl_prepare_vote p) (pl_prepare_stake p) = true ->
  exists agg, AggregateSignature ks
      (order (<[me := Build_DelegateSignature me own]> (pl_signatures p))) (Build_AggSignature 0 old) = Some agg /\
    Validate_aggregate ks h agg = true /\ ValidateQuorum c agg = true.
Proof.
  intros Hp Hown Hq. set sigs := <[me := _]> _.
  assert (forall i s, sigs !! i = Some s -> ds_delegate_id s = i /\ countable_sig ks h s) as Hs.
  { intros i s [[<- <-]|[_ Hi]]%lookup_insert_Some; [|by apply (co_signatures _ _ Hp)].
    split; [done|]. split; [done|by apply Hkeys|done]. }
  assert (ds_delegate_id <$> order sigs ≡ₚ (map_to_list sigs).*1) as Hids.
  { rw order_perm -list_fmap_compose. apply reflexive_eq. apply list_fmap_ext.
    intros k [i s] Hin%list_elem_of_lookup_2%elem_of_map_to_list. by apply Hs. }
  destruct (AggregateSignature_valid ks h (order sigs) (Build_AggSignature 0 old)) as (agg & Eagg & Hv & Hm).
  - done.
  - intros En. assert (me ∈ (map_to_list sigs).*1) as Hin; [|by rw -Hids En in Hin; apply not_elem_of_nil in Hin].
    apply list_elem_of_fmap. eexists (me, _). split; [done|]. apply elem_of_map_to_list, lookup_insert_eq.
  - rw Hids. apply NoDup_fst_map_to_list.
  - rw order_perm. apply Forall_fmap, Forall_forall. intros [i s] Hin%elem_of_map_to_list. by apply (Hs i).
  - exists agg. split; [done|]. split; [done|]. apply (ValidateQuorum_share Hc).
    assert (forall i, i ∈ positions -> signed_by agg i = counted (pl_signatures p) i) as Heq.
    { intros i Hi. rw Hm; [|apply elem_of_seqZ in Hi; lia].
      rw (bool_decide_ext _ (is_Some (sigs !! i))).
      - rw /counted -bool_decide_or. apply bool_decide_ext. rw lookup_insert_is_Some.
        split; [intros [->|[_ ?]]; by auto|].
        intros [->|?]; [by left|]. destruct (decide (me = i)); by auto.
      - rw Hids list_elem_of_fmap. split.
        + intros ([j s] & -> & Hin%elem_of_map_to_list). by exists s.
        + intros [s Hin]. exists (i, s). by rw elem_of_map_to_list. }
    rw !(share_ext _ _ _ _ Heq) -(co_vote _ _ Hp) -(co_stake _ _ Hp).
    by apply andb_true_iff in Hq as [?%Z.leb_le ?%Z.leb_le].
Qed.

(** A new state begins with the own weight and no signature. *)
Lemma AdvanceState_collecting st h p :
  pl_committee p = c -> wp (AdvanceState st) (fun _ p' => collecting h p' /\ pl_state p' = st) p.
Proof.
  intros Hp. rw /AdvanceState. wp_steps. eapply wpg_mono; [apply OnStateAdvanced_ext|].
  intros [] p' Hx. wp_steps. rw Hx. destruct (seated_mine Hc Hid) as [Ev Es].
  split; [|done]. split; cbn; [done|by intros i s; rw lookup_empty|..]; by rw share_own Hp ?Ev ?Es.
Qed.
(** What ProceedWithMessage makes of an answer to the current proposal. *)
Definition answer_outcome (a : answer) p (act : ProceedAction) p' : Prop :=
  match act with
  | APPROVED =>
      pl_state_changing p' = true /\ pl_pre_prepare_hash p' = pl_pre_prepare_hash p /\
      endorsed ks c (pl_pre_prepare_hash p) (GetHashSigned a p)
        (Build_PostPhaseMessage (pl_pre_prepare_hash p)
           (match a with Commits _ => pl_post_commit_sig p' | _ => pl_post_prepare_sig p' end))
  | _ => collecting (GetHashSigned a p) p'
  end.
(** C4 A proposer's approval convinces the others. While it collects Prepares or
    Commits it counts every delegate once, and only signatures that are valid;
    ProceedWithMessage never halts on such an answer, and when it approves, the
    aggregate it sends next is valid for the digest that was signed and has the
    votes and the stake of a quorum, by the keys and weights that every backup
    checks it with. *)
Theorem approval_convinces_the_backups a p remote :
  (exists m, a = Prepares m \/ a = Commits m) ->
  collecting (GetHashSigned a p) p ->
  Validate_single ks (pl_pre_prepare_hash p) (pl_pre_prepare_sig p) me = true ->
  remote ∈ positions -> remote <> me ->
  exists act p', ProceedWithMessage ks sign order a remote p = Ok (act, p') /\ answer_outcome a p act p'.
Proof.
  intros Ha Hp Hpre Hr Hne.
  apply wp_ok. rw /ProceedWithMessage. wp_steps. cbv [id].
  destruct (pl_state_changing p); [by wp_steps|].
  destruct (negb _); [by wp_steps|].
  destruct (Validate_single ks (GetHashSigned a p) (answer_signature a) remote) eqn:Hv; cbn [negb];
    [|by wp_steps].
  wp_steps. set p1 := set_delegates_responded _ p.
  assert (collecting (GetHashSigned a p) p1) as Hp1 by by destruct Hp.
  assert (wp (Tally a remote) (fun _ p' => collecting (GetHashSigned a p) p' /\
            pl_pre_prepare_hash p' = pl_pre_prepare_hash p /\ pl_pre_prepare_sig p' = pl_pre_prepare_sig p /\
            pl_post_prepare_hash p' = pl_post_prepare_hash p) p1) as Ht.
  { assert (wp (TallyStandardPhaseMessage (answer_signature a) remote) (fun _ p' =>
      collecting (GetHashSigned a p) p' /\
      pl_pre_prepare_hash p' = pl_pre_prepare_hash p /\ pl_pre_prepare_sig p' = pl_pre_prepare_sig p /\
      pl_post_prepare_hash p' = pl_post_prepare_hash p) p1) as Hs.
    { apply wpg_conj; [by apply Tally_collecting|]. rw /TallyStandardPhaseMessage. wp_steps.
      by case_match. }
    destruct Ha as [m [-> | ->]]; cbn [Tally answer_signature] in Hs |- *; [|exact Hs]. wp_steps.
    eapply wpg_mono; [exact Hs|]. intros [] p2 (H2 & E1 & E2 & E3).
    eapply wpg_mono; [apply TallyPrepareMessage_ext|]. intros [] p3 Hx.
    split; [by eapply co_ext|]. rw Hx. done. }
  eapply wpg_mono; [exact Ht|]. intros [] p2 (H2 & E1 & E2 & E3). wp_steps. cbv [id].
  destruct (may_approve a p2) eqn:Hq.
  - assert (ReachedQuorum c (pl_prepare_vote p2) (pl_prepare_stake p2) = true) as Hq2.
    { rw -(co_committee _ _ H2). by destruct Ha as [m [-> | ->]]. }
    assert (my_id p2 = me) as Hme by (rw /my_id (co_committee _ _ H2); exact (seated_id Hc)).
    destruct Ha as [m [-> | ->]]; rw /approve /add_signature /aggregate /PSign /pemit; wp_steps; cbv [id];
      cbn [pl_signatures set_tally set_pl_out pl_post_prepare_hash GetHashSigned] in H2 |- *.
    + destruct (collected_aggregate _ p2 (pl_pre_prepare_sig p2) (agg_sig (pl_post_prepare_sig p2)) H2)
        as (agg & Eagg & Hva & Hqa); [by rw E2|done|].
      rw Hme Eagg. wp_steps. split; [done|]. split; [done|]. by split.
    + destruct (collected_aggregate _ p2 (sign (pl_post_prepare_hash p2)) (agg_sig (pl_post_commit_sig p2)) H2)
        as (agg & Eagg & Hva & Hqa); [by rw E3|done|].
      change (my_id (set_pl_out (PSigns (pl_post_prepare_hash p2) :: pl_out p2) p2)) with (my_id p2).
      rw Hme Eagg. wp_steps. split; [done|]. split; [done|]. by split.
  - destruct (may_reject a p2); wp_steps; [|done]. by destruct H2.
Qed.
End Collecting.

(** The methods of the base class, which the managers of archive blocks inherit. *)
Definition base_hooks {P E} : PrimaryHooks P E := {|
  TallyPrepareMessage _ := mret tt;
  OnRejection _ _ := mret tt;
  IsPrePrepareRejected _ := false;
  OnStateAdvanced := mret tt;
|}.
Lemma only_ext_refl {P E} (p : Primary P E) : only_ext p p.
Proof. by destruct p. Qed.
#[global] Instance base_hooks_laws {P E} : HooksLaws (Hooks := base_hooks (P := P) (E := E)).
Proof. split; [|intros m remote p|]; intros; apply only_ext_refl. Qed.

(** ** An approval

    Two delegates with one vote each: the Prepare of the other one is enough. *)
Module PrimaryExamples.
#[local] Instance SB : Bls := sum_bls.
#[local] Instance BB : Blake2b := encode_blake2b.
#[local] Instance BH : PrimaryHooks ApprovedRB unit := base_hooks.
Definition two_delegates : list Delegate := unit_delegates 2.
Definition two_committee : Committee := OnCurrentEpochSet two_delegates (new_committee 0).
Lemma two_seated : seated 0 two_delegates two_committee.
Proof. by split; [|vm_compute|apply unit_delegates_nonneg|vm_compute; split|vm_compute; split]. Qed.
Definition all_keys : KeyStore := list_to_map ((fun i => (i, i + 1)) <$> positions).
Lemma all_keys_known i : i ∈ positions -> is_Some (all_keys !! i).
Proof.
  revert i. apply Forall_forall. apply (bool_decide_eq_true _). vm_compute. reflexivity.
Qed.
Definition own_sign (h : BlockHash) : DelegateSig := sig_serialize (1, h).
Definition proposing : Primary ApprovedRB unit :=
  Build_Primary two_committee 0 77 0 (own_sign 77) AggSignature_clear AggSignature_clear true false
    ConsensusState.PRE_PREPARE 1 1 ∅ 0 1 (Some ConsensusState.PRE_PREPARE) false tt [].
Definition its_prepare : StandardPhaseMessage := Build_StandardPhaseMessage 77 (sig_serialize (2, 77)).
Definition any_order (m : gmap Z DelegateSignature) : list DelegateSignature := (map_to_list m).*2.
Example approval_convinces_the_backups_witness :
  exists act p', ProceedWithMessage all_keys own_sign any_order (Prepares its_prepare) 1 proposing
                 = Ok (act, p') /\ act = APPROVED /\
    answer_outcome all_keys 0 two_committee (Prepares its_prepare) proposing act p'.
Proof.
  destruct (approval_convinces_the_backups all_keys own_sign any_order (fun m => reflexivity _) 0
              two_delegates two_committee two_seated ltac:(apply (bool_decide_eq_true _); vm_compute; reflexivity)
              all_keys_known (fun h => Z.eqb_refl h) (Prepares its_prepare) proposing 1)
    as (act & p' & E & Ho).
  - exists its_prepare. by left.
  - split; [done|by intros i s; rw lookup_empty|vm_compute; reflexivity..].
  - reflexivity.
  - apply (bool_decide_eq_true _). vm_compute. reflexivity.
  - lia.
  - exists act, p'. split; [exact E|]. split; [|exact Ho].
    apply (f_equal (fun r => match r with Ok (a, _) => a | Halt _ => DO_NOTHING end)) in E.
    vm_compute in E. by rw -E.
Defined.
End PrimaryExamples.
