(* ===== verification/RequestQueue.v ===== *)
(** * Queues of requests

    The queue of requests that wait to be proposed (MessageHandler and
    RequestMessageHandler of src/logos/consensus/message_handler.cpp) and the queue
    of the batches that are being proposed (RequestInternalQueue of
    request/request_internal_queue.cpp). Each operation runs under the mutex of
    its queue. *)
From stdpp Require Import base list numbers strings sorting gmap ssreflect.
From S2P Require Import Prelude Serial StakingTypes Requests Epochs TokenTypes TokenRequests Ledger ConsensusBlocks.
Open Scope Z_scope.

(** ** MessageHandler

    The entries in the order of the sequence; they are also indexed by hash, which
    is unique, and by expiration, equal ones in the order of insertion. *)
Record Entry := { en_block : Request; en_expiration : Z }.
(** A request without an origin and with an unknown type ends a batch; its hash
    is 0. *)
Inductive qitem := Item (r : Request) | Delimiter.

Section Queues.
Context `{Blake2b}.
Definition en_key (e : Entry) : BlockHash := request_hash (en_block e).
Definition Contains (h : BlockHash) (q : list Entry) : bool := bool_decide (h ∈ en_key <$> q).
Definition OnMessage (r : Request) (tp : Z) (q : list Entry) : list Entry :=
  if Contains (request_hash r) q then q else q ++ [Build_Entry r tp].
Definition erase_hash (h : BlockHash) (q : list Entry) : list Entry := filter (fun e => en_key e <> h) q.
Definition OnPostCommit_requests (rs : list Request) (q : list Entry) : list Entry :=
  foldl (fun q r => erase_hash (request_hash r) q) q rs.
Definition due (now : Z) (e : Entry) : Prop := en_expiration e <= now.
#[global] Instance due_dec now e : Decision (due now e).
Proof. rw /due. apply _. Defined.
Definition PrimaryEmpty (now : Z) (q : list Entry) : bool := bool_decide (Forall (fun e => now < en_expiration e) q).
(** The index by expiration. *)
Definition sooner (e e' : Entry) : Prop := en_expiration e <= en_expiration e'.
#[global] Instance sooner_dec e e' : Decision (sooner e e').
Proof. rw /sooner. apply _. Defined.
#[global] Instance sooner_total : Total sooner.
Proof. intros x y. rw /sooner. lia. Qed.
Definition by_expiration (q : list Entry) : list Entry := merge_sort sooner q.
(** The first expiration that is not past; [None] is Min_DT. *)
Definition GetImminentTimeout (now : Z) (q : list Entry) : option Z :=
  en_expiration <$> hd_error (filter (fun e => now <= en_expiration e) (by_expiration q)).

(** ** RequestInternalQueue *)
Definition item_hash (x : qitem) : BlockHash := match x with Item r => request_hash r | Delimiter => 0 end.
Definition PushBack (x : qitem) (q : list qitem) : list qitem := q ++ [x].
Definition InsertFront (xs q : list qitem) : list qitem := xs ++ q.
Definition Internal_Contains (h : BlockHash) (q : list qitem) : bool := bool_decide (h ∈ item_hash <$> q).
Definition Empty (q : list qitem) : bool := bool_decide (q = []).
(** PopFront erases the requests of the batch, and the end of the batch, which
    must then come first. *)
Definition erase_item (h : BlockHash) (q : list qitem) : list qitem := filter (fun x => item_hash x <> h) q.
Definition PopFront (batch : list Request) (q : list qitem) : result (list qitem) :=
  match foldl (fun q r => erase_item (request_hash r) q) q batch with
  | Delimiter :: q => Ok q
  | _ => Halt "RequestInternalQueue::PopFront"
  end.

(** RequestMessageHandler::MoveToTarget: up to [size] requests that are due, the
    earliest first, and the end of the batch. *)
Definition moved (now : Z) (size : nat) (q : list Entry) : list Entry :=
  take size (filter (due now) (by_expiration q)).
Definition MoveToTarget (now : Z) (size : nat) (q : list Entry) (target : list qitem)
  : list Entry * list qitem :=
  let es := moved now size q in
  (filter (fun e => en_key e ∉ en_key <$> es) q, target ++ ((fun e => Item (en_block e)) <$> es) ++ [Delimiter]).

(** ** What the queues keep *)
Lemma OnMessage_unique r tp q : NoDup (en_key <$> q) -> NoDup (en_key <$> OnMessage r tp q).
Proof.
  intros Hq. rw /OnMessage /Contains. case_bool_decide as Hin; [done|].
  rw fmap_app. apply NoDup_app. split; [done|]. split; [|apply NoDup_singleton].
  intros x Hx ->%list_elem_of_singleton. done.
Qed.
Lemma filter_unique (Q : Entry -> Prop) `{!forall e, Decision (Q e)} (q : list Entry) :
  NoDup (en_key <$> q) -> NoDup (en_key <$> filter Q q).
Proof.
  induction q as [|e q IH]; [done|]. cbn [fmap list_fmap]. intros [He Hq]%NoDup_cons.
  rw filter_cons. case_decide; [|by apply IH]. cbn [fmap list_fmap]. apply NoDup_cons.
  split; [|by apply IH]. intros (x & Hk & [_ Hx]%list_elem_of_filter)%list_elem_of_fmap.
  destruct He. rw Hk. by apply list_elem_of_fmap_2.
Qed.
Lemma filter_sorted (Q : Entry -> Prop) `{!forall e, Decision (Q e)} (q : list Entry) :
  StronglySorted sooner q -> StronglySorted sooner (filter Q q).
Proof.
  induction 1 as [|e q Hq IH He]; [constructor|]. rw filter_cons. case_decide; [|done].
  constructor; [done|]. apply Forall_forall. intros x [_ Hx]%list_elem_of_filter.
  by apply (proj1 (Forall_forall _ _) He).
Qed.
Lemma filter_none (Q : Entry -> Prop) `{!forall e, Decision (Q e)} (q : list Entry) :
  (forall e, e ∈ q -> ~ Q e) -> filter Q q = [].
Proof.
  induction q as [|e q IH]; intros Hq; [done|]. rw filter_cons decide_False; [|apply Hq; by left].
  apply IH. intros x Hx. apply Hq. by right.
Qed.
Lemma filter_every (Q : Entry -> Prop) `{!forall e, Decision (Q e)} (q : list Entry) :
  (forall e, e ∈ q -> Q e) -> filter Q q = q.
Proof.
  induction q as [|e q IH]; intros Hq; [done|]. rw filter_cons decide_True; [|apply Hq; by left].
  f_equal. apply IH. intros x Hx. apply Hq. by right.
Qed.
Lemma by_expiration_perm q : by_expiration q ≡ₚ q.
Proof. apply merge_sort_Permutation. Qed.
Lemma by_expiration_sorted q : StronglySorted sooner (by_expiration q).
Proof. apply StronglySorted_merge_sort; [|apply _]. intros x y z. rw /sooner. lia. Qed.

(** What is proposed next. From a queue without duplicates, MoveToTarget takes
    requests that are due, earliest first and at most as many as it may, none
    that is due remains unless that many were taken, and what it appends to the
    internal queue and what remains in the queue is what was there; the queue
    stays without duplicates. *)
Lemma due_requests_are_moved now size q target :
  NoDup (en_key <$> q) ->
  let es := moved now size q in let (rest, target') := MoveToTarget now size q target in
    target' = target ++ ((fun e => Item (en_block e)) <$> es) ++ [Delimiter] /\
    es ++ rest ≡ₚ q /\ NoDup (en_key <$> rest) /\
    Forall (due now) es /\ StronglySorted sooner es /\ (length es <= size)%nat /\
    ((length es < size)%nat -> Forall (fun e => ~ due now e) rest) /\
    (forall e e', e ∈ es -> e' ∈ rest -> due now e' -> sooner e e').
Proof.
  intros Hq es. cbn.
  set D := filter (due now) (by_expiration q).
  assert (forall e, e ∈ D <-> e ∈ q /\ due now e) as HD.
  { intros e. rw list_elem_of_filter by_expiration_perm. tauto. }
  assert (StronglySorted sooner (take size D ++ drop size D)) as Hs.
  { rw take_drop. apply filter_sorted, by_expiration_sorted. }
  assert (forall e, e ∈ es -> e ∈ D) as HesD by (intros e He; by eapply elem_of_take in He as (i & ? & _); eapply list_elem_of_lookup_2).
  destruct (submseteq_Permutation es q) as [k Hk].
  { transitivity (by_expiration q); [|by rw by_expiration_perm].
    etransitivity; [apply sublist_submseteq, sublist_take|]. apply sublist_submseteq, sublist_filter. }
  assert (NoDup (en_key <$> es ++ k)) as Hn by by rw -Hk.
  rw fmap_app in Hn. apply NoDup_app in Hn as (_ & Hdis & _).
  assert (filter (fun e => en_key e ∉ en_key <$> es) q ≡ₚ k) as Hrest.
  { rw Hk filter_app filter_none ?filter_every; [done| |].
    - intros e He Hin. apply (Hdis (en_key e)); [done|]. by apply list_elem_of_fmap_2.
    - intros e He Hin. apply Hin. by apply list_elem_of_fmap_2. }
  assert (forall e, e ∈ filter (fun e => en_key e ∉ en_key <$> es) q -> due now e -> e ∈ drop size D) as Hlate.
  { intros e [Hkey Hin]%list_elem_of_filter Hdue. assert (e ∈ D) as He by by apply HD.
    rw -(take_drop size D) in He. apply elem_of_app in He as [He|?]; [|done].
    destruct Hkey. by apply list_elem_of_fmap_2. }
  split_and!.
  - done.
  - by rw Hrest.
  - by apply filter_unique.
  - apply Forall_forall. intros e He. by apply HD, HesD.
  - by apply StronglySorted_app_1_l in Hs.
  - rw /es /moved -/D length_take. lia.
  - rw /es /moved -/D length_take. intros Hlt. apply Forall_forall. intros e He Hdue. specialize (Hlate e He Hdue).
    rw drop_ge in Hlate; [by apply not_elem_of_nil in Hlate|lia].
  - intros e e' He He' Hdue. eapply StronglySorted_app_1_elem_of; [exact Hs|exact He|by apply Hlate].
Qed.
End Queues.
