(* ===== verification/Subsets.v ===== *)
(** * Re-proposing parts of a batch

    RequestConsensusManager::GenerateSubsets of src/logos/consensus/request/
    generate_subsets.ipp: when some requests of a batch are rejected, those that
    enough delegates accept are grouped by the delegates that accept them. *)
From stdpp Require Import base list numbers strings gmap sorting ssreflect.
From S2P Require Import Prelude.
Open Scope Z_scope.

(** RequestConsensusManager::Weights: what was said of one request. *)
Record Weights := {
  ws_reject_vote : Z;
  ws_reject_stake : Z;
  ws_indirect_vote_support : Z;
  ws_indirect_stake_support : Z;
  ws_supporting_delegates : gset Z;
}.
Definition no_weights : Weights := Build_Weights 0 0 0 0 ∅.
(** Delegates, and the indexes of the requests they support. *)
Definition SupportMap : Type := gset Z * gset nat.

Section Generate.
Variables (vote stake : Z) (weights : nat -> Weights) (reached_quorum : Z -> Z -> bool).
Definition supporters (i : nat) : gset Z := ws_supporting_delegates (weights i).
Definition accepted (i : nat) : bool :=
  reached_quorum (amt_add vote (ws_indirect_vote_support (weights i)))
    (amt_add stake (ws_indirect_stake_support (weights i))).

(** The requests with the same supporters are collected. *)
Fixpoint add_index (i : nat) (l : list SupportMap) : list SupportMap :=
  match l with
  | [] => [(supporters i, {[i]})]
  | x :: l => if decide (x.1 = supporters i) then (x.1, {[i]} ∪ x.2) :: l else x :: add_index i l
  end.
Definition collect_indexes (request_count : nat) : list SupportMap :=
  foldl (fun l i => if accepted i then add_index i l else l) [] (seq 0 request_count).

(** The set [a] takes over the requests of [b] when one contains the other; the
    smaller set of delegates remains. *)
Definition merged (a b : SupportMap) : option SupportMap :=
  if decide (size b.1 < size a.1)%nat
  then if decide (b.1 ⊆ a.1) then Some (b.1, a.2 ∪ b.2) else None
  else if decide (a.1 ⊆ b.1) then Some (a.1, a.2 ∪ b.2) else None.
(** The loop over the sets after [a]. A set that is merged is erased; the iterator
    then stands on its successor and is incremented once more, which passes over
    the successor, or is undefined behind the last set. *)
Fixpoint absorb (a : SupportMap) (rest : list SupportMap) : result (SupportMap * list SupportMap) :=
  match rest with
  | [] => Ok (a, [])
  | b :: rest =>
      match merged a b with
      | None =>
          match absorb a rest with
          | Ok (a, rest) => Ok (a, b :: rest)
          | Halt why => Halt why
          end
      | Some a =>
          match rest with
          | [] => Halt "RequestConsensusManager::GenerateSubsets"
          | x :: rest =>
              match absorb a rest with
              | Ok (a, rest) => Ok (a, x :: rest)
              | Halt why => Halt why
              end
          end
      end
  end.
(** The loop over all sets; their number is fuel enough. *)
Fixpoint group (fuel : nat) (l : list SupportMap) : result (list SupportMap) :=
  match fuel, l with
  | S fuel, a :: rest =>
      match absorb a rest with
      | Ok (a, rest) =>
          match group fuel rest with
          | Ok l => Ok (a :: l)
          | Halt why => Halt why
          end
      | Halt why => Halt why
      end
  | _, _ => Ok l
  end.
Definition GenerateSubsets (request_count : nat) : result (list SupportMap) :=
  let l := collect_indexes request_count in group (length l) l.

(** ** What the groups are *)

(** Delegates that support all requests of the set, and who are all supporters of
    one of them. *)
Definition fits (x : SupportMap) : Prop :=
  (forall i, i ∈ x.2 -> x.1 ⊆ supporters i) /\ exists i, i ∈ x.2 /\ x.1 = supporters i.
Definition apart (x y : SupportMap) : Prop := x.2 ## y.2.
Definition covers (l : list SupportMap) (i : nat) : Prop := exists x, x ∈ l /\ i ∈ x.2.
Record grouping (l : list SupportMap) : Prop := {
  gr_fits : Forall fits l;
  gr_apart : StronglySorted apart l;
}.
Lemma covers_cons x l i : covers (x :: l) i <-> i ∈ x.2 \/ covers l i.
Proof.
  split.
  - intros (y & [->|Hy]%elem_of_cons & Hi); [by left|right; by exists y].
  - intros [Hi|(y & Hy & Hi)]; [exists x; by split; [left|]|exists y; by split; [right|]].
Qed.
Lemma grouping_cons x l :
  grouping (x :: l) <-> fits x /\ grouping l /\ forall i, i ∈ x.2 -> ~ covers l i.
Proof.
  split.
  - intros [[Hx Hl]%Forall_cons Ha]. apply StronglySorted_inv in Ha as [Ha Hxl].
    split; [done|]. split; [by split|]. intros i Hi (y & Hy & Hiy).
    rw Forall_forall in Hxl. by apply (Hxl y Hy i).
  - intros (Hx & [Hl Ha] & Hd). split; [by constructor|]. constructor; [done|].
    apply Forall_forall. intros y Hy i Hi Hiy. apply (Hd i Hi). by exists y.
Qed.
Lemma add_index_grouping i l :
  grouping l -> ~ covers l i ->
  grouping (add_index i l) /\ forall j, covers (add_index i l) j <-> j = i \/ covers l j.
Proof.
  induction l as [|x l IH]; intros Hg Hi; cbn [add_index].
  - split.
    + apply grouping_cons. split; [|split; [by split; constructor|by intros j _ (y & []%not_elem_of_nil & _)]].
      split; [|exists i; set_solver]. intros j Hj. set_solver.
    + intros j. rw covers_cons. split; [intros [?|?]; set_solver|intros [->|?]; set_solver].
  - apply grouping_cons in Hg as (Hx & Hg & Hd). rw covers_cons in Hi.
    case_decide as Heq.
    + split.
      * apply grouping_cons. split; [|split; [done|]].
        -- destruct Hx as [Hx1 (k & Hk & Ek)]. split; [|exists k; set_solver].
           intros j. cbn. rw elem_of_union elem_of_singleton. intros [->|Hj]; [by rw Heq|by apply Hx1].
        -- intros j. cbn. rw elem_of_union elem_of_singleton. intros [->|Hj]; [tauto|by apply Hd].
      * intros j. rw !covers_cons. cbn. rw elem_of_union elem_of_singleton. tauto.
    + destruct (IH Hg) as [Hg' Hc']; [tauto|]. split.
      * apply grouping_cons. split; [done|]. split; [done|]. intros j Hj. rw Hc'.
        intros [->|Hl]; [tauto|by apply (Hd j)].
      * intros j. rw !covers_cons Hc'. tauto.
Qed.
Lemma collect_grouping n :
  grouping (collect_indexes n) /\
  forall i, covers (collect_indexes n) i <-> (i < n)%nat /\ accepted i = true.
Proof.
  rw /collect_indexes. induction n as [|n [Hg Hc]].
  - split; [by split; constructor|]. intros i. split; [by intros (x & []%not_elem_of_nil & _)|lia].
  - rw seq_S foldl_app. cbn [foldl]. rw Nat.add_0_l. destruct (accepted n) eqn:En.
    + destruct (add_index_grouping n _ Hg) as [Hg' Hc']; [rw Hc; lia|]. split; [done|].
      intros i. rw Hc' Hc. split; [intros [->|[? ?]]; split; by [|lia]|].
      intros [Hi Ha]. destruct (decide (i = n)) as [->|]; [by left|right; split; [lia|done]].
    + split; [done|]. intros i. rw Hc. split; [intros [? ?]; split; [lia|done]|].
      intros [Hi Ha]. split; [|done]. destruct (decide (i = n)) as [->|]; [congruence|lia].
Qed.
Lemma merged_fits a b c :
  merged a b = Some c -> fits a -> fits b -> fits c /\ forall i, i ∈ c.2 <-> i ∈ a.2 \/ i ∈ b.2.
Proof.
  intros Hm [Ha1 (ka & Hka & Eka)] [Hb1 (kb & Hkb & Ekb)].
  assert ((c = (b.1, a.2 ∪ b.2) /\ b.1 ⊆ a.1) \/ (c = (a.1, a.2 ∪ b.2) /\ a.1 ⊆ b.1)) as Hc.
  { move: Hm. rw /merged. repeat case_decide; intros [= <-]; auto. }
  destruct Hc as [[-> Hs]|[-> Hs]]; (split; [|by intros i; rw elem_of_union]); split; cbn;
    try (intros i [Hi|Hi]%elem_of_union); try done.
  - etransitivity; [exact Hs|]. by apply Ha1.
  - by apply Hb1.
  - exists kb. split; [|done]. apply elem_of_union. by right.
  - by apply Ha1.
  - etransitivity; [exact Hs|]. by apply Hb1.
  - exists ka. split; [|done]. apply elem_of_union. by left.
Qed.
Lemma absorb_spec n : forall a l a' l',
  (length l <= n)%nat -> absorb a l = Ok (a', l') -> grouping (a :: l) ->
  grouping (a' :: l') /\ (length l' <= length l)%nat /\
  forall i, covers (a' :: l') i <-> covers (a :: l) i.
Proof.
  induction n as [|n IH]; intros a l a' l' Hn Hab Hg.
  { destruct l; [|cbn in Hn; lia]. by injection Hab as <- <-. }
  destruct l as [|b l]; [by injection Hab as <- <-|]. cbn [absorb length] in Hab, Hn.
  apply grouping_cons in Hg as (Ha & (Hb & Hl & Hbl)%grouping_cons & Habl).
  destruct (merged a b) as [c|] eqn:Em.
  - destruct (merged_fits a b c Em Ha Hb) as [Hc Hci].
    destruct l as [|x l]; [done|]. cbn [length] in Hn.
    destruct (absorb c l) as [[a1 l1]|] eqn:E; [|done]. injection Hab as <- <-.
    apply grouping_cons in Hl as (Hx & Hl & Hxl).
    destruct (IH c l a1 l1) as (Hg1 & Hlen & Hcov); [lia|done| |].
    { apply grouping_cons. split; [done|]. split; [done|]. intros i [Hi|Hi]%Hci Hcl.
      - apply (Habl i Hi). rw !covers_cons. tauto.
      - apply (Hbl i Hi). rw covers_cons. tauto. }
    apply grouping_cons in Hg1 as (Ha1 & Hl1 & Hd1).
    assert (forall i, i ∈ x.2 -> ~ covers (a1 :: l1) i) as Hx1.
    { intros i Hi [Hic|Hil]%Hcov%covers_cons; [|by apply (Hxl i)].
      apply Hci in Hic as [Hia|Hib]; [apply (Habl i Hia)|apply (Hbl i Hib)]; rw !covers_cons; tauto. }
    split; [|split; [cbn; lia|]].
    + apply grouping_cons. split; [done|]. split.
      * apply grouping_cons. split; [done|]. split; [done|]. intros i Hi Hc1. apply (Hx1 i Hi).
        rw covers_cons. by right.
      * intros i Hi [Hix|Hil]%covers_cons; [|by apply (Hd1 i)]. apply (Hx1 i Hix). rw covers_cons. by left.
    + intros i. specialize (Hcov i). rw !covers_cons in Hcov |- *. specialize (Hci i). tauto.
  - destruct (absorb a l) as [[a1 l1]|] eqn:E; [|done]. injection Hab as <- <-.
    destruct (IH a l a1 l1) as (Hg1 & Hlen & Hcov); [lia|done| |].
    { apply grouping_cons. split; [done|]. split; [done|]. intros i Hi Hc. apply (Habl i Hi).
      rw covers_cons. by right. }
    apply grouping_cons in Hg1 as (Ha1 & Hl1 & Hd1).
    assert (forall i, i ∈ b.2 -> ~ covers (a1 :: l1) i) as Hb1.
    { intros i Hi [Hia|Hil]%Hcov%covers_cons; [|by apply (Hbl i)].
      apply (Habl i Hia). rw covers_cons. by left. }
    split; [|split; [cbn; lia|]].
    + apply grouping_cons. split; [done|]. split.
      * apply grouping_cons. split; [done|]. split; [done|]. intros i Hi Hc. apply (Hb1 i Hi).
        rw covers_cons. by right.
      * intros i Hi [Hib|Hil]%covers_cons; [|by apply (Hd1 i)]. apply (Hb1 i Hib). rw covers_cons. by left.
    + intros i. specialize (Hcov i). rw !covers_cons in Hcov |- *. tauto.
Qed.
Lemma group_spec n : forall l l',
  group n l = Ok l' -> grouping l -> grouping l' /\ forall i, covers l' i <-> covers l i.
Proof.
  induction n as [|n IH]; intros l l' Hgr Hg; [by injection Hgr as <-|].
  destruct l as [|a l]; [by injection Hgr as <-|]. cbn [group] in Hgr.
  destruct (absorb a l) as [[a1 l1]|] eqn:Ea; [|done].
  destruct (absorb_spec (length l) a l a1 l1 ltac:(lia) Ea Hg) as (Hg1 & _ & Hc1).
  destruct (group n l1) as [l2|] eqn:E2; [|done]. injection Hgr as <-.
  apply grouping_cons in Hg1 as (Ha1 & Hl1 & Hd1). destruct (IH _ _ E2 Hl1) as [Hg2 Hc2].
  split.
  - apply grouping_cons. split; [done|]. split; [done|]. intros i Hi. rw Hc2. by apply Hd1.
  - intros i. rw -Hc1 !covers_cons Hc2. done.
Qed.
(** More fuel than sets changes nothing. *)
Lemma group_fuel n l : (length l <= n)%nat -> grouping l -> group n l = group (length l) l.
Proof.
  revert l. induction n as [n IH] using lt_wf_ind. intros l Hl Hg.
  destruct l as [|a l]; [by destruct n|]. destruct n as [|n]; [cbn in Hl; lia|].
  cbn [group length] in Hl |- *. destruct (absorb a l) as [[a1 l1]|] eqn:Ea; [|done].
  destruct (absorb_spec (length l) a l a1 l1 ltac:(lia) Ea Hg) as (Hg1 & Hlen & _).
  apply grouping_cons in Hg1 as (_ & Hg1 & _).
  by rw (IH n) // ?(IH (length l)) //; lia.
Qed.

(** Sets of which none contains another are all kept. *)
Lemma add_index_sets i l :
  (add_index i l).*1 = l.*1 ++ (if decide (supporters i ∈ l.*1) then [] else [supporters i]).
Proof.
  induction l as [|x l IH]; cbn [add_index]; [done|].
  destruct (decide (x.1 = supporters i)) as [E|E]; cbn [fmap list_fmap fst].
  - rw decide_True; [by rw app_nil_r|]. rw E. by left.
  - rw IH. cbn [app]. f_equal. f_equal.
    destruct (decide (supporters i ∈ l.*1)) as [Hi|Hi].
    + rw decide_True //. by right.
    + rw decide_False //. by intros [E'|?]%elem_of_cons; [destruct E|].
Qed.
Lemma collect_sets_differ n : NoDup (collect_indexes n).*1.
Proof.
  rw /collect_indexes. induction n as [|n IH]; [constructor|].
  rw seq_S foldl_app. cbn [foldl]. destruct (accepted _); [|done]. rw add_index_sets.
  case_decide; [by rw app_nil_r|]. apply NoDup_app. split; [done|]. split; [|apply NoDup_singleton].
  by intros x Hx ->%list_elem_of_singleton.
Qed.
Lemma group_keeps n : forall l,
  NoDup l.*1 -> (forall x y, x ∈ l -> y ∈ l -> x.1 ⊆ y.1 -> x.1 = y.1) -> group n l = Ok l.
Proof.
  induction n as [|n IH]; intros [|a l] Hd Hs; [done..|]. cbn [group].
  apply NoDup_cons in Hd as [Ha Hd].
  assert (forall b, b ∈ l -> merged a b = None) as Hm.
  { intros b Hb. assert (a.1 <> b.1) as Hne by (intros E; apply Ha; rw E; by apply list_elem_of_fmap_2).
    rw /merged. repeat case_decide; try done; destruct Hne.
    - symmetry. apply Hs; [by right|by left|done].
    - apply Hs; [by left|by right|done]. }
  assert (absorb a l = Ok (a, l)) as ->.
  { clear -Hm. induction l as [|b l IHl]; [done|]. cbn [absorb]. rw Hm; [|by left].
    rw IHl; [done|]. intros c Hc. apply Hm. by right. }
  rw IH //. intros x y Hx Hy. apply Hs; by right.
Qed.

(** C22 What is re-proposed is what enough delegates accept. GenerateSubsets
    returns, with a group for every set of supporters, when no set of supporters
    contains another. Whenever it returns, the requests in its groups are exactly
    those that reached a quorum, each in one group only; the delegates of a group
    support all its requests, and are all the supporters of one of them, so that a
    quorum stands behind the whole group. *)
Theorem subsets_are_supported request_count :
  ((forall i j, (i < request_count)%nat -> (j < request_count)%nat -> accepted i = true -> accepted j = true ->
     supporters i ⊆ supporters j -> supporters i = supporters j) ->
   exists subsets, GenerateSubsets request_count = Ok subsets) /\
  (forall subsets, GenerateSubsets request_count = Ok subsets ->
  (forall i, covers subsets i <-> (i < request_count)%nat /\ accepted i = true) /\
  (forall j k x y i, subsets !! j = Some x -> subsets !! k = Some y -> i ∈ x.2 -> i ∈ y.2 -> j = k) /\
  (forall x, x ∈ subsets ->
     (forall i, i ∈ x.2 -> x.1 ⊆ supporters i) /\ exists i, i ∈ x.2 /\ x.1 = supporters i /\ accepted i = true)).
Proof.
  destruct (collect_grouping request_count) as [Hg Hc]. split.
  { intros Hs. exists (collect_indexes request_count). apply group_keeps; [apply collect_sets_differ|].
    assert (forall x, x ∈ collect_indexes request_count ->
      exists i, x.1 = supporters i /\ (i < request_count)%nat /\ accepted i = true) as Hx.
    { intros x Hx. destruct (proj1 (Forall_forall _ _) (gr_fits _ Hg) x Hx) as [_ (i & Hi & E)].
      exists i. split; [done|]. apply Hc. by exists x. }
    intros x y (i & -> & ? & ?)%Hx (j & -> & ? & ?)%Hx. by apply Hs. }
  intros subsets Hgr.
  destruct (group_spec _ _ _ Hgr Hg) as [[Hf Ha] Hcov].
  assert (forall i, covers subsets i <-> (i < request_count)%nat /\ accepted i = true) as Hall
    by (intros i; by rw Hcov Hc).
  split; [done|]. split.
  - assert (forall j k x y i, (j < k)%nat -> subsets !! j = Some x -> subsets !! k = Some y ->
              i ∈ x.2 -> i ∈ y.2 -> False) as Hlt.
    { intros j k x y i Hjk Hj Hk Hx Hy. rw -(take_drop (S j) subsets) in Ha.
      eapply (StronglySorted_app_1_elem_of _ _ _ x y) in Ha; [by apply (Ha i)|..].
      - apply elem_of_take. exists j. by split; [|lia].
      - apply (list_elem_of_lookup_2 _ (k - S j)). rw lookup_drop.
        by replace (S j + (k - S j))%nat with k by lia. }
    intros j k x y i Hj Hk Hx Hy. destruct (lt_eq_lt_dec j k) as [[?|?]|?]; [|done|];
      exfalso; by eapply Hlt.
  - intros x Hx. destruct (proj1 (Forall_forall _ _) Hf x Hx) as [H1 (i & Hi & E)].
    split; [done|]. exists i. split; [done|]. split; [done|].
    by apply (proj1 (Hall i)); exists x.
Qed.

(** Grouping runs off the list. When two requests are accepted by different
    sets of delegates and one set contains the other, which is what merging is
    for, the iterator is incremented behind the end of the list after the second
    set has been erased: the behaviour of GenerateSubsets is undefined. *)
Lemma nested_support_is_undefined :
  accepted 0 = true -> accepted 1 = true -> supporters 0 <> supporters 1 ->
  (supporters 0 ⊆ supporters 1 \/ supporters 1 ⊆ supporters 0) ->
  GenerateSubsets 2 = Halt "RequestConsensusManager::GenerateSubsets".
Proof.
  intros H0 H1 Hne Hsub. rw /GenerateSubsets /collect_indexes. cbn [seq foldl].
  rw H0 H1. cbn [add_index fst]. rw decide_False //. cbn [length group absorb].
  assert (exists c, merged (supporters 0, {[0%nat]}) (supporters 1, {[1%nat]}) = Some c) as [c ->]; [|done].
  rw /merged. cbn [fst snd]. case_decide as Hs.
  - rw decide_True; [by eexists|]. destruct Hsub as [Hsub|?]; [|done].
    apply subseteq_size in Hsub. lia.
  - rw decide_True; [by eexists|]. destruct Hsub as [?|Hsub]; [done|].
    destruct Hne. apply leibniz_equiv. apply set_subseteq_size_equiv in Hsub; [done|lia].
Qed.
End Generate.

(** ** Concrete batches *)
Definition backed_by (ds : gset Z) : Weights := Build_Weights 0 0 8 8 ds.
Definition three_requests (i : nat) : Weights :=
  match i with 0%nat | 1%nat => backed_by {[1; 2]} | 2%nat => backed_by {[3]} | _ => no_weights end.
Definition at_least_21 (vote stake : Z) : bool := (21 <=? vote) && (21 <=? stake).
Definition two_groups : list SupportMap := [({[1; 2]}, {[1%nat; 0%nat]}); ({[3]}, {[2%nat]})].
Example subsets_are_supported_witness :
  (forall i, covers two_groups i <-> (i < 4)%nat /\ accepted 16 16 three_requests at_least_21 i = true) /\
  (forall j k x y i, two_groups !! j = Some x -> two_groups !! k = Some y -> i ∈ x.2 -> i ∈ y.2 -> j = k) /\
  (forall x, x ∈ two_groups ->
     (forall i, i ∈ x.2 -> x.1 ⊆ supporters three_requests i) /\
     exists i, i ∈ x.2 /\ x.1 = supporters three_requests i /\
               accepted 16 16 three_requests at_least_21 i = true).
Proof. apply (proj2 (subsets_are_supported 16 16 three_requests at_least_21 4)). vm_compute. reflexivity. Defined.

Definition nested_requests (i : nat) : Weights :=
  match i with 0%nat => backed_by {[1; 2]} | _ => backed_by {[1]} end.
Example nested_support_is_undefined_witness :
  GenerateSubsets 16 16 nested_requests at_least_21 2 = Halt "RequestConsensusManager::GenerateSubsets".
Proof.
  apply (nested_support_is_undefined 16 16 nested_requests at_least_21).
  - reflexivity.
  - reflexivity.
  - intros E. apply (f_equal size) in E. vm_compute in E. discriminate E.
  - right. apply (bool_decide_eq_true _). vm_compute. reflexivity.
Defined.
