(* ===== verification/RequestManager.v ===== *)
(** * The manager of request consensus

    RequestConsensusManager of src/logos/consensus/request/
    request_consensus_manager.cpp with ConsensusManager of consensus_manager.cpp:
    batches are made of the requests in the queues, proposed, and proposed again
    in parts or as a whole when they are rejected or time runs out. The hooks of
    PrimaryDelegate.v are implemented here. *)
From stdpp Require Import base list numbers strings gmap ssreflect.
From S2P Require Import Prelude Serial Lmdb StakingTypes Requests Epochs BlockStore AccountInfo Staking EpochRewards Governance Reservations TokenTypes TokenRequests Ledger Transfers RequestValidation ConsensusBlocks ConsensusMessages Committee BackupDelegate RequestBackup PrimaryDelegate RequestQueue Subsets.
Open Scope Z_scope.

(** How one request is judged when it arrives and when it is proposed:
    PersistenceManager<R>::ValidateSingleRequest and ValidateAndUpdate. *)
Class SingleValidator (S : Type) := {
  sv_ValidateSingleRequest : Request -> Z -> bool -> M S validation;
  sv_ValidateAndUpdate : Request -> Z -> bool -> M S bool;
}.
Definition manager_single `{Lmdb, Indeterminate, Blake2b} (ENABLE_ELECTIONS : bool)
    (bad_signature : Request -> bool) (current_epoch : Z) : SingleValidator Manager := {|
  sv_ValidateSingleRequest r epoch allow_duplicates :=
    ValidateRequest ENABLE_ELECTIONS bad_signature r epoch current_epoch allow_duplicates false;
  sv_ValidateAndUpdate r epoch allow_duplicates :=
    v ← ValidateAndUpdate ENABLE_ELECTIONS bad_signature r epoch current_epoch allow_duplicates;
    mret (bool_decide (v = Valid));
|}.

(** The members of RequestConsensusManager, and the queue of the message handler. *)
Record RequestManager (S : Type) := {
  rm_current_batch : PrePrepareMessage ApprovedRB;
  rm_request_queue : list qitem;
  rm_handler : list Entry;
  rm_hashes : gset BlockHash;
  rm_repropose_subset : bool;
  rm_response_weights : gmap nat Weights;
  rm_ne_reject_vote : Z;
  rm_ne_reject_stake : Z;
  rm_sequence : Z;
  rm_epoch_number : Z;
  rm_judge : S;
}.
Arguments Build_RequestManager {S}.
Arguments rm_current_batch {S}.
Arguments rm_request_queue {S}.
Arguments rm_handler {S}.
Arguments rm_hashes {S}.
Arguments rm_repropose_subset {S}.
Arguments rm_response_weights {S}.
Arguments rm_ne_reject_vote {S}.
Arguments rm_ne_reject_stake {S}.
Arguments rm_sequence {S}.
Arguments rm_epoch_number {S}.
Arguments rm_judge {S}.

Section Setters.
Context {S : Type}.
Definition set_current_batch (b : PrePrepareMessage ApprovedRB) (x : RequestManager S) :=
  Build_RequestManager b (rm_request_queue x) (rm_handler x) (rm_hashes x) (rm_repropose_subset x)
    (rm_response_weights x) (rm_ne_reject_vote x) (rm_ne_reject_stake x) (rm_sequence x)
    (rm_epoch_number x) (rm_judge x).
Definition set_request_queue (q : list qitem) (x : RequestManager S) :=
  Build_RequestManager (rm_current_batch x) q (rm_handler x) (rm_hashes x) (rm_repropose_subset x)
    (rm_response_weights x) (rm_ne_reject_vote x) (rm_ne_reject_stake x) (rm_sequence x)
    (rm_epoch_number x) (rm_judge x).
Definition set_handler (q : list Entry) (x : RequestManager S) :=
  Build_RequestManager (rm_current_batch x) (rm_request_queue x) q (rm_hashes x) (rm_repropose_subset x)
    (rm_response_weights x) (rm_ne_reject_vote x) (rm_ne_reject_stake x) (rm_sequence x)
    (rm_epoch_number x) (rm_judge x).
Definition set_rm_hashes (h : gset BlockHash) (x : RequestManager S) :=
  Build_RequestManager (rm_current_batch x) (rm_request_queue x) (rm_handler x) h (rm_repropose_subset x)
    (rm_response_weights x) (rm_ne_reject_vote x) (rm_ne_reject_stake x) (rm_sequence x)
    (rm_epoch_number x) (rm_judge x).
Definition set_repropose_subset (b : bool) (x : RequestManager S) :=
  Build_RequestManager (rm_current_batch x) (rm_request_queue x) (rm_handler x) (rm_hashes x) b
    (rm_response_weights x) (rm_ne_reject_vote x) (rm_ne_reject_stake x) (rm_sequence x)
    (rm_epoch_number x) (rm_judge x).
Definition set_response_weights (w : gmap nat Weights) (x : RequestManager S) :=
  Build_RequestManager (rm_current_batch x) (rm_request_queue x) (rm_handler x) (rm_hashes x)
    (rm_repropose_subset x) w (rm_ne_reject_vote x) (rm_ne_reject_stake x) (rm_sequence x)
    (rm_epoch_number x) (rm_judge x).
Definition set_ne_reject (vote stake : Z) (x : RequestManager S) :=
  Build_RequestManager (rm_current_batch x) (rm_request_queue x) (rm_handler x) (rm_hashes x)
    (rm_repropose_subset x) (rm_response_weights x) vote stake (rm_sequence x) (rm_epoch_number x)
    (rm_judge x).
Definition set_sequence (n : Z) (x : RequestManager S) :=
  Build_RequestManager (rm_current_batch x) (rm_request_queue x) (rm_handler x) (rm_hashes x)
    (rm_repropose_subset x) (rm_response_weights x) (rm_ne_reject_vote x) (rm_ne_reject_stake x) n
    (rm_epoch_number x) (rm_judge x).
Definition set_judge (j : S) (x : RequestManager S) :=
  Build_RequestManager (rm_current_batch x) (rm_request_queue x) (rm_handler x) (rm_hashes x)
    (rm_repropose_subset x) (rm_response_weights x) (rm_ne_reject_vote x) (rm_ne_reject_stake x)
    (rm_sequence x) (rm_epoch_number x) j.
End Setters.

Definition new_batch : PrePrepareMessage ApprovedRB :=
  Build_PrePrepareMessage (Build_ApprovedRB 255 0 0 0 0 0 [] 0) no_sig.
Definition weights_at (w : gmap nat Weights) (i : nat) : Weights := default no_weights (w !! i).

Section Manager.
Context {S : Type} {V : SingleValidator S} {Bk : Blake2b} {B : Bls}.
Variables (ks : KeyStore) (sign : BlockHash -> DelegateSig).
(** The order in which a set of indexes is iterated. *)
Variable index_order : gset nat -> list nat.
Abbreviation Proposer := (Primary ApprovedRB (RequestManager S)).
Abbreviation MM := (M (Primary ApprovedRB (RequestManager S))).
Definition modify_rm (f : RequestManager S -> RequestManager S) : MM unit :=
  modify (fun p => set_pl_ext (f (pl_ext p)) p).
Definition batch_requests (p : Proposer) : list Request := rb_requests (pp_block (rm_current_batch (pl_ext p))).

(** ** Answers to a batch *)
Definition Rejected (p : Proposer) (vote stake : Z) : bool :=
  (cm_vote_max_fault (pl_committee p) <? vote) || (cm_stake_max_fault (pl_committee p) <? stake).
Definition supported (p : Proposer) (w : Weights) : bool :=
  ReachedQuorum (pl_committee p) (amt_add (ws_indirect_vote_support w) (pl_prepare_vote p))
    (amt_add (ws_indirect_stake_support w) (pl_prepare_stake p)).
Definition settle (r : Request) : MM unit :=
  modify_rm (fun x => set_rm_hashes (rm_hashes x ∖ {[request_hash r]}) x).
Fixpoint tally_requests (i : nat) (rs : list Request) : MM unit :=
  match rs with
  | [] => mret tt
  | r :: rs =>
      p ← gets id;
      (if supported p (weights_at (rm_response_weights (pl_ext p)) i) then settle r else mret tt);;
      tally_requests (Datatypes.S i) rs
  end.
Definition TallyPrepareMessage_RB (remote : Z) : MM unit :=
  p ← gets id;
  if rm_repropose_subset (pl_ext p) then tally_requests 0 (batch_requests p) else mret tt.

(** One request in a rejection: the delegate accepts or rejects it. A map that is
    too short is read past its end. *)
Definition judge_request (map : list bool) (remote : Z) (w : Weight) (i : nat) (r : Request) : MM unit :=
  p ← gets id;
  let x := weights_at (rm_response_weights (pl_ext p)) i in
  match map !! i with
  | None => halt "RequestConsensusManager::OnRejection"
  | Some false =>
      let x := Build_Weights (ws_reject_vote x) (ws_reject_stake x)
                 (amt_add (ws_indirect_vote_support x) (vote_weight w))
                 (amt_add (ws_indirect_stake_support x) (stake_weight w))
                 ({[remote]} ∪ ws_supporting_delegates x) in
      modify_rm (fun e => set_response_weights (<[i := x]> (rm_response_weights e)) e);;
      if supported p x then settle r else mret tt
  | Some true =>
      let x := Build_Weights (amt_add (ws_reject_vote x) (vote_weight w))
                 (amt_add (ws_reject_stake x) (stake_weight w)) (ws_indirect_vote_support x)
                 (ws_indirect_stake_support x) (ws_supporting_delegates x) in
      modify_rm (fun e => set_response_weights (<[i := x]> (rm_response_weights e)) e);;
      if Rejected p (ws_reject_vote x) (ws_reject_stake x) then settle r else mret tt
  end.
Fixpoint judge_requests (map : list bool) (remote : Z) (w : Weight) (i : nat) (rs : list Request) : MM unit :=
  match rs with
  | [] => mret tt
  | r :: rs => judge_request map remote w i r;; judge_requests map remote w (Datatypes.S i) rs
  end.
Definition OnRejection_RB (m : RejectionMessage) (remote : Z) : MM unit :=
  p ← gets id;
  let w := weight_of (pl_committee p) remote in
  match rj_reason m with
  | RejectionReason.Contains_Invalid_Request =>
      modify_rm (set_repropose_subset true);;
      judge_requests (rj_rejection_map m) remote w 0 (batch_requests p)
  | RejectionReason.New_Epoch =>
      modify_rm (fun x => set_ne_reject (amt_add (rm_ne_reject_vote x) (vote_weight w))
                            (amt_add (rm_ne_reject_stake x) (stake_weight w)) x)
  | _ => mret tt
  end.
Definition IsPrePrepareRejected_RB (p : Proposer) : bool :=
  let x := pl_ext p in
  bool_decide (rm_hashes x = ∅) && rm_repropose_subset x
  || Rejected p (rm_ne_reject_vote x) (rm_ne_reject_stake x).
Definition OnStateAdvanced_RB : MM unit := modify_rm (set_response_weights ∅).
#[global] Instance Hooks_RB : PrimaryHooks ApprovedRB (RequestManager S) := {|
  TallyPrepareMessage := TallyPrepareMessage_RB;
  OnRejection := OnRejection_RB;
  IsPrePrepareRejected := IsPrePrepareRejected_RB;
  OnStateAdvanced := OnStateAdvanced_RB;
|}.

(** ** Batches *)
Definition in_rm_judge {A} (m : M S A) : MM A := fun p =>
  match m (rm_judge (pl_ext p)) with
  | Ok (a, s) => Ok (a, set_pl_ext (set_judge s (pl_ext p)) p)
  | Halt why => Halt why
  end.
Definition is_delimiter (x : qitem) : bool :=
  match x with Item r => rq_origin (base_of r) =? 0 | Delimiter => true end.
(** The loop of ConstructBatch: the requests of the batch and the queue without
    those that are not valid. *)
Fixpoint take_batch (allow_duplicates : bool) (epoch : Z) (n : nat) (q : list qitem)
  : MM (list Request * list qitem) :=
  match q with
  | [] => halt "RequestConsensusManager::ConstructBatch"
  | Delimiter :: _ => mret ([], q)
  | Item r :: q' =>
      if is_delimiter (Item r) then mret ([], q)
      else
        ok ← in_rm_judge (sv_ValidateAndUpdate r epoch allow_duplicates);
        if negb ok then take_batch allow_duplicates epoch n q'
        else
          match n with
          | O => mret ([], q)
          | Datatypes.S n =>
              rest ← take_batch allow_duplicates epoch n q';
              mret (r :: rest.1, Item r :: rest.2)
          end
  end.
Definition ConstructBatch (env : Env) (reproposing : bool) : MM unit :=
  p ← gets id;
  let x := pl_ext p in
  b ← take_batch reproposing (rm_epoch_number x) CONSENSUS_BATCH_SIZE (rm_request_queue x);
  modify_rm (set_request_queue b.2);;
  modify_rm (fun x => set_rm_hashes (list_to_set (request_hash <$> b.1) ∪ rm_hashes x) x);;
  modify_rm (set_current_batch (Build_PrePrepareMessage
    (Build_ApprovedRB (my_id p) (rm_epoch_number x) 0 (u32 (rm_sequence x)) (env_stamp env)
       (pl_prev_pre_prepare_hash p) b.1 0) no_sig)).
Definition PrePrepareGetNext (env : Env) (reproposing : bool) : MM unit :=
  modify_rm (set_ne_reject 0 0);;
  modify_rm (set_rm_hashes ∅);;
  p ← gets id;
  modify_rm (set_repropose_subset false);;
  if reproposing && negb (rm_repropose_subset (pl_ext p)) then mret tt
  else
    (if Empty (rm_request_queue (pl_ext p)) then
       modify_rm (fun x =>
         let (rest, target) := MoveToTarget (env_clock env) CONSENSUS_BATCH_SIZE (rm_handler x) (rm_request_queue x) in
         set_request_queue target (set_handler rest x))
     else mret tt);;
    ConstructBatch env reproposing.
Definition PrePreparePopFront : MM unit :=
  p ← gets id;
  match PopFront (batch_requests p) (rm_request_queue (pl_ext p)) with
  | Ok q => modify_rm (fun x => set_current_batch new_batch (set_request_queue q x))
  | Halt why => halt why
  end.
Definition set_delegates_epoch (e : Z) (b : ApprovedRB) : ApprovedRB :=
  Build_ApprovedRB (rb_primary_delegate b) (rb_epoch_number b) e (rb_sequence b) (rb_timestamp b)
    (rb_previous b) (rb_requests b) (rb_next b).
Definition InitiateConsensus (env : Env) (reproposing : bool) : MM unit :=
  PrePrepareGetNext env reproposing;;
  modify_rm (fun x => set_current_batch
    (Build_PrePrepareMessage (set_delegates_epoch (rm_epoch_number x) (pp_block (rm_current_batch x)))
       (pp_preprepare_sig (rm_current_batch x))) x);;
  p ← gets id;
  OnConsensusInitiated sign (pp_block (rm_current_batch (pl_ext p))) reproposing;;
  AdvanceState ConsensusState.PRE_PREPARE;;
  modify (fun p => let x := pl_ext p in
    set_pl_ext (set_current_batch (Build_PrePrepareMessage (pp_block (rm_current_batch x)) (pl_pre_prepare_sig p)) x) p);;
  p ← gets id;
  pemit (SendPrePrepare (rm_current_batch (pl_ext p))).

(** ** Rounds *)
Definition PrePrepareQueueEmpty (env : Env) (p : Proposer) : bool :=
  Empty (rm_request_queue (pl_ext p)) && PrimaryEmpty (env_clock env) (rm_handler (pl_ext p)).
Definition OnMessageQueued (env : Env) : MM unit :=
  p ← gets id;
  if pl_ongoing p then mret tt
  else if PrePrepareQueueEmpty env p then
    match GetImminentTimeout (env_clock env) (rm_handler (pl_ext p)) with
    | Some t => pemit (PSchedules t)
    | None => mret tt
    end
  else
    modify (set_ongoing true);;
    pemit PCancelsTimer;;
    InitiateConsensus env false.
(** Requests that arrive. The delegate that the last five bits name proposes them
    at once, the others when they are still there after REQUEST_TIMEOUT. *)
Definition DELIGATE_ID_MASK : Z := 5.
Definition REQUEST_TIMEOUT : Z := 5.
Definition DesignatedDelegate (r : Request) : Z :=
  let indicator := (if rq_previous (base_of r) =? 0 then rq_origin (base_of r) else rq_previous (base_of r)) mod 256 in
  Z.land indicator (Z.shiftl 1 DELIGATE_ID_MASK - 1).
Definition QueueMessage (env : Env) (r : Request) : MM unit :=
  p ← gets id;
  let tp := env_clock env + (if DesignatedDelegate r =? my_id p then 0 else REQUEST_TIMEOUT) in
  modify_rm (fun x => set_handler (OnMessage r tp (rm_handler x)) x).
Definition IsPendingMessage (r : Request) (p : Proposer) : bool :=
  Internal_Contains (request_hash r) (rm_request_queue (pl_ext p)) || Contains (request_hash r) (rm_handler (pl_ext p)).
(** The result code; a validation that fails without a code leaves [progress]. *)
Definition HandleRequest (env : Env) (r : Request) : MM ProcessResult.t :=
  p ← gets id;
  if bool_decide (pl_state p = ConsensusState.INITIALIZING) then mret ProcessResult.initializing
  else if IsPendingMessage r p then mret ProcessResult.pending
  else
    v ← in_rm_judge (sv_ValidateSingleRequest r (rm_epoch_number (pl_ext p)) false);
    match v with
    | Valid => QueueMessage env r;; mret ProcessResult.progress
    | Invalid code =>
        let code := default ProcessResult.progress code in
        (if MissingBlock code then pemit PBootstraps else mret tt);;
        mret code
    end.
Definition OnDelegateMessage (env : Env) (r : Request) : MM ProcessResult.t :=
  code ← HandleRequest env r;
  (if decide (code = ProcessResult.progress) then OnMessageQueued env else mret tt);;
  mret code.
Fixpoint handle_requests (env : Env) (rs : list Request) : MM (list (ProcessResult.t * BlockHash)) :=
  match rs with
  | [] => mret []
  | r :: rs =>
      code ← HandleRequest env r;
      rest ← handle_requests env rs;
      mret ((code, if decide (code = ProcessResult.progress) then request_hash r else 0) :: rest)
  end.
Definition OnSendRequest (env : Env) (rs : list Request) : MM (list (ProcessResult.t * BlockHash)) :=
  response ← handle_requests env rs;
  (if existsb (fun x => bool_decide (x.1 = ProcessResult.progress)) response
   then OnMessageQueued env else mret tt);;
  mret response.

Definition BeginNextRound (env : Env) : MM unit :=
  p ← gets id;
  modify (set_prev_hash (pl_pre_prepare_hash p));;
  PrePreparePopFront;;
  modify (set_ongoing false);;
  OnMessageQueued env.
Definition OnConsensusReached_RB (env : Env) : MM unit :=
  modify_rm (fun x => set_sequence (wrap 64 (rm_sequence x + 1)) x);;
  p ← gets id;
  let block := Block_of_PrePrepare (rm_current_batch (pl_ext p)) (pl_post_prepare_sig p) (pl_post_commit_sig p) in
  pemit (PStores block);;
  pemit (PCallbacks block);;
  pemit (PBroadcasts block);;
  BeginNextRound env.
Definition ProceedWithRePropose (env : Env) : bool :=
  match env_notifier env with
  | None => false
  | Some n =>
      bool_decide (nt_state n = EpochTransitionState.None) && bool_decide (nt_delegate n = EpochTransitionDelegate.None)
      || bool_decide (nt_connection n = EpochConnection.Transitioning)
  end.
Definition OnQuorumFailed_RB (env : Env) : MM unit :=
  if negb (ProceedWithRePropose env) then mret tt
  else
    pemit EnablesP2p;;
    AdvanceState ConsensusState.VOID;;
    InitiateConsensus env true.
(** The requests of a group, and the end of a batch. *)
Definition requeue (rs : list Request) (x : SupportMap) : list qitem :=
  omap (fun i => Item <$> rs !! i) (index_order x.2) ++ [Delimiter].
Definition OnPrePrepareRejected_RB (env : Env) : MM unit :=
  match env_notifier env with
  | None => mret tt
  | Some _ =>
      p ← gets id;
      let x := pl_ext p in
      massert (bool_decide (pl_state p = ConsensusState.PRE_PREPARE)) "RequestConsensusManager::OnPrePrepareRejected";;
      if Rejected p (rm_ne_reject_vote x) (rm_ne_reject_stake x) then
        modify_rm (set_ne_reject 0 0);;
        pemit ForwardsToNewEpoch
      else
        match GenerateSubsets (pl_prepare_vote p) (pl_prepare_stake p)
                (weights_at (rm_response_weights x)) (ReachedQuorum (pl_committee p))
                (length (batch_requests p)) with
        | Halt why => halt why
        | Ok subsets =>
            let requests := mjoin (requeue (batch_requests p) <$> subsets) in
            let requests := if Empty requests then [Delimiter] else requests in
            PrePreparePopFront;;
            modify_rm (fun x => set_request_queue (InsertFront requests (rm_request_queue x)) x);;
            AdvanceState ConsensusState.VOID;;
            InitiateConsensus env true
        end
  end.
#[global] Instance Rounds_RB (env : Env) : PrimaryRounds ApprovedRB (RequestManager S) := {|
  OnPrePrepareRejected := OnPrePrepareRejected_RB env;
  OnConsensusReached := OnConsensusReached_RB env;
  OnQuorumFailed := OnQuorumFailed_RB env;
|}.
End Manager.

Arguments Hooks_RB {S Bk}.
