(* ===== verification/RequestRounds.v ===== *)
(** * Rounds of request consensus

    What the manager of request consensus (RequestManager.v) proposes, and how
    the answers can end a proposal. *)
From stdpp Require Import base list numbers strings sorting gmap ssreflect.
From S2P Require Import Prelude Serial Lmdb StakingTypes Requests Epochs BlockStore AccountInfo Staking EpochRewards Governance Reservations TokenTypes TokenRequests Ledger Transfers RequestValidation ConsensusBlocks ConsensusMessages Committee BackupDelegate RequestBackup BackupSessions PrimaryDelegate RequestQueue Subsets RequestManager.
Open Scope Z_scope.

(** An outcome that is known not to be a halt. *)
Lemma wpg_total {S A} (H : Prop) (m : M S A) (Q Q' : A -> S -> Prop) s :
  wpg H m Q s -> ~ H -> (forall a s', Q a s' -> Q' a s') -> wp m Q' s.
Proof. rw /wpg. destruct (m s) as [[]|]; auto. Qed.

Section Rounds.
Context {S : Type} {V : SingleValidator S} {Bk : Blake2b} {B : Bls}.
Variables (ks : KeyStore) (sign : BlockHash -> DelegateSig).
Variable order : gmap Z DelegateSignature -> list DelegateSignature.
Abbreviation Proposer := (Primary ApprovedRB (RequestManager S)).
Implicit Types (p : Primary ApprovedRB (RequestManager S)) (q : list qitem) (rs : list Request).

(** ** The hooks of the primary delegate *)
Lemma only_ext_set (x : RequestManager S) p p' : only_ext p p' -> only_ext p (set_pl_ext x p').
Proof. rw /only_ext. intros ->. done. Qed.
Lemma modify_rm_only_ext {H} f p p0 : only_ext p0 p -> wpg H (modify_rm (S := S) f) (fun _ p' => only_ext p0 p') p.
Proof. intros Hp. rw /modify_rm. wp_steps. by apply only_ext_set. Qed.
Lemma tally_requests_ext i rs p p0 : only_ext p0 p -> wp (tally_requests i rs) (fun _ p' => only_ext p0 p') p.
Proof.
  revert i p. induction rs as [|r rs IH]; intros i p Hp; [done|]. cbn [tally_requests]. wp_steps.
  case_match; wp_steps; [|by apply IH].
  eapply wpg_mono; [by apply modify_rm_only_ext|]. intros [] p'. apply IH.
Qed.
Lemma modify_rm_keeps f : preserves only_ext (modify_rm (S := S) f).
Proof. intros p. apply modify_rm_only_ext, only_ext_refl. Qed.
Lemma only_ext_trans p1 p2 p3 : only_ext p1 p2 -> only_ext p2 p3 -> only_ext p1 p3.
Proof. rw /only_ext. intros -> ->. done. Qed.
Lemma judge_requests_keeps (map : list bool) (remote : Z) (w : Weight) (i : nat) rs p p0 :
  only_ext p0 p -> wlp (judge_requests map remote w i rs) (fun _ p' => only_ext p0 p') p.
Proof.
  revert i p. induction rs as [|r rs IH]; intros i p Hp; [done|]. cbn [judge_requests]. wp_steps.
  eapply (wpg_mono _ _ (fun _ p' => only_ext p0 p')); [|intros [] p'; apply IH].
  rw /judge_request. wp_steps. case_match; [|by wp_steps].
  case_match; wp_steps; (eapply wpg_mono; [by apply modify_rm_only_ext|]); intros [] p' Hp';
    case_match; wp_steps; try done; by apply modify_rm_only_ext.
Qed.
#[global] Instance Hooks_RB_laws : HooksLaws (Hooks := Hooks_RB (S := S)).
Proof.
  split.
  - intros remote p. cbn. rw /TallyPrepareMessage_RB. wp_steps. case_match; [|wp_steps; apply only_ext_refl].
    apply tally_requests_ext, only_ext_refl.
  - intros m remote p. cbn. rw /OnRejection_RB. wp_steps. cbv [id]. case_match; wp_steps; try apply only_ext_refl.
    + eapply wpg_mono; [apply modify_rm_keeps|]. intros [] p'. apply judge_requests_keeps.
    + apply modify_rm_keeps.
  - intros p. by apply (modify_rm_only_ext (H := False)), only_ext_refl.
Qed.

(** ** A proposal that one delegate rejects

    ProceedWithMessage on the same answer, again and again. *)
Fixpoint resend (n : nat) (a : answer) (remote : Z) : M Proposer ProceedAction :=
  match n with
  | O => ProceedWithMessage ks sign order a remote
  | Datatypes.S n => ProceedWithMessage ks sign order a remote;; resend n a remote
  end.

Section Rejecting.
Variables (m : RejectionMessage) (remote : Z).
Hypothesis Hreason : rj_reason m = RejectionReason.New_Epoch.
Hypothesis Hsig : Validate_single ks (Rejection_Hash m) (rj_signature m) remote = true.

(** The proposal is open, and the rejection answers it. *)
Record rejecting p : Prop := {
  re_state : pl_state p = ConsensusState.PRE_PREPARE;
  re_open : pl_state_changing p = false;
  re_hash : rj_preprepare_hash m = pl_pre_prepare_hash p;
  re_width : in_width 128 (rm_ne_reject_vote (pl_ext p));
  re_fault : 0 <= cm_vote_max_fault (pl_committee p);
  re_weight : 0 < vote_weight (weight_of (pl_committee p) remote);
  re_total : cm_vote_max_fault (pl_committee p) + vote_weight (weight_of (pl_committee p) remote) < 2 ^ 128;
}.
Lemma rejection_counts p :
  rejecting p ->
  wp (ProceedWithMessage ks sign order (Rejects m) remote) (fun act p' =>
    act = REJECTED \/
    act = DO_NOTHING /\ rejecting p' /\ pl_committee p' = pl_committee p /\
    rm_ne_reject_vote (pl_ext p') <= cm_vote_max_fault (pl_committee p) /\
    rm_ne_reject_vote (pl_ext p') =
      amt_add (rm_ne_reject_vote (pl_ext p)) (vote_weight (weight_of (pl_committee p) remote))) p.
Proof using Hreason Hsig.
  intros Hp. rw /ProceedWithMessage. wp_steps. cbv [id]. destruct Hp as [H1 H2 H3 H4 H5 H6 H7].
  rw H2. cbn [expected_state answered_hash GetHashSigned answer_signature].
  rw H1 H3 bool_decide_eq_true_2 // Z.eqb_refl Hsig. cbn [negb andb]. wp_steps.
  cbn [Tally OnRejection Hooks_RB]. rw /OnRejection_RB. wp_steps. cbv [id]. rw Hreason /modify_rm. wp_steps.
  cbv [id]. cbn [may_approve may_reject IsPrePrepareRejected Hooks_RB]. rw /IsPrePrepareRejected_RB /Rejected.
  cbn. destruct (_ || _) eqn:Er; wp_steps; [by left|right]. split; [done|].
  apply orb_false_iff in Er as [_ [Er%Z.ltb_ge _]%orb_false_iff].
  split; [|done]. by split; cbn; [..|apply wrap_in_width| | |].
Qed.
Lemma resend_rejects n p :
  rejecting p -> cm_vote_max_fault (pl_committee p) - rm_ne_reject_vote (pl_ext p) < Z.of_nat n ->
  rm_ne_reject_vote (pl_ext p) <= cm_vote_max_fault (pl_committee p) ->
  exists k p', resend k (Rejects m) remote p = Ok (REJECTED, p').
Proof using Hreason Hsig.
  revert p. induction n as [|n IH]; intros p Hp Hn Hle; [lia|].
  destruct (proj1 (wp_ok _ _ _) (rejection_counts p Hp)) as (act & p' & E & [->|(-> & Hp' & Ec & Hle' & Ev)]).
  - by exists 0%nat, p'.
  - destruct (IH p' Hp') as (k & p2 & E2); [| by rw Ec|].
    + destruct Hp. rw /in_width in re_width0. rw Ec Ev /amt_add /u128 /wrap Z.mod_small; lia.
    + exists (Datatypes.S k), p2. cbn [resend]. by rw /mbind /M_bind E.
Qed.
(** One delegate can end any proposal of requests. Rejections are not counted
    once for every delegate: whatever its share of the votes, a delegate that has
    any and that sends the same New_Epoch rejection often enough makes the primary
    give up an open proposal. *)
Lemma one_delegate_ends_a_proposal p :
  rejecting p -> exists n p', resend n (Rejects m) remote p = Ok (REJECTED, p').
Proof using Hreason Hsig.
  intros Hp.
  destruct (proj1 (wp_ok _ _ _) (rejection_counts p Hp)) as (act & p' & E & [->|(-> & Hp' & Ec & Hle' & Ev)]).
  - by exists 0%nat, p'.
  - destruct (resend_rejects (Z.to_nat (cm_vote_max_fault (pl_committee p) + 1)) p' Hp') as (k & p2 & E2).
    + destruct Hp'. rw Ec in re_fault0 |- *. destruct re_width0. lia.
    + by rw Ec.
    + exists (Datatypes.S k), p2. cbn [resend]. by rw /mbind /M_bind E.
Qed.
End Rejecting.

(** ** What a round proposes

    The internal queue: the requests of a batch, its end, and what follows. *)
Definition batch_queue rs q : list qitem := (Item <$> rs) ++ Delimiter :: q.
Definition proposable (r : Request) : Prop := rq_origin (base_of r) <> 0 /\ request_hash r <> 0.
(** The requests that validate, one after the other; [None] when a validation
    halts. *)
Fixpoint valid_ones (d : bool) (e : Z) rs (s : S) : option (list Request * S) :=
  match rs with
  | [] => Some ([], s)
  | r :: rs =>
      match sv_ValidateAndUpdate r e d s with
      | Halt _ => None
      | Ok (true, s') => prod_map (cons r) id <$> valid_ones d e rs s'
      | Ok (false, s') => valid_ones d e rs s'
      end
  end.
Lemma valid_ones_sublist d e rs s l s' : valid_ones d e rs s = Some (l, s') -> sublist l rs.
Proof.
  revert s l. induction rs as [|r rs IH]; intros s l; cbn; [by intros [= <- _]|].
  destruct (sv_ValidateAndUpdate r e d s) as [[[] s1]|]; [| |done].
  - intros ([l' s2] & Hl & [= -> ->])%fmap_Some_1. cbn. apply sublist_skip. by eapply IH.
  - intros ?. apply sublist_cons. by eapply IH.
Qed.

Lemma take_batch_spec d e n rs q p :
  Forall proposable rs -> (length rs <= n)%nat ->
  wpg (valid_ones d e rs (rm_judge (pl_ext p)) = None) (take_batch d e n (batch_queue rs q)) (fun b p' =>
    b.2 = batch_queue b.1 q /\
    exists s, valid_ones d e rs (rm_judge (pl_ext p)) = Some (b.1, s) /\
              p' = set_pl_ext (set_judge s (pl_ext p)) p) p.
Proof.
  revert n p. induction rs as [|r rs IH]; intros n p Hrs Hn.
  { split; [done|]. exists (rm_judge (pl_ext p)). split; [done|].
    by destruct p as [? ? ? ? ? ? ? ? ? ? ? ? ? ? ? ? ? []]. }
  apply Forall_cons in Hrs as [[Hr _] Hrs]. cbn in Hn. cbn [batch_queue fmap list_fmap app take_batch is_delimiter].
  rw (proj2 (Z.eqb_neq _ _) Hr). wp_steps. rw {1}/wpg /in_rm_judge. cbn [valid_ones].
  destruct (sv_ValidateAndUpdate r e d (rm_judge (pl_ext p))) as [[ok s]|why] eqn:Ev; [|done].
  set p1 := set_pl_ext _ p. specialize (fun n => IH n p1 Hrs).
  change (rm_judge (pl_ext p1)) with s in IH. destruct ok; cbn [negb].
  - destruct n as [|n]; [lia|]. wp_steps. specialize (IH n ltac:(lia)). rw /wpg in IH |- *.
    change ((Item <$> rs) ++ Delimiter :: q) with (batch_queue rs q).
    destruct (take_batch d e n (batch_queue rs q) p1) as [[b p']|why]; [|by rw IH].
    destruct IH as (H2 & s' & H3 & H4). wp_steps. cbn [fst snd]. rw H2 H3 H4. split; [done|]. by exists s'.
  - exact (IH n ltac:(lia)).
Qed.
Lemma erase_fresh h q : h ∉ item_hash <$> q -> erase_item h q = q.
Proof.
  induction q as [|x q IH]; [done|]. cbn [fmap list_fmap]. intros [Hx Hq]%not_elem_of_cons.
  rw /erase_item filter_cons decide_True; [f_equal; by apply IH|]. intros E. by destruct Hx.
Qed.
Lemma PopFront_batch rs q :
  Forall proposable rs -> NoDup (request_hash <$> rs) -> (forall r, r ∈ rs -> request_hash r ∉ item_hash <$> q) ->
  PopFront rs (batch_queue rs q) = Ok q.
Proof.
  rw /PopFront. intros Hrs Hn Hq.
  assert (foldl (fun q r => erase_item (request_hash r) q) (batch_queue rs q) rs = Delimiter :: q) as ->; [|done].
  induction rs as [|r rs IH]; [done|]. cbn [foldl fmap list_fmap] in *.
  apply Forall_cons in Hrs as [[_ Hr] Hrs]. apply NoDup_cons in Hn as [Hin Hn].
  etransitivity; [|apply IH; [done..|intros x Hx; apply Hq; by right]]. f_equal.
  cbn [batch_queue fmap list_fmap app]. rw {1}/erase_item filter_cons decide_False; [|by intros []].
  apply erase_fresh. rw /batch_queue fmap_app -list_fmap_compose elem_of_app fmap_cons elem_of_cons.
  intros [Hx|[Hx|Hx]]; [by destruct Hin|by cbn in Hx|]. by apply (Hq r); [left|].
Qed.

(** ConstructBatch after the first batch of the internal queue was found. *)
Lemma ConstructBatch_spec env d rs q p :
  rm_request_queue (pl_ext p) = batch_queue rs q -> Forall proposable rs ->
  (length rs <= CONSENSUS_BATCH_SIZE)%nat ->
  wpg (valid_ones d (rm_epoch_number (pl_ext p)) rs (rm_judge (pl_ext p)) = None) (ConstructBatch env d) (fun _ p' =>
    valid_ones d (rm_epoch_number (pl_ext p)) rs (rm_judge (pl_ext p)) = Some (batch_requests p', rm_judge (pl_ext p')) /\
    rm_request_queue (pl_ext p') = batch_queue (batch_requests p') q /\
    rm_handler (pl_ext p') = rm_handler (pl_ext p) /\
    rm_hashes (pl_ext p') = list_to_set (request_hash <$> batch_requests p') ∪ rm_hashes (pl_ext p) /\
    rb_previous (pp_block (rm_current_batch (pl_ext p'))) = pl_prev_pre_prepare_hash p) p.
Proof.
  intros Eq Hrs Hn. rw /ConstructBatch. wp_steps. cbv [id]. rw Eq.
  eapply wpg_mono; [by apply take_batch_spec|]. intros b p' (H2 & s & H1 & ->). rw /modify_rm. wp_steps.
  cbn. by rw H1 H2.
Qed.
(** C21 What a round of request consensus proposes. When the internal queue is empty,
    at most a batch of the requests that are due is taken from the queue, the
    earliest first; the proposal has exactly those of them that validate one after
    the other, and it extends the last block; the other requests stay queued; the
    hashes that the answers have to settle are those of the batch; and when the
    round is over the batch leaves an empty queue, without the assertion of
    PopFront. A round halts only if the validation of a request does. *)
Theorem new_round_proposes_what_is_due env p :
  rm_request_queue (pl_ext p) = [] -> NoDup (en_key <$> rm_handler (pl_ext p)) ->
  Forall (fun e => proposable (en_block e)) (rm_handler (pl_ext p)) ->
  let es := moved (env_clock env) CONSENSUS_BATCH_SIZE (rm_handler (pl_ext p)) in
  let judged := valid_ones false (rm_epoch_number (pl_ext p)) (en_block <$> es) (rm_judge (pl_ext p)) in
  wpg (judged = None) (PrePrepareGetNext env false) (fun _ p' =>
    judged = Some (batch_requests p', rm_judge (pl_ext p')) /\
    (Forall (due (env_clock env)) es /\ StronglySorted sooner es /\ (length es <= CONSENSUS_BATCH_SIZE)%nat) /\
    es ++ rm_handler (pl_ext p') ≡ₚ rm_handler (pl_ext p) /\
    rm_hashes (pl_ext p') = list_to_set (request_hash <$> batch_requests p') /\
    rb_previous (pp_block (rm_current_batch (pl_ext p'))) = pl_prev_pre_prepare_hash p /\
    wp PrePreparePopFront (fun _ p2 => rm_request_queue (pl_ext p2) = []) p') p.
Proof.
  intros Eq Hn Hok es judged. rw /PrePrepareGetNext /modify_rm. wp_steps. cbv [id]. cbn [andb].
  cbn [pl_ext set_pl_ext rm_request_queue set_repropose_subset set_rm_hashes set_ne_reject]. rw Eq.
  change (Empty []) with true. wp_steps.
  cbn [pl_ext set_pl_ext rm_request_queue rm_handler set_repropose_subset set_rm_hashes set_ne_reject]. rw Eq.
  assert (Hes := due_requests_are_moved (env_clock env) CONSENSUS_BATCH_SIZE _ [] Hn).
  destruct (MoveToTarget _ _ _ _) as [rest target] eqn:Em. cbn zeta in Hes. rw -/es in Hes.
  destruct Hes as (-> & Hperm & Hnd & Hdue & Hs & Hl & _ & _).
  assert (Forall proposable (en_block <$> es)) as Hp.
  { apply Forall_fmap. rw -Hperm Forall_app in Hok. apply Hok. }
  rw -Hperm fmap_app in Hn. apply NoDup_app in Hn as [Hn _].
  set p1 := set_pl_ext (set_request_queue _ _) _.
  eapply wpg_mono; [apply (ConstructBatch_spec env false (en_block <$> es) [] p1)|].
  - cbn. by rw /batch_queue -list_fmap_compose.
  - done.
  - by rw length_fmap.
  - intros [] p' (H1 & H2 & H3 & H4 & H5). split_and!; [exact H1|done..| | | |].
    + by rw H3.
    + rw H4. cbn. by rw union_empty_r_L.
    + done.
    + rw /PrePreparePopFront. wp_steps. cbv [id]. apply valid_ones_sublist in H1. rw H2 PopFront_batch.
      * done.
      * apply Forall_forall. intros x Hx. apply (proj1 (Forall_forall _ _) Hp). by eapply elem_of_sublist.
      * eapply sublist_NoDup; [|by apply (fmap_sublist request_hash)]. by rw -list_fmap_compose.
      * intros r _. apply not_elem_of_nil.
Qed.
End Rounds.

(** ** A round, and a delegate that rejects it

    Requests validate if they pay a fee. Two of the three are due, one of these
    pays nothing. The committee has 32 delegates with one vote each. *)
Module RoundExamples.
#[local] Instance SB : Bls := sum_bls.
#[local] Instance BB : Blake2b := encode_blake2b.
#[local] Instance paying : SingleValidator unit := {|
  sv_ValidateSingleRequest r _ _ := mret (if 0 <? rq_fee (base_of r) then Valid else Invalid None);
  sv_ValidateAndUpdate r _ _ := mret (0 <? rq_fee (base_of r));
|}.
Definition ask (origin fee : Z) : Request :=
  RSend (Build_SendRequest (Build_RequestBase origin 0 fee 0 0 0 (Build_Locator 0 0)) []).
Definition waiting_requests : list Entry := [Build_Entry (ask 5 1) 90; Build_Entry (ask 6 1) 20; Build_Entry (ask 7 0) 10].
Definition idle_manager : RequestManager unit :=
  Build_RequestManager new_batch [] waiting_requests ∅ false ∅ 0 0 4 3 tt.
Definition proposer (st : ConsensusState.t) : Primary ApprovedRB (RequestManager unit) :=
  Build_Primary (unit_committee 0 32) 66 77 0 no_sig AggSignature_clear AggSignature_clear true false
    st 1 1 ∅ 0 1 None false idle_manager [].
Definition at_30 : Env := Build_Env 30000 30 0 false None None.

Lemma waiting_unique : NoDup (en_key <$> waiting_requests).
Proof. apply (bool_decide_eq_true _). vm_compute. reflexivity. Qed.
Lemma waiting_proposable : Forall (fun e => proposable (en_block e)) waiting_requests.
Proof. apply (bool_decide_eq_true _). vm_compute. reflexivity. Qed.
Lemma waiting_due :
  valid_ones false 3 (en_block <$> moved 30 CONSENSUS_BATCH_SIZE waiting_requests) tt = Some ([ask 6 1], tt).
Proof. vm_compute. reflexivity. Qed.
Example new_round_proposes_what_is_due_witness :
  wp (PrePrepareGetNext at_30 false) (fun _ p' => batch_requests p' = [ask 6 1] /\
    wp PrePreparePopFront (fun _ p2 => rm_request_queue (pl_ext p2) = []) p') (proposer ConsensusState.VOID).
Proof.
  pose proof (new_round_proposes_what_is_due at_30 (proposer ConsensusState.VOID) (eq_refl _)
    waiting_unique waiting_proposable) as H.
  cbn [at_30 env_clock rm_handler rm_judge rm_epoch_number pl_ext proposer idle_manager] in H.
  rw waiting_due in H. apply (wpg_total _ _ _ _ _ H); [discriminate|].
  intros [] p' ([= E _] & _ & _ & _ & _ & Hpop). exact (conj (eq_sym E) Hpop).
Defined.

Definition next_epoch : RejectionMessage :=
  let m := Build_RejectionMessage 77 RejectionReason.New_Epoch [] no_sig in
  Build_RejectionMessage 77 RejectionReason.New_Epoch [] (sig_serialize (2, Rejection_Hash m)).
Definition their_keys : KeyStore := list_to_map ((fun i => (i, i + 1)) <$> positions).
Example one_delegate_ends_a_proposal_witness :
  vote_weight (weight_of (unit_committee 0 32) 1) = 1 /\ cm_vote_total (unit_committee 0 32) = 32 /\
  exists n p', resend their_keys (fun _ => no_sig) (fun m => (map_to_list m).*2) n (Rejects next_epoch) 1
                 (proposer ConsensusState.PRE_PREPARE) = Ok (REJECTED, p').
Proof.
  split; [vm_compute; reflexivity|]. split; [vm_compute; reflexivity|].
  apply one_delegate_ends_a_proposal.
  - reflexivity.
  - vm_compute. reflexivity.
  - by split; [done..| | | |]; vm_compute.
Defined.
End RoundExamples.
