(* ===== verification/Microblocks.v ===== *)
(** * Microblocks

    The chain of microblocks, which record the tips of the request chains:
    the tables micro_block_db and micro_block_tip_db and the iterators over request
    blocks (src/logos/blockstore.cpp), PersistenceManager<MBCT> (consensus/
    persistence/microblock/microblock_persistence.cpp), which validates and stores
    microblocks, and MicroBlockHandler (microblock/microblock_handler.cpp), which
    builds them. *)
From stdpp Require Import base list numbers strings gmap ssreflect.
From S2P Require Import Prelude Serial Lmdb StakingTypes Requests Epochs BlockStore AccountInfo Governance TokenTypes TokenRequests Ledger RequestValidation ConsensusBlocks BlockContainer Committee.
Open Scope Z_scope.

(** The ledger and the two tables of microblocks. *)
Record Archive `{Lmdb} := {
  ledger : Ledger;
  micro_block_db : table ApprovedMB;
  micro_block_tip_db : table Tip;
}.
Definition no_tip : Tip := Build_Tip 0 0 0.
Definition tip_of (b : ApprovedMB) (i : Z) : Tip := default no_tip (mb_tips b !! Z.to_nat i).
Definition set_mb_next (h : BlockHash) (b : ApprovedMB) : ApprovedMB :=
  Build_ApprovedMB (mb_primary_delegate b) (mb_epoch_number b) (mb_delegates_epoch_number b)
    (mb_sequence b) (mb_timestamp b) (mb_previous b) (mb_last_micro_block b)
    (mb_number_batch_blocks b) (mb_tips b) h.

(** ** The stages of validation *)
Definition MVP_PREVIOUS : Z := 2.
Definition MVP_TIPS_FIRST : Z := 3.
Definition MVP_TIPS_DONE : Z := 4.
Definition MVP_END : Z := 5.
(** [None] is a null pointer. *)
Definition before (stage : Z) (st : option ValidationStatus) : bool :=
  match st with None => true | Some s => vs_progress s <? stage end.
Definition UpdateStatusReason (r : ProcessResult.t) (st : option ValidationStatus) : option ValidationStatus :=
  (fun s => Build_ValidationStatus (vs_requests s) (Some r) (vs_progress s)) <$> st.
Definition UpdateStatusRequests (i : Z) (r : ProcessResult.t) (st : option ValidationStatus) : option ValidationStatus :=
  (fun s => Build_ValidationStatus (<[i := r]> (vs_requests s)) (vs_reason s) (vs_progress s)) <$> st.
Definition erase_request (i : Z) (st : option ValidationStatus) : option ValidationStatus :=
  (fun s => Build_ValidationStatus (delete i (vs_requests s)) (vs_reason s) (vs_progress s)) <$> st.
Definition set_progress (stage : Z) (st : option ValidationStatus) : option ValidationStatus :=
  (fun s => Build_ValidationStatus (vs_requests s) (vs_reason s) stage) <$> st.

Section Microblocks.
Context {L : Lmdb} {Bk : Blake2b}.
Abbreviation MA := (M Archive).

Definition set_micro_block_db t (a : Archive) : Archive := Build_Archive L (ledger a) t (micro_block_tip_db a).
Definition set_micro_block_tip_db t (a : Archive) : Archive := Build_Archive L (ledger a) (micro_block_db a) t.

(** ** Tables *)
Definition micro_block_get (hash : BlockHash) : MA (option ApprovedMB) := gets (fun a => mdb_get hash (micro_block_db a)).
Definition micro_block_put (b : ApprovedMB) : MA unit :=
  modify (fun a => set_micro_block_db (mdb_put (ApprovedMB_Hash b) b (micro_block_db a)) a).
Definition micro_block_tip_get : MA (option Tip) := gets (fun a => mdb_get 0 (micro_block_tip_db a)).
Definition micro_block_tip_put (t : Tip) : MA unit :=
  modify (fun a => set_micro_block_tip_db (mdb_put 0 t (micro_block_tip_db a)) a).
Definition micro_block_exists (b : ApprovedMB) : MA bool :=
  gets (fun a => negb (missing (ApprovedMB_Hash b) (micro_block_db a))).
(** consensus_block_update_next for microblocks; true when there is no such block. *)
Definition micro_block_update_next (hash next : BlockHash) : MA bool :=
  o ← micro_block_get hash;
  match o with
  | None => mret true
  | Some b => modify (fun a => set_micro_block_db (mdb_put hash (set_mb_next next b) (micro_block_db a)) a);; mret false
  end.
Definition stored_rb (a : Archive) (hash : BlockHash) : option ApprovedRB := mdb_get hash (batch_db (ledger a)).
Definition archive_epoch_tip_get : MA (option Tip) := gets (fun a => mdb_get 0 (epoch_tip_db (elections (store (ledger a))))).
Definition archive_epoch_get (hash : BlockHash) : MA (option ApprovedEB) :=
  gets (fun a => mdb_get hash (epoch_db (elections (store (ledger a))))).
Definition read {A} (why : string) (m : MA (option A)) : MA A :=
  o ← m; match o with Some x => mret x | None => halt why end.

(** ** PersistenceManager<MBCT>::Validate

    The verdict, the status, and whether bootstrapping is asked for. *)
Definition Verdict : Type := bool * option ValidationStatus * bool.
(** One tip: it is checked at first, and again if it was missing. *)
Definition check_tip (a : Archive) (b : ApprovedMB) (r : bool * option ValidationStatus) (i : Z)
  : bool * option ValidationStatus :=
  let st := r.2 in
  let t := tip_of b i in
  if before MVP_TIPS_FIRST st
     || match st with Some s => bool_decide (is_Some (vs_requests s !! i)) | None => false end
  then
    if negb (digest t =? 0) && bool_decide (stored_rb a (digest t) = None) then
      (false, UpdateStatusRequests i ProcessResult.gap_previous (UpdateStatusReason ProcessResult.invalid_request st))
    else (r.1, if before MVP_TIPS_FIRST st then st else erase_request i st)
  else r.
Definition check_tips (a : Archive) (b : ApprovedMB) (st : option ValidationStatus) : bool * option ValidationStatus :=
  foldl (check_tip a b) (true, st) positions.
(** The request blocks between two microblocks, in 32 bits. *)
Definition blocks_between (old new : ApprovedMB) : Z :=
  u32 (sumZ (fun i => n_th_block_in_epoch (mb_epoch_number new) (tip_of new i)
                      - n_th_block_in_epoch (mb_epoch_number new) (tip_of old i)) positions).
(** The last stage, when the previous microblock was read. *)
Definition validate_end (b previous : ApprovedMB) (st : option ValidationStatus) : MA Verdict :=
  let fail r : MA Verdict := mret (false, UpdateStatusReason r st, false) in
  if negb (mb_sequence b =? u32 (mb_sequence previous + 1)) then fail ProcessResult.wrong_sequence_number
  else
    tip ← read "PersistenceManager<MBCT>::Validate" micro_block_tip_get;
    if negb ((tip_epoch tip =? mb_epoch_number previous) && (tip_sqn tip =? mb_sequence previous)
             && (digest tip =? mb_previous b)) then fail ProcessResult.invalid_tip
    else if negb (blocks_between previous b =? mb_number_batch_blocks b) then fail ProcessResult.invalid_number_blocks
    else if NUM_DELEGATES <=? mb_primary_delegate b then fail ProcessResult.not_delegate
    else
      tip ← read "PersistenceManager<MBCT>::Validate" archive_epoch_tip_get;
      read "PersistenceManager<MBCT>::Validate" (archive_epoch_get (digest tip));;
      if negb (u32 (tip_epoch tip + 1) =? mb_epoch_number b) then fail ProcessResult.invalid_tip
      else mret (true, set_progress MVP_END st, false).
Definition validate_tips (b : ApprovedMB) (previous : option ApprovedMB) (st : option ValidationStatus) : MA Verdict :=
  a ← gets id;
  let r := if before MVP_TIPS_DONE st then
             let r := check_tips a b st in
             let st := set_progress MVP_TIPS_FIRST r.2 in
             if r.1 then (true, set_progress MVP_TIPS_DONE st) else (false, st)
           else (true, st) in
  if negb r.1 then mret (false, r.2, false)
  else if before MVP_END r.2 then
    p ← match previous with
        | Some p => mret p
        | None => read "PersistenceManager<MBCT>::Validate" (micro_block_get (mb_previous b))
        end;
    validate_end b p r.2
  else mret (true, r.2, false).
Definition Validate_MB (b : ApprovedMB) (st : option ValidationStatus) : MA Verdict :=
  if before MVP_PREVIOUS st then
    p ← micro_block_get (mb_previous b);
    match p with
    | None => mret (false, UpdateStatusReason ProcessResult.gap_previous st, true)
    | Some p => validate_tips b (Some p) (set_progress MVP_PREVIOUS st)
    end
  else validate_tips b None st.

(** PersistenceManager<MBCT>::ApplyUpdates *)
Definition ApplyUpdates_MB (b : ApprovedMB) : MA unit :=
  known ← micro_block_exists b;
  if (known : bool) then mret tt
  else
    micro_block_put b;;
    micro_block_tip_put (CreateTip (MB b));;
    err ← micro_block_update_next (mb_previous b) (ApprovedMB_Hash b);
    massert (negb err) "PersistenceManager<MBCT>::ApplyUpdates".

(** ** BatchBlocksIterator

    Forward along [next] while the blocks are older than [cutoff]; backward along
    [previous] until [end_]. [n] bounds the blocks of a delegate, and the flag says
    that a block was not found, which ends the iteration over all delegates. *)
Fixpoint forward (n : nat) (t : table ApprovedRB) (cutoff : Z) (hash : BlockHash) : option (list ApprovedRB * bool) :=
  match n with
  | O => None
  | S n =>
      match mdb_get hash t with
      | None => Some ([], negb (hash =? 0))
      | Some b =>
          if rb_timestamp b <? cutoff then prod_map (cons b) id <$> forward n t cutoff (rb_next b)
          else Some ([], false)
      end
  end.
Fixpoint backward (n : nat) (t : table ApprovedRB) (end_ hash : BlockHash) : option (list ApprovedRB * bool) :=
  match n with
  | O => None
  | S n =>
      match mdb_get hash t with
      | None => Some ([], negb (hash =? 0))
      | Some b =>
          if hash =? end_ then Some ([], false)
          else prod_map (cons b) id <$> backward n t end_ (rb_previous b)
      end
  end.
(** The blocks of every delegate. *)
Fixpoint iterate {A} (walk : A -> option (list ApprovedRB * bool)) (starts : list A) : option (list (list ApprovedRB)) :=
  match starts with
  | [] => Some []
  | h :: hs =>
      r ← walk h;
      if (r.2 : bool) then Some (r.1 :: replicate (length hs) []) else cons r.1 <$> iterate walk hs
  end.

(** ** MicroBlockHandler *)
Definition visited (bs : list ApprovedRB) : Tip := foldl (fun _ b => CreateTip (RB b)) no_tip bs.
Definition num_blocks (vs : list (list ApprovedRB)) : Z := u32 (sumZ (fun bs => Z.of_nat (length bs)) vs).
Definition GetTipsFast (n : nat) (a : Archive) (start : list Tip) (cutoff : Z) : option (list Tip * Z) :=
  let next t := match stored_rb a (digest t) with None => 0 | Some b => rb_next b end in
  vs ← iterate (fun t => forward n (batch_db (ledger a)) cutoff (next t)) start;
  Some (zip_with (fun t bs => if digest (visited bs) =? 0 then t else visited bs) start vs, num_blocks vs).
(** The first block that is old enough. *)
Definition old_enough (min_timestamp : Z) (bs : list ApprovedRB) : list ApprovedRB :=
  filter (fun b => rb_timestamp b <= min_timestamp) bs.
Definition newest (bs : list ApprovedRB) : Tip :=
  foldl (fun t b => if digest t =? 0 then CreateTip (RB b) else t) no_tip bs.
(** MICROBLOCK_CUTOFF_TIME, without FAST_MB_EB_TEST. *)
Definition MICROBLOCK_CUTOFF_MS : Z := 600000.
Definition GetTipsSlow (n : nat) (a : Archive) (now : Z) (ends : list (BlockHash * BlockHash)) : option (list Tip * Z) :=
  let min_timestamp := now - now mod MICROBLOCK_CUTOFF_MS - MICROBLOCK_CUTOFF_MS in
  vs ← iterate (fun x => backward n (batch_db (ledger a)) x.2 x.1) ends;
  let olds := old_enough min_timestamp <$> vs in
  Some (newest <$> olds, num_blocks olds).

(** What Build reads beside the database. *)
Record BuildEnv := {
  be_stamp : Z;
  be_cur_epoch_number : Z;
  be_past_epoch_block_time : bool;
  be_recall : bool;
}.
Definition request_tip (a : Archive) (delegate epoch : Z) : BlockHash :=
  match request_tip_get delegate epoch (ledger a) with Ok (Some t, _) => digest t | _ => 0 end.
Definition collect_tips (n : nat) (env : BuildEnv) (a : Archive) (previous : ApprovedMB) : option (list Tip * Z) :=
  if mb_epoch_number previous =? GENESIS_EPOCH then
    GetTipsSlow n a (be_stamp env)
      ((fun i => (request_tip a i (u32 (mb_epoch_number previous + 1)), digest (tip_of previous i))) <$> positions)
  else GetTipsFast n a (tip_of previous <$> positions) (mb_timestamp previous).
(** [None] when the build is aborted. *)
Definition Build (n : nat) (env : BuildEnv) : MA (option ApprovedMB) :=
  tip ← read "MicroBlockHandler::Build" micro_block_tip_get;
  previous ← read "MicroBlockHandler::Build" (micro_block_get (digest tip));
  massert (digest tip =? ApprovedMB_Hash previous) "MicroBlockHandler::Build";;
  etip ← read "MicroBlockHandler::Build" archive_epoch_tip_get;
  epoch ← read "MicroBlockHandler::Build" (archive_epoch_get (digest etip));
  let first := negb (mb_last_micro_block previous =? 0) in
  let last := negb (be_recall env)
              && ((eb_epoch_number epoch =? u32 (be_cur_epoch_number env - 2)) && be_past_epoch_block_time env) in
  if last && first then mret None
  else
    a ← gets id;
    match collect_tips n env a previous with
    | None => halt "block_store::BatchBlocksIterator"
    | Some tips =>
        mret (Some (Build_ApprovedMB 255 (if first then u32 (mb_epoch_number previous + 1) else mb_epoch_number previous)
                      0 (u32 (mb_sequence previous + 1)) (be_stamp env) (digest tip) (if last then 1 else 0)
                      tips.2 tips.1 0))
    end.
(** MicroBlockConsensusManager::PrePrepareGetNext: the proposer and the time. *)
Definition propose (id stamp : Z) (b : ApprovedMB) : ApprovedMB :=
  Build_ApprovedMB id (mb_epoch_number b) (mb_delegates_epoch_number b) (mb_sequence b) stamp (mb_previous b)
    (mb_last_micro_block b) (mb_number_batch_blocks b) (mb_tips b) (mb_next b).
End Microblocks.
