(* ===== verification/MicroblockChain.v ===== *)
(** * The chain of microblocks

    What PersistenceManager<MBCT> of Microblocks.v accepts, how the chain of
    microblocks grows, and that what MicroBlockHandler builds is accepted. *)
From stdpp Require Import base list numbers strings gmap ssreflect.
From S2P Require Import Prelude Serial Lmdb StakingTypes Requests Epochs BlockStore AccountInfo Governance TokenTypes TokenRequests Ledger RequestValidation ConsensusBlocks BlockContainer Committee Microblocks.
Open Scope Z_scope.

Section Validation.
Context {L : Lmdb} {Bk : Blake2b}.
Implicit Types (a : Archive) (b : ApprovedMB).

Definition has_tip a (t : Tip) : Prop := digest t = 0 \/ stored_rb a (digest t) <> None.
(** What is asked of a microblock. *)
Record acceptable_mb a b : Prop := {
  am_tips : Forall (fun i => has_tip a (tip_of b i)) positions;
  am_primary : mb_primary_delegate b < NUM_DELEGATES;
  am_previous : exists previous, mdb_get (mb_previous b) (micro_block_db a) = Some previous /\
    mb_sequence b = u32 (mb_sequence previous + 1) /\
    mdb_get 0 (micro_block_tip_db a) = Some (Build_Tip (mb_epoch_number previous) (mb_sequence previous) (mb_previous b)) /\
    blocks_between previous b = mb_number_batch_blocks b;
  am_epoch : exists etip, mdb_get 0 (epoch_tip_db (elections (store (ledger a)))) = Some etip /\
    mb_epoch_number b = u32 (tip_epoch etip + 1);
}.
(** The tips that the node has from its genesis on. *)
Record tips_present a : Prop := {
  tp_micro : mdb_get 0 (micro_block_tip_db a) <> None;
  tp_epoch : exists etip, mdb_get 0 (epoch_tip_db (elections (store (ledger a)))) = Some etip /\
    mdb_get (digest etip) (epoch_db (elections (store (ledger a)))) <> None;
}.
Lemma read_gets {A} (H : Prop) why (f : Archive -> option A) (Q : A -> Archive -> Prop) a x :
  f a = Some x -> Q x a -> wpg H (read why (gets f)) Q a.
Proof. intros E HQ. rw /read. apply wpg_bind, wpg_gets. by rw E. Qed.

Lemma check_tips_fresh a b st :
  before MVP_TIPS_FIRST st = true ->
  ((check_tips a b st).1 = true <-> Forall (fun i => has_tip a (tip_of b i)) positions) /\
  ((check_tips a b st).1 = true -> (check_tips a b st).2 = st).
Proof.
  intros Hst. rw /check_tips.
  assert (forall l v st', before MVP_TIPS_FIRST st' = true -> (v = true -> st' = st) ->
    let r := foldl (check_tip a b) (v, st') l in
    (r.1 = true <-> v = true /\ Forall (fun i => has_tip a (tip_of b i)) l) /\ (r.1 = true -> r.2 = st)) as Hl.
  { induction l as [|i l IH]; intros v st' Hst' Hv; [by cbn; rw Forall_nil; tauto|].
    cbn [foldl]. rw {2 4 6}/check_tip. cbn [fst snd]. rw Hst'. cbn [orb]. rw Forall_cons.
    destruct (digest (tip_of b i) =? 0) eqn:E0; cbn [negb andb].
    - apply Z.eqb_eq in E0. assert (has_tip a (tip_of b i)) by by left.
      destruct (IH v st' Hst' Hv). tauto.
    - apply Z.eqb_neq in E0. case_bool_decide as Es.
      + assert (~ has_tip a (tip_of b i)) by by intros [?|?].
        destruct (IH false (UpdateStatusRequests i ProcessResult.gap_previous (UpdateStatusReason ProcessResult.invalid_request st')));
          [by destruct st'|done|]. intuition congruence.
      + assert (has_tip a (tip_of b i)) by by right. destruct (IH v st' Hst' Hv). tauto. }
  destruct (Hl positions true st Hst (fun _ => eq_refl)). tauto.
Qed.
(** With a fresh status, or none, Validate accepts exactly what is acceptable and
    changes nothing. *)
Lemma Validate_MB_iff a b st :
  tips_present a -> before MVP_PREVIOUS st = true ->
  wp (Validate_MB b st) (fun r a' => a' = a /\ (r.1.1 = true <-> acceptable_mb a b)) a.
Proof.
  intros [Ht (etip & He & Hb)] Hst. rw /Validate_MB Hst /micro_block_get. wp_steps.
  destruct (mdb_get (mb_previous b) (micro_block_db a)) as [p|] eqn:Ep; wp_steps; cycle 1.
  { split; [done|]. split; [done|]. intros [_ _ (p & Hp & _) _]. congruence. }
  rw /validate_tips. wp_steps. cbv [id].
  assert (before MVP_TIPS_FIRST (set_progress MVP_PREVIOUS st) = true) as Hf by by destruct st.
  assert (before MVP_TIPS_DONE (set_progress MVP_PREVIOUS st) = true) as -> by by destruct st.
  destruct (check_tips_fresh a b _ Hf) as [H1 H2]. destruct (check_tips _ _ _) as [v st1]. cbn [fst snd] in *.
  destruct v; cbn [negb fst snd]; cycle 1.
  { wp_steps. split; [done|]. split; [done|]. intros [Htips _ _ _].
    by apply H1 in Htips. }
  apply proj1 in H1. specialize (H1 eq_refl). rw (H2 eq_refl).
  assert (before MVP_END (set_progress MVP_TIPS_DONE (set_progress MVP_TIPS_FIRST (set_progress MVP_PREVIOUS st))) = true)
    as -> by by destruct st.
  wp_steps. rw /validate_end /micro_block_tip_get /archive_epoch_tip_get /archive_epoch_get. set st2 := set_progress _ _.
  destruct (mb_sequence b =? u32 (mb_sequence p + 1)) eqn:Es; cbn [negb]; cycle 1.
  { wp_steps. split; [done|]. split; [done|]. apply Z.eqb_neq in Es. intros [_ _ (p' & Hp & ? & _) _]. congruence. }
  apply Z.eqb_eq in Es. destruct (mdb_get 0 (micro_block_tip_db a)) as [tip|] eqn:Et; [|done].
  wp_steps. eapply read_gets; [exact Et|]. cbn beta.
  destruct (negb _) eqn:Etip.
  { wp_steps. split; [done|]. split; [done|]. intros [_ _ (p' & Hp & _ & Hq & _) _].
    assert (p' = p) as -> by congruence. rw Et in Hq. injection Hq as ->. cbn in Etip. by rw !Z.eqb_refl in Etip. }
  apply negb_false_iff, andb_true_iff in Etip as [[E1%Z.eqb_eq E2%Z.eqb_eq]%andb_true_iff E3%Z.eqb_eq].
  destruct (blocks_between p b =? mb_number_batch_blocks b) eqn:En; cbn [negb]; cycle 1.
  { wp_steps. split; [done|]. split; [done|]. apply Z.eqb_neq in En. intros [_ _ (p' & Hp & _ & _ & ?) _]. congruence. }
  apply Z.eqb_eq in En. destruct (NUM_DELEGATES <=? mb_primary_delegate b) eqn:Ed.
  { wp_steps. split; [done|]. split; [done|]. apply Z.leb_le in Ed. intros []. lia. }
  apply Z.leb_gt in Ed. wp_steps. eapply read_gets; [exact He|]. cbn beta.
  destruct (mdb_get (digest etip) _) as [eb|] eqn:Eeb; [|done]. wp_steps. eapply read_gets; [exact Eeb|]. cbn beta.
  destruct (u32 (tip_epoch etip + 1) =? mb_epoch_number b) eqn:Ee; cbn [negb]; wp_steps; (split; [done|]).
  - apply Z.eqb_eq in Ee. split; [|done]. intros _. split; [done|done| |by exists etip].
    exists p. split; [done|]. split; [done|]. split; [|done]. destruct tip; cbn in *; by subst.
  - apply Z.eqb_neq in Ee. split; [done|]. intros [_ _ _ (etip' & He' & ?)]. congruence.
Qed.

Definition accepts a b st : Prop := wp (Validate_MB b st) (fun r _ => r.1.1 = true) a.
Lemma accepts_iff a b st :
  tips_present a -> before MVP_PREVIOUS st = true -> accepts a b st <-> acceptable_mb a b.
Proof.
  intros Ha Hst. pose proof (Validate_MB_iff a b st Ha Hst) as H. rw /accepts.
  apply wp_ok in H as (r & a' & E & -> & Hr). rw -Hr wp_ok. split.
  - by intros (? & ? & E' & ?); rw E in E'; injection E' as <- <-.
  - intros ?. by exists r, a.
Qed.

(** ** Tips and their delegates *)
Definition with_tips (ts : list Tip) b : ApprovedMB :=
  Build_ApprovedMB (mb_primary_delegate b) (mb_epoch_number b) (mb_delegates_epoch_number b)
    (mb_sequence b) (mb_timestamp b) (mb_previous b) (mb_last_micro_block b)
    (mb_number_batch_blocks b) ts (mb_next b).
Lemma all_tips b : length (mb_tips b) = Z.to_nat NUM_DELEGATES -> tip_of b <$> positions = mb_tips b.
Proof.
  intros Hl. apply list_eq. intros k. rw list_lookup_fmap.
  destruct (mb_tips b !! k) as [t|] eqn:Ek.
  - pose proof (lookup_lt_Some _ _ _ Ek). assert (positions !! k = Some (Z.of_nat k)) as ->.
    { apply lookup_seqZ. rw /NUM_DELEGATES in Hl |- *. lia. }
    by rw /= /tip_of Nat2Z.id Ek.
  - apply lookup_ge_None in Ek. rw lookup_ge_None_2 //. by rw length_seqZ -Hl.
Qed.
Lemma blocks_between_sum old new :
  length (mb_tips new) = Z.to_nat NUM_DELEGATES ->
  blocks_between old new = u32 (sumZ (n_th_block_in_epoch (mb_epoch_number new)) (mb_tips new)
    - sumZ (fun i => n_th_block_in_epoch (mb_epoch_number new) (tip_of old i)) positions).
Proof.
  intros Hl. rw /blocks_between -(all_tips new Hl) sumZ_fmap. f_equal.
  induction positions as [|i l IH]; [done|]. rw !sumZ_cons IH. lia.
Qed.
(** Validate does not tie the tips of a microblock to the delegates: it asks that
    the digests are stored and that the number of blocks is right in total, so that
    with a microblock it accepts every one in which the tips are permuted. *)
Lemma tips_are_not_tied_to_delegates a b ts st :
  tips_present a -> before MVP_PREVIOUS st = true ->
  length (mb_tips b) = Z.to_nat NUM_DELEGATES -> ts ≡ₚ mb_tips b ->
  accepts a b st -> accepts a (with_tips ts b) st.
Proof.
  intros Ha Hst Hl Hts. rw !accepts_iff //. intros [H1 H2 (p & Hp & Hq & Ht & Hn) H4].
  assert (length (mb_tips (with_tips ts b)) = Z.to_nat NUM_DELEGATES) as Hl' by by rw /= Hts.
  split; [|done| |done].
  - apply (Forall_fmap (tip_of (with_tips ts b)) (has_tip a)). rw all_tips //. cbn. rw Hts -all_tips //. by apply Forall_fmap.
  - exists p. do 3 (split; [done|]). rw -Hn !blocks_between_sum //. cbn [with_tips mb_epoch_number mb_tips]. by rw (sumZ_perm _ _ _ Hts).
Qed.

(** ** The chain grows *)
Context {LL : LmdbLaws L}.
Fixpoint linked_mbs (bs : list ApprovedMB) : Prop :=
  match bs with
  | b :: ((p :: _) as bs) =>
      mb_previous b = ApprovedMB_Hash p /\ mb_next p = ApprovedMB_Hash b /\
      mb_sequence b = u32 (mb_sequence p + 1) /\ linked_mbs bs
  | _ => True
  end.
(** The microblocks of the database, the newest first: a doubly linked list in the
    order of the sequence, which ends at the tip. *)
Record micro_chain a (bs : list ApprovedMB) : Prop := {
  mc_unique : NoDup (ApprovedMB_Hash <$> bs);
  mc_stored h x : mdb_get h (micro_block_db a) = Some x <-> x ∈ bs /\ ApprovedMB_Hash x = h;
  mc_tip : mdb_get 0 (micro_block_tip_db a) = (fun b => CreateTip (MB b)) <$> hd_error bs;
  mc_linked : linked_mbs bs;
}.
(** C14 The microblocks form a chain. When a new microblock is accepted, storing it
    does not fail, and makes it the newest in the doubly linked list of the
    microblocks in the database: its predecessor, which was the newest, leads to
    it, the tip is its own, the sequence has no gap, and nothing else changes. *)
Theorem accepted_microblock_extends_the_chain a b bs st :
  tips_present a -> before MVP_PREVIOUS st = true -> micro_chain a bs ->
  accepts a b st -> mdb_get (ApprovedMB_Hash b) (micro_block_db a) = None ->
  exists p bs' a', bs = p :: bs' /\ ApplyUpdates_MB b a = Ok (tt, a') /\
    micro_chain a' (b :: set_mb_next (ApprovedMB_Hash b) p :: bs') /\ ledger a' = ledger a.
Proof.
  intros Ha Hst [Hu Hs Ht Hl]. rw accepts_iff //. intros [_ _ (p & Hp & Hseq & Htip & _) _] Hnew.
  destruct bs as [|p0 bs]; cbn in Ht; [by rw Htip in Ht|]. rw Htip in Ht. injection Ht as _ _ Hprev.
  assert (p0 = p) as ->.
  { rw Hprev in Hp. assert (mdb_get (ApprovedMB_Hash p0) (micro_block_db a) = Some p0) as E by (apply Hs; split; [by left|done]).
    congruence. }
  assert (ApprovedMB_Hash b <> ApprovedMB_Hash p) as Hne by (intros E; rw E -Hprev in Hnew; congruence).
  assert (exists a', ApplyUpdates_MB b a = Ok (tt, a') /\ ledger a' = ledger a /\
    micro_block_tip_db a' = mdb_put 0 (CreateTip (MB b)) (micro_block_tip_db a) /\
    micro_block_db a' = mdb_put (ApprovedMB_Hash p) (set_mb_next (ApprovedMB_Hash b) p)
                          (mdb_put (ApprovedMB_Hash b) b (micro_block_db a))) as (a' & E & El & Et & Em).
  { rw /ApplyUpdates_MB /micro_block_exists /micro_block_update_next /micro_block_get /mbind /M_bind /gets /missing Hnew.
    cbn. rw get_put_ne; [|by rw Hprev]. rw -Hprev Hp. cbn. by eexists. }
  exists p, bs, a'. split; [done|]. split; [done|]. split; [|done].
  assert (mdb_get (ApprovedMB_Hash p) (micro_block_db a) = Some p) as Hsp by by rw -Hprev.
  apply NoDup_cons in Hu as [Hup Hu]. cbn in Hup.
  split.
  - cbn [fmap list_fmap]. apply NoDup_cons. split; [|by apply NoDup_cons].
    intros [?|(x & Hx & Hin)%list_elem_of_fmap]%elem_of_cons; [done|].
    assert (mdb_get (ApprovedMB_Hash b) (micro_block_db a) = Some x) by (apply Hs; split; [by right|done]). congruence.
  - intros h x. rw Em !get_put !elem_of_cons. repeat case_decide; subst.
    + split; [intros [= <-]; by auto|]. intros [[->|[->|Hx]] Hh]; [done|done|].
      destruct Hup. apply list_elem_of_fmap. by exists x.
    + split; [intros [= <-]; by auto|]. intros [[->|[->|Hx]] Hh]; [done|by destruct H|].
      assert (mdb_get (ApprovedMB_Hash b) (micro_block_db a) = Some x) by (apply Hs; split; [by right|done]). congruence.
    + rw Hs elem_of_cons. split; [intros [[->|?] ?]; by auto|]. intros [[->|[->|?]] ?]; by auto.
  - by rw Et /= get_put_eq.
  - cbn [linked_mbs]. do 3 (split; [done|]). by destruct bs.
Qed.
End Validation.

(** ** What MicroBlockHandler builds *)
Section Building.
Context {L : Lmdb} {Bk : Blake2b}.
Implicit Types (a : Archive) (b : ApprovedRB) (t : Tip) (bs : list ApprovedRB).

(** The request blocks: they are stored under their digests, and within the epoch
    [E], which no block follows yet, they are linked in the order of the sequence. *)
Record rb_links a (E : Z) : Prop := {
  rl_key h b : stored_rb a h = Some b ->
    ApprovedRB_Hash b = h /\ h <> 0 /\ 0 <= rb_sequence b < 2 ^ 32 - 1;
  rl_next h b b' : stored_rb a h = Some b -> stored_rb a (rb_next b) = Some b' -> rb_epoch_number b = E ->
    rb_epoch_number b' = E /\ rb_sequence b' = rb_sequence b + 1;
}.
(** A tip is of a stored block of the epoch or of the last one before it. *)
Definition tip_ready a (E : Z) t : Prop :=
  digest t = 0 \/
  exists b, stored_rb a (digest t) = Some b /\ t = CreateTip (RB b) /\
    (rb_epoch_number b <> E -> forall b', stored_rb a (rb_next b) = Some b' ->
       rb_epoch_number b' = E /\ rb_sequence b' = 0).
(** Stored blocks of the epoch with consecutive numbers. *)
Definition run a (E s : Z) bs : Prop :=
  forall i b, bs !! i = Some b ->
    stored_rb a (ApprovedRB_Hash b) = Some b /\ rb_epoch_number b = E /\ rb_sequence b = s + Z.of_nat i.
Lemma run_nil a E s : run a E s [].
Proof. intros i b. by rw lookup_nil. Qed.
Lemma run_step_cons a E s b bs :
  stored_rb a (ApprovedRB_Hash b) = Some b -> rb_epoch_number b = E -> rb_sequence b = s -> run a E (s + 1) bs ->
  run a E s (b :: bs).
Proof.
  intros H1 H2 H3 Hr [|i] x; cbn; [intros [= <-]; split_and!; [done..|lia]|].
  intros Hx. destruct (Hr i x Hx) as (? & ? & ?). split_and!; [done..|lia].
Qed.

Section Epoch.
Context {a : Archive} {E : Z} (Hl : rb_links a E).

(** The forward iteration ends: the numbers grow and are bounded. *)
Lemma forward_total cutoff h s :
  0 <= s -> (forall b, stored_rb a h = Some b -> rb_epoch_number b = E /\ rb_sequence b = s) ->
  exists n0 bs stop, run a E s bs /\
    forall n, (n0 <= n)%nat -> forward n (batch_db (ledger a)) cutoff h = Some (bs, stop).
Proof.
  remember (Z.to_nat (2 ^ 32 - s)) as m eqn:Em. revert h s Em.
  induction m as [m IH] using lt_wf_ind. intros h s Em Hs0 Hs.
  destruct (stored_rb a h) as [b|] eqn:Eb.
  - destruct (Hs b eq_refl) as [He Hq]. destruct (rl_key _ _ Hl h b Eb) as (Hh & Hn & Hw).
    destruct (rb_timestamp b <? cutoff) eqn:Ec.
    + destruct (IH (Z.to_nat (2 ^ 32 - (s + 1)))) with (h := rb_next b) (s := s + 1) as (n0 & bs & stop & Hr & Hf);
        [lia|done|lia|intros b' Hb'; rw -Hq; by apply (rl_next _ _ Hl h b)|].
      exists (S n0), (b :: bs), stop. split; [by apply run_step_cons; [rw Hh| | |]|].
      intros [|n] Hle; [lia|]. cbn [forward]. rw /stored_rb in Eb. rw Eb Ec Hf; [done|lia].
    + exists 1%nat, [], false. split; [apply run_nil|]. intros [|n] Hle; [lia|]. cbn [forward].
      rw /stored_rb in Eb. by rw Eb Ec.
  - exists 1%nat, [], (negb (h =? 0)). split; [apply run_nil|]. intros [|n] Hle; [lia|]. cbn [forward].
    rw /stored_rb in Eb. by rw Eb.
Qed.
Definition after t : BlockHash := match stored_rb a (digest t) with None => 0 | Some b => rb_next b end.
Lemma tip_start t :
  tip_ready a E t -> 0 <= n_th_block_in_epoch E t /\
  forall b, stored_rb a (after t) = Some b -> rb_epoch_number b = E /\ rb_sequence b = n_th_block_in_epoch E t.
Proof.
  intros Ht. split; [rw /n_th_block_in_epoch /u32 /wrap; case_match; [apply Z.mod_pos_bound; lia|done]|].
  intros b Hb. rw /after in Hb. destruct Ht as [Hz|(x & Hx & -> & Hlast)].
  - destruct (stored_rb a (digest t)) eqn:Ex.
    + destruct (rl_key _ _ Hl _ _ Ex) as (_ & ? & _). congruence.
    + by destruct (rl_key _ _ Hl _ _ Hb) as (_ & ? & _).
  - cbn in Hx, Hb. rw Hx in Hb. destruct (rl_key _ _ Hl _ _ Hx) as (_ & Hn & Hw).
    rw /n_th_block_in_epoch. cbn. rw (proj2 (Z.eqb_neq _ _) Hn) andb_true_r.
    destruct (E =? rb_epoch_number x) eqn:Ee.
    + apply Z.eqb_eq in Ee. destruct (rl_next _ _ Hl _ _ _ Hx Hb) as [? ?]; [done|].
      split; [done|]. rw /u32 /wrap Z.mod_small; lia.
    + apply Z.eqb_neq in Ee. by apply Hlast.
Qed.
(** The tips that are collected count the blocks that were visited. *)
Lemma new_tip t bs :
  tip_ready a E t -> run a E (n_th_block_in_epoch E t) bs ->
  let t' := if digest (visited bs) =? 0 then t else visited bs in
  n_th_block_in_epoch E t' = n_th_block_in_epoch E t + Z.of_nat (length bs) /\ has_tip a t'.
Proof.
  intros Ht Hr. destruct bs as [|x bs' _] using rev_ind; cbn zeta.
  { cbn. split; [lia|]. destruct Ht as [?|(b & Hb & _)]; [by left|right; by rw Hb]. }
  assert (visited (bs' ++ [x]) = CreateTip (RB x)) as -> by by rw /visited foldl_app.
  destruct (Hr (length bs') x) as (Hs & He & Hq).
  { by rw lookup_app_r // Nat.sub_diag. }
  destruct (rl_key _ _ Hl _ _ Hs) as (_ & Hn & Hw). rw /=. rw (proj2 (Z.eqb_neq _ _) Hn).
  split; [|right; by rw /= Hs]. rw {1}/n_th_block_in_epoch /= He Z.eqb_refl (proj2 (Z.eqb_neq _ _) Hn) /=.
  rw /u32 /wrap Z.mod_small; [|lia]. rw length_app /=. lia.
Qed.
Lemma GetTipsFast_total ts cutoff :
  Forall (tip_ready a E) ts ->
  exists n0 ts' vs, (forall n, (n0 <= n)%nat -> GetTipsFast n a ts cutoff = Some (ts', num_blocks vs)) /\
    length ts' = length ts /\ Forall (has_tip a) ts' /\
    sumZ (n_th_block_in_epoch E) ts' - sumZ (n_th_block_in_epoch E) ts = sumZ (fun bs => Z.of_nat (length bs)) vs.
Proof.
  intros Hts.
  assert (exists n0 vs, (forall n, (n0 <= n)%nat ->
      iterate (fun t => forward n (batch_db (ledger a)) cutoff (after t)) ts = Some vs) /\
    Forall2 (fun t bs => run a E (n_th_block_in_epoch E t) bs) ts vs) as (n0 & vs & Hi & Hr).
  { induction Hts as [|t ts Ht Hts (n1 & vs & Hi & Hr)]; [by exists 0%nat, []|].
    destruct (tip_start t Ht) as [H0 Hs]. destruct (forward_total cutoff _ _ H0 Hs) as (n2 & bs & stop & Hb & Hf).
    destruct stop.
    - exists n2, (bs :: replicate (length ts) []). split.
      + intros n Hle. cbn [iterate]. by rw Hf.
      + constructor; [done|]. clear. induction ts; constructor; [apply run_nil|done].
    - exists (n1 `max` n2)%nat, (bs :: vs). split; [|by constructor]. intros n Hle. cbn [iterate].
      rw Hf; [|lia]. cbn. by rw Hi; [|lia]. }
  exists n0, (zip_with (fun t bs => if digest (visited bs) =? 0 then t else visited bs) ts vs), vs. split.
  { intros n Hle. rw /GetTipsFast. cbn zeta.
    change (fun t => forward n _ cutoff _) with (fun t => forward n (batch_db (ledger a)) cutoff (after t)).
    by rw Hi. }
  clear Hi. induction Hr as [|t bs ts vs Hb Hr IH]; [done|]. apply Forall_cons in Hts as [Ht Hts].
  destruct (IH Hts) as (I1 & I2 & I3). destruct (new_tip t bs Ht Hb) as [J1 J2]. cbn zeta in J1.
  cbn [zip_with length]. split; [by rw I1|]. split; [by constructor|]. rw !sumZ_cons. lia.
Qed.
End Epoch.

(** The state in which the next microblock, of the epoch [E], is due: the database
    has the tip of the microblocks, which is not that of the genesis, and all epoch
    blocks before [E]. *)
Record ready_to_build a (E : Z) : Prop := {
  rt_chain : exists previous etip eb,
    mdb_get 0 (micro_block_tip_db a) = Some (CreateTip (MB previous)) /\
    mdb_get (ApprovedMB_Hash previous) (micro_block_db a) = Some previous /\
    mb_epoch_number previous <> GENESIS_EPOCH /\
    E = (if mb_last_micro_block previous =? 0 then mb_epoch_number previous
         else u32 (mb_epoch_number previous + 1)) /\
    Forall (tip_ready a E) (tip_of previous <$> positions) /\
    mdb_get 0 (epoch_tip_db (elections (store (ledger a)))) = Some etip /\
    mdb_get (digest etip) (epoch_db (elections (store (ledger a)))) = Some eb /\
    E = u32 (tip_epoch etip + 1);
  rt_links : rb_links a E;
}.
Definition built_ok (env : BuildEnv) a (E : Z) (o : option ApprovedMB) : Prop :=
  match o with
  | None => be_past_epoch_block_time env = true /\ be_recall env = false
  | Some b => mb_epoch_number b = E /\
      forall id stamp st, id < NUM_DELEGATES -> before MVP_PREVIOUS st = true -> accepts a (propose id stamp b) st
  end.

(** Behind a tip without a digest there is nothing. *)
Lemma iterate_zero n a cutoff :
  stored_rb a 0 = None -> forall ts vs k,
  iterate (fun t => forward n (batch_db (ledger a)) cutoff (after (a := a) t)) ts = Some vs ->
  (forall t, ts !! k = Some t -> digest t = 0) ->
  digest (default no_tip (zip_with (fun t bs => if digest (visited bs) =? 0 then t else visited bs) ts vs !! k)) = 0.
Proof.
  intros Hz. induction ts as [|t ts IH]; intros vs k; [by intros [= <-] _|]. cbn [iterate].
  destruct (forward _ _ _ _) as [[bs stop]|] eqn:Ef; [|done]. cbn. intros Hvs Hk.
  assert (exists vs', vs = bs :: vs' /\ (vs' = replicate (length ts) [] \/
    iterate (fun t => forward n (batch_db (ledger a)) cutoff (after (a := a) t)) ts = Some vs')) as (vs' & -> & Hvs').
  { destruct stop; [injection Hvs as <-; by eauto|]. apply fmap_Some in Hvs as (vs' & ? & ->). by eauto. }
  destruct k as [|k]; cbn.
  - specialize (Hk t eq_refl). rw /after Hk Hz in Ef. destruct n; [done|]. cbn in Ef.
    rw /stored_rb in Hz. rw Hz in Ef. by injection Ef as <- _.
  - destruct Hvs' as [->|Hvs']; [|by apply IH]. rw lookup_zip_with.
    destruct (ts !! k) as [t'|] eqn:Ek; cbn; [|done]. pose proof (lookup_lt_Some _ _ _ Ek).
    rw lookup_replicate_2 //. cbn. by apply Hk.
Qed.
(** A delegate without a tip is forgotten. When a microblock after those of the
    genesis has no tip for a delegate, no microblock built after it has one, whatever
    request blocks of the delegate are stored: its chain is looked for behind the
    tip. *)
Lemma zero_tip_stays_zero n env a a' previous (b : ApprovedMB) i :
  mdb_get 0 (micro_block_tip_db a) = Some (CreateTip (MB previous)) ->
  mdb_get (ApprovedMB_Hash previous) (micro_block_db a) = Some previous ->
  mb_epoch_number previous <> GENESIS_EPOCH -> stored_rb a 0 = None ->
  i ∈ positions -> digest (tip_of previous i) = 0 ->
  Build n env a = Ok (Some b, a') -> digest (tip_of b i) = 0.
Proof.
  intros Ht Hp Hg Hz Hi Hd Hb.
  assert (wlp (Build n env) (fun o _ => forall b : ApprovedMB, o = Some b -> digest (tip_of b i) = 0) a) as Hw;
    [|by apply (wlp_ok _ _ _ _ _ Hw Hb)]. clear b Hb.
  rw /Build /micro_block_tip_get /micro_block_get /archive_epoch_tip_get /archive_epoch_get. wp_steps.
  eapply read_gets; [exact Ht|]. wp_steps. eapply read_gets; [exact Hp|]. wp_steps. apply wpg_massert; [intros _|done].
  wp_steps. rw /read. wp_steps. case_match; [|done]. wp_steps. case_match; [|done]. wp_steps.
  case_match; [by wp_steps|]. wp_steps. cbv [id]. rw /collect_tips (proj2 (Z.eqb_neq _ _) Hg).
  destruct (GetTipsFast _ _ _ _) as [[ts k]|] eqn:Et; wp_steps.
  intros b [= <-]. cbn [fst snd]. rw /tip_of. cbn [mb_tips]. rw /GetTipsFast in Et. cbn zeta in Et.
  destruct (iterate _ _) as [vs|] eqn:Ei; [|done]. injection Et as <- _.
  apply (iterate_zero _ _ _ Hz _ _ _ Ei). intros x. rw list_lookup_fmap. destruct (positions !! Z.to_nat i) as [j|] eqn:Ej; [|done].
  apply lookup_seqZ in Ej as [-> _]. intros [= <-]. apply elem_of_seqZ in Hi. by replace (0 + Z.of_nat (Z.to_nat i)) with i by lia.
Qed.
End Building.

(** ** A database with two request blocks of one delegate

    The first is the tip of the last microblock, the second is to be in the next. *)
Module MicroExamples.
#[local] Instance L : Lmdb := gmap_lmdb.
#[local] Instance LL : LmdbLaws L := gmap_lmdb_laws.
#[local] Instance BB : Blake2b := fun bs => 1 + sumZ id bs.

Definition second_rb : ApprovedRB := Build_ApprovedRB 0 50 50 1 900 0 [] 0.
Definition first_rb : ApprovedRB := Build_ApprovedRB 0 50 50 0 500 0 [] (ApprovedRB_Hash second_rb).
Definition last_mb : ApprovedMB :=
  Build_ApprovedMB 3 50 0 7 1000 0 0 1 (CreateTip (RB first_rb) :: replicate 31 no_tip) 0.
Definition last_eb : ApprovedEB := Build_ApprovedEB 0 49 no_tip 0 0 [] 0 false 0.
Definition due : Archive :=
  Build_Archive L
    (set_batch_db (mdb_put (ApprovedRB_Hash first_rb) first_rb (mdb_put (ApprovedRB_Hash second_rb) second_rb mdb_empty))
       (set_store (set_elections (set_epoch_tip_db (mdb_put 0 (Build_Tip 49 0 4) mdb_empty)
          (set_epoch_db (mdb_put 4 last_eb mdb_empty) no_elections)) empty_store) empty_ledger))
    (mdb_put (ApprovedMB_Hash last_mb) last_mb mdb_empty) (mdb_put 0 (CreateTip (MB last_mb)) mdb_empty).
Lemma due_blocks h b :
  stored_rb due h = Some b -> h = ApprovedRB_Hash first_rb /\ b = first_rb \/ h = ApprovedRB_Hash second_rb /\ b = second_rb.
Proof.
  rw /stored_rb. cbn [due ledger batch_db set_batch_db]. rw !get_put get_empty.
  repeat case_decide; subst; [by intros [= <-]; left|by intros [= <-]; right|done].
Qed.
Lemma due_ready : ready_to_build due 50.
Proof.
  split.
  - exists last_mb, (Build_Tip 49 0 4), last_eb. do 4 (split; [done|]). split; [|done].
    cbn. apply Forall_cons. split; [|by repeat (apply Forall_cons; split; [by left|])].
    right. exists first_rb. done.
  - split.
    + intros h b [[-> ->]|[-> ->]]%due_blocks; by vm_compute.
    + intros h b b' [[-> ->]|[-> ->]]%due_blocks [[E ->]|[E ->]]%due_blocks _; by vm_compute.
Qed.
Definition quiet : BuildEnv := Build_BuildEnv 2000 51 false false.
Definition its_block : ApprovedMB :=
  Build_ApprovedMB 255 50 0 8 2000 (ApprovedMB_Hash last_mb) 0 1 (CreateTip (RB second_rb) :: replicate 31 no_tip) 0.
Lemma its_block_built : Build 3 quiet due = Ok (Some its_block, state_after (Build 3 quiet) due).
Proof. apply run_value. vm_compute. reflexivity. Qed.
Lemma due_tips : tips_present due.
Proof. split; [done|]. by exists (Build_Tip 49 0 4). Qed.
Definition proposed : ApprovedMB := propose 9 2100 its_block.
Lemma proposed_accepted : accepts due proposed None.
Proof.
  rw /accepts (wp_ok (Validate_MB proposed None)). exists (true, None, false), (state_after (Validate_MB proposed None) due).
  split; [|done]. apply run_value. vm_compute. reflexivity.
Qed.

(** No request block of delegate 5 will be recorded. *)
Example zero_tip_stays_zero_witness : digest (tip_of its_block 5) = 0.
Proof.
  apply (zero_tip_stays_zero 3 quiet due (state_after (Build 3 quiet) due) last_mb its_block 5); [done..| |done|exact its_block_built].
  apply (bool_decide_eq_true _). by vm_compute.
Defined.
(** The block of delegate 0 as the tip of delegate 31. *)
Example tips_are_not_tied_to_delegates_witness :
  accepts due (with_tips (replicate 31 no_tip ++ [CreateTip (RB second_rb)]) proposed) None.
Proof.
  apply tips_are_not_tied_to_delegates; [exact due_tips|done|done| |exact proposed_accepted].
  cbn [mb_tips proposed propose its_block]. by rw Permutation_app_comm.
Defined.
Lemma due_chain : micro_chain due [last_mb].
Proof.
  split; [apply NoDup_singleton| |done|done]. intros h x. cbn [due micro_block_db]. rw get_put get_empty.
  rw list_elem_of_singleton. case_decide; split; [by intros [= <-]|by intros [-> _]|done|by intros [-> ?]].
Qed.
Example accepted_microblock_extends_the_chain_witness :
  exists p bs' a', [last_mb] = p :: bs' /\ ApplyUpdates_MB proposed due = Ok (tt, a') /\
    micro_chain a' (proposed :: set_mb_next (ApprovedMB_Hash proposed) p :: bs') /\ ledger a' = ledger due.
Proof.
  apply (accepted_microblock_extends_the_chain due proposed [last_mb] None);
    [exact due_tips|done|exact due_chain|exact proposed_accepted|by vm_compute].
Defined.
End MicroExamples.
