(* ===== verification/EpochBlocks.v ===== *)
(** * Epoch blocks

    The rest of PersistenceManager<ECT> (src/logos/consensus/persistence/epoch/
    epoch_persistence.cpp): the validation of epoch blocks, their storing with the
    linking of the request chains of two epochs and the payment of the fees to the
    delegates; and EpochHandler (epoch/epoch_handler.cpp), which builds epoch blocks.
    The transition of the tables of staking and elections is in EpochPersistence.v. *)
From stdpp Require Import base list numbers strings gmap sorting ssreflect.
From Stdlib Require Import QArith.QArith_base QArith.Qreduction.
From S2P Require Import Prelude Serial Lmdb StakingTypes Requests Epochs BlockStore AccountInfo Elections EpochVoting EpochRewards Governance TokenTypes TokenRequests Ledger Transfers RequestValidation EpochPersistence ConsensusBlocks BlockContainer Committee Microblocks.
Import EpochVotingManager EpochRewardsManager EpochPersistence.
Open Scope Z_scope.

(** ** The stages of validation *)
Definition EVP_EPOCH_TIP : Z := 2.
Definition EVP_MICRO_TIP : Z := 3.
Definition EVP_VOTING : Z := 5.
Definition EVP_END : Z := 6.
(** The genesis delegates, DelegateIdentityManager::IsEpochTransitionEnabled and
    ENABLE_ELECTIONS. *)
Record Governing := {
  gv_genesis_delegates : list AccountAddress;
  gv_transition_enabled : bool;
  gv_elections_enabled : bool;
}.

Section Tables.
Context {L : Lmdb} {Bk : Blake2b}.
Abbreviation MA := (M Archive).

Definition set_archive_ledger (l : Ledger) (a : Archive) : Archive :=
  Build_Archive L l (micro_block_db a) (micro_block_tip_db a).
(** An operation of the ledger, or of its store. *)
Definition in_archive {A} (m : M Ledger A) : MA A := fun a =>
  match m (ledger a) with
  | Ok (x, l) => Ok (x, set_archive_ledger l a)
  | Halt why => Halt why
  end.
Definition on_store {A} (m : M Store A) : MA A := in_archive (in_store m).

(** epoch_put, epoch_exists; request_tip_del, request_block_update_prev *)
Definition epoch_put (b : EpochBlock) : M Store unit :=
  modify_elections (fun e => set_epoch_db (mdb_put (EpochBlock_Hash b) (ep_block b) (epoch_db e)) e).
Definition epoch_exists (b : EpochBlock) : M Store bool :=
  get_elections (fun e => negb (missing (EpochBlock_Hash b) (epoch_db e))).
Definition request_tip_del (delegate_id epoch_number : Z) : M Ledger unit :=
  modify (fun l => set_request_tips_db
                     (mdb_del (get_request_tip_key delegate_id epoch_number) (request_tips_db l)) l).
Definition request_block_update_prev (hash prev : BlockHash) : M Ledger bool :=
  b ← request_block_get hash;
  match b with
  | None => mret true
  | Some b =>
      modify (fun l => set_batch_db (mdb_put hash (set_rb_previous prev b) (batch_db l)) l);;
      mret false
  end.
(** GetEpochFirstRBs: the blocks without predecessor; a delegate whose chain is
    broken ends the search. [n] bounds the blocks of a delegate in an epoch. *)
Definition first_of (bs : list ApprovedRB) : Tip :=
  foldl (fun t b => if rb_previous b =? 0 then CreateTip (RB b) else t) no_tip bs.
Definition tip_in (l : Ledger) (epoch delegate : Z) : option Tip :=
  mdb_get (get_request_tip_key delegate epoch) (request_tips_db l).
Definition GetEpochFirstRBs (n : nat) (l : Ledger) (epoch_number : Z) : option (list Tip) :=
  let start i := match tip_in l epoch_number i with Some t => digest t | None => 0 end in
  match iterate (backward n (batch_db l) 0) (start <$> positions) with
  | None => None
  | Some vs => Some (first_of <$> vs)
  end.
End Tables.

(** ** EpochHandler *)
Section Handler.
Context {L : Lmdb} {Bk : Blake2b}.
Abbreviation MA := (M Archive).

(** ComputeNumRBs: the sum is kept in 64 bits. *)
Fixpoint count_RBs (epoch_number total : Z) (delegates : list Z) : M Ledger Z :=
  match delegates with
  | [] => mret total
  | i :: delegates =>
      o ← request_tip_get i epoch_number;
      let tip := default no_tip o in
      massert (tip_epoch tip <=? epoch_number) "EpochHandler::ComputeNumRBs";;
      count_RBs epoch_number (wrap 64 (total + n_th_block_in_epoch epoch_number tip)) delegates
  end.
Definition ComputeNumRBs (epoch_number : Z) : M Ledger Z := count_RBs epoch_number 0 positions.

(** LOGOS_INFLATION_RATE * INFLATION_RATE_FACTOR *)
Definition INFLATION_RATE_FACTOR : Z := 1000000.
Definition INFLATED : Z := 1000035.
(** The supply of the next epoch; it is left 0 when it does not grow. *)
Definition inflate (supply : Amount) : Amount :=
  let total := wrap 256 (supply * INFLATED) / INFLATION_RATE_FACTOR in
  if total <=? supply then 0 else u128 total.

(** EpochHandler::Build *)
Definition Build_EB (g : Governing) (stamp : Z) : MA EpochBlock :=
  epoch_tip ← read "EpochHandler::Build" archive_epoch_tip_get;
  previous ← read "EpochHandler::Build" (archive_epoch_get (digest epoch_tip));
  micro_tip ← read "EpochHandler::Build" micro_block_tip_get;
  read "EpochHandler::Build" (micro_block_get (digest micro_tip));;
  let number := u32 (eb_epoch_number previous + 1) in
  next ← on_store (GetNextEpochDelegates (gv_transition_enabled g) (gv_elections_enabled g)
                     (u32 (number + 1)));
  pool ← on_store (GetFeePool number);
  num ← in_archive (ComputeNumRBs number);
  mret (Build_EpochBlock 255 0 0
          (Build_ApprovedEB (digest epoch_tip) number micro_tip (default 0 pool)
             (inflate (eb_total_supply previous)) next.1
             (wrap 64 (eb_total_RBs previous + num)) (negb next.2) stamp)).
(** EpochConsensusManager::PrePrepareGetNext *)
Definition propose_EB (id stamp : Z) (b : EpochBlock) : EpochBlock :=
  let e := ep_block b in
  Build_EpochBlock id (ep_delegates_epoch_number b) (ep_sequence b)
    (Build_ApprovedEB (eb_previous e) (eb_epoch_number e) (eb_micro_block_tip e)
       (eb_transaction_fee_pool e) (eb_total_supply e) (eb_delegates e) (eb_total_RBs e)
       (eb_is_extension e) stamp).
End Handler.

(** ** PersistenceManager<ECT>::Validate *)
Section Validation.
Context {L : Lmdb} {Bk : Blake2b}.
Abbreviation MA := (M Archive).
Variable g : Governing.

(** The verdict and the status. *)
Definition EpochVerdict : Type := bool * option ValidationStatus.
Definition reject (r : ProcessResult.t) (st : option ValidationStatus) : MA EpochVerdict :=
  mret (false, UpdateStatusReason r st).
(** A stage is skipped when it was passed before; [k] is the rest. *)
Definition stage (s : Z) (st : option ValidationStatus)
    (check : MA (option ProcessResult.t)) (k : option ValidationStatus -> MA EpochVerdict) : MA EpochVerdict :=
  if before s st then
    r ← check;
    match r with Some r => reject r st | None => k (set_progress s st) end
  else k st.

Definition check_epoch_tip (b : EpochBlock) : MA (option ProcessResult.t) :=
  let e := ep_block b in
  p ← archive_epoch_get (eb_previous e);
  match p with
  | None => mret (Some ProcessResult.gap_previous)
  | Some previous =>
      tip ← read "PersistenceManager<ECT>::Validate" archive_epoch_tip_get;
      if negb (eb_epoch_number e =? u32 (eb_epoch_number previous + 1))
         || negb (digest tip =? eb_previous e) || negb (tip_epoch tip =? eb_epoch_number previous)
      then mret (Some ProcessResult.block_position)
      else
        num ← in_archive (ComputeNumRBs (eb_epoch_number e));
        mret (if eb_total_RBs e =? wrap 64 (eb_total_RBs previous + num) then None
              else Some ProcessResult.invalid_number_blocks)
  end.
(** The request blocks the tips of the last microblock stand for, in 64 bits. *)
Definition recorded_RBs (m : ApprovedMB) : Z :=
  foldl (fun total i => if digest (tip_of m i) =? 0 then total
                        else wrap 64 (total + u32 (tip_sqn (tip_of m i) + 1))) 0 positions.
Definition Tip_eqb (s t : Tip) : bool :=
  (tip_epoch s =? tip_epoch t) && (tip_sqn s =? tip_sqn t) && (digest s =? digest t).
Definition check_micro_tip (b : EpochBlock) : MA (option ProcessResult.t) :=
  let e := ep_block b in
  m ← micro_block_get (digest (eb_micro_block_tip e));
  match m with
  | None => mret (Some ProcessResult.invalid_tip)
  | Some last_micro_block =>
      if mb_last_micro_block last_micro_block =? 0 then mret (Some ProcessResult.invalid_request)
      else
        tip ← read "PersistenceManager<ECT>::Validate" micro_block_tip_get;
        if negb (Tip_eqb (eb_micro_block_tip e) tip) || negb (tip_epoch tip =? eb_epoch_number e)
        then mret (Some ProcessResult.invalid_tip)
        else
          previous ← read "PersistenceManager<ECT>::Validate" (archive_epoch_get (eb_previous e));
          mret (if eb_total_RBs e =? wrap 64 (eb_total_RBs previous + recorded_RBs last_micro_block)
                then None else Some ProcessResult.invalid_number_blocks)
  end.
Definition check_voting (b : EpochBlock) : MA (option ProcessResult.t) :=
  let e := ep_block b in
  if NUM_DELEGATES <=? ep_primary_delegate b then mret (Some ProcessResult.invalid_request)
  else
    ok ← on_store (ValidateEpochDelegates (gv_genesis_delegates g) (gv_transition_enabled g)
                     (gv_elections_enabled g) (eb_delegates e) (u32 (eb_epoch_number e + 1)));
    mret (if (ok : bool) then None else Some ProcessResult.not_delegate).
Definition check_fee_pool (b : EpochBlock) : MA (option ProcessResult.t) :=
  let e := ep_block b in
  pool ← on_store (GetFeePool (eb_epoch_number e));
  mret (if default 0 pool =? eb_transaction_fee_pool e then None else Some ProcessResult.invalid_fee).

Definition Validate_EB (b : EpochBlock) (st : option ValidationStatus) : MA EpochVerdict :=
  stage EVP_EPOCH_TIP st (check_epoch_tip b) (fun st =>
  stage EVP_MICRO_TIP st (check_micro_tip b) (fun st =>
  stage EVP_VOTING st (check_voting b) (fun st =>
  stage EVP_END st (check_fee_pool b) (fun st =>
  mret (true, st))))).
End Validation.

(** ** PersistenceManager<ECT>::ApplyUpdates *)
Section Application.
Context {L : Lmdb} {Bk : Blake2b}.
Abbreviation MA := (M Archive).

(** The reads of LinkAndUpdateTips are not part of the transaction: [committed] is
    what the database held when it began. *)
Definition LinkAndUpdateTips (committed : Ledger) (delegate epoch_number : Z) (first : Tip) : M Ledger unit :=
  match tip_in committed (u32 (epoch_number - 1)) delegate with
  | None => halt "PersistenceManager<ECT>::LinkAndUpdateTips"
  | Some prev_e_last =>
      (if digest first =? 0 then request_tip_put delegate epoch_number prev_e_last
       else
         err ← request_block_update_next (digest prev_e_last) (digest first);
         massert (negb err) "PersistenceManager<ECT>::LinkAndUpdateTips";;
         err ← request_block_update_prev (digest first) (digest prev_e_last);
         massert (negb err) "PersistenceManager<ECT>::LinkAndUpdateTips");;
      request_tip_del delegate (u32 (epoch_number - 1))
  end.
Fixpoint link_all (committed : Ledger) (epoch_number : Z) (firsts : list (Z * Tip)) : M Ledger unit :=
  match firsts with
  | [] => mret tt
  | x :: firsts => LinkAndUpdateTips committed x.1 epoch_number x.2;; link_all committed epoch_number firsts
  end.
(** The chains of the epoch [cur] and of the one before. *)
Definition link_chains (n : nat) (committed : Ledger) (cur : Z) : M Ledger unit :=
  match GetEpochFirstRBs n committed cur with
  | None => halt "block_store::BatchBlocksIterator"
  | Some firsts => link_all committed cur (zip positions firsts)
  end.

(** *** ApplyRewards *)
Variable now : Z.

(** stake_cmp: the greatest stake first, then the greatest hash. *)
Definition stake_before (d1 d2 : Delegate) : bool :=
  if raw_stake d1 =? raw_stake d2 then Delegate_Hash d2 <? Delegate_Hash d1
  else raw_stake d2 <? raw_stake d1.
Definition not_after (d1 d2 : Delegate) : Prop := stake_before d2 d1 = false.
#[global] Instance not_after_dec : RelDecision not_after.
Proof. rw /not_after => d1 d2. apply _. Defined.
Definition sort_by_stake (ds : list Delegate) : list Delegate := merge_sort not_after ds.
Definition total_stake (ds : list Delegate) : Amount := foldl (fun a d => amt_add a (raw_stake d)) 0 ds.

(** What a delegate earns of the pool. *)
Definition earnings (total pool : Z) (d : Delegate) : Q :=
  Qred (Qmult (raw_stake d # Z.to_pos total) (inject_Z pool)).
(** The amount to deposit and the dust that is left, which was [q] before. *)
Definition deposit_of (q reward : Q) : Amount * Q :=
  let n := Qnum reward in let d := Zpos (Qden reward) in
  let dust := rational_add q (Qred ((n mod d) # Qden reward)) in
  if Zpos (Qden dust) <=? Qnum dust then (u128 (u128 (n / d) + 1), rational_sub dust (1 # 1))
  else (u128 (n / d), dust).
Definition set_dust (q : Q) (i : account_info) : account_info := set_claim (claim_epoch i) q i.
(** The body of the loop, for the delegate at position [i]. *)
Definition pay_delegate (e : ApprovedEB) (hash : BlockHash) (i : Z) (reward : Q) (account : AccountAddress)
  : M Ledger unit :=
  o ← user_account_get account;
  match o with
  | None => halt "PersistenceManager<ECT>::ApplyRewards"
  | Some info =>
      let r := deposit_of (dust info) reward in
      let info := set_dust r.2 info in
      if 0 <? r.1 then
        info ← in_store (SetBalance info (amt_add (balance info) r.1) (u32 (eb_epoch_number e + 1)));
        let receive := Build_ReceiveBlock (receive_head info) hash (wrap 16 i) in
        account_put account (UserAccount (user_received (ReceiveBlock_Hash receive) now info));;
        PlaceReceive receive (eb_timestamp e)
      else account_put account (UserAccount info)
  end.
(** The loop stops when nothing is left. Dividing by zero throws. *)
Fixpoint pay_delegates (e : ApprovedEB) (hash : BlockHash) (total i : Z) (remaining : Q) (ds : list Delegate)
  : M Ledger unit :=
  match ds with
  | [] => mret tt
  | d :: ds =>
      if Qeq_bool remaining (0 # 1) then mret tt
      else if total =? 0 then halt "boost::rational"
      else
        let reward := earnings total (eb_transaction_fee_pool e) d in
        pay_delegate e hash i reward (d_account d);;
        pay_delegates e hash total (i + 1) (rational_sub remaining reward) ds
  end.
Definition ApplyRewards (e : ApprovedEB) (hash : BlockHash) : M Ledger unit :=
  p ← in_store (epoch_get (eb_previous e));
  match p with
  | None => halt "PersistenceManager<ECT>::ApplyRewards"
  | Some prev =>
      p ← in_store (epoch_get (eb_previous prev));
      match p with
      | None => halt "PersistenceManager<ECT>::ApplyRewards"
      | Some prev =>
          let ds := sort_by_stake (eb_delegates prev) in
          pay_delegates e hash (total_stake ds) 0 (inject_Z (eb_transaction_fee_pool e)) ds;;
          in_store (RemoveFeePool (eb_epoch_number e));;
          mret tt
      end
  end.

(** The writes of ApplyUpdates to the tables of epochs, staking and elections. The
    member [next] of an epoch block is not modelled: consensus_block_update_next only
    fails when there is no previous block. *)
Definition store_epoch (elections_enabled : bool) (b : EpochBlock) : M Store unit :=
  let e := ep_block b in
  UpdateThawing e;;
  epoch_put b;;
  epoch_tip_put (CreateTip (EB b));;
  (if elections_enabled then TransitionNextEpoch (u32 (eb_epoch_number e + 1)) else mret tt);;
  p ← epoch_get (eb_previous e);
  match p with
  | None => halt "PersistenceManager<ECT>::ApplyUpdates"
  | Some _ => mret tt
  end.
(** [n] bounds the blocks of a delegate in an epoch. *)
Definition ApplyUpdates_EB (n : nat) (elections_enabled : bool) (b : EpochBlock) : M Ledger unit :=
  let e := ep_block b in
  known ← in_store (epoch_exists b);
  if (known : bool) then mret tt
  else
    committed ← gets id;
    in_store (store_epoch elections_enabled b);;
    if eb_epoch_number e <=? GENESIS_EPOCH then mret tt
    else
      link_chains n committed (u32 (eb_epoch_number e + 1));;
      (if 0 <? eb_transaction_fee_pool e then ApplyRewards e (EpochBlock_Hash b) else mret tt);;
      in_store (UpdateGlobalRewards e).
End Application.
