(* ===== verification/EpochChain.v ===== *)
(** * Epoch blocks: what is accepted

    What PersistenceManager<ECT>::Validate of EpochBlocks.v accepts, that what
    EpochHandler builds is accepted when every delegate was active in the epoch, and
    the two cases in which the validation fails to do its work. *)
From stdpp Require Import base list numbers strings gmap ssreflect.
From S2P Require Import Prelude Serial Lmdb StakingTypes Requests Epochs BlockStore AccountInfo Elections EpochVoting EpochRewards Governance TokenTypes TokenRequests Ledger Transfers RequestValidation EpochPersistence ConsensusBlocks BlockContainer Committee Microblocks EpochBlocks.
Import EpochVotingManager EpochRewardsManager EpochPersistence.
Open Scope Z_scope.

Section Validation.
Context {L : Lmdb} {Bk : Blake2b}.
Implicit Types (a : Archive) (l : Ledger) (b : EpochBlock) (m : ApprovedMB).

(** ** Counting request blocks *)
Definition computed_RBs l (e : Z) : Z :=
  sumZ (fun i => n_th_block_in_epoch e (default no_tip (tip_in l e i))) positions.
Definition sqn_of (t : Tip) : Z := if digest t =? 0 then 0 else u32 (tip_sqn t + 1).
Lemma n_th_width e t : 0 <= n_th_block_in_epoch e t < 2 ^ 32.
Proof. rw /n_th_block_in_epoch. case_match; [apply Z.mod_pos_bound|]; lia. Qed.
Lemma sqn_of_width t : 0 <= sqn_of t < 2 ^ 32.
Proof. rw /sqn_of. case_match; [lia|]. apply Z.mod_pos_bound. lia. Qed.
Lemma sum_width {A} (f : A -> Z) xs :
  (forall x, 0 <= f x < 2 ^ 32) -> 0 <= sumZ f xs <= Z.of_nat (length xs) * 2 ^ 32.
Proof.
  intros Hf. induction xs as [|x xs IH]; [cbn; lia|]. rw sumZ_cons. cbn [length]. pose proof (Hf x). lia.
Qed.
Lemma positions_sum_width (f : Z -> Z) :
  (forall x, 0 <= f x < 2 ^ 32) -> 0 <= sumZ f positions < 2 ^ 64.
Proof.
  intros Hf. pose proof (sum_width f positions Hf). rw length_seqZ in H.
  change (Z.to_nat NUM_DELEGATES) with 32%nat in H. lia.
Qed.

Lemma sumZ_lt {A} (f h : A -> Z) xs x :
  (forall y, y ∈ xs -> f y <= h y) -> x ∈ xs -> f x < h x -> sumZ f xs < sumZ h xs.
Proof.
  intros Hle Hx Hlt. apply list_elem_of_split in Hx as (l1 & l2 & ->). rw !sumZ_app !sumZ_cons.
  pose proof (sumZ_le f h l1 ltac:(intros; apply Hle; set_solver)).
  pose proof (sumZ_le f h l2 ltac:(intros; apply Hle; set_solver)). lia.
Qed.
Lemma wrap_add_inj w p x y :
  0 <= w -> in_width w x -> in_width w y -> wrap w (p + x) = wrap w (p + y) -> x = y.
Proof.
  rw /in_width /wrap. intros Hw Hx Hy E.
  rw -(Z.mod_small x (2 ^ w)) // -(Z.mod_small y (2 ^ w)) //.
  replace x with ((p + x) - p) by lia. replace y with ((p + y) - p) by lia. by rw Zminus_mod E -Zminus_mod.
Qed.

Definition tips_of_epoch l (e : Z) : Prop :=
  Forall (fun i => tip_epoch (default no_tip (tip_in l e i)) <= e) positions.
Lemma count_RBs_ok e l xs : forall total,
  0 <= total -> total + sumZ (fun i => n_th_block_in_epoch e (default no_tip (tip_in l e i))) xs < 2 ^ 64 ->
  count_RBs e total xs l =
    if bool_decide (Forall (fun i => tip_epoch (default no_tip (tip_in l e i)) <= e) xs)
    then Ok (total + sumZ (fun i => n_th_block_in_epoch e (default no_tip (tip_in l e i))) xs, l)
    else Halt "EpochHandler::ComputeNumRBs".
Proof.
  induction xs as [|i xs IH]; intros total Ht Hs; cbn [count_RBs].
  { rw bool_decide_true; [|done]. cbn [sumZ foldr]. by rw Z.add_0_r. }
  rw sumZ_cons in Hs. rw /mbind /M_bind /request_tip_get /gets. change (mdb_get _ _) with (tip_in l e i).
  set t := default no_tip (tip_in l e i) in Hs |- *. pose proof (n_th_width e t).
  assert (0 <= sumZ (fun i => n_th_block_in_epoch e (default no_tip (tip_in l e i))) xs).
  { apply sumZ_nonneg, Forall_forall. intros x _. apply n_th_width. }
  destruct (tip_epoch t <=? e) eqn:Ee; cbn [massert].
  - apply Z.leb_le in Ee. rw /mret /M_ret /wrap Z.mod_small; [|lia]. rw IH; [|lia..].
    rw sumZ_cons -/t Z.add_assoc. by rw (bool_decide_ext _ (Forall (fun i => tip_epoch (default no_tip (tip_in l e i)) <= e) (i :: xs))); [|rw Forall_cons -/t; tauto].
  - apply Z.leb_gt in Ee. rw bool_decide_false; [done|]. rw Forall_cons -/t. lia.
Qed.
Lemma ComputeNumRBs_ok e l :
  ComputeNumRBs e l = if bool_decide (tips_of_epoch l e) then Ok (computed_RBs l e, l) else Halt "EpochHandler::ComputeNumRBs".
Proof.
  rw /ComputeNumRBs count_RBs_ok; [done|lia|]. apply positions_sum_width. intros. apply n_th_width.
Qed.
Lemma recorded_sum m : recorded_RBs m = sumZ (fun i => sqn_of (tip_of m i)) positions.
Proof.
  rw /recorded_RBs. assert (forall xs total, 0 <= total -> total + sumZ (fun i => sqn_of (tip_of m i)) xs < 2 ^ 64 ->
    foldl (fun total i => if digest (tip_of m i) =? 0 then total else wrap 64 (total + u32 (tip_sqn (tip_of m i) + 1)))
      total xs = total + sumZ (fun i => sqn_of (tip_of m i)) xs) as H.
  - induction xs as [|i xs IH]; intros total Ht Hs; cbn [foldl]; [cbn; lia|]. rw sumZ_cons in Hs |- *.
    pose proof (sqn_of_width (tip_of m i)).
    assert (0 <= sumZ (fun i => sqn_of (tip_of m i)) xs) by (apply sumZ_nonneg, Forall_forall; intros; apply sqn_of_width).
    assert ((if digest (tip_of m i) =? 0 then total else wrap 64 (total + u32 (tip_sqn (tip_of m i) + 1)))
            = total + sqn_of (tip_of m i)) as ->; [|rw IH; lia].
    destruct (digest (tip_of m i) =? 0) eqn:Ed; [rw /sqn_of Ed; lia|].
    assert (sqn_of (tip_of m i) = u32 (tip_sqn (tip_of m i) + 1)) as <- by by rw /sqn_of Ed. apply Z.mod_small. lia.
  - rw H; [lia|lia|]. apply positions_sum_width. intros. apply sqn_of_width.
Qed.

(** ** What is accepted *)
Variable g : Governing.
Abbreviation epochs a := (epoch_db (elections (store (ledger a)))).
Abbreviation epoch_tip a := (mdb_get 0 (epoch_tip_db (elections (store (ledger a))))).
Abbreviation next_delegates := (GetNextEpochDelegates (gv_transition_enabled g) (gv_elections_enabled g)).
(** What is asked of an epoch block: that it follows the last one, that it names the
    last microblock of the epoch, that its request blocks are those of the tips and
    those of the microblock, that its delegates are the elected ones, all of the
    genesis, and that the fees are those collected. *)
Record acceptable_eb a b : Prop := {
  ae_previous : exists p tip m, mdb_get (eb_previous (ep_block b)) (epochs a) = Some p /\
    epoch_tip a = Some tip /\ digest tip = eb_previous (ep_block b) /\ tip_epoch tip = eb_epoch_number p /\
    eb_epoch_number (ep_block b) = u32 (eb_epoch_number p + 1) /\
    mdb_get (digest (eb_micro_block_tip (ep_block b))) (micro_block_db a) = Some m /\ mb_last_micro_block m <> 0 /\
    eb_total_RBs (ep_block b) = wrap 64 (eb_total_RBs p + computed_RBs (ledger a) (eb_epoch_number (ep_block b))) /\
    eb_total_RBs (ep_block b) = wrap 64 (eb_total_RBs p + recorded_RBs m);
  ae_micro_tip : mdb_get 0 (micro_block_tip_db a) = Some (eb_micro_block_tip (ep_block b));
  ae_micro_epoch : tip_epoch (eb_micro_block_tip (ep_block b)) = eb_epoch_number (ep_block b);
  ae_tips : tips_of_epoch (ledger a) (eb_epoch_number (ep_block b));
  ae_primary : ep_primary_delegate b < NUM_DELEGATES;
  ae_genesis : Forall (fun d => d_account d ∈ gv_genesis_delegates g) (eb_delegates (ep_block b));
  ae_delegates : exists ext, value_of (next_delegates (u32 (eb_epoch_number (ep_block b) + 1))) (store (ledger a))
                             = Some (eb_delegates (ep_block b), ext);
  ae_fees : default 0 (mdb_get (epoch_key (eb_epoch_number (ep_block b))) (delegate_rewards_db (elections (store (ledger a)))))
            = eb_transaction_fee_pool (ep_block b);
}.
Definition accepts_epoch a b st : Prop := wp (Validate_EB g b st) (fun r _ => r.1 = true) a.

Lemma GetNextEpochDelegates_reads t el n : preserves eq (GetNextEpochDelegates t el n).
Proof.
  rw /GetNextEpochDelegates /GetRetiringDelegates /GetDelegatesToForceRetire /GetDelegateElects /BlockStoreElections.GetElectionWinners
    /epoch_tip_get /epoch_get /get_elections. solve_frame.
Qed.
Lemma in_archive_reads {A} (m : M Ledger A) : preserves eq m -> preserves eq (in_archive m).
Proof.
  intros Hm a. rw /wpg /in_archive. pose proof (Hm (ledger a)) as H. rw /wpg in H.
  destruct (m (ledger a)) as [[x l]|]; [|done]. subst. by destruct a.
Qed.
Lemma in_archive_value {A} (m : M Ledger A) a : value_of (in_archive m) a = value_of m (ledger a).
Proof. rw /value_of /in_archive. by destruct (m (ledger a)) as [[]|]. Qed.
Lemma on_store_value {A} (m : M Store A) a : value_of (on_store m) a = value_of m (store (ledger a)).
Proof. rw /on_store in_archive_value /value_of /in_store. by destruct (m _) as [[]|]. Qed.
(** A computation that only reads is known by its value. *)
Lemma reads_value {S A} (m : M S A) s x : preserves eq m -> m s = Ok (x, s) <-> value_of m s = Some x.
Proof.
  intros Hm. pose proof (Hm s) as H. rw /wpg in H. rw /value_of.
  destruct (m s) as [[y s']|]; [subst|done]. split; congruence.
Qed.
Lemma reads_bind {S A B} (m : M S A) (f : A -> M S B) s :
  preserves eq m -> value_of (m ≫= f) s = match value_of m s with Some x => value_of (f x) s | None => None end.
Proof.
  intros Hm. pose proof (Hm s) as H. rw /wpg in H. rw /value_of /mbind /M_bind.
  by destruct (m s) as [[y s']|]; [subst|].
Qed.

Lemma stage_accepts s st check k a :
  before s st = true -> preserves eq check ->
  wp (stage s st check k) (fun r _ => r.1 = true) a <->
  value_of check a = Some None /\ wp (k (set_progress s st)) (fun r _ => r.1 = true) a.
Proof.
  intros Hb Hc. rw /stage Hb. pose proof (Hc a) as H. rw /wpg in H. rw /wpg /mbind /M_bind /value_of.
  destruct (check a) as [[[r|] a']|]; [subst|subst|]; cbn; split; try done; [by intros [? ?]|by intros [_ ?]|by intros [? ?]].
Qed.
Lemma read_reads {A} why (m : M Archive (option A)) : preserves eq m -> preserves eq (read why m).
Proof. intros Hm. rw /read. apply preserves_bind; [apply _|done|]. intros. case_match; solve_frame. Qed.
Lemma ComputeNumRBs_reads e : preserves eq (ComputeNumRBs e).
Proof. intros l. rw /wpg ComputeNumRBs_ok. by case_bool_decide. Qed.
Lemma on_store_reads {A} (m : M Store A) : preserves eq m -> preserves eq (on_store m).
Proof. intros. by apply in_archive_reads, in_store_reads. Qed.
Lemma ValidateEpochDelegates_reads gd t el ds n : preserves eq (ValidateEpochDelegates gd t el ds n).
Proof.
  rw /ValidateEpochDelegates. case_match; [|solve_frame]. apply preserves_bind; [apply _| |intros; solve_frame].
  apply GetNextEpochDelegates_reads.
Qed.

Lemma checks_read b :
  preserves eq (check_epoch_tip b) /\ preserves eq (check_micro_tip b) /\
  preserves eq (check_voting g b) /\ preserves eq (check_fee_pool b).
Proof.
  rw /check_epoch_tip /check_micro_tip /check_voting /check_fee_pool /archive_epoch_get /archive_epoch_tip_get
    /micro_block_get /micro_block_tip_get.
  split_and!; repeat (apply read_reads || (apply in_archive_reads, ComputeNumRBs_reads)
    || (apply on_store_reads, ValidateEpochDelegates_reads) || (apply on_store_reads; rw /GetFeePool /fee_pool_get /get_elections) || frame_step).
Qed.
Lemma read_value {A} why (f : Archive -> option A) a : value_of (read why (gets f)) a = f a.
Proof. rw /read /value_of /mbind /M_bind /gets. by destruct (f a). Qed.

Lemma check_epoch_tip_ok a b :
  value_of (check_epoch_tip b) a = Some None <->
  exists p tip, mdb_get (eb_previous (ep_block b)) (epochs a) = Some p /\
    epoch_tip a = Some tip /\ digest tip = eb_previous (ep_block b) /\ tip_epoch tip = eb_epoch_number p /\
    eb_epoch_number (ep_block b) = u32 (eb_epoch_number p + 1) /\ tips_of_epoch (ledger a) (eb_epoch_number (ep_block b)) /\
    eb_total_RBs (ep_block b) = wrap 64 (eb_total_RBs p + computed_RBs (ledger a) (eb_epoch_number (ep_block b))).
Proof.
  rw /check_epoch_tip /archive_epoch_get /archive_epoch_tip_get reads_bind; [|solve_frame]. cbn [value_of gets].
  destruct (mdb_get _ _) as [p|] eqn:Ep; [|split; [done|naive_solver]]. rw reads_bind; [|apply read_reads; solve_frame].
  rw read_value. destruct (epoch_tip a) as [tip|] eqn:Et; [|split; [done|naive_solver]].
  destruct (_ || _) eqn:Ec.
  - split; [done|]. intros (p' & tip' & [= <-] & [= <-] & E1 & E2 & E3 & _). move: Ec. by rw E1 E2 E3 !Z.eqb_refl.
  - apply orb_false_iff in Ec as [[E1%negb_false_iff%Z.eqb_eq E2%negb_false_iff%Z.eqb_eq]%orb_false_iff E3%negb_false_iff%Z.eqb_eq].
    rw reads_bind; [|apply in_archive_reads, ComputeNumRBs_reads]. rw in_archive_value {1}/value_of ComputeNumRBs_ok.
    case_bool_decide as Hf; [|split; [done|naive_solver]]. cbn [value_of mret M_ret].
    destruct (Z.eqb_spec (eb_total_RBs (ep_block b)) (wrap 64 (eb_total_RBs p + computed_RBs (ledger a) (eb_epoch_number (ep_block b))))).
    + split; [|done]. intros _. exists p, tip. done.
    + split; [done|]. intros (p' & tip' & [= <-] & _ & _ & _ & _ & _ & ?). done.
Qed.

Lemma Tip_eqb_eq s t : Tip_eqb s t = true <-> s = t.
Proof.
  rw /Tip_eqb !andb_true_iff !Z.eqb_eq. destruct s, t. cbn. split; [by intros [[-> ->] ->]|by intros [= -> -> ->]].
Qed.
Lemma check_micro_tip_ok a b :
  value_of (check_micro_tip b) a = Some None <->
  exists p m, mdb_get (digest (eb_micro_block_tip (ep_block b))) (micro_block_db a) = Some m /\ mb_last_micro_block m <> 0 /\
    mdb_get 0 (micro_block_tip_db a) = Some (eb_micro_block_tip (ep_block b)) /\
    tip_epoch (eb_micro_block_tip (ep_block b)) = eb_epoch_number (ep_block b) /\
    mdb_get (eb_previous (ep_block b)) (epochs a) = Some p /\
    eb_total_RBs (ep_block b) = wrap 64 (eb_total_RBs p + recorded_RBs m).
Proof.
  rw /check_micro_tip /micro_block_get /micro_block_tip_get /archive_epoch_get reads_bind; [|solve_frame]. cbn [value_of gets].
  destruct (mdb_get (digest _) _) as [m|] eqn:Em; [|split; [done|naive_solver]].
  destruct (Z.eqb_spec (mb_last_micro_block m) 0) as [El|El]; [split; [done|naive_solver]|].
  rw reads_bind; [|apply read_reads; solve_frame]. rw read_value.
  destruct (mdb_get 0 _) as [tip|] eqn:Et; [|split; [done|naive_solver]].
  destruct (_ || _) eqn:Ec.
  - split; [done|]. intros (p & m' & _ & _ & [= ->] & E2 & _). move: Ec.
    by rw (proj2 (Tip_eqb_eq _ _) eq_refl) E2 Z.eqb_refl.
  - apply orb_false_iff in Ec as [E1%negb_false_iff%Tip_eqb_eq E2%negb_false_iff%Z.eqb_eq]. subst tip.
    rw reads_bind; [|apply read_reads; solve_frame]. rw read_value.
    destruct (mdb_get _ (epochs a)) as [p|] eqn:Ep; [|split; [done|naive_solver]]. cbn [value_of mret M_ret].
    destruct (Z.eqb_spec (eb_total_RBs (ep_block b)) (wrap 64 (eb_total_RBs p + recorded_RBs m))).
    + split; [|done]. intros _. by exists p, m.
    + split; [done|]. intros (p' & m' & [= <-] & _ & _ & _ & [= <-] & ?). done.
Qed.
Lemma check_voting_ok a b :
  value_of (check_voting g b) a = Some None <->
  ep_primary_delegate b < NUM_DELEGATES /\
  Forall (fun d => d_account d ∈ gv_genesis_delegates g) (eb_delegates (ep_block b)) /\
  exists ext, value_of (next_delegates (u32 (eb_epoch_number (ep_block b) + 1))) (store (ledger a))
              = Some (eb_delegates (ep_block b), ext).
Proof.
  rw /check_voting. destruct (Z.leb_spec NUM_DELEGATES (ep_primary_delegate b)).
  { split; [done|]. intros [? _]. lia. }
  rw reads_bind; [|apply on_store_reads, ValidateEpochDelegates_reads]. rw on_store_value /ValidateEpochDelegates.
  destruct (forallb _ _) eqn:Ef.
  - rw reads_bind; [|apply GetNextEpochDelegates_reads].
    assert (Forall (fun d => d_account d ∈ gv_genesis_delegates g) (eb_delegates (ep_block b))) as Hf.
    { apply Forall_forall. intros d Hd. rw forallb_forall in Ef. apply list_elem_of_In, Ef in Hd. by apply bool_decide_eq_true in Hd. }
    destruct (value_of _ _) as [[ds ext]|]; [|split; [done|naive_solver]]. cbn [value_of mret M_ret fst].
    case_bool_decide as Hd; [subst|]; split; [|done|done|]; [by eauto|]. by intros (_ & _ & ? & [= ? ?]).
  - split; [done|]. intros (_ & Hf & _). exfalso. apply not_true_iff_false in Ef. apply Ef, forallb_forall.
    intros d Hd%list_elem_of_In. apply bool_decide_eq_true. by apply (proj1 (Forall_forall _ _) Hf).
Qed.
Lemma check_fee_pool_ok a b :
  value_of (check_fee_pool b) a = Some None <->
  default 0 (mdb_get (epoch_key (eb_epoch_number (ep_block b))) (delegate_rewards_db (elections (store (ledger a)))))
  = eb_transaction_fee_pool (ep_block b).
Proof.
  rw /check_fee_pool reads_bind; [|apply on_store_reads; rw /GetFeePool /fee_pool_get /get_elections; solve_frame].
  rw on_store_value. cbn [value_of GetFeePool fee_pool_get get_elections gets mret M_ret].
  destruct (Z.eqb_spec (default 0 (mdb_get (epoch_key (eb_epoch_number (ep_block b))) (delegate_rewards_db (elections (store (ledger a))))))
    (eb_transaction_fee_pool (ep_block b))); by split.
Qed.
(** With a fresh status, or none, exactly the acceptable blocks are accepted. *)
Lemma accepts_epoch_iff a b st :
  before EVP_EPOCH_TIP st = true -> accepts_epoch a b st <-> acceptable_eb a b.
Proof.
  intros Hst. destruct (checks_read b) as (R1 & R2 & R3 & R4). rw /accepts_epoch /Validate_EB.
  rw stage_accepts // stage_accepts //; [|by destruct st]. rw stage_accepts //; [|by destruct st].
  rw stage_accepts //; [|by destruct st].
  rw check_epoch_tip_ok check_micro_tip_ok check_voting_ok check_fee_pool_ok. split.
  - intros ((p & tip & Hp & Ht & E1 & E2 & E3 & E4 & E5) & (p' & m & Hm & El & Emt & Eme & Hp' & Er) & (Hpr & Hg & Hd) & Hf & _).
    assert (p' = p) as -> by congruence. split; try done. by exists p, tip, m.
  - intros [(p & tip & m & ? & ? & ? & ? & ? & ? & ? & ? & ?) ? ? ? ? ? ? ?].
    split; [by exists p, tip|]. split; [by exists p, m|]. done.
Qed.

(** C39 A delegate that proposes nothing for an epoch stops the chain of epoch
    blocks. Its tip remains the one of an earlier epoch, and the last microblock
    records it: one of the two checks on the number of request blocks counts it and
    the other does not, so that no epoch block at all is accepted. *)
Theorem idle_delegate_stops_the_epochs a b st t m j :
  before EVP_EPOCH_TIP st = true ->
  mdb_get 0 (micro_block_tip_db a) = Some t -> mdb_get (digest t) (micro_block_db a) = Some m ->
  (forall i, i ∈ positions -> tip_in (ledger a) (tip_epoch t) i = Some (tip_of m i)) ->
  j ∈ positions -> tip_epoch (tip_of m j) <> tip_epoch t -> digest (tip_of m j) <> 0 ->
  in_width 32 (tip_sqn (tip_of m j)) -> tip_sqn (tip_of m j) <> 2 ^ 32 - 1 ->
  ~ accepts_epoch a b st.
Proof.
  intros Hst Ht Hm Htips Hj Hep Hd Hw Hmax. rw accepts_epoch_iff //.
  intros [(p & tip & m' & _ & _ & _ & _ & _ & Hm' & _ & Hc & Hr) Hmt Hme _ _ _ _ _].
  assert (t = eb_micro_block_tip (ep_block b)) as E by congruence. subst t.
  assert (m' = m) as -> by congruence. rw -Hme in Hc.
  assert (computed_RBs (ledger a) (tip_epoch (eb_micro_block_tip (ep_block b))) < recorded_RBs m) as Hlt.
  { rw recorded_sum /computed_RBs. apply (sumZ_lt _ _ _ j); [|done|].
    - intros i Hi. rw Htips // /n_th_block_in_epoch /sqn_of. cbn [default].
      destruct (digest _ =? 0); [by rw andb_false_r|]. destruct (_ =? _); cbn; [lia|]. apply Z.mod_pos_bound. lia.
    - rw Htips // /n_th_block_in_epoch /sqn_of (proj2 (Z.eqb_neq _ _) Hd). cbn [default].
      rw (proj2 (Z.eqb_neq _ _) (not_eq_sym Hep)). cbn. rw u32_id; [rw /in_width in Hw |- *; lia|]. rw /in_width in Hw |- *. lia. }
  assert (computed_RBs (ledger a) (tip_epoch (eb_micro_block_tip (ep_block b))) = recorded_RBs m); [|lia].
  apply (wrap_add_inj 64 (eb_total_RBs p)); [lia| | |congruence].
  - apply positions_sum_width. intros. apply n_th_width.
  - rw recorded_sum. apply positions_sum_width. intros. apply sqn_of_width.
Qed.

(** What EpochHandler finds when every delegate was active in the epoch [e]: the tips
    are of the epoch, and the last microblock has recorded them. *)
Record epoch_over a (e : Z) (ds : list Delegate) : Prop := {
  eo_previous : exists p tip, mdb_get (digest tip) (epochs a) = Some p /\ epoch_tip a = Some tip /\
    tip_epoch tip = eb_epoch_number p /\ e = u32 (eb_epoch_number p + 1);
  eo_microblock : exists t m, mdb_get 0 (micro_block_tip_db a) = Some t /\
    mdb_get (digest t) (micro_block_db a) = Some m /\ tip_epoch t = e /\ mb_last_micro_block m <> 0 /\
    forall i, i ∈ positions -> default no_tip (tip_in (ledger a) e i) = tip_of m i /\
      (digest (tip_of m i) = 0 /\ tip_epoch (tip_of m i) <= e \/ tip_epoch (tip_of m i) = e);
  eo_delegates : exists ext, value_of (next_delegates (u32 (e + 1))) (store (ledger a)) = Some (ds, ext);
  eo_genesis : Forall (fun d => d_account d ∈ gv_genesis_delegates g) ds;
}.

(** ** The supply *)
Definition with_supply (s : Amount) b : EpochBlock :=
  let e := ep_block b in
  Build_EpochBlock (ep_primary_delegate b) (ep_delegates_epoch_number b) (ep_sequence b)
    (Build_ApprovedEB (eb_previous e) (eb_epoch_number e) (eb_micro_block_tip e) (eb_transaction_fee_pool e) s
       (eb_delegates e) (eb_total_RBs e) (eb_is_extension e) (eb_timestamp e)).
Context {LL : LmdbLaws L}.
(** C40 The supply of an epoch block is not validated. The proposer of an acceptable
    block can give the voters of the epoch any reward: with the supply that yields
    it the block is accepted as well, and applying it sets that reward. *)
Theorem proposer_chooses_the_reward a b st r p s :
  before EVP_EPOCH_TIP st = true -> accepts_epoch a b st -> in_width 128 r -> in_width 128 (eb_total_supply p) ->
  mdb_get (eb_previous (ep_block b)) (epoch_db (elections s)) = Some p ->
  mdb_get (epoch_key (eb_epoch_number (ep_block b))) (global_rewards_db (elections s)) <> None ->
  let b' := with_supply (amt_add (eb_total_supply p) r) b in
  accepts_epoch a b' st /\
  wp (UpdateGlobalRewards (ep_block b')) (fun _ s' =>
    gl_total_reward <$> mdb_get (epoch_key (eb_epoch_number (ep_block b'))) (global_rewards_db (elections s')) = Some r) s.
Proof.
  intros Hst Ha Hr Hs Hp Hg b'. split.
  - move: Ha. rw !accepts_epoch_iff //. by intros [? ? ? ? ? ? ? ?].
  - rw /UpdateGlobalRewards /GlobalRewardsAvailable /global_rewards_exist /SetGlobalReward /GetGlobalRewardsInfo
      /global_rewards_get /global_rewards_put /epoch_get /modify_elections /get_elections.
    wp_steps. rw /missing. cbn [b' with_supply ep_block eb_epoch_number eb_previous eb_total_supply].
    destruct (mdb_get (epoch_key _) _) eqn:E; [|done]. cbn [negb]. wp_steps. rw Hp. wp_steps.
    cbn. rw get_put_eq. cbn. f_equal. rw /amt_sub /amt_add /u128 /wrap. rw /in_width in Hr.
    rw Zminus_mod_idemp_l. replace (eb_total_supply p + r - eb_total_supply p) with r by lia. by apply Z.mod_small.
Qed.
End Validation.

(** ** The end of epoch 50 *)
Module EpochExamples.
#[local] Instance L : Lmdb := gmap_lmdb.
#[local] Instance LL : LmdbLaws L := gmap_lmdb_laws.
#[local] Instance BB : Blake2b := fun bs => 1 + sumZ id bs.

Definition seats : list Delegate := (fun i => Build_Delegate (1000 + i) [] [] 1 1 1 1 false) <$> positions.
Definition fixed : Governing := Build_Governing (d_account <$> seats) false false.
Definition epoch_49 : ApprovedEB := Build_ApprovedEB 0 49 no_tip 0 5000 seats 640 false 0.
(** Every delegate proposed four request blocks, but [idle], whose tip is older. *)
Definition tip_at (idle i : Z) : Tip := Build_Tip (if i =? idle then 49 else 50) 3 (100 + i).
Definition last_of_50 (idle : Z) : ApprovedMB := Build_ApprovedMB 3 50 0 7 1000 0 1 0 (tip_at idle <$> positions) 0.
Definition end_of_50 (idle : Z) : Archive :=
  Build_Archive L
    (set_request_tips_db (foldr (fun i t => mdb_put (get_request_tip_key i 50) (tip_at idle i) t) mdb_empty positions)
       (set_store (set_elections (set_global_rewards_db (mdb_put (epoch_key 50) GlobalRewardsInfo_default mdb_empty)
          (set_epoch_tip_db (mdb_put 0 (Build_Tip 49 0 4) mdb_empty) (set_epoch_db (mdb_put 4 epoch_49 mdb_empty) no_elections)))
          empty_store) empty_ledger))
    (mdb_put 77 (last_of_50 idle) mdb_empty) (mdb_put 0 (Build_Tip 50 7 77) mdb_empty).
Lemma tips_recorded idle i : i ∈ positions -> tip_of (last_of_50 idle) i = tip_at idle i.
Proof.
  intros Hi%elem_of_seqZ. rw /tip_of. cbn [mb_tips last_of_50]. rw list_lookup_fmap.
  assert (positions !! Z.to_nat i = Some i) as ->; [|done]. apply lookup_seqZ. lia.
Qed.
Lemma tips_stored idle i : i ∈ positions -> tip_in (ledger (end_of_50 idle)) 50 i = Some (tip_at idle i).
Proof.
  intros Hi. assert (forall xs, i ∈ xs -> Forall (fun x => 0 <= x) xs -> mdb_get (get_request_tip_key i 50)
    (foldr (fun i t => mdb_put (get_request_tip_key i 50) (tip_at idle i) t) mdb_empty xs) = Some (tip_at idle i)) as H.
  - induction xs as [|x xs IH]; [by intros ?%not_elem_of_nil|]. intros Hx [Hx0 Hxs]%Forall_cons. cbn [foldr]. rw get_put.
    case_decide as Hk.
    + f_equal. f_equal. apply (f_equal (fun z => Z.shiftr z 32)) in Hk.
      rw /get_request_tip_key !Z.shiftr_lor !Z.shiftr_shiftl_l // !Z.shiftl_0_r !Z.lor_0_r in Hk. done.
    + apply IH; [|done]. apply elem_of_cons in Hx as [->|]; done.
  - apply H; [done|]. apply Forall_forall. intros x Hx%elem_of_seqZ. lia.
Qed.
Lemma active_over : epoch_over fixed (end_of_50 32) 50 seats.
Proof.
  split.
  - by exists epoch_49, (Build_Tip 49 0 4).
  - exists (Build_Tip 50 7 77), (last_of_50 32). do 4 (split; [done|]). intros i Hi. rw tips_stored // tips_recorded //.
    split; [done|]. right. rw /tip_at. cbn. apply elem_of_seqZ in Hi. rw /NUM_DELEGATES in Hi.
    by destruct (Z.eqb_spec i 32); [lia|].
  - by exists true.
  - apply Forall_forall. intros d Hd. by apply list_elem_of_fmap_2.
Qed.
Definition built_50 : EpochBlock :=
  Build_EpochBlock 3 0 0 (Build_ApprovedEB 4 50 (Build_Tip 50 7 77) 0 5000 seats (640 + 124) false 2000).
(** No block is accepted when delegate 9 is idle, in particular not the one built. *)
Example idle_delegate_stops_the_epochs_witness : ~ accepts_epoch fixed (end_of_50 9) built_50 None.
Proof.
  apply (idle_delegate_stops_the_epochs fixed (end_of_50 9) built_50 None (Build_Tip 50 7 77) (last_of_50 9) 9); try done.
  - intros i Hi. rw tips_stored // tips_recorded //.
  - apply (bool_decide_eq_true _). by vm_compute.
Defined.
Definition honest_50 : EpochBlock :=
  Build_EpochBlock 3 0 0 (Build_ApprovedEB 4 50 (Build_Tip 50 7 77) 0 5000 seats (640 + 128) false 2000).
Lemma honest_50_accepted : accepts_epoch fixed (end_of_50 32) honest_50 None.
Proof.
  rw /accepts_epoch wp_ok. exists (true, None), (state_after (Validate_EB fixed honest_50 None) (end_of_50 32)).
  split; [|done]. apply run_value. vm_compute. reflexivity.
Qed.
(** A reward of half of all Logos. *)
Example proposer_chooses_the_reward_witness :
  let b' := with_supply (amt_add 5000 (2 ^ 127)) honest_50 in
  accepts_epoch fixed (end_of_50 32) b' None /\
  wp (UpdateGlobalRewards (ep_block b')) (fun _ s' =>
    gl_total_reward <$> mdb_get (epoch_key 50) (global_rewards_db (elections s')) = Some (2 ^ 127)) (store (ledger (end_of_50 32))).
Proof.
  apply (proposer_chooses_the_reward fixed (end_of_50 32) honest_50 None (2 ^ 127) epoch_49); [done|exact honest_50_accepted|done..].
Defined.
End EpochExamples.
