(* ===== verification/EpochLinks.v ===== *)
(** * The request chains of two epochs

    The request blocks of an epoch start new chains, one per delegate; the chain of
    the epoch before is joined to it when the epoch block is applied
    (LinkAndUpdateTips of EpochBlocks.v) or, if it is still empty then, when its
    first block is stored (link_epochs of RequestValidation.v). *)
From stdpp Require Import base list numbers strings gmap ssreflect.
From S2P Require Import Prelude Serial Lmdb StakingTypes Requests Epochs BlockStore AccountInfo Elections EpochVoting EpochRewards Governance TokenTypes TokenRequests Ledger Transfers RequestValidation EpochPersistence ConsensusBlocks BlockContainer Committee Microblocks EpochBlocks.
Open Scope Z_scope.

Lemma tip_key_value i e : in_width 32 e -> get_request_tip_key i e = i * 2 ^ 32 + e.
Proof.
  rw /get_request_tip_key /in_width => He. pose proof (Z.add_lor_land (Z.shiftl i 32) e) as E.
  assert (Z.land (Z.shiftl i 32) e = 0) as Hz.
  { apply Z.bits_inj'. intros n Hn. rw Z.land_spec Z.bits_0. destruct (Z.lt_ge_cases n 32) as [Hlt|Hge].
    - by rw Z.shiftl_spec_low.
    - rw -(Z.mod_small e (2 ^ 32)) // Z.mod_pow2_bits_high; [by rw andb_false_r|lia]. }
  rw Z.shiftl_mul_pow2 in E; [|lia]. rw Z.shiftl_mul_pow2 in Hz |- *; [|lia..]. lia.
Qed.
Lemma tip_key_inj i e i' e' :
  in_width 32 e -> in_width 32 e' -> get_request_tip_key i e = get_request_tip_key i' e' -> i = i' /\ e = e'.
Proof. intros He He'. rw !tip_key_value //. rw /in_width in He, He'. lia. Qed.

Section Linking.
Context {L : Lmdb} {LL : LmdbLaws L} {Bk : Blake2b}.
Implicit Types (l : Ledger) (b f : ApprovedRB) (t : Tip).

(** ** Two epochs

    [cur] is the new epoch and [cur - 1] the one that is over. *)
Record two_epochs := {
  te_cur : Z;
  te_tip : Z -> Tip;                  (* of the delegate in the epoch that is over *)
  te_last : Z -> ApprovedRB;          (* and its block *)
  te_new : Z -> list ApprovedRB;      (* the blocks of the new epoch, the newest first *)
}.
Implicit Types c : two_epochs.
Fixpoint linked_back (bs : list ApprovedRB) : Prop :=
  match bs with
  | [] => True
  | b :: bs => rb_previous b = match bs with [] => 0 | p :: _ => ApprovedRB_Hash p end /\ linked_back bs
  end.
Definition stored l b : Prop := mdb_get (ApprovedRB_Hash b) (batch_db l) = Some b /\ ApprovedRB_Hash b <> 0.
Record delegate_chains c l (i : Z) : Prop := {
  dc_tip : tip_in l (te_cur c - 1) i = Some (te_tip c i);
  dc_last : mdb_get (digest (te_tip c i)) (batch_db l) = Some (te_last c i);
  dc_owner : rb_primary_delegate (te_last c i) = i /\ rb_epoch_number (te_last c i) <> te_cur c;
  dc_new_tip : tip_in l (te_cur c) i = (fun b => CreateTip (RB b)) <$> hd_error (te_new c i);
  dc_new : Forall (fun b => stored l b /\ rb_primary_delegate b = i /\ rb_epoch_number b = te_cur c) (te_new c i);
  dc_linked : linked_back (te_new c i);
}.
Record chains c l : Prop := {
  ch_cur : 0 < te_cur c < 2 ^ 32;
  ch_zero : mdb_get 0 (batch_db l) = None;
  ch_delegate i : i ∈ positions -> delegate_chains c l i;
}.

(** ** The first blocks of the new epoch *)
Lemma backward_chain l n bs :
  mdb_get 0 (batch_db l) = None -> Forall (stored l) bs -> linked_back bs -> (length bs < n)%nat ->
  backward n (batch_db l) 0 (match bs with [] => 0 | b :: _ => ApprovedRB_Hash b end) = Some (bs, false).
Proof.
  intros Hz. revert n. induction bs as [|b bs IH]; intros [|n] Hs Hl Hn; cbn [length] in Hn; [lia| |lia|].
  - cbn. by rw Hz.
  - apply Forall_cons in Hs as [[Hb Hnz] Hs]. destruct Hl as [Hp Hl]. cbn [backward]. rw Hb (proj2 (Z.eqb_neq _ _) Hnz) Hp IH //. lia.
Qed.
Lemma iterate_all {A} (walk : A -> option (list ApprovedRB * bool)) (f : A -> list ApprovedRB) xs :
  (forall x, x ∈ xs -> walk x = Some (f x, false)) -> iterate walk xs = Some (f <$> xs).
Proof.
  induction xs as [|x xs IH]; intros Hw; [done|]. cbn [iterate]. rw (Hw x (list_elem_of_here _ _)). cbn.
  rw IH; [done|]. intros y Hy. apply Hw. by right.
Qed.
Definition first_block c (i : Z) : option ApprovedRB := last (te_new c i).
Definition first_tip c (i : Z) : Tip := match first_block c i with Some f => CreateTip (RB f) | None => no_tip end.
Lemma first_of_chain bs :
  Forall (fun b => ApprovedRB_Hash b <> 0) bs -> linked_back bs ->
  first_of bs = match last bs with Some f => CreateTip (RB f) | None => no_tip end.
Proof.
  rw /first_of. generalize no_tip. induction bs as [|b bs IH]; intros t Hs Hl; [done|].
  apply Forall_cons in Hs as [Hb Hs]. destruct Hl as [Hp Hl]. cbn [foldl]. rw IH //.
  destruct bs as [|p bs]; [by rw Hp|]. rw last_cons_cons.
  destruct (last (p :: bs)) eqn:E; [done|by apply last_None in E].
Qed.

Lemma GetEpochFirstRBs_chains c l n :
  chains c l -> (forall i, i ∈ positions -> (length (te_new c i) < n)%nat) ->
  GetEpochFirstRBs n l (te_cur c) = Some (first_tip c <$> positions).
Proof.
  intros Hc Hn. rw /GetEpochFirstRBs.
  set start := fun i => match tip_in l (te_cur c) i with Some t => digest t | None => 0 end.
  assert (iterate (backward n (batch_db l) 0) (start <$> positions) = Some (te_new c <$> positions)) as ->.
  { assert (forall xs, (forall i, i ∈ xs -> i ∈ positions) ->
      iterate (backward n (batch_db l) 0) (start <$> xs) = Some (te_new c <$> xs)) as H; [|by apply H].
    induction xs as [|i xs IH]; intros Hx; [done|]. rw !fmap_cons. cbn [iterate].
    destruct (ch_delegate _ _ Hc i) as [_ _ _ Ht Hs Hl]; [apply Hx; by left|].
    assert (start i = match te_new c i with [] => 0 | b :: _ => ApprovedRB_Hash b end) as ->.
    { rw /start Ht. by destruct (te_new c i). }
    rw backward_chain //; [|by apply (ch_zero _ _ Hc)| |apply Hn, Hx; by left].
    - cbn. rw IH; [done|]. intros j Hj. apply Hx. by right.
    - eapply Forall_impl; [exact Hs|]. by intros b [? _]. }
  f_equal. rw -list_fmap_compose. apply list_fmap_ext. intros k i Hk%list_elem_of_lookup_2. cbn.
  destruct (ch_delegate _ _ Hc i Hk) as [_ _ _ _ Hs Hl]. rw first_of_chain //.
  eapply Forall_impl; [exact Hs|]. by intros b [[_ ?] _].
Qed.

(** ** Linking *)

(** What has become of the chains of delegate [i]. *)
Definition joined c l' (i : Z) : Prop :=
  tip_in l' (te_cur c - 1) i = None /\
  match first_block c i with
  | None => tip_in l' (te_cur c) i = Some (te_tip c i)
  | Some f =>
      tip_in l' (te_cur c) i = (fun b => CreateTip (RB b)) <$> hd_error (te_new c i) /\
      mdb_get (digest (te_tip c i)) (batch_db l') = Some (set_rb_next (ApprovedRB_Hash f) (te_last c i)) /\
      mdb_get (ApprovedRB_Hash f) (batch_db l') = Some (set_rb_previous (digest (te_tip c i)) f)
  end.
(** The blocks that are rewritten for delegate [i]. *)
Definition rewritten c (h : BlockHash) (i : Z) : Prop :=
  match first_block c i with None => False | Some f => h = digest (te_tip c i) \/ h = ApprovedRB_Hash f end.
Definition same_but_blocks l l' : Prop :=
  store l' = store l /\ account_db l' = account_db l /\ token_user_status_db l' = token_user_status_db l /\
  receive_db l' = receive_db l /\ other_request_db l' = other_request_db l.
Record linked_for c l (xs : list Z) l' : Prop := {
  lf_joined i : i ∈ xs -> joined c l' i;
  lf_tips i e : in_width 32 e -> i ∉ xs -> tip_in l' e i = tip_in l e i;
  lf_old_tips i e : in_width 32 e -> e <> te_cur c -> e <> te_cur c - 1 -> tip_in l' e i = tip_in l e i;
  lf_blocks h : (forall i, i ∈ xs -> ~ rewritten c h i) -> mdb_get h (batch_db l') = mdb_get h (batch_db l);
  lf_frame : same_but_blocks l l';
}.

Lemma last_elem {A} (xs : list A) x : last xs = Some x -> x ∈ xs.
Proof. intros E. apply last_Some in E as (ys & ->). set_solver. Qed.
Lemma first_stored c l i f :
  delegate_chains c l i -> first_block c i = Some f ->
  stored l f /\ rb_primary_delegate f = i /\ rb_epoch_number f = te_cur c.
Proof. intros [_ _ _ _ Hs _] Hf%last_elem. by apply (proj1 (Forall_forall _ _) Hs). Qed.
(** Different delegates have different blocks. *)
Lemma rewritten_apart c l h i j :
  delegate_chains c l i -> delegate_chains c l j -> i <> j -> rewritten c h i ->
  h <> digest (te_tip c j) /\ forall f, first_block c j = Some f -> h <> ApprovedRB_Hash f.
Proof.
  intros Hi Hj Hne Hr. rw /rewritten in Hr. destruct (first_block c i) as [f|] eqn:Ef; [|done].
  destruct (first_stored _ _ _ _ Hi Ef) as ([Hf _] & Hfi & Hfe). pose proof (dc_last _ _ _ Hi) as Hl.
  destruct (dc_owner _ _ _ Hi) as [Hli Hle], (dc_owner _ _ _ Hj) as [Hlj Hlje]. pose proof (dc_last _ _ _ Hj) as Hlj'.
  split.
  - intros ->. destruct Hr as [E|E]; rw E in Hlj'; [|congruence]. assert (te_last c j = te_last c i) by congruence. congruence.
  - intros f' Ef' ->. destruct (first_stored _ _ _ _ Hj Ef') as ([Hf' _] & Hfj & Hfe'). destruct Hr as [E|E]; rw E in Hf'.
    + assert (f' = te_last c i) by congruence. congruence.
    + assert (f' = f) by congruence. congruence.
Qed.
Lemma tip_in_put l i e t j e' :
  in_width 32 e -> in_width 32 e' ->
  mdb_get (get_request_tip_key j e') (mdb_put (get_request_tip_key i e) t (request_tips_db l))
  = if bool_decide (i = j /\ e = e') then Some t else tip_in l e' j.
Proof.
  intros He He'. rw get_put. case_decide as Hk; case_bool_decide as Hb; try done.
  - by apply tip_key_inj in Hk.
  - by destruct Hb as [-> ->].
Qed.
Lemma tip_in_del (tips : table Tip) i e j e' :
  in_width 32 e -> in_width 32 e' ->
  mdb_get (get_request_tip_key j e') (mdb_del (get_request_tip_key i e) tips)
  = if bool_decide (i = j /\ e = e') then None else mdb_get (get_request_tip_key j e') tips.
Proof.
  intros He He'. rw get_del. case_decide as Hk; case_bool_decide as Hb; try done.
  - by apply tip_key_inj in Hk.
  - by destruct Hb as [-> ->].
Qed.

(** The ledger after the chains of delegate [i] were linked. *)
Definition link_ledger c (i : Z) l : Ledger :=
  let old := get_request_tip_key i (te_cur c - 1) in
  match first_block c i with
  | Some f =>
      set_request_tips_db (mdb_del old (request_tips_db l))
        (set_batch_db (mdb_put (ApprovedRB_Hash f) (set_rb_previous (digest (te_tip c i)) f)
           (mdb_put (digest (te_tip c i)) (set_rb_next (ApprovedRB_Hash f) (te_last c i)) (batch_db l))) l)
  | None =>
      set_request_tips_db (mdb_del old (mdb_put (get_request_tip_key i (te_cur c)) (te_tip c i) (request_tips_db l))) l
  end.
Lemma link_ledger_tips c i l j e :
  0 < te_cur c < 2 ^ 32 -> in_width 32 e ->
  tip_in (link_ledger c i l) e j =
    if bool_decide (i = j /\ e = te_cur c - 1) then None
    else if bool_decide (i = j /\ e = te_cur c /\ first_block c i = None) then Some (te_tip c i) else tip_in l e j.
Proof.
  intros Hc He. assert (in_width 32 (te_cur c) /\ in_width 32 (te_cur c - 1)) as [Hw Hw'] by (rw /in_width; lia).
  rw /link_ledger. destruct (first_block c i) as [f|]; rw /tip_in /= tip_in_del //.
  - rw (bool_decide_ext (i = j /\ te_cur c - 1 = e) (i = j /\ e = te_cur c - 1)); [|naive_solver].
    rw (bool_decide_false (i = j /\ e = te_cur c /\ Some f = None)) //. naive_solver.
  - rw tip_in_put // (bool_decide_ext (i = j /\ te_cur c - 1 = e) (i = j /\ e = te_cur c - 1)); [|naive_solver].
    by rw (bool_decide_ext (i = j /\ te_cur c = e) (i = j /\ e = te_cur c /\ (None : option ApprovedRB) = None)); [|naive_solver].
Qed.
Lemma link_ledger_other c i l h :
  ~ rewritten c h i -> mdb_get h (batch_db (link_ledger c i l)) = mdb_get h (batch_db l).
Proof.
  rw /rewritten /link_ledger. destruct (first_block c i); [|done]. cbn. intros Hn. rw !get_put_ne //; naive_solver.
Qed.
Lemma LinkAndUpdateTips_ok c l i l1 :
  0 < te_cur c < 2 ^ 32 -> delegate_chains c l i ->
  mdb_get (digest (te_tip c i)) (batch_db l1) = Some (te_last c i) ->
  (forall f, first_block c i = Some f -> mdb_get (ApprovedRB_Hash f) (batch_db l1) = Some f) ->
  LinkAndUpdateTips l i (te_cur c) (first_tip c i) l1 = Ok (tt, link_ledger c i l1).
Proof.
  intros Hc Hd El Efs. assert (in_width 32 (te_cur c - 1)) by (rw /in_width; lia).
  rw /LinkAndUpdateTips u32_id // (dc_tip _ _ _ Hd) /first_tip /link_ledger.
  destruct (first_block c i) as [f|] eqn:Ef; [|done].
  destruct (first_stored _ _ _ _ Hd Ef) as ([Hfs Hfz] & Hfi & Hfe).
  cbn [CreateTip digest block_hash]. rw (proj2 (Z.eqb_neq _ _) Hfz).
  rw /mbind /M_bind /request_block_update_next /request_block_update_prev /request_block_get /mbind /M_bind /gets El.
  cbn. rw get_put_ne; [by rw Efs|]. intros E. rw -E in Hfs. pose proof (dc_last _ _ _ Hd). destruct (dc_owner _ _ _ Hd). congruence.
Qed.

Lemma link_one c l xs i l1 :
  chains c l -> i ∈ positions -> i ∉ xs -> (forall j, j ∈ xs -> j ∈ positions) -> linked_for c l xs l1 ->
  LinkAndUpdateTips l i (te_cur c) (first_tip c i) l1 = Ok (tt, link_ledger c i l1) /\
  linked_for c l (i :: xs) (link_ledger c i l1).
Proof.
  intros Hc Hi Hx Hxs [Hj Ht Ho Hb Hf]. pose proof (ch_cur _ _ Hc) as Hcur. pose proof (ch_delegate _ _ Hc i Hi) as Hd.
  assert (in_width 32 (te_cur c) /\ in_width 32 (te_cur c - 1)) as [Hw Hw'] by (rw /in_width; lia).
  assert (forall j h, j ∈ xs -> rewritten c h j -> ~ rewritten c h i /\ h <> digest (te_tip c i)) as Hap.
  { intros j h Hjx Hr. destruct (rewritten_apart c l h j i) as [A1 A2]; [by apply (ch_delegate _ _ Hc), Hxs|done|by intros ->|done|].
    split; [|done]. rw /rewritten. destruct (first_block c i) as [f|]; [|tauto]. intros [?|?]; [done|by apply (A2 f)]. }
  assert (mdb_get (digest (te_tip c i)) (batch_db l1) = Some (te_last c i)) as El.
  { rw Hb; [apply Hd|]. intros j Hjx Hr. by destruct (Hap j _ Hjx Hr). }
  assert (forall f, first_block c i = Some f -> mdb_get (ApprovedRB_Hash f) (batch_db l1) = Some f) as Efs.
  { intros f Ef. destruct (first_stored _ _ _ _ Hd Ef) as ([Hfs _] & _). rw Hb // => j Hjx Hr.
    destruct (Hap j _ Hjx Hr) as [Hn _]. apply Hn. rw /rewritten Ef. by right. }
  split; [by apply LinkAndUpdateTips_ok|]. split.
  - intros j [->|Hjx]%elem_of_cons; rw /joined !link_ledger_tips //.
    + rw bool_decide_true // bool_decide_false; [|lia]. split; [done|].
      destruct (first_block c i) as [f|] eqn:Ef; [|by rw bool_decide_true].
      rw bool_decide_false; [|naive_solver]. split_and!; [by rw Ht // (dc_new_tip _ _ _ Hd)| |]; rw /link_ledger Ef /=.
      * rw get_put_ne; [by rw get_put_eq|]. destruct (first_stored _ _ _ _ Hd Ef) as ([Hfs _] & _ & Hfe). intros E. rw E in Hfs.
        pose proof (dc_last _ _ _ Hd). destruct (dc_owner _ _ _ Hd). congruence.
      * by rw get_put_eq.
    + assert (i <> j) by by intros ->. rw !bool_decide_false; [|naive_solver..]. destruct (Hj j Hjx) as [H1 H2]. split; [done|].
      destruct (first_block c j) as [f|] eqn:Ef; [|done]. destruct H2 as (? & ? & ?).
      split_and!; [done|rw link_ledger_other // ..]; apply (Hap j _ Hjx); rw /rewritten Ef; by auto.
  - intros j e He Hjx. rw not_elem_of_cons in Hjx. rw link_ledger_tips // !bool_decide_false; [apply Ht; [done|apply Hjx]|naive_solver..].
  - intros j e He H1 H2. rw link_ledger_tips // !bool_decide_false; [by apply Ho|naive_solver..].
  - intros h Hh. rw link_ledger_other; [apply Hb|apply Hh; by left]. intros j Hjx. apply Hh. by right.
  - rw /link_ledger. by destruct (first_block c i).
Qed.
Lemma link_all_ok c l ys : forall xs l1,
  chains c l -> NoDup ys -> (forall i, i ∈ ys -> i ∈ positions /\ i ∉ xs) -> (forall j, j ∈ xs -> j ∈ positions) ->
  linked_for c l xs l1 ->
  exists l2, link_all l (te_cur c) ((fun i => (i, first_tip c i)) <$> ys) l1 = Ok (tt, l2) /\ linked_for c l (reverse ys ++ xs) l2.
Proof.
  induction ys as [|y ys IH]; intros xs l1 Hc Hn Hy Hx Hl; [by exists l1|].
  apply NoDup_cons in Hn as [Hny Hn]. destruct (Hy y) as [Hyp Hyx]; [by left|].
  destruct (link_one c l xs y l1) as [E1 Hl1]; [done..|].
  destruct (IH (y :: xs) (link_ledger c y l1)) as (l2 & E2 & Hl2); [done|done| |by intros j [->|?]%elem_of_cons; auto|done|].
  { intros i Hi. destruct (Hy i); [by right|]. split; [done|]. rw not_elem_of_cons. split; [by intros ->|done]. }
  exists l2. rw fmap_cons. cbn [link_all fst snd]. rw /mbind /M_bind E1. split; [done|]. by rw reverse_cons -app_assoc.
Qed.
Lemma zip_self {A B} (f : A -> B) xs : zip xs (f <$> xs) = (fun x => (x, f x)) <$> xs.
Proof. induction xs as [|x xs IH]; [done|]. rw !fmap_cons. cbn. by f_equal. Qed.
Lemma link_chains_ok c l :
  chains c l -> exists n0 l', (forall n, (n0 <= n)%nat -> link_chains n l (te_cur c) l = Ok (tt, l')) /\ linked_for c l positions l'.
Proof.
  intros Hc. destruct (link_all_ok c l positions [] l) as (l' & E & Hl); [done|apply NoDup_seqZ| |by intros j ?%not_elem_of_nil| |].
  { intros i Hi. split; [done|]. apply not_elem_of_nil. }
  { split; try done. by intros i ?%not_elem_of_nil. }
  exists (S (max_list ((fun i => length (te_new c i)) <$> positions))), l'. split.
  - intros n Hn. rw /link_chains (GetEpochFirstRBs_chains c l n Hc); [by rw zip_self|].
    intros i Hi. assert (length (te_new c i) <= max_list ((fun i => length (te_new c i)) <$> positions))%nat; [|lia].
      apply max_list_elem_of_le. apply list_elem_of_fmap. by exists i.
  - rw app_nil_r in Hl. destruct Hl as [Hj Ht Ho Hb Hf]. split.
    + intros i Hi. apply Hj. by apply elem_of_reverse.
    + intros i e He Hi. apply Ht; [done|]. by rw elem_of_reverse.
    + done.
    + intros h Hh. apply Hb. intros i Hi. by apply Hh, elem_of_reverse.
    + done.
Qed.

(** ** The first block of a delegate in the new epoch *)
Lemma put_requests_ok rs : forall l,
  exists l', put_requests rs l = Ok (tt, l') /\ batch_db l' = batch_db l /\ request_tips_db l' = request_tips_db l.
Proof.
  induction rs as [|r rs IH]; intros l; [by exists l|]. cbn [put_requests].
  assert (exists l1, any_request_put r l = Ok (tt, l1) /\ batch_db l1 = batch_db l /\ request_tips_db l1 = request_tips_db l)
    as (l1 & E & Hb & Ht) by (destruct r; cbn; by eexists).
  destruct (IH l1) as (l2 & E2 & Hb2 & Ht2). exists l2. rw /mbind /M_bind E E2. split; [done|]. by rw Hb2 Ht2.
Qed.
Definition first_in (e : Z) (fb : ApprovedRB) : Prop :=
  rb_sequence fb = 0 /\ rb_epoch_number fb = e /\ rb_previous fb = 0 /\ ApprovedRB_Hash fb <> 0.
Abbreviation tip_key fb := (get_request_tip_key (rb_primary_delegate fb) (rb_epoch_number fb)).
(** Before the epoch block, it has no predecessor. *)
Lemma StoreRequestBlock_before e e0 fb l :
  first_in e fb -> value_of epoch_number_stored l = Some e0 -> u32 (e0 + 1) <> e ->
  exists l', StoreRequestBlock l fb (rb_primary_delegate fb) l = Ok (tt, l') /\
    batch_db l' = mdb_put (ApprovedRB_Hash fb) fb (batch_db l) /\
    request_tips_db l' = mdb_put (tip_key fb) (CreateTip (RB fb)) (request_tips_db l).
Proof.
  intros (Hs & He & Hp & Hn) Hst Hne. destruct (put_requests_ok (rb_requests fb)
    (set_batch_db (mdb_put (ApprovedRB_Hash fb) fb (batch_db l)) l)) as (l1 & E & Hb & Ht).
  assert (link_epochs l fb (ApprovedRB_Hash fb) l = Ok (fb, l)) as El.
  { rw /link_epochs Hst He (proj2 (Z.eqb_neq _ _) Hne). by destruct (_ && _). }
  eexists. split; [|split].
  - rw /StoreRequestBlock /mbind /M_bind El /request_block_put /mbind /M_bind /modify E Hp. cbn. done.
  - by rw /= Hb.
  - by rw /= Ht.
Qed.
Lemma set_rb_previous_hash p fb : rb_sequence fb = 0 -> ApprovedRB_Hash (set_rb_previous p fb) = ApprovedRB_Hash fb.
Proof. intros Hs. rw /ApprovedRB_Hash. cbn. by rw Hs. Qed.
(** After it, the block is linked to the last one of the epoch before. *)
Lemma StoreRequestBlock_after e fb t b l :
  first_in e fb -> GENESIS_EPOCH + 1 < e < 2 ^ 32 -> value_of epoch_number_stored l = Some (e - 1) ->
  tip_in l e (rb_primary_delegate fb) = Some t -> mdb_get (digest t) (batch_db l) = Some b ->
  digest t <> 0 -> digest t <> ApprovedRB_Hash fb ->
  exists l', StoreRequestBlock l fb (rb_primary_delegate fb) l = Ok (tt, l') /\
    (forall h, mdb_get h (batch_db l') =
       if bool_decide (h = digest t) then Some (set_rb_next (ApprovedRB_Hash fb) b)
       else if bool_decide (h = ApprovedRB_Hash fb) then Some (set_rb_previous (digest t) fb) else mdb_get h (batch_db l)) /\
    request_tips_db l' = mdb_put (tip_key fb) (CreateTip (RB fb)) (request_tips_db l).
Proof.
  intros (Hs & He & Hp & Hn) Hg Hst Ht Hb Hz Hne. set fb' := set_rb_previous (digest t) fb.
  set b1 := mdb_put (digest t) (set_rb_next (ApprovedRB_Hash fb) b) (batch_db l).
  assert (link_epochs l fb (ApprovedRB_Hash fb) l = Ok (fb', set_batch_db b1 l)) as El.
  { rw /link_epochs Hs He Hst. replace (e - 1 + 1) with e by lia. rw u32_id; [|rw /in_width /GENESIS_EPOCH in Hg |- *; lia].
    rw !Z.eqb_refl (proj2 (Z.ltb_lt _ _) (proj1 Hg)) /value_of /request_tip_get /gets. cbn [andb Z.eqb].
    rw -/(tip_in l e (rb_primary_delegate fb)) Ht /mbind /M_bind /request_block_update_next /request_block_get /mbind /M_bind /gets Hb.
    done. }
  destruct (put_requests_ok (rb_requests fb) (set_batch_db (mdb_put (ApprovedRB_Hash fb) fb' b1) (set_batch_db b1 l)))
    as (l1 & E & Hb1 & Ht1). cbn in Hb1, Ht1.
  eexists. split; [|split].
  - rw /StoreRequestBlock /mbind /M_bind El /request_block_put /mbind /M_bind /modify.
    change (rb_requests fb') with (rb_requests fb). cbn [batch_db set_batch_db]. rw E. cbn [rb_previous fb' set_rb_previous].
    rw /request_tip_put /modify (proj2 (Z.eqb_neq _ _) Hz) /request_block_update_next /request_block_get /mbind /M_bind /gets.
    cbn. rw Hb1 /b1 get_put_ne; [|done]. rw get_put_eq. cbn. done.
  - intros h. cbn. rw get_put Hb1 /b1 !get_put. repeat case_bool_decide; repeat case_decide; subst; done || congruence.
  - cbn. by rw Ht1 set_rb_previous_hash.
Qed.

(** The new epoch with [fb] in it. *)
Definition with_first (fb : ApprovedRB) c : two_epochs :=
  {| te_cur := te_cur c; te_tip := te_tip c; te_last := te_last c;
     te_new := fun i => if i =? rb_primary_delegate fb then [fb] else te_new c i |}.
Lemma with_first_chains c l l1 fb :
  chains c l -> first_in (te_cur c) fb -> te_new c (rb_primary_delegate fb) = [] ->
  mdb_get (ApprovedRB_Hash fb) (batch_db l) = None ->
  batch_db l1 = mdb_put (ApprovedRB_Hash fb) fb (batch_db l) ->
  request_tips_db l1 = mdb_put (tip_key fb) (CreateTip (RB fb)) (request_tips_db l) ->
  chains (with_first fb c) l1.
Proof.
  intros [Hc Hz Hd] (Hs & He & Hp & Hn) Hnew Hfresh Hb Ht.
  assert (in_width 32 (te_cur c) /\ in_width 32 (te_cur c - 1)) as [Hw Hw'] by (rw /in_width; lia).
  assert (forall h x, mdb_get h (batch_db l) = Some x -> mdb_get h (batch_db l1) = Some x) as Hkeep.
  { intros h x Hx. rw Hb get_put_ne; [done|]. intros <-. congruence. }
  assert (forall i e, in_width 32 e -> tip_in l1 e i = if bool_decide (rb_primary_delegate fb = i /\ te_cur c = e)
            then Some (CreateTip (RB fb)) else tip_in l e i) as Htip.
  { intros i e Hwe. rw /tip_in Ht He tip_in_put //. }
  split; [done|cbn; by rw Hb get_put_ne|]. intros i Hi. destruct (Hd i Hi) as [D1 D2 D3 D4 D5 D6]. split; cbn [with_first te_cur te_tip te_last te_new].
  - rw Htip // bool_decide_false //. lia.
  - by apply Hkeep.
  - done.
  - rw Htip //. destruct (Z.eqb_spec i (rb_primary_delegate fb)) as [->|Hne]; [by rw bool_decide_true|].
    rw bool_decide_false //. naive_solver.
  - destruct (Z.eqb_spec i (rb_primary_delegate fb)) as [->|Hne].
    + apply Forall_singleton. split; [|done]. split; [|done]. by rw Hb get_put_eq.
    + eapply Forall_impl; [exact D5|]. intros x [[Hx Hxz] ?]. split; [|done]. split; [by apply Hkeep|done].
  - destruct (i =? _); [|done]. cbn. by rw Hp.
Qed.
Lemma set_store_chains c s l : chains c l -> chains c (set_store s l).
Proof. intros [? ? Hd]. split; [done|done|]. intros i Hi. by destruct (Hd i Hi). Qed.

(** ** The order of the two *)
Definition same_chains l l' : Prop :=
  (forall h, mdb_get h (batch_db l) = mdb_get h (batch_db l')) /\
  (forall i e, in_width 32 e -> tip_in l e i = tip_in l' e i).
#[local] Instance rewritten_dec c h i : Decision (rewritten c h i).
Proof. rw /rewritten. destruct (first_block c i); apply _. Defined.

(** [l2] is reached with the request block [fb] first, over [l1]; [l3] by the epoch
    block alone, [l4] with the request block after it. *)
Section Orders.
Context (c : two_epochs) (l l1 l2 l3 l4 : Ledger) (fb : ApprovedRB) (i : Z).
Context (Hc : chains c l) (Hfb : first_in (te_cur c) fb) (Hnew : te_new c i = []) (Hi : i ∈ positions).
Context (Howner : rb_primary_delegate fb = i) (Hfresh : mdb_get (ApprovedRB_Hash fb) (batch_db l) = None).
Context (Hb1 : batch_db l1 = mdb_put (ApprovedRB_Hash fb) fb (batch_db l)).
Context (Ht1 : request_tips_db l1 = mdb_put (tip_key fb) (CreateTip (RB fb)) (request_tips_db l)).
Context (H2 : linked_for (with_first fb c) l1 positions l2) (H3 : linked_for c l positions l3).
Context (Hb4 : forall h, mdb_get h (batch_db l4) =
  if bool_decide (h = digest (te_tip c i)) then Some (set_rb_next (ApprovedRB_Hash fb) (te_last c i))
  else if bool_decide (h = ApprovedRB_Hash fb) then Some (set_rb_previous (digest (te_tip c i)) fb)
  else mdb_get h (batch_db l3)).
Context (Ht4 : request_tips_db l4 = mdb_put (tip_key fb) (CreateTip (RB fb)) (request_tips_db l3)).

Lemma first_block_own : first_block (with_first fb c) i = Some fb.
Proof. rw /first_block. cbn. by rw Howner Z.eqb_refl. Qed.
Lemma first_block_none : first_block c i = None.
Proof. by rw /first_block Hnew. Qed.
Lemma first_block_other j : j <> i -> first_block (with_first fb c) j = first_block c j.
Proof. intros Hj. rw /first_block. cbn. by rw Howner (proj2 (Z.eqb_neq _ _) Hj). Qed.
Lemma joined_other j : j ∈ positions -> j <> i -> joined c l2 j.
Proof.
  intros Hj Hji. pose proof (lf_joined _ _ _ _ H2 j Hj) as J. rw /joined first_block_other // in J.
  cbn in J. by rw Howner (proj2 (Z.eqb_neq _ _) Hji) in J.
Qed.
Lemma joined_own :
  tip_in l2 (te_cur c - 1) i = None /\ tip_in l2 (te_cur c) i = Some (CreateTip (RB fb)) /\
  mdb_get (digest (te_tip c i)) (batch_db l2) = Some (set_rb_next (ApprovedRB_Hash fb) (te_last c i)) /\
  mdb_get (ApprovedRB_Hash fb) (batch_db l2) = Some (set_rb_previous (digest (te_tip c i)) fb).
Proof.
  pose proof (lf_joined _ _ _ _ H2 i Hi) as J. rw /joined first_block_own in J. cbn in J. by rw Howner Z.eqb_refl in J.
Qed.
Lemma orders_blocks h : mdb_get h (batch_db l2) = mdb_get h (batch_db l4).
Proof.
  pose proof Hfresh as Hfr. rw Hb4. pose proof (ch_delegate _ _ Hc i Hi) as Hd. destruct joined_own as (_ & _ & J1 & J2).
  destruct (decide (Exists (rewritten (with_first fb c) h) positions)) as [Hr|Hr].
  - apply Exists_exists in Hr as (j & Hj & Hr). destruct (decide (j = i)) as [->|Hji].
    + rw /rewritten first_block_own in Hr. cbn in Hr. destruct Hr as [->| ->]; [by rw bool_decide_true|].
      rw bool_decide_false; [by rw bool_decide_true|]. intros E. rw E (dc_last _ _ _ Hd) in Hfr. done.
    + rw /rewritten first_block_other // in Hr. cbn in Hr.
      pose proof (ch_delegate _ _ Hc j Hj) as Hdj. destruct (rewritten_apart c l h j i) as [A _]; [done..|].
      pose proof (joined_other j Hj Hji) as [_ J3]. pose proof (lf_joined _ _ _ _ H3 j Hj) as [_ J4].
      destruct (first_block c j) as [f|] eqn:Ef; [|done]. destruct J3 as (_ & J3 & J3'), J4 as (_ & J4 & J4').
      rw !bool_decide_false; [|intros ->; destruct Hr as [E|E]; rw E in Hfr|done].
      * destruct Hr as [->| ->]; congruence.
      * by rw (dc_last _ _ _ Hdj) in Hfr.
      * destruct (first_stored _ _ _ _ Hdj Ef) as ([Hf _] & _). congruence.
  - assert (forall j, j ∈ positions -> ~ rewritten (with_first fb c) h j) as Hn.
    { intros j Hj Hrj. apply Hr, Exists_exists. by exists j. }
    assert (h <> digest (te_tip c i) /\ h <> ApprovedRB_Hash fb) as [N1 N2].
    { pose proof (Hn i Hi) as N. rw /rewritten first_block_own in N. cbn in N. naive_solver. }
    rw (lf_blocks _ _ _ _ H2) // !bool_decide_false // Hb1 get_put_ne //. symmetry. apply (lf_blocks _ _ _ _ H3).
    intros j Hj Hrj. destruct (decide (j = i)) as [->|Hji]; [by rw /rewritten first_block_none in Hrj|].
    apply (Hn j Hj). rw /rewritten first_block_other //.
Qed.
Lemma orders_tips j e : in_width 32 e -> tip_in l2 e j = tip_in l4 e j.
Proof.
  intros He. destruct Hfb as (_ & Hfe & _). pose proof (ch_cur _ _ Hc) as Hcur.
  assert (in_width 32 (te_cur c) /\ in_width 32 (te_cur c - 1)) as [Hw Hw'] by (rw /in_width; lia).
  rw {2}/tip_in Ht4 Howner Hfe tip_in_put //. destruct joined_own as (J1 & J2 & _).
  assert (tip_in l1 e j = if bool_decide (i = j /\ te_cur c = e) then Some (CreateTip (RB fb)) else tip_in l e j) as E1.
  { by rw {1}/tip_in Ht1 Howner Hfe tip_in_put. }
  destruct (decide (j ∈ positions)) as [Hj|Hj].
  - destruct (decide (j = i)) as [->|Hji].
    + destruct (decide (e = te_cur c)) as [->|Hne]; [by rw bool_decide_true|]. rw bool_decide_false; [|naive_solver].
      destruct (decide (e = te_cur c - 1)) as [->|Hne'].
      * rw J1. symmetry. apply (lf_joined _ _ _ _ H3 i Hi).
      * rw (lf_old_tips _ _ _ _ H2) // E1 bool_decide_false; [|naive_solver]. by rw (lf_old_tips _ _ _ _ H3).
    + rw bool_decide_false; [|naive_solver]. destruct (joined_other j Hj Hji) as [J3 J4].
      destruct (lf_joined _ _ _ _ H3 j Hj) as [J5 J6].
      destruct (decide (e = te_cur c - 1)) as [->|Hne']; [congruence|]. destruct (decide (e = te_cur c)) as [->|Hne].
      * destruct (first_block c j); [destruct J4, J6|]; congruence.
      * rw (lf_old_tips _ _ _ _ H2) // E1 bool_decide_false; [|naive_solver]. by rw (lf_old_tips _ _ _ _ H3).
  - assert (i <> j) by by intros ->. rw bool_decide_false; [|naive_solver].
    rw (lf_tips _ _ _ _ H2) // E1 bool_decide_false; [|naive_solver]. by rw (lf_tips _ _ _ _ H3).
Qed.
End Orders.

(** C11 The request chains of consecutive epochs are joined, in either order. A delegate
    has proposed nothing yet in the new epoch. Whether its first request block [fb] is
    stored before the epoch block is applied or after it, nothing fails, and the
    tables of request blocks and of tips are the same: every delegate that has blocks
    in both epochs has one doubly linked chain, which [fb] continues, and one tip. *)
Theorem epochs_are_linked_in_either_order c l fb e0 sA sB :
  chains c l -> first_in (te_cur c) fb -> te_new c (rb_primary_delegate fb) = [] ->
  rb_primary_delegate fb ∈ positions -> GENESIS_EPOCH + 1 < te_cur c ->
  mdb_get (ApprovedRB_Hash fb) (batch_db l) = None ->
  value_of epoch_number_stored l = Some e0 -> u32 (e0 + 1) <> te_cur c ->
  value_of epoch_number_stored (set_store sB l) = Some (te_cur c - 1) ->
  exists n0 l1 l2 l3 l4, (forall n, (n0 <= n)%nat ->
    StoreRequestBlock l fb (rb_primary_delegate fb) l = Ok (tt, l1) /\
    link_chains n (set_store sA l1) (te_cur c) (set_store sA l1) = Ok (tt, l2) /\
    link_chains n (set_store sB l) (te_cur c) (set_store sB l) = Ok (tt, l3) /\
    StoreRequestBlock l3 fb (rb_primary_delegate fb) l3 = Ok (tt, l4)) /\
    same_chains l2 l4 /\ (forall i, i ∈ positions -> joined (with_first fb c) l2 i).
Proof.
  intros Hc Hfb Hnew Hi Hg Hfresh He0 Hne HeB. pose proof (ch_cur _ _ Hc) as Hcur.
  destruct (StoreRequestBlock_before _ _ _ _ Hfb He0 Hne) as (l1 & E1 & Hb1 & Ht1).
  destruct (link_chains_ok (with_first fb c) (set_store sA l1)) as (nA & l2 & E2 & H2).
  { by apply set_store_chains, (with_first_chains c l). }
  destruct (link_chains_ok c (set_store sB l)) as (nB & l3 & E3 & H3); [by apply set_store_chains|].
  pose proof (ch_delegate _ _ Hc _ Hi) as Hd.
  assert (digest (te_tip c (rb_primary_delegate fb)) <> 0) as Hz.
  { intros E. pose proof (dc_last _ _ _ Hd) as Hl. rw E (ch_zero _ _ Hc) in Hl. done. }
  destruct (StoreRequestBlock_after (te_cur c) fb (te_tip c (rb_primary_delegate fb)) (te_last c (rb_primary_delegate fb)) l3)
    as (l4 & E4 & Hb4 & Ht4); [done|lia| | | |done| |].
  - destruct (lf_frame _ _ _ _ H3) as [Hs _]. cbn in Hs. move: HeB.
    rw /value_of /epoch_number_stored /mbind /M_bind /in_store /epoch_tip_get /get_elections /gets /= Hs. by destruct (mdb_get 0 _); cbn.
  - pose proof (lf_joined _ _ _ _ H3 _ Hi) as [_ J]. by rw /first_block Hnew in J.
  - rw (lf_blocks _ _ _ _ H3); [apply Hd|]. intros j Hj Hr. destruct (decide (j = rb_primary_delegate fb)) as [->|Hji].
    + by rw /rewritten /first_block Hnew in Hr.
    + destruct (rewritten_apart c l _ j _ (ch_delegate _ _ Hc j Hj) Hd Hji Hr). done.
  - intros E. rw -E (dc_last _ _ _ Hd) in Hfresh. done.
  - exists (max nA nB), l1, l2, l3, l4. split.
    + intros n Hn. split_and!; [done|apply E2; lia|apply E3; lia|done].
    + split; [|by apply (lf_joined _ _ _ _ H2)]. split.
      * intros h. apply (orders_blocks c (set_store sB l) (set_store sA l1) l2 l3 l4 fb (rb_primary_delegate fb)); try done; by apply set_store_chains.
      * intros i e. apply (orders_tips c (set_store sB l) (set_store sA l1) l2 l3 l4 fb (rb_primary_delegate fb)); try done; by apply set_store_chains.
Qed.
End Linking.

(** ** Delegate 5 enters epoch 4 *)
Module LinkExamples.
#[local] Instance L : Lmdb := gmap_lmdb.
#[local] Instance LL : LmdbLaws L := gmap_lmdb_laws.
#[local] Instance BB : Blake2b := encode_blake2b.

(** The delegates below 5 have a block in epoch 4, the others have not. *)
Definition old_block (i : Z) : ApprovedRB := Build_ApprovedRB i 3 3 9 100 0 [] 0.
Definition new_block (i : Z) : ApprovedRB := Build_ApprovedRB i 4 4 0 200 0 [] 0.
Definition in_epoch_4 : two_epochs :=
  {| te_cur := 4; te_tip := fun i => CreateTip (RB (old_block i)); te_last := old_block;
     te_new := fun i => if i <? 5 then [new_block i] else [] |}.
Definition put_block (b : ApprovedRB) (l : Ledger) : Ledger :=
  set_request_tips_db (mdb_put (get_request_tip_key (rb_primary_delegate b) (rb_epoch_number b)) (CreateTip (RB b)) (request_tips_db l))
    (set_batch_db (mdb_put (ApprovedRB_Hash b) b (batch_db l)) l).
Definition with_epoch (e : Z) : Store :=
  set_elections (set_epoch_tip_db (mdb_put 0 (Build_Tip e 0 4) mdb_empty) no_elections) empty_store.
Definition before_epoch_block : Ledger :=
  foldr put_block (set_store (with_epoch 2) empty_ledger)
    ((old_block <$> positions) ++ (new_block <$> seqZ 0 5)).
Lemma in_epoch_4_chains : chains in_epoch_4 before_epoch_block.
Proof.
  split; [done|by vm_compute|]. intros i Hi. revert i Hi. apply Forall_forall.
  let ps := eval vm_compute in positions in change positions with ps.
  repeat (apply Forall_cons; split;
    [split; [by vm_compute|by vm_compute|done|by vm_compute| |done]; cbn;
     first [apply Forall_nil_2|apply Forall_singleton; split; [split; by vm_compute|done]]|]).
  apply Forall_nil_2.
Qed.
Definition entering : ApprovedRB := new_block 5.
Example epochs_are_linked_in_either_order_witness :
  exists n0 l1 l2 l3 l4, (forall n, (n0 <= n)%nat ->
    StoreRequestBlock before_epoch_block entering 5 before_epoch_block = Ok (tt, l1) /\
    link_chains n (set_store (with_epoch 3) l1) 4 (set_store (with_epoch 3) l1) = Ok (tt, l2) /\
    link_chains n (set_store (with_epoch 3) before_epoch_block) 4 (set_store (with_epoch 3) before_epoch_block) = Ok (tt, l3) /\
    StoreRequestBlock l3 entering 5 l3 = Ok (tt, l4)) /\
    same_chains l2 l4 /\ (forall i, i ∈ positions -> joined (with_first entering in_epoch_4) l2 i).
Proof.
  apply (epochs_are_linked_in_either_order in_epoch_4 before_epoch_block entering 2); [exact in_epoch_4_chains| |done| |done| | |done|].
  - split_and!; by vm_compute.
  - apply (bool_decide_eq_true _). by vm_compute.
  - by vm_compute.
  - by vm_compute.
  - by vm_compute.
Defined.
End LinkExamples.
