(* ===== verification/EpochFees.v ===== *)
(** * The fees of an epoch

    ApplyRewards of EpochBlocks.v shares the fees of an epoch among the delegates in
    the proportion of their stakes. The whole part of a share is deposited, the
    fraction is kept as the dust of the account. *)
From stdpp Require Import base list numbers strings gmap sorting ssreflect.
From Stdlib Require Import QArith.QArith_base QArith.Qreduction QArith.Qring QArith.Qfield Lqa.
From S2P Require Import Prelude Serial Lmdb StakingTypes Requests Epochs BlockStore AccountInfo Elections EpochVoting EpochRewards Governance TokenTypes TokenRequests Ledger ReceiveChain Transfers RequestValidation TokenSupply LogosTransfers EpochPersistence ConsensusBlocks BlockContainer Committee Microblocks EpochBlocks.
Import EpochRewardsManager EpochPersistence.
Open Scope Z_scope.

(** ** A share and its dust *)
Lemma deposit_of_ok q r :
  (0 <= q)%Q -> (q < 1)%Q -> (0 <= r)%Q -> Qnum r / Zpos (Qden r) < 2 ^ 128 - 1 ->
  let d := deposit_of q r in
  (inject_Z d.1 + d.2 == q + r)%Q /\ (0 <= d.2)%Q /\ (d.2 < 1)%Q /\
  0 <= d.1 <= Qnum r / Zpos (Qden r) + 1.
Proof.
  destruct r as [n p]. cbn [Qnum Qden]. intros Hq0 Hq1 Hr Hn. rw /deposit_of. cbn [Qnum Qden].
  assert (0 <= n) as Hn0 by (rw /Qle /= in Hr; lia). set w := n / Zpos p in Hn |- *. set f := n mod Zpos p.
  assert (0 <= w) by (by apply Z.div_pos). pose proof (Z.mod_pos_bound n (Zpos p) eq_refl) as Hf. fold f in Hf.
  assert (n # p == inject_Z w + (f # p))%Q as Hsplit.
  { rw /Qeq /=. pose proof (Z.div_mod n (Zpos p) ltac:(lia)). fold w f in H0. lia. }
  set s := rational_add q (Qred (f # p)).
  assert (s == q + (f # p))%Q as Hs by (rw /s /rational_add; by rw !Qred_correct).
  assert (0 <= f # p)%Q by (rw /Qle /=; lia). assert (f # p < 1)%Q by (rw /Qlt /=; lia).
  assert (u128 w = w) as Ew by (apply Z.mod_small; lia).
  destruct (Z.leb_spec (Zpos (Qden s)) (Qnum s)) as [Hc|Hc]; cbn [fst snd]; rw Ew.
  - assert (1 <= s)%Q by (rw /Qle /=; lia). assert (u128 (w + 1) = w + 1) as -> by (apply Z.mod_small; lia).
    assert (rational_sub s (1 # 1) == s - 1)%Q as Es by (rw /rational_sub; by rw Qred_correct).
    split_and!; [rw Es inject_Z_plus Hs Hsplit; ring|rw Es; lra|rw Es Hs; lra|lia|lia].
  - assert (s < 1)%Q by (rw /Qlt /=; lia).
    split_and!; [rw Hs Hsplit; ring|rw Hs; lra|done|lia|lia].
Qed.

Section Fees.
Context {L : Lmdb} {LL : LmdbLaws L} {Bk : Blake2b}.
Implicit Types (i : account_info) (d : Delegate) (e : ApprovedEB) (l : Ledger).

(** What an account owns, and an account that can be paid out of a pool. *)
Definition wealth i : Q := Qplus (inject_Z (balance i)) (dust i).
Definition dust_ok i : Prop := (0 <= dust i)%Q /\ (dust i < 1)%Q.
Definition payable (pool : Z) i : Prop := account_wf i /\ dust_ok i /\ balance i + pool < 2 ^ 128 - 1.
(** The share of a delegate. *)
Definition share_of (total pool : Z) d : Q := raw_stake d * pool # Z.to_pos total.

Lemma earnings_share total pool d : (earnings total pool d == share_of total pool d)%Q.
Proof. rw /earnings /share_of Qred_correct /Qeq /=. lia. Qed.
Lemma share_of_bounds total pool d :
  0 < total -> 0 <= raw_stake d <= total -> 0 <= pool ->
  (0 <= share_of total pool d)%Q /\ (share_of total pool d <= inject_Z pool)%Q.
Proof. intros Ht Hd Hp. rw /share_of /Qle /=. split; nia. Qed.
Lemma SetBalance_dust i b n : returns (fun i' => dust i' = dust i) (SetBalance i b n).
Proof. rw /SetBalance. by repeat returns_step. Qed.
Lemma SetBalance_dust_ledger i b n l : wlp (in_store (SetBalance i b n)) (fun i' _ => dust i' = dust i) l.
Proof. apply in_store_wpg. exact (SetBalance_dust i b n (store l)). Qed.
Lemma floor_le r pool : (0 <= r)%Q -> (r <= inject_Z pool)%Q -> Qnum r / Zpos (Qden r) <= pool.
Proof.
  rw /Qle /=. intros _ H. apply (Z.div_le_mono _ _ (Zpos (Qden r))) in H; [|lia].
  rw Z.mul_1_r Z.div_mul in H; lia.
Qed.

Variables (now : Z).
Lemma pay_delegate_ok e hash k r account i l pool :
  mdb_get account (account_db l) = Some (UserAccount i) -> payable pool i ->
  (0 <= r)%Q -> (r <= inject_Z pool)%Q ->
  wlp (pay_delegate now e hash k r account) (fun _ l' =>
    (exists i', mdb_get account (account_db l') = Some (UserAccount i') /\ (wealth i' == wealth i + r)%Q /\ dust_ok i') /\
    forall a, a <> account -> mdb_get a (account_db l') = mdb_get a (account_db l)) l.
Proof.
  intros Hi ([Hb Hmax] & [Hd0 Hd1] & Hp) Hr0 Hr1. pose proof (floor_le r pool Hr0 Hr1) as Hfl.
  destruct (deposit_of_ok (dust i) r) as (Hsum & D0 & D1 & Hdep); [done..|lia|].
  rw /pay_delegate /user_account_get /account_get. apply wpg_bind, wpg_bind, wpg_gets. rw Hi. apply wpg_ret.
  set r' := deposit_of (dust i) r in Hsum, D0, D1, Hdep |- *. destruct (Z.ltb_spec 0 r'.1) as [Hpos|Hz].
  - apply wpg_bind. eapply wpg_mono.
    { apply (wpg_conj True); [apply (SetBalance_money (set_dust r'.2 i))|apply SetBalance_dust_ledger]; [by split|apply amt_add_width]. }
    intros i1 l1 [(Hl1 & Hb1 & Hw1) Hd1']. cbn in Hb1, Hd1'. rw amt_add_small in Hb1; [|lia].
    rw /account_put. apply wpg_bind, wpg_bind, wpg_ret, wpg_modify. eapply wpg_mono; [apply PlaceReceive_accounts|].
    intros [] l2 Hl2. rw Hl2. cbn [set_account_db account_db]. rw Hl1. split.
    + eexists. split; [by rw get_put_eq|]. rw /wealth /dust_ok. cbn. rw Hb1 Hd1' inject_Z_plus. split; [|done].
      rw -(Qplus_assoc (inject_Z (balance i))) Hsum. ring.
    + intros a Ha. by rw get_put_ne.
  - rw /account_put. apply wpg_bind, wpg_ret, wpg_modify. cbn [set_account_db account_db]. split.
    + eexists. split; [by rw get_put_eq|]. rw /wealth /dust_ok. cbn. split; [|done].
      assert (r'.1 = 0) as E by lia. rw E in Hsum. rw -Qplus_assoc -Hsum. ring.
    + intros a Ha. by rw get_put_ne.
Qed.

(** ** The loop *)
Abbreviation stakes ds := (sumZ raw_stake ds).
(** Delegate [d] has received its share between [l] and [l']. *)
Definition paid (total pool : Z) l l' d : Prop :=
  exists i i', mdb_get (d_account d) (account_db l) = Some (UserAccount i) /\
    mdb_get (d_account d) (account_db l') = Some (UserAccount i') /\
    (wealth i' == wealth i + share_of total pool d)%Q /\ dust_ok i'.
Definition can_pay (pool : Z) l d : Prop :=
  exists i, mdb_get (d_account d) (account_db l) = Some (UserAccount i) /\ payable pool i.

Lemma stakes_nonneg ds : Forall (fun d => 0 <= raw_stake d) ds -> 0 <= stakes ds.
Proof. apply sumZ_nonneg. Qed.
(** When nothing is left, the shares of those not yet paid are zero. *)
Lemma nothing_left total pool ds l :
  0 < total -> 0 <= pool -> Forall (fun d => 0 <= raw_stake d) ds -> (stakes ds * pool # Z.to_pos total == 0)%Q ->
  Forall (can_pay pool l) ds -> Forall (paid total pool l l) ds.
Proof.
  intros Ht Hp Hs Hz Hc. assert (stakes ds * pool = 0) as Hz' by (rw /Qeq /= in Hz; lia).
  assert (Forall (fun d => raw_stake d * pool = 0) ds) as Hall.
  { clear Hc Hz. induction Hs as [|d ds Hd Hs IH]; [done|]. rw sumZ_cons in Hz'. pose proof (stakes_nonneg ds Hs).
    apply Forall_cons. split; [nia|]. apply IH. nia. }
  apply Forall_forall. intros d Hd. apply (proj1 (Forall_forall _ _) Hc) in Hd as Hcd. destruct Hcd as (i & Hi & [_ [Hd' _]]).
  exists i, i. split_and!; [done|done| |done]. rw /share_of ((proj1 (Forall_forall _ _) Hall) d Hd). rw /Qeq /=. lia.
Qed.
Lemma pay_delegates_ok e hash total ds : forall k remaining l,
  let pool := eb_transaction_fee_pool e in
  0 < total -> 0 <= pool -> NoDup (d_account <$> ds) -> Forall (fun d => 0 <= raw_stake d) ds ->
  stakes ds <= total -> (remaining == stakes ds * pool # Z.to_pos total)%Q -> Forall (can_pay pool l) ds ->
  wlp (pay_delegates now e hash total k remaining ds) (fun _ l' =>
    Forall (paid total pool l l') ds /\
    forall a, a ∉ d_account <$> ds -> mdb_get a (account_db l') = mdb_get a (account_db l)) l.
Proof.
  induction ds as [|d ds IH]; intros k remaining l pool Ht Hp Hn Hs Hle Hr Hc; cbn [pay_delegates].
  { apply wpg_ret. by split; [apply Forall_nil_2|]. }
  destruct (Qeq_bool remaining (0 # 1)) eqn:E.
  { apply wpg_ret. apply Qeq_bool_iff in E. split; [|done]. apply nothing_left; try done. by rw -Hr E. }
  rw (proj2 (Z.eqb_neq total 0)); [|lia]. rw sumZ_cons in Hle, Hr. apply Forall_cons in Hs as [Hd Hs].
  pose proof (stakes_nonneg ds Hs). rw fmap_cons NoDup_cons in Hn. destruct Hn as [Hnew Hn].
  apply Forall_cons in Hc as [(i & Hi & Hpay) Hc].
  destruct (share_of_bounds total pool d) as [S0 S1]; [done|lia|done|].
  apply wpg_bind. eapply wpg_mono.
  { apply (pay_delegate_ok _ _ _ _ _ i l pool); [done|done|by rw earnings_share|by rw earnings_share]. }
  intros [] l1 [(i1 & Hi1 & Hw1 & Hd1) Hframe].
  assert (forall x, x ∈ ds -> mdb_get (d_account x) (account_db l1) = mdb_get (d_account x) (account_db l)) as Hsame.
  { intros x Hx. apply Hframe. intros Heq. apply Hnew. rw -Heq. by apply list_elem_of_fmap_2. }
  eapply wpg_mono.
  { apply IH; [done|done|done|done|lia| |].
    - rw /rational_sub Qred_correct Hr earnings_share /share_of. rw /Qeq /=. lia.
    - apply Forall_forall. intros x Hx. destruct ((proj1 (Forall_forall _ _) Hc) x Hx) as (j & Hj & ?). exists j. by rw Hsame. }
  intros [] l2 [Hpaid Hframe2]. split.
  - apply Forall_cons. split.
    + exists i, i1. rw Hframe2 //. split_and!; [done|done|by rw Hw1 earnings_share|done].
    + apply Forall_forall. intros x Hx. destruct ((proj1 (Forall_forall _ _) Hpaid) x Hx) as (j & j' & Hj & ?).
      exists j, j'. rw -Hsame //.
  - intros a. rw not_elem_of_cons. intros [Ha1 Ha2]. rw Hframe2 //. by apply Hframe.
Qed.
(** ** That the delegates are paid

    A delegate is staked to itself, so that its account has no representative. Its
    receive is put in front of the head of its chain, which is of an earlier time. *)
Definition fee_receive (hash : BlockHash) (k : Z) : BlockHash :=
  ReceiveBlock_Hash (Build_ReceiveBlock 0 hash (wrap 16 k)).
Definition fresh_receives (hash : BlockHash) l : Prop :=
  forall k, mdb_get (fee_receive hash k) (receive_db l) = None /\ fee_receive hash k <> 0.
Record receptive l (timestamp : Z) d : Prop := {
  re_rep : forall i, mdb_get (d_account d) (account_db l) = Some (UserAccount i) ->
    rep (old_rep i) = 0 /\ rep (new_rep i) = 0 /\ epoch_first_active (old_rep i) <= 0;
  re_head : forall i, mdb_get (d_account d) (account_db l) = Some (UserAccount i) ->
    (receive_head i = 0 /\ mdb_get 0 (receive_db l) = None) \/
    exists x t g, mdb_get (receive_head i) (receive_db l) = Some x /\ dated l x t g /\ t < timestamp;
}.
(** Only accounts, and receives of this block, differ. *)
Definition paid_from (hash : BlockHash) l l1 : Prop :=
  (exists accounts receives, l1 = set_receive_db receives (set_account_db accounts l)) /\
  forall h, (forall k, h <> fee_receive hash k) -> mdb_get h (receive_db l1) = mdb_get h (receive_db l).
Lemma paid_from_refl hash l : paid_from hash l l.
Proof. split; [|done]. exists (account_db l), (receive_db l). by destruct l. Qed.
Lemma dated_paid hash l l1 x t g : paid_from hash l l1 -> dated l x t g -> dated l1 x t g.
Proof.
  intros [(A & R & ->) _]. set l1 := set_receive_db _ _.
  assert (forall h, stored_request h l1 = stored_request h l) as Hs by by destruct l.
  rw /dated /get_timestamp /request_exists /any_request_get /request_block_get /in_store /epoch_get /get_elections
    /mbind /M_bind. cbn. rw Hs. destruct (stored_request (rc_source_hash x) l) as [r|] eqn:Er; cbn.
  - rw Er Hs Er. cbn. by intros [= <- <-].
  - destruct (mdb_get _ _); [|done]. destruct l. by intros [= <- <-].
Qed.
Lemma receptive_paid hash l l1 ts d :
  fresh_receives hash l -> paid_from hash l l1 ->
  mdb_get (d_account d) (account_db l1) = mdb_get (d_account d) (account_db l) ->
  receptive l ts d -> receptive l1 ts d.
Proof.
  intros Hf Hp Hd [Hr Hh]. split; rw Hd; [done|]. intros i [[-> H0]|(x & t & g & Hx & Ht & Hlt)]%Hh.
  - left. split; [done|]. rw (proj2 Hp) //. intros k Hk. by apply (proj2 (Hf k)).
  - right. exists x, t, g. split; [|split; [by eapply dated_paid|done]].
    rw (proj2 Hp) //. intros k Hk. by rw Hk (proj1 (Hf k)) in Hx.
Qed.
Lemma SetBalance_without_rep i b n s :
  rep (old_rep i) = 0 -> rep (new_rep i) = 0 -> epoch_first_active (old_rep i) <= 0 -> balance i < b ->
  exists i', SetBalance i b n s = Ok (i', s) /\ receive_head i' = receive_head i.
Proof.
  intros Ho Hn He Hb. rw /SetBalance /GetRepForEpoch /move_unlocked /mbind /M_bind Hn Ho /=.
  assert (forall k, (epoch_first_active (old_rep i) <=? u32 k) = true) as Hle.
  { intros k. apply Z.leb_le. pose proof (Z.mod_pos_bound k (2 ^ 32) eq_refl). rw /u32 /wrap. lia. }
  rw !Hle /= (proj2 (Z.ltb_lt _ _) Hb) /=. by eexists.
Qed.
Lemma PlaceReceive_in_front r ts l :
  (rc_previous r = 0 /\ mdb_get 0 (receive_db l) = None) \/
  (exists x t g, mdb_get (rc_previous r) (receive_db l) = Some x /\ dated l x t g /\ t < ts) ->
  PlaceReceive r ts l = receive_put (ReceiveBlock_Hash r) r l.
Proof.
  rw /PlaceReceive /receive_get /mbind /M_bind. cbn [gets].
  intros [[-> ->]|(x & t & g & -> & Hd & Hlt)]; [done|]. cbn [find_place gets].
  rw /mbind /M_bind (receive_cmp_run _ _ _ _ _ _ Hd) /precedes.
  by rw (proj2 (Z.eqb_neq ts t)) ?(proj2 (Z.ltb_ge ts t)); [|lia..].
Qed.
Lemma paid_from_put hash l l1 account a r k :
  paid_from hash l l1 -> r = None \/ (exists b, r = Some b /\ ReceiveBlock_Hash b = fee_receive hash k) ->
  let l2 := set_account_db (mdb_put account a (account_db l1)) l1 in
  paid_from hash l match r with Some b => set_receive_db (mdb_put (ReceiveBlock_Hash b) b (receive_db l2)) l2 | None => l2 end.
Proof.
  intros [(A & R & ->) Hr] [->|(b & -> & Hb)].
  - split; [|done]. by do 2 eexists.
  - split; [by do 2 eexists|]. intros h Hh. cbn. rw get_put_ne; [by apply Hr|]. rw Hb. apply not_eq_sym, Hh.
Qed.
Lemma pay_delegate_runs e hash k r d i l l1 pool :
  fresh_receives hash l -> paid_from hash l l1 -> receptive l1 (eb_timestamp e) d ->
  mdb_get (d_account d) (account_db l1) = Some (UserAccount i) -> payable pool i ->
  (0 <= r)%Q -> (r <= inject_Z pool)%Q ->
  exists l2, pay_delegate now e hash k r (d_account d) l1 = Ok (tt, l2) /\ paid_from hash l l2.
Proof.
  intros Hf Hp [Hr Hh] Hi ([Hb Hmax] & [Hd0 Hd1] & Hpool) Hr0 Hr1. pose proof (floor_le r pool Hr0 Hr1) as Hfl.
  destruct (deposit_of_ok (dust i) r) as (_ & _ & _ & Hdep); [done..|lia|].
  rw /pay_delegate /user_account_get /account_get /mbind /M_bind. cbn [gets]. rw Hi /=.
  set r' := deposit_of (dust i) r in Hdep |- *. destruct (Z.ltb_spec 0 r'.1) as [Hpos|Hz].
  - destruct (Hr i Hi) as (Ho & Hn & He). rw /in_store.
    destruct (SetBalance_without_rep (set_dust r'.2 i) (amt_add (balance i) r'.1) (u32 (eb_epoch_number e + 1)) (store l1))
      as (i' & -> & Hhead); [done|done|done|cbn; rw amt_add_small; lia|].
    cbn. assert (set_store (store l1) l1 = l1) as -> by by destruct l1.
    rw PlaceReceive_in_front; cycle 1.
    { cbn. rw Hhead. cbn. destruct (Hh i Hi) as [?|(x & t & g & Hx & Ht & Hlt)]; [by left|right].
      exists x, t, g. split; [done|]. split; [|done]. revert Ht. apply (dated_paid hash). split; [|done].
      match goal with |- context [set_account_db ?A l1] => exists A, (receive_db l1) end. by destruct l1. }
    eexists. split; [reflexivity|].
    apply (paid_from_put hash l l1 _ _ (Some (Build_ReceiveBlock (receive_head i') hash (wrap 16 k))) k Hp).
    right. by eexists.
  - eexists. split; [reflexivity|]. apply (paid_from_put hash l l1 _ _ None k Hp). by left.
Qed.
Lemma pay_delegates_run e hash total l ds : forall k remaining l1,
  let pool := eb_transaction_fee_pool e in
  fresh_receives hash l -> paid_from hash l l1 ->
  0 < total -> 0 <= pool -> NoDup (d_account <$> ds) ->
  Forall (fun d => 0 <= raw_stake d <= total) ds ->
  Forall (can_pay pool l) ds -> Forall (receptive l (eb_timestamp e)) ds ->
  (forall x, x ∈ ds -> mdb_get (d_account x) (account_db l1) = mdb_get (d_account x) (account_db l)) ->
  exists l2, pay_delegates now e hash total k remaining ds l1 = Ok (tt, l2).
Proof.
  induction ds as [|d ds IH]; intros k remaining l1 pool Hf Hp Ht Hpool Hn Hs Hc Hre Hsame; cbn [pay_delegates]; [by eexists|].
  destruct (Qeq_bool remaining (0 # 1)); [by eexists|]. rw (proj2 (Z.eqb_neq total 0)); [|lia].
  rw fmap_cons NoDup_cons in Hn. destruct Hn as [Hnew Hn]. apply Forall_cons in Hs as [Hd Hs].
  apply Forall_cons in Hc as [(i & Hi & Hpay) Hc]. apply Forall_cons in Hre as [Hr Hre].
  destruct (share_of_bounds total pool d) as [S0 S1]; [done..|]. rw -earnings_share in S0, S1.
  assert (mdb_get (d_account d) (account_db l1) = Some (UserAccount i)) as Hi1 by (rw Hsame //; by left).
  destruct (pay_delegate_runs e hash k (earnings total pool d) d i l l1 pool) as (l2 & Hrun & Hp2); try done.
  { apply (receptive_paid hash l); try done. apply Hsame. by left. }
  pose proof (wpg_ok True _ _ _ _ _ (pay_delegate_ok e hash k _ _ i l1 pool Hi1 Hpay S0 S1) Hrun) as [_ Hframe].
  rw /mbind /M_bind Hrun. apply IH; try done. intros x Hx. rw Hframe.
  - apply Hsame. by right.
  - intros Heq. apply Hnew. rw -Heq. by apply list_elem_of_fmap_2.
Qed.
Lemma total_stake_sum ds :
  Forall (fun d => 0 <= raw_stake d) ds -> stakes ds < 2 ^ 128 -> total_stake ds = stakes ds.
Proof.
  intros Hs Hmax. rw /total_stake. assert (forall acc, 0 <= acc -> acc + stakes ds < 2 ^ 128 ->
    foldl (fun a d => amt_add a (raw_stake d)) acc ds = acc + stakes ds) as ->; [|lia..]. clear Hmax.
  induction Hs as [|d ds Hd Hs IH]; intros acc Ha Hb; cbn [foldl]; [cbn; lia|]. rw sumZ_cons in Hb |- *.
  pose proof (stakes_nonneg ds Hs). rw amt_add_small; [|lia]. rw IH; lia.
Qed.
End Fees.

(** The delegates that are paid for epoch block [e]: those of the block two before. *)
Definition paid_delegates `{Lmdb} (l : Ledger) (e : ApprovedEB) : list Delegate :=
  match mdb_get (eb_previous e) (epoch_db (elections (store l))) with
  | Some p => match mdb_get (eb_previous p) (epoch_db (elections (store l))) with Some q => eb_delegates q | None => [] end
  | None => []
  end.
Definition sumQ {A} (f : A -> Q) (xs : list A) : Q := foldr (fun x q => Qplus (f x) q) (0 # 1) xs.

Lemma ApplyRewards_runs `{LmdbLaws} `{Blake2b} now e hash l :
  let ds := paid_delegates l e in let total := sumZ raw_stake ds in let pool := eb_transaction_fee_pool e in
  Forall (fun d => 0 <= raw_stake d) ds -> 0 < total < 2 ^ 128 -> 0 <= pool ->
  NoDup (d_account <$> ds) -> Forall (can_pay pool l) ds ->
  fresh_receives hash l -> Forall (receptive l (eb_timestamp e)) ds ->
  exists l', ApplyRewards now e hash l = Ok (tt, l').
Proof.
  intros ds total pool Hs Ht Hp Hn Hc Hf Hre.
  assert (set_store (store l) l = l) as Hl by by destruct l.
  assert (exists p q, mdb_get (eb_previous e) (epoch_db (elections (store l))) = Some p /\
    mdb_get (eb_previous p) (epoch_db (elections (store l))) = Some q /\ ds = eb_delegates q) as (p & q & Hpe & Hq & Hds).
  { move: Ht. rw /total /ds /paid_delegates. destruct (mdb_get (eb_previous e) _) as [p|] eqn:Ep; [|cbn; lia].
    destruct (mdb_get (eb_previous p) _) as [q|] eqn:Eq; [|cbn; lia]. intros _. by exists p, q. }
  set sorted := sort_by_stake ds. assert (sorted ≡ₚ ds) as Hperm by apply merge_sort_Permutation.
  assert (sumZ raw_stake sorted = total) as Htot by by apply sumZ_perm.
  destruct (pay_delegates_run now e hash total l sorted 0 (inject_Z pool) l) as (l1 & Hrun);
    [done|by apply paid_from_refl|lia|done|by rw Hperm| |by rw Hperm|by rw Hperm|done|].
  { rw Hperm. apply Forall_forall. intros d Hd. pose proof (proj1 (Forall_forall _ _) Hs d Hd). split; [done|].
    rw /total. apply list_elem_of_split in Hd as (xs & ys & E). rw E in Hs |- *. rw sumZ_app sumZ_cons.
    apply Forall_app in Hs as [Hs1 [_ Hs2]%Forall_cons]. apply sumZ_nonneg in Hs1, Hs2. lia. }
  rw /ApplyRewards /in_store /epoch_get /mbind /M_bind. rw /get_elections. cbn. rw Hpe /= Hl Hq /= Hl -Hds. fold sorted.
  rw total_stake_sum; [|by rw Hperm|lia]. rw Htot Hrun. by eexists.
Qed.


(** ** Ten units for two delegates, one with twice the stake of the other *)
Module FeeExamples.
#[local] Instance L : Lmdb := gmap_lmdb.
#[local] Instance LL : LmdbLaws L := gmap_lmdb_laws.
#[local] Instance BB : Blake2b := encode_blake2b.

Definition delegate (a stake : Z) : Delegate := Build_Delegate a [] [] 0 stake 0 stake false.
Definition antepenultimate : ApprovedEB := Build_ApprovedEB 0 4 no_tip 0 0 [delegate 1 1; delegate 2 2] 0 false 0.
Definition penultimate : ApprovedEB := Build_ApprovedEB 8 5 no_tip 0 0 [] 0 false 0.
Definition paying : ApprovedEB := Build_ApprovedEB 7 6 no_tip 10 0 [] 0 false 1000.
Definition owner : account_info := set_balances 100 100 (set_dust (1 # 2) (new_account 0)).
Definition collected : Ledger :=
  set_account_db (mdb_put 1 (UserAccount owner) (mdb_put 2 (UserAccount owner) mdb_empty))
    (set_store (set_elections (set_epoch_db (mdb_put 7 penultimate (mdb_put 8 antepenultimate mdb_empty)) no_elections) empty_store)
       empty_ledger).
Definition distributed : Ledger := state_after (ApplyRewards 2000 paying 9) collected.
Lemma owner_payable : payable 10 owner.
Proof. split_and!; [by split|by split|done]. Qed.
Lemma collected_fresh : fresh_receives 9 collected.
Proof. intros k. split; [done|]. by intros [=]. Qed.
Lemma owner_receptive d : d_account d = 1 \/ d_account d = 2 -> receptive collected 1000 d.
Proof.
  intros Hd. assert (mdb_get (d_account d) (account_db collected) = Some (UserAccount owner)) as Hi
    by (by destruct Hd as [-> | ->]).
  split; rw Hi; intros i [= <-]; [by split_and!|by left].
Qed.
End FeeExamples.
